(* ===== verification/_CoqProject ===== *)
-Q . S2P
Prelude.v
Json.v
TimeFormat.v
Logger.v
CommandLine.v
Migration.v
DeviceTopic.v
DeviceMessage.v
DeviceRegistry.v
DirtyState.v
StateEvent.v
BoundedQueue.v
Ingress.v
CommandTypes.v
CommandState.v
CommandRouter.v
SourceRequest.v
AppConfig.v
CommandPolicy.v
DeviceService.v
DeviceServiceFacts.v
PostgresWorker.v
CommandService.v
CommandServiceFacts.v
CommandIngress.v
ServiceRunner.v
MqttClient.v
MqttClientFacts.v
PostgresStore.v
PostgresStoreFacts.v
PostgresBridge.v
PostgresBridgeFacts.v
ExternalBridge.v
ExternalBridgeFacts.v
CommandOperations.v
CommandOrigins.v
RuntimeBundle.v
ServiceEnvironment.v
ServiceEnvironmentFacts.v
DeviceWrites.v
Process.v
ProcessFacts.v
