(* ===== verification/Prelude.v ===== *)
(** * A verification library for route_service

    route_service (src/route_service/src, C++23) routes commands from configured
    sources (applications and devices) to devices over MQTT, keeps a registry of the
    devices, and writes their state and the commands to PostgreSQL.  This library
    models it from the configuration file and the command line to the MQTT client and
    the store of PostgreSQL, down to the calls of libmosquitto and libpqxx.

    ** The program

    Messages arrive on MQTT threads and are pushed on bounded queues.  One business
    thread takes them: the device service (registrations, telemetry, expiry, writes
    to the database) and the command service (requests, acknowledgements of devices,
    completions of publications, time-outs).  One worker thread talks to PostgreSQL:
    both services hand it work and get results back on queues.  The device service
    publishes events and the directory of devices; the command service publishes to
    devices and acknowledges to sources.

    ** The files

    - [Prelude]: std::expected and its early returns, integers of 64 bits, bytes,
      strings as lists of bytes, lemmas on lists and maps, tactics and hints, and the
      class [MapOrder] for the order in which an unordered_map is walked.
    - [Json]: JSON values as nlohmann::json has them, the class [JsonLib] for its
      parser and printer, the laws [JsonLaws] they are relied on for, and an instance
      of both.
    - [TimeFormat] (core/protocol/time_format.cpp): RFC 3339 printing.
    - [DeviceTopic] (core/mqtt_topic/device_topic.cpp): topics of devices.
    - [DeviceMessage] (core/protocol/device_message.cpp): registrations, telemetry.
    - [DeviceRegistry] (core/device/device_registry.cpp): records, the index of roles
      of a school, the index by school name; registration, telemetry, expiry.
    - [DirtyState] (core/persistence/dirty_state.cpp): which columns of which device
      are still owed to the database, and at which revision.
    - [StateEvent] (core/state_event/state_event.cpp): published directory and events.
    - [BoundedQueue] (core/queue/bounded_queue.hpp): the queue between threads; a step
      is one critical section, waiting threads and notifications are counted.
    - [Ingress] (core/runtime/device_ingress.cpp, rate_limiter.cpp): reports of
      rejected messages.
    - [CommandTypes], [CommandState], [CommandRouter], [SourceRequest],
      [CommandPolicy] (core/command/): data, life cycle, idempotency, routing, the
      messages of sources and of devices.
    - [DeviceService] and [DeviceServiceFacts] (core/runtime/device_service.cpp).
    - [PostgresWorker] (core/runtime/postgres_worker.cpp).
    - [CommandService] and [CommandServiceFacts] (core/runtime/command_service.cpp),
      [CommandIngress] (core/runtime/command_ingress.cpp).
    - [ServiceRunner] (core/runtime/service_runner.cpp): the order of start and stop.
    - [CommandLine], [AppConfig], [Migration], [Logger] (core/cli, core/config,
      core/migration, core/logging).
    - [MqttClient] and [MqttClientFacts] (adapters/mqtt/mqtt_client.cpp): the client of
      libmosquitto, its callbacks and its retry thread.
    - [PostgresStore] and [PostgresStoreFacts] (adapters/postgres/postgres_store.cpp):
      the operations as sequences of statements, with the conversions of rows.
    - [PostgresBridge] and [PostgresBridgeFacts] (RuntimePostgresBridge in
      service_environment.cpp): the store as the worker sees it, and the two together.
    - [ExternalBridge] and [ExternalBridgeFacts] (RuntimeExternalBridge, same file):
      what the threads send out through the client.
    - [CommandOperations]: the database operations a command service waits for;
      [CommandOrigins]: the insertion each command sent to a device comes from.
    - [RuntimeBundle] (RuntimeBundle, same file; SelfOwnedRuntimeThread of
      core/runtime/service_runner.cpp): the services and threads of a running process.
    - [ServiceEnvironment] and [ServiceEnvironmentFacts] (ServiceEnvironment, same
      file): the operations the runner calls, on the main thread.
    - [Process] and [ProcessFacts] (the callbacks of RuntimeBundle::Initialize, the
      loop of DeviceService::Run): the threads at work together; [DeviceWrites] says
      what the steps of the device service ask of the database.

    Definitions keep the names of the source: [DeviceService.HandleMessage] is
    DeviceService::Handle(mqtt::Message), [CommandService.HandleDatabaseResult] and
    [HandleCompletion] are the overloads of CommandService::Handle.  A lower-case name
    is a branch or a loop of the function before it.  Members keep their names with
    the trailing underscore.

    ** How the code is modelled

    - A class is a Record, a method a function from the state (and the configuration
      and environment where it uses them) to the new state; what it gives to the
      outside (publications, submissions, log lines) is appended to [outputs].
    - What the code cannot decide is an argument: the environment gives for the n-th
      call of a callback its reply (accepted, refused, an exception derived from
      std::exception, another exception), the n-th reading of a clock and the n-th
      draw of random bytes.  Results of the store are inputs of the steps, so the
      theorems hold for every database.
    - A run is a fold of steps over a list of events; a theorem over all lists of
      events is a statement about every reachable state.  The mutex-protected calls
      of other threads are events between the steps of the business thread.
    - The threads together ([Process]) are the components of a process and a step
      relation: a program point of the business thread, one of its calls to another
      component, a turn of the database thread, an event of the client with the handlers
      it calls, or a call of the main thread, in any order. A service computes a step
      with replies that are foretold, and the calls are then carried out one by one; a
      run where a reply differs is none. The components move only by their own steps.
    - The worker gives up in two steps, as in the code: the report of the permanent
      failure, then, under the lock, the end of its queues ([GiveUp]); a provisioning
      that meets a lost connection ends in two ([LoseProvision]).
    - Counters of 64 bits wrap with [u64]; times are nanoseconds in Z except where
      the code converts them, [TimeFormat] being stated on 64 bits.
    - An unordered_map is a gmap, its iteration order any [MapOrder] (a permutation of
      the entries); a std::map is walked in the order of its keys.
    - Loops with a bound known beforehand are structural recursions; fuel is used for
      decimal digits (20, the digits of 2^64), the taking of queued messages (the
      length of the queue), the loop of the command service (the number of
      queued items: a step takes one and adds none, [process_ready_drains]) and the
      eviction of old commands (the size of the map).

    ** What is shown

    - Device data: the registry stays consistent ([reachable_registry_ok]), its
      lookups, registration, expiry and loading do what their callers rely on; the
      service only moves it through its operations ([service_directory_refines]).
    - Persistence: no update marked in the buffer is lost ([no_lost_update]),
      telemetry is batched by the interval, the flush on shutdown takes everything,
      the worker answers every write and, in order, every command operation, unless it
      gives up for good, and the counters by which shutdown decides that it is idle are
      exact.
    - Publication: the directory refines a finite map, its revision identifies its
      content, an event determines the state it reports.
    - Commands: submitted transitions follow the life cycle; every publication to a
      device belongs to one confirmed insertion, none to two, or repeats a configuration
      command ([publications_origin]); a repeated request is answered and not executed; deferred transitions
      are retried until taken; the processing loop ends.
    - Adapters: publications are answered once, subscriptions reported as ready are
      live, the retry thread has a life cycle, the library is given back; an operation
      of the store executes its whole transaction or reports an error without a
      confirmed commit, and commands and times come back as they were written, their
      payloads through any printing of jsonb that reads back.
    - Database thread: whatever the database does, a job reported as done has committed
      its transaction and a refused or lost one has no confirmed commit ([jobs_settled]);
      the worker and its store together are a run of the worker with some replies
      ([thread_refines_worker]).
    - What is retained: the broker holds the last state of every device and the current
      directory, unless a failure was logged ([retained_documents_current]).
    - Main thread: no operation uses an object before it is there
      ([service_run_defined]); silent devices are offline and owed to the database after
      the start ([startup_expires_and_owes]); one snapshot per connection
      ([one_snapshot_per_connection]); nothing enters once the intake is stopped
      ([intake_stopped]) and nothing leaves once the runtime is
      ([stopped_runtime_is_cut_off]).
    - The threads together: what a service waits for, a command operation or a write of
      a device, is always on its way ([operations_accounted], [writes_accounted]), and
      what is sent to a device is in the database before
      ([sent_commands_are_committed]); the service checks the identifier of the answer
      to an insertion only, so what is repeated later carries the identifier of its
      request if the database answers for a command with the row of this command
      ([honest]).
    - Start and stop: the runner stops what it started, in order, and ends; the drain always
      returns; a configuration that loads is within bounds and loads what was written.
    - Protocol: each parser is sound and complete for, or the inverse of, what the
      protocol builds.
    - Defects met on the way, each with a run that shows it: a published command of a
      silent device is not timed out ([silent_command_never_times_out]); a refused
      provisioning makes a counter wrap ([refused_provisioning_underflows]); an
      unsigned result parameter wraps ([result_param2_wraps]); the stop closes the command
      service before the answers it then waits for ([closed_service_never_idle]);
      a write accepted between the worker's report that it gives up and the end of its
      queues is dropped in silence ([accepted_write_dropped]).

    ** What is not modelled

    libmosquitto, libpqxx and PostgreSQL: their replies are environments, an SQL
    statement is a constructor with its parameters. In [Process] the sinks do not throw,
    the start-up (whose calls [ServiceEnvironment] has) is over, and a job at the database
    is one step: the other threads see what it did when it ends. Memory exhaustion; of the
    command line, the text of its help; main.cpp. Within the modelled files: the
    pointer of a request to its source is modelled by the value it points to; json::dump
    is taken not to throw (it does on strings that are not UTF-8); sinks are taken to be
    set. Accesses without a lock from other threads (SetMqttAvailable) are modelled as
    taking effect between two steps. *)

From Stdlib Require Import Ascii ZArith Lia.
From Stdlib Require String.
From stdpp Require Export base gmap sets list strings numbers pretty sorting.
From stdpp Require Import options.

#[global] Open Scope Z_scope.

Declare Scope cns_scope.
Delimit Scope cns_scope with cns.

(** ** std::expected

    The source reports failures with [std::expected<T, E>]; a [throw] does not
    occur on these paths. *)
Inductive expected (T E : Type) : Type :=
| Ok (value : T)
| Unexpected (error : E).
Arguments Ok {T E} value.
Arguments Unexpected {T E} error.

(** [auto x = e1; if (!x) return std::unexpected(x.error());] *)
Notation "'let!' x ':=' e1 'in' e2" :=
  (match e1 with Ok x => e2 | Unexpected err => Unexpected err end)
  (at level 10, x name, e1 at level 100, e2 at level 200) : cns_scope.

(** [if (cond) return std::unexpected(err);] *)
Notation "'guard!' c 'else' err 'in' e2" :=
  (if c then e2 else Unexpected err)
  (at level 10, c at level 100, err at level 100, e2 at level 200) : cns_scope.

#[global] Open Scope cns_scope.

Definition is_ok {T E} (e : expected T E) : bool :=
  match e with Ok _ => true | Unexpected _ => false end.

#[export] Instance expected_eq_dec {T E} `{EqDecision T, EqDecision E} :
  EqDecision (expected T E).
Proof. solve_decision. Defined.

(** ** Machine integers

    [std::uint64_t] and [std::int64_t] as [Z] with the wrap-around written out. *)
Definition two64 : Z := 2 ^ 64.
Definition u64 (z : Z) : Z := z mod two64.
Definition i64 (z : Z) : Z := (z + 2 ^ 63) mod two64 - 2 ^ 63.
Definition max_u64 : Z := two64 - 1.

(** ** Clocks

    Both clocks of the source have a resolution of one nanosecond; a time point
    is the count since the epoch of its clock. *)
Abbreviation TimePoint := Z (only parsing).
Definition seconds (n : Z) : Z := n * 1000000000.
Definition days (n : Z) : Z := seconds (86400 * n).

(** ** Strings *)
Definition starts_with (prefix s : string) : bool := String.prefix prefix s.
Definition substr (s : string) (pos count : nat) : string :=
  String.substring pos count s.
Definition substr_from (s : string) (pos : nat) : string :=
  String.substring pos (String.length s - pos) s.
Definition ends_with (suffix s : string) : bool :=
  (String.length suffix <=? String.length s)%nat
  && String.eqb (substr_from s (String.length s - String.length suffix)) suffix.

Fixpoint all_of (p : ascii → bool) (s : string) : bool :=
  match s with
  | EmptyString => true
  | String c s' => p c && all_of p s'
  end.

(** [s.find(c)] on the whole of [s]; [None] is [npos]. *)
Fixpoint str_find (c : ascii) (s : string) : option nat :=
  match s with
  | EmptyString => None
  | String d s' => if Ascii.eqb c d then Some 0%nat else S <$> str_find c s'
  end.

(** [s.find(c, pos)] *)
Definition str_find_from (c : ascii) (s : string) (pos : nat) : option nat :=
  Nat.add pos <$> str_find c (substr_from s pos).

Definition str_empty (s : string) : bool := (String.length s =? 0)%nat.

(** Code of a byte, and the character classes of the source; [std::isalnum] and
    [std::isdigit] in the C locale the program runs under. *)
Definition code (c : ascii) : Z := Z.of_N (N_of_ascii c).
Definition in_range (lo hi : Z) (c : ascii) : bool := (lo <=? code c) && (code c <=? hi).
Definition is_digit : ascii → bool := in_range 48 57.
Definition is_upper : ascii → bool := in_range 65 90.
Definition is_lower : ascii → bool := in_range 97 122.
Definition is_alnum (c : ascii) : bool := is_digit c || is_upper c || is_lower c.

(** Decimal text of a non-negative number, as [std::to_string] and the [%d] of
    [printf] print it; twenty digits hold every 64-bit number. *)
Definition digit_char (d : Z) : ascii := ascii_of_N (Z.to_N (48 + d)).
Fixpoint dec_go (fuel : nat) (n : Z) (acc : string) : string :=
  match fuel with
  | O => acc
  | S fuel' =>
      if n <? 10 then String (digit_char n) acc
      else dec_go fuel' (n / 10) (String (digit_char (n mod 10)) acc)
  end.
Definition dec (n : Z) : string := dec_go 20 n "".

(** ** Hash containers

    The order in which [std::unordered_map] iterates is unspecified, so it is a
    parameter: any permutation of the bindings. *)
Class MapOrder := {
  map_order : ∀ {V : Type}, gmap string V → list (string * V);
  map_order_perm : ∀ {V : Type} (m : gmap string V), map_order m ≡ₚ map_to_list m
}.

(** The order the witnesses run with. *)
Definition key_order : MapOrder :=
  {| map_order := λ V m, map_to_list m; map_order_perm := λ V m, reflexivity _ |}.

(** [std::map]: its bindings in the order of their keys. *)
Definition key_le {V} (a b : string * V) : Prop := String.le a.1 b.1.
#[export] Instance key_le_dec {V} : RelDecision (@key_le V).
Proof. intros a b. unfold key_le. apply _. Defined.
Definition map_items {V} (m : gmap string V) : list (string * V) :=
  merge_sort key_le (map_to_list m).

(** ** Record update

    [s <| member := v |>] assigns one member of the state of a class.  A record
    declares its members once, as its expansion [C (m1 s) ... (mn s)]; the update
    of a member is that expansion with the one member replaced. *)
Class Members (R : Type) := expand : R → R.
Class Update {R T : Type} (member : R → T) := update : T → R → R.

Ltac solve_update :=
  match goal with
  | |- @Update ?R ?T ?member =>
      let inst := constr:(_ : Members R) in
      let f := eval red in inst in
      let v := fresh "v" in let s := fresh "s" in
      refine (λ (v : T) (s : R), _);
      let body := eval cbv beta in (f s) in
      match eval pattern (member s) in body with
      | ?g _ => let r := eval cbv beta in (g v) in exact r
      end
  end.
#[export] Hint Extern 0 (Update _) => solve_update : typeclass_instances.

Notation "s <| m := v |>" := (update (member := m) v s)
  (at level 1, left associativity, m at level 0, v at level 99,
   format "s  <| m  :=  v |>") : cns_scope.

(** ** Tactics *)

(** Case analysis on every boolean or option scrutinee in the goal or in [H]. *)
Ltac step_match :=
  match goal with
  | |- context [match ?x with _ => _ end] => destruct x eqn:?; simplify_eq/=
  | H : context [match ?x with _ => _ end] |- _ => destruct x eqn:?; simplify_eq/=
  end.

(** Boolean tests of the model to propositions. *)
Ltac bool_prop :=
  repeat match goal with
  | H : (_ && _) = true |- _ => apply andb_true_iff in H; destruct H
  | H : (_ && _) = false |- _ => apply andb_false_iff in H
  | H : (_ || _) = true |- _ => apply orb_true_iff in H
  | H : (_ || _) = false |- _ => apply orb_false_iff in H; destruct H
  | H : negb _ = true |- _ => apply negb_true_iff in H
  | H : negb _ = false |- _ => apply negb_false_iff in H
  | H : String.eqb _ _ = true |- _ => apply String.eqb_eq in H
  | H : String.eqb _ _ = false |- _ => apply String.eqb_neq in H
  | H : bool_decide _ = true |- _ => apply bool_decide_eq_true in H
  | H : bool_decide _ = false |- _ => apply bool_decide_eq_false in H
  | H : (_ =? _) = true |- _ => apply Z.eqb_eq in H
  | H : (_ =? _) = false |- _ => apply Z.eqb_neq in H
  | H : (_ <=? _) = true |- _ => apply Z.leb_le in H
  | H : (_ <=? _) = false |- _ => apply Z.leb_gt in H
  | H : (_ <? _) = true |- _ => apply Z.ltb_lt in H
  | H : (_ <? _) = false |- _ => apply Z.ltb_ge in H
  end.

(** ** Lemmas on machine integers *)
Create HintDb cns.
Create Rewrite HintDb cns_str.
#[global] Arguments Ascii.eqb : simpl never.

Lemma u64_range z : 0 <= u64 z <= max_u64.
Proof. unfold u64, max_u64, two64. pose proof (Z.mod_pos_bound z (2^64)). lia. Qed.

Lemma u64_small z : 0 <= z <= max_u64 → u64 z = z.
Proof. intros. apply Z.mod_small. unfold max_u64 in *. lia. Qed.

Lemma i64_range z : - 2 ^ 63 <= i64 z < 2 ^ 63.
Proof. unfold i64, two64. pose proof (Z.mod_pos_bound (z + 2^63) (2^64)). lia. Qed.

Lemma i64_small z : - 2 ^ 63 <= z < 2 ^ 63 → i64 z = z.
Proof. intros. unfold i64, two64. rewrite Z.mod_small; lia. Qed.

#[export] Hint Resolve u64_range i64_range : cns.

(** ** Lemmas on strings *)
Lemma app_String c a b : String c a +:+ b = String c (a +:+ b).
Proof. done. Qed.

Lemma app_Empty b : "" +:+ b = b.
Proof. done. Qed.
#[export] Hint Rewrite app_String app_Empty : cns_str.

Lemma str_app_nil_r a : a +:+ "" = a.
Proof. induction a as [|c a IH]; [done|]. rewrite app_String. by rewrite IH. Qed.

Lemma str_app_assoc a b c : (a +:+ b) +:+ c = a +:+ (b +:+ c).
Proof.
  induction a as [|x a IH]; [done|]. rewrite !app_String. by rewrite IH.
Qed.

Lemma str_length_app a b :
  String.length (a +:+ b) = (String.length a + String.length b)%nat.
Proof. induction a as [|x a IH]; [done|]. rewrite app_String. cbn. by rewrite IH. Qed.

Lemma substring_full s : String.substring 0 (String.length s) s = s.
Proof. induction s as [|c s IH]; [done|]. cbn. by rewrite IH. Qed.

Lemma substring_app_l a b :
  String.substring 0 (String.length a) (a +:+ b) = a.
Proof.
  induction a as [|c a IH]; [by destruct b|]. rewrite app_String. cbn. by rewrite IH.
Qed.

Lemma substring_app_r a b n :
  String.substring (String.length a) n (a +:+ b) = String.substring 0 n b.
Proof. induction a as [|c a IH]; [done|]. rewrite app_String. cbn. by rewrite IH. Qed.

Lemma substr_from_app a b : substr_from (a +:+ b) (String.length a) = b.
Proof.
  unfold substr_from. rewrite str_length_app, substring_app_r.
  replace (String.length a + String.length b - String.length a)%nat
    with (String.length b) by lia.
  apply substring_full.
Qed.

Lemma substr_mid a b c : substr (a +:+ b +:+ c) (String.length a) (String.length b) = b.
Proof. unfold substr. rewrite substring_app_r. apply substring_app_l. Qed.

Lemma starts_with_app a b : starts_with a (a +:+ b) = true.
Proof.
  unfold starts_with. induction a as [|c a IH]; [by destruct b|].
  rewrite app_String. cbn. destruct (ascii_dec c c); [done|congruence].
Qed.

Lemma starts_with_inv a s : starts_with a s = true → ∃ b, s = a +:+ b.
Proof.
  unfold starts_with. revert s. induction a as [|c a IH]; intros s H.
  - exists s. done.
  - destruct s as [|d s]; [done|]. cbn in H.
    destruct (ascii_dec c d) as [->|]; [|done].
    destruct (IH _ H) as [b ->]. by exists b.
Qed.

Lemma ends_with_app a b : ends_with b (a +:+ b) = true.
Proof.
  unfold ends_with. rewrite str_length_app.
  replace (String.length a + String.length b - String.length b)%nat
    with (String.length a) by lia.
  rewrite substr_from_app, String.eqb_refl.
  destruct (Nat.leb_spec (String.length b) (String.length a + String.length b));
    [done|lia].
Qed.

Lemma substr_split s n :
  (n <= String.length s)%nat → s = String.substring 0 n s +:+ substr_from s n.
Proof.
  revert n. induction s as [|c s IH]; intros n Hn; cbn in *.
  - by replace n with 0%nat by lia.
  - destruct n as [|n]; cbn.
    + unfold substr_from. cbn. by rewrite app_Empty, substring_full.
    + rewrite app_String. f_equal. apply IH. lia.
Qed.

Lemma ends_with_inv b s : ends_with b s = true → ∃ a, s = a +:+ b.
Proof.
  unfold ends_with. intros H. apply andb_true_iff in H as [Hl He].
  apply Nat.leb_le in Hl. apply String.eqb_eq in He.
  exists (String.substring 0 (String.length s - String.length b) s).
  rewrite <- He at 2. apply substr_split. lia.
Qed.

Lemma all_of_app p a b : all_of p (a +:+ b) = all_of p a && all_of p b.
Proof.
  induction a as [|c a IH]; [done|]. rewrite app_String. cbn.
  rewrite IH. by rewrite andb_assoc.
Qed.

Lemma str_find_app_None c a b :
  str_find c a = None → str_find c (a +:+ String c b) = Some (String.length a).
Proof.
  induction a as [|d a IH]; intros H; rewrite ?app_String, ?app_Empty; cbn in *.
  - by rewrite Ascii.eqb_refl.
  - destruct (Ascii.eqb c d); [done|].
    destruct (str_find c a); [done|]. by rewrite IH.
Qed.

Lemma str_find_Some c s n :
  str_find c s = Some n →
  ∃ a b, s = a +:+ String c b ∧ String.length a = n ∧ str_find c a = None.
Proof.
  revert n. induction s as [|d s IH]; intros n H; cbn in H; [done|].
  destruct (Ascii.eqb c d) eqn:E.
  - apply Ascii.eqb_eq in E as <-. simplify_eq. exists "", s. done.
  - destruct (str_find c s) as [m|] eqn:F; simplify_eq/=.
    destruct (IH m eq_refl) as (a & b & -> & <- & Ha).
    exists (String d a), b. split; [done|]. split; [done|]. cbn. by rewrite E, Ha.
Qed.

Lemma str_find_all_of c p s :
  all_of p s = true → p c = false → str_find c s = None.
Proof.
  intros Hs Hc. induction s as [|d s IH]; [done|]. cbn in *.
  apply andb_true_iff in Hs as [Hd Hs]. rewrite (IH Hs).
  destruct (Ascii.eqb c d) eqn:E; [|done].
  apply Ascii.eqb_eq in E as ->. congruence.
Qed.

Lemma str_app_inj_r (a a' b : string) : a +:+ b = a' +:+ b → a = a'.
Proof.
  revert a'. induction a as [|c a IH]; intros [|c' a'] H.
  - done.
  - apply (f_equal String.length) in H. rewrite !str_length_app in H. cbn in H. lia.
  - apply (f_equal String.length) in H. rewrite !str_length_app in H. cbn in H. lia.
  - rewrite !app_String in H. simplify_eq. f_equal. eauto.
Qed.

(** ** Lemmas on decimal digits *)
Lemma code_digit_char d : 0 <= d <= 9 → code (digit_char d) = 48 + d.
Proof.
  intros H. unfold code, digit_char. rewrite N_ascii_embedding by lia. lia.
Qed.

Lemma is_digit_digit_char d : 0 <= d <= 9 → is_digit (digit_char d) = true.
Proof.
  intros H. unfold is_digit, in_range. rewrite code_digit_char by done.
  apply andb_true_iff. split; apply Z.leb_le; lia.
Qed.

(** The number a decimal text stands for, after the digits already read. *)
Fixpoint dec_value (read : Z) (s : string) : Z :=
  match s with
  | EmptyString => read
  | String c rest => dec_value (10 * read + (code c - 48)) rest
  end.

Lemma dec_value_go fuel : ∀ n acc,
  0 <= n < 10 ^ Z.of_nat fuel → dec_value 0 (dec_go fuel n acc) = dec_value n acc.
Proof.
  induction fuel as [|fuel IH]; intros n acc Hn; cbn [dec_go].
  - cbn in *. by replace n with 0 by lia.
  - rewrite Nat2Z.inj_succ, Z.pow_succ_r in Hn by lia.
    destruct (n <? 10) eqn:E; cbn [dec_value].
    + apply Z.ltb_lt in E. rewrite code_digit_char by lia. f_equal. lia.
    + rewrite IH by (split; [apply Z.div_pos; lia|apply Z.div_lt_upper_bound; lia]).
      cbn [dec_value]. pose proof (Z.mod_pos_bound n 10). rewrite code_digit_char by lia.
      f_equal. pose proof (Z.div_mod n 10). lia.
Qed.

Lemma dec_inj m n : 0 <= m < 10 ^ 20 → 0 <= n < 10 ^ 20 → dec m = dec n → m = n.
Proof.
  intros Hm Hn H. apply (f_equal (dec_value 0)) in H. unfold dec in H.
  by rewrite !dec_value_go in H.
Qed.

(** ** Lemmas on maps and orders *)
Lemma map_order_lookup `{MapOrder} {V} (m : gmap string V) k v :
  (k, v) ∈ map_order m ↔ m !! k = Some v.
Proof. rewrite map_order_perm. apply elem_of_map_to_list. Qed.

Lemma map_order_NoDup `{MapOrder} {V} (m : gmap string V) :
  NoDup (map_order m).*1.
Proof. rewrite map_order_perm. apply NoDup_fst_map_to_list. Qed.

Lemma map_order_length `{MapOrder} {V} (m : gmap string V) :
  length (map_order m) = size m.
Proof. by rewrite map_order_perm, length_map_to_list. Qed.

#[export] Instance key_le_trans {V} : Transitive (@key_le V).
Proof. intros a b c. unfold key_le. apply transitivity. Qed.
#[export] Instance key_le_total {V} : Total (@key_le V).
Proof. intros a b. unfold key_le. apply (total String.le). Qed.

Lemma map_items_lookup {V} (m : gmap string V) k v : (k, v) ∈ map_items m ↔ m !! k = Some v.
Proof. unfold map_items. rewrite merge_sort_Permutation. apply elem_of_map_to_list. Qed.

Lemma map_items_NoDup {V} (m : gmap string V) : NoDup (map_items m).*1.
Proof. unfold map_items. rewrite merge_sort_Permutation. apply NoDup_fst_map_to_list. Qed.

Lemma map_items_sorted {V} (m : gmap string V) : StronglySorted key_le (map_items m).
Proof. apply (StronglySorted_merge_sort _). Qed.

Lemma map_items_inj {V} (m1 m2 : gmap string V) : map_items m1 = map_items m2 → m1 = m2.
Proof.
  intros E. apply map_eq. intros k. apply option_eq. intros v.
  by rewrite <- !map_items_lookup, E.
Qed.
