(* ===== verification/Json.v ===== *)
(** * Json: the JSON values of the program

    The program keeps payloads as nlohmann::json values.  That library is not
    part of the repository: its documented value kinds are the type [json], and
    its text functions and its equality are the parameters [JsonLib], with the
    documented behaviour the program relies on as the laws [JsonLaws].  The
    section [Codec] gives a concrete instance, so that a theorem that assumes the
    laws has a witness. *)

From Stdlib Require Import Ascii SpecFloat ZArith Lia.
From stdpp Require Import countable.
From S2P Require Import Prelude.
From stdpp Require Import options.

(** ** Values

    [JInt] is [number_integer] (int64), [JUInt] is [number_unsigned] (uint64),
    [JFloat] is [number_float] (an IEEE double).  An object is a [std::map]: its
    fields are kept in key order, without duplicates. *)
Inductive json : Type :=
| JNull
| JBool (b : bool)
| JInt (z : Z)
| JUInt (z : Z)
| JFloat (f : spec_float)
| JString (s : string)
| JArray (l : list json)
| JObject (fields : list (string * json)).

(** *** Queries of the interface *)
Definition is_object (v : json) : bool := match v with JObject _ => true | _ => false end.
Definition is_array (v : json) : bool := match v with JArray _ => true | _ => false end.
Definition is_null (v : json) : bool := match v with JNull => true | _ => false end.
Definition is_string (v : json) : bool := match v with JString _ => true | _ => false end.
Definition is_boolean (v : json) : bool := match v with JBool _ => true | _ => false end.

(** [is_number_integer()] is true of both integer kinds. *)
Definition is_number_integer (v : json) : bool :=
  match v with JInt _ | JUInt _ => true | _ => false end.
Definition is_number_unsigned (v : json) : bool :=
  match v with JUInt _ => true | _ => false end.

(** [get<std::int64_t>()] and [get<std::uint64_t>()] of an integer: a
    [static_cast] of the stored number. *)
Definition get_i64 (v : json) : Z :=
  match v with JInt z => z | JUInt z => i64 z | _ => 0 end.
Definition get_u64 (v : json) : Z :=
  match v with JInt z => u64 z | JUInt z => z | _ => 0 end.

(** [get<std::string>()] *)
Definition get_string (v : json) : string :=
  match v with JString s => s | _ => "" end.
Definition get_bool (v : json) : bool :=
  match v with JBool b => b | _ => false end.

Fixpoint assoc (key : string) (l : list (string * json)) : option json :=
  match l with
  | [] => None
  | (k, v) :: l' => if String.eqb k key then Some v else assoc key l'
  end.

(** [find(key)] and [contains(key)]; [None] is [end()], also for a value that is no object. *)
Definition jfind (v : json) (key : string) : option json :=
  match v with JObject l => assoc key l | _ => None end.
Definition jcontains (v : json) (key : string) : bool :=
  match jfind v key with Some _ => true | None => false end.

(** [size()] and [empty()] of a container value. *)
Definition jsize (v : json) : nat :=
  match v with JArray l => length l | JObject l => length l | JNull => 0%nat | _ => 1%nat end.
Definition jempty (v : json) : bool := (jsize v =? 0)%nat.

(** The keys [items()] runs through. *)
Definition jkeys (v : json) : list string :=
  match v with JObject l => l.*1 | _ => [] end.

Definition jelements (v : json) : list json :=
  match v with JArray l => l | _ => [] end.

(** [object[key] = value] *)
Fixpoint obj_set (key : string) (value : json) (l : list (string * json)) :
    list (string * json) :=
  match l with
  | [] => [(key, value)]
  | (k, v) :: l' =>
      if String.eqb k key then (key, value) :: l'
      else if String.leb key k then (key, value) :: (k, v) :: l'
      else (k, v) :: obj_set key value l'
  end.

Definition jset (v : json) (key : string) (value : json) : json :=
  match v with
  | JObject l => JObject (obj_set key value l)
  | JNull => JObject [(key, value)]
  | _ => v
  end.

(** An object built from an initializer list. *)
Definition jobject (l : list (string * json)) : json :=
  JObject (foldl (λ acc kv, obj_set kv.1 kv.2 acc) [] l).

Definition jopt (o : option json) : json := default JNull o.
Definition jopt_string (o : option string) : json :=
  match o with Some s => JString s | None => JNull end.

(** ** The library *)
Class JsonLib := {
  json_parse : string → option json;
  json_dump : json → string;
  json_equal : json → json → bool
}.

Fixpoint sorted_keys (l : list string) : bool :=
  match l with
  | k1 :: ((k2 :: _) as l') =>
      String.leb k1 k2 && negb (String.eqb k1 k2) && sorted_keys l'
  | _ => true
  end.

(** What [parse] can return: integers in the range of their kind, those written with a
    minus sign signed ("-0" gives a signed zero) and the others unsigned, object keys in
    order without duplicates. *)
Fixpoint json_wf (v : json) : bool :=
  match v with
  | JInt z => (- 2 ^ 63 <=? z) && (z <=? 0)
  | JUInt z => (0 <=? z) && (z <=? max_u64)
  | JFloat (S754_nan | S754_infinity _) => false
  | JArray l => forallb json_wf l
  | JObject l => sorted_keys (map fst l) && forallb (λ kv, json_wf kv.2) l
  | _ => true
  end.

(** No signed zero: it is printed as "0" and read again as an unsigned one. *)
Fixpoint no_signed_zero (v : json) : bool :=
  match v with
  | JInt z => negb (z =? 0)
  | JArray l => forallb no_signed_zero l
  | JObject l => forallb (λ kv, no_signed_zero kv.2) l
  | _ => true
  end.

Class JsonLaws (J : JsonLib) : Prop := {
  parse_wf : ∀ s v, json_parse s = Some v → json_wf v = true;
  parse_dump : ∀ s v, json_parse s = Some v → no_signed_zero v = true →
    json_parse (json_dump v) = Some v;
  equal_refl : ∀ v, json_wf v = true → json_equal v v = true;
  equal_int : ∀ u z, json_equal (JUInt u) (JInt z) = (i64 u =? z);
  equal_int_signed : ∀ u z, json_equal (JInt u) (JInt z) = (u =? z)
}.

(** ** Induction *)
Section json_induction.
  Variable P : json → Prop.
  Hypothesis HNull : P JNull.
  Hypothesis HBool : ∀ b, P (JBool b).
  Hypothesis HInt : ∀ z, P (JInt z).
  Hypothesis HUInt : ∀ z, P (JUInt z).
  Hypothesis HFloat : ∀ f, P (JFloat f).
  Hypothesis HString : ∀ s, P (JString s).
  Hypothesis HArray : ∀ l, Forall P l → P (JArray l).
  Hypothesis HObject : ∀ l, Forall (λ kv, P kv.2) l → P (JObject l).

Fixpoint json_nested_ind (v : json) : P v :=
  match v with
  | JNull => HNull
  | JBool b => HBool b
  | JInt z => HInt z
  | JUInt z => HUInt z
  | JFloat f => HFloat f
  | JString s => HString s
  | JArray l =>
      HArray l ((fix go l : Forall P l :=
        match l with
        | [] => List.Forall_nil P
        | x :: l' => @List.Forall_cons _ P x l' (json_nested_ind x) (go l')
        end) l)
  | JObject l =>
      HObject l ((fix go l : Forall (λ kv : string * json, P kv.2) l :=
        match l with
        | [] => List.Forall_nil _
        | x :: l' => @List.Forall_cons _ (λ kv : string * json, P kv.2) x l' (json_nested_ind x.2) (go l')
        end) l)
  end.
End json_induction.

(** ** Equality and encoding

    A value is a finite tree over the leaves below; stdpp's trees give decidable
    equality and an encoding. *)
Definition leaf : Type :=
  (unit + bool) + (Z + Z) + ((bool + bool + unit + bool * positive * Z) + string).

Definition float_leaf (f : spec_float) : bool + bool + unit + bool * positive * Z :=
  match f with
  | S754_zero s => inl (inl (inl s))
  | S754_infinity s => inl (inl (inr s))
  | S754_nan => inl (inr tt)
  | S754_finite s m e => inr (s, m, e)
  end.
Definition leaf_float (x : bool + bool + unit + bool * positive * Z) : spec_float :=
  match x with
  | inl (inl (inl s)) => S754_zero s
  | inl (inl (inr s)) => S754_infinity s
  | inl (inr tt) => S754_nan
  | inr (s, m, e) => S754_finite s m e
  end.

Fixpoint to_tree (v : json) : gen_tree leaf :=
  match v with
  | JNull => GenLeaf (inl (inl (inl tt)))
  | JBool b => GenLeaf (inl (inl (inr b)))
  | JInt z => GenLeaf (inl (inr (inl z)))
  | JUInt z => GenLeaf (inl (inr (inr z)))
  | JFloat f => GenLeaf (inr (inl (float_leaf f)))
  | JString s => GenLeaf (inr (inr s))
  | JArray l => GenNode 0 (map to_tree l)
  | JObject l => GenNode 1 (map (λ kv, GenNode 2 [GenLeaf (inr (inr kv.1)); to_tree kv.2]) l)
  end.

Definition tree_key (t : gen_tree leaf) : string :=
  match t with GenLeaf (inr (inr s)) => s | _ => "" end.

Fixpoint of_tree (t : gen_tree leaf) : json :=
  match t with
  | GenLeaf (inl (inl (inl tt))) => JNull
  | GenLeaf (inl (inl (inr b))) => JBool b
  | GenLeaf (inl (inr (inl z))) => JInt z
  | GenLeaf (inl (inr (inr z))) => JUInt z
  | GenLeaf (inr (inl f)) => JFloat (leaf_float f)
  | GenLeaf (inr (inr s)) => JString s
  | GenNode 0 l => JArray (map of_tree l)
  | GenNode _ l =>
      JObject (map (λ kt, match kt with
                          | GenNode _ [k; t'] => (tree_key k, of_tree t')
                          | _ => ("", JNull)
                          end) l)
  end.

Lemma of_to_tree v : of_tree (to_tree v) = v.
Proof.
  induction v as [| | | |f| |l IH|l IH] using json_nested_ind; cbn; try done.
  - by destruct f.
  - f_equal. rewrite map_map. induction IH as [|x l Hx _ IH]; [done|].
    cbn. by rewrite Hx, IH.
  - f_equal. rewrite map_map. induction IH as [|[k x] l Hx _ IH]; [done|].
    cbn in *. by rewrite Hx, IH.
Qed.

#[export] Instance json_eq_dec : EqDecision json.
Proof.
  intros a b. destruct (decide (to_tree a = to_tree b)) as [E|E].
  - left. by rewrite <- (of_to_tree a), E, of_to_tree.
  - right. intros ->. done.
Defined.

#[export] Instance json_countable : Countable json :=
  inj_countable' to_tree of_tree of_to_tree.

(** ** Lemmas on fields *)
Lemma assoc_obj_set_eq k v l : assoc k (obj_set k v l) = Some v.
Proof.
  induction l as [|[k' v'] l IH]; cbn; [by rewrite String.eqb_refl|].
  destruct (String.eqb k' k) eqn:E; cbn; [by rewrite String.eqb_refl|].
  destruct (String.leb k k'); cbn; [by rewrite String.eqb_refl|]. by rewrite E.
Qed.

Lemma assoc_obj_set_ne k k' v l : k ≠ k' → assoc k' (obj_set k v l) = assoc k' l.
Proof.
  intros Hne. apply String.eqb_neq in Hne as Hb.
  induction l as [|[q w] l IH]; cbn; [by rewrite Hb|].
  destruct (String.eqb q k) eqn:E; cbn.
  - apply String.eqb_eq in E as ->. by rewrite Hb.
  - destruct (String.leb k q); cbn; [by rewrite Hb|]. by rewrite IH.
Qed.

Lemma assoc_foldl_set k l acc :
  k ∉ l.*1 → assoc k (foldl (λ acc kv, obj_set kv.1 kv.2 acc) acc l) = assoc k acc.
Proof.
  revert acc. induction l as [|[k' v'] l IH]; intros acc Hk; [done|]. cbn in *.
  apply not_elem_of_cons in Hk as [Hne Hk]. by rewrite IH, assoc_obj_set_ne.
Qed.

(** The fields of an initializer list without duplicate keys. *)
Lemma find_jobject k v l : NoDup l.*1 → (k, v) ∈ l → jfind (jobject l) k = Some v.
Proof.
  unfold jobject. cbn. generalize (@nil (string * json)).
  induction l as [|[k' v'] l IH]; intros acc Hnd Hin; [by apply elem_of_nil in Hin|].
  cbn in *. apply NoDup_cons in Hnd as [Hk Hnd].
  apply elem_of_cons in Hin as [[= <- <-]|Hin]; [|by apply IH].
  by rewrite assoc_foldl_set, assoc_obj_set_eq.
Qed.

Lemma jobject_inj l1 l2 : NoDup l1.*1 → l1.*1 = l2.*1 → jobject l1 = jobject l2 → l1 = l2.
Proof.
  intros Hnd Hk E. apply list_eq. intros i.
  destruct (l1 !! i) as [[k v]|] eqn:E1; destruct (l2 !! i) as [[k' v']|] eqn:E2; [| | |done].
  - assert (k = k') as <-.
    { apply (f_equal (.!! i)) in Hk. rewrite !list_lookup_fmap, E1, E2 in Hk. by simplify_eq/=. }
    apply list_elem_of_lookup_2 in E1, E2.
    assert (H1 := find_jobject k v l1 Hnd E1). rewrite Hk in Hnd.
    assert (H2 := find_jobject k v' l2 Hnd E2). rewrite E in H1. by simplify_eq.
  - apply (f_equal (.!! i)) in Hk. by rewrite !list_lookup_fmap, E1, E2 in Hk.
  - apply (f_equal (.!! i)) in Hk. by rewrite !list_lookup_fmap, E1, E2 in Hk.
Qed.

Lemma find_jset_eq l k v : jfind (jset (JObject l) k v) k = Some v.
Proof. apply assoc_obj_set_eq. Qed.

Lemma find_jset_ne l k k' v :
  k ≠ k' → jfind (jset (JObject l) k v) k' = jfind (JObject l) k'.
Proof. apply assoc_obj_set_ne. Qed.

Lemma json_equal_int `{JL : JsonLib, !JsonLaws JL} v z :
  is_number_integer v = true → json_equal v (JInt z) = (get_i64 v =? z).
Proof. destruct v; try done; intros _; [apply equal_int_signed|apply equal_int]. Qed.

(** ** A concrete library

    The text of a value is the binary numeral of its encoding. *)
Section Codec.

Fixpoint pos_text (p : positive) : string :=
  match p with
  | xH => "1"
  | xO q => String "0" (pos_text q)
  | xI q => String "1" (pos_text q)
  end.

Fixpoint text_pos (s : string) : option positive :=
  match s with
  | EmptyString => None
  | String c EmptyString => if Ascii.eqb c "1" then Some xH else None
  | String c s' =>
      if Ascii.eqb c "1" then xI <$> text_pos s'
      else if Ascii.eqb c "0" then xO <$> text_pos s' else None
  end.

Definition codec_dump (v : json) : string := pos_text (encode v).
Definition codec_parse (s : string) : option json :=
  p ← text_pos s; v ← decode p; if json_wf v then Some v else None.

(** Numbers compare by value across the integer kinds. *)
Definition number_equal (a b : json) : bool :=
  is_number_integer a && is_number_integer b && (get_i64 a =? get_i64 b).
Definition codec_equal (a b : json) : bool :=
  number_equal a b || bool_decide (a = b).

Lemma text_pos_text p : text_pos (pos_text p) = Some p.
Proof.
  induction p as [p IH|p IH|]; cbn; [| |done].
  - destruct (pos_text p) eqn:E; [by destruct p|]. cbn in IH. cbn. by rewrite IH.
  - destruct (pos_text p) eqn:E; [by destruct p|]. cbn in IH. cbn. by rewrite IH.
Qed.

Lemma codec_parse_dump v : json_wf v = true → codec_parse (codec_dump v) = Some v.
Proof.
  intros H. unfold codec_parse, codec_dump. rewrite text_pos_text. cbn -[encode decode].
  rewrite decode_encode. cbn -[encode decode]. by rewrite H.
Qed.

End Codec.

Definition codec_lib : JsonLib :=
  {| json_parse := codec_parse; json_dump := codec_dump; json_equal := codec_equal |}.

Lemma codec_laws : JsonLaws codec_lib.
Proof.
  split; cbn -[encode decode].
  - intros s v H. unfold codec_parse in H. cbn -[encode decode] in H.
    destruct (text_pos s) as [p|]; [|done]. cbn -[encode decode] in H.
    destruct (decode p) as [w|]; [|done]. cbn in H.
    destruct (json_wf w) eqn:E; by simplify_eq.
  - intros s v H _. apply codec_parse_dump. unfold codec_parse in H.
    destruct (text_pos s) as [p|]; [|done]. cbn -[encode decode] in H.
    destruct (decode p) as [w|]; [|done]. cbn in H.
    destruct (json_wf w) eqn:E; by simplify_eq.
  - intros v _. unfold codec_equal. apply orb_true_iff. right.
    by apply bool_decide_eq_true.
  - intros u z. unfold codec_equal, number_equal. cbn -[i64].
    destruct (i64 u =? z) eqn:E; [done|]. by apply bool_decide_eq_false.
  - intros u z. unfold codec_equal, number_equal. cbn.
    destruct (u =? z) eqn:E; [done|]. apply bool_decide_eq_false.
    apply Z.eqb_neq in E. congruence.
Qed.
