(* ===== verification/TimeFormat.v ===== *)
(** * TimeFormat: src/route_service/src/core/protocol/time_format.cpp

    The UTC timestamps of the acknowledgements and state events: a clock reading
    in nanoseconds is floored to milliseconds, split into a civil date and a time
    of day ([std::chrono::year_month_day], [std::chrono::hh_mm_ss]) and printed
    with zero padding.  [parse_rfc3339] is the reference reader the round trip is
    stated against. *)

From Stdlib Require Import Ascii ZArith Lia.
From S2P Require Import Prelude.
From stdpp Require Import options.

(** ** Civil dates

    The proleptic Gregorian date of a day count since 1970-01-01 and its inverse,
    with the year starting in March inside a 400 year era. *)
Record civil := Civil { year : Z; month : Z; day : Z }.

Definition year_month_day (sys_days : Z) : civil :=
  let z := sys_days + 719468 in
  let era := z / 146097 in
  let doe := z mod 146097 in
  let yoe := (doe - doe / 1460 + doe / 36524 - doe / 146096) / 365 in
  let doy := doe - (365 * yoe + yoe / 4 - yoe / 100) in
  let mp := (5 * doy + 2) / 153 in
  let m := if mp <? 10 then mp + 3 else mp - 9 in
  {| year := yoe + era * 400 + (if m <=? 2 then 1 else 0);
     month := m;
     day := doy - (153 * mp + 2) / 5 + 1 |}.

Definition sys_days_of (c : civil) : Z :=
  let y := year c - (if month c <=? 2 then 1 else 0) in
  let era := y / 400 in
  let yoe := y mod 400 in
  let mp := if 2 <? month c then month c - 3 else month c + 9 in
  let doy := (153 * mp + 2) / 5 + day c - 1 in
  era * 146097 + (365 * yoe + yoe / 4 - yoe / 100 + doy) - 719468.

(** ** Printing *)
Fixpoint zeros (n : nat) : string :=
  match n with O => "" | S n' => String "0" (zeros n') end.

(** [%0<width>d]: the sign counts in the width. *)
Definition pad (width : nat) (z : Z) : string :=
  let digits := dec (Z.abs z) in
  if z <? 0 then String "-" (zeros (width - 1 - String.length digits) +:+ digits)
  else zeros (width - String.length digits) +:+ digits.

Definition FormatUtcRfc3339Millis (value : TimePoint) : string :=
  let milliseconds := value / 1000000 in
  let days := milliseconds / 86400000 in
  let date := year_month_day days in
  let time := milliseconds - days * 86400000 in
  pad 4 (year date) +:+ "-" +:+ pad 2 (month date) +:+ "-" +:+ pad 2 (day date) +:+ "T"
  +:+ pad 2 (time / 3600000) +:+ ":" +:+ pad 2 (time / 60000 mod 60) +:+ ":"
  +:+ pad 2 (time / 1000 mod 60) +:+ "." +:+ pad 3 (time mod 1000) +:+ "Z".

(** ** The reference reader *)
Definition digit (s : string) (i : nat) : option Z :=
  match String.get i s with
  | Some c => if is_digit c then Some (code c - 48) else None
  | None => None
  end.

Fixpoint digits (s : string) (i n : nat) : option Z :=
  match n with
  | O => Some 0
  | S n' => d ← digits s i n'; e ← digit s (i + n')%nat; Some (10 * d + e)
  end.

(** Milliseconds since the epoch of a [YYYY-MM-DDThh:mm:ss.mmmZ] text. *)
Definition parse_rfc3339 (s : string) : option Z :=
  y ← digits s 0 4; mo ← digits s 5 2; d ← digits s 8 2;
  h ← digits s 11 2; mi ← digits s 14 2; sec ← digits s 17 2; ms ← digits s 20 3;
  Some (sys_days_of (Civil y mo d) * 86400000
        + h * 3600000 + mi * 60000 + sec * 1000 + ms).

(** ** Civil dates are a bijection *)
Ltac divisions := Z.to_euclidean_division_equations; lia.

Lemma era_bounds doe :
  0 <= doe < 146097 →
  let yoe := (doe - doe / 1460 + doe / 36524 - doe / 146096) / 365 in
  0 <= yoe < 400 ∧ 0 <= doe - (365 * yoe + yoe / 4 - yoe / 100) <= 365.
Proof. intros H yoe. subst yoe. split; divisions. Qed.

Lemma month_bounds doy :
  0 <= doy <= 365 →
  0 <= (5 * doy + 2) / 153 <= 11 ∧
  1 <= doy - (153 * ((5 * doy + 2) / 153) + 2) / 5 + 1 <= 31.
Proof. intros H. split; divisions. Qed.

Lemma year_month_day_valid z :
  1 <= month (year_month_day z) <= 12 ∧ 1 <= day (year_month_day z) <= 31.
Proof.
  unfold year_month_day. cbn [month day].
  pose proof (Z.mod_pos_bound (z + 719468) 146097 ltac:(lia)) as Hd.
  set (doe := (z + 719468) mod 146097) in *.
  destruct (era_bounds doe Hd) as [Hy Hdoy].
  set (yoe := (doe - doe / 1460 + doe / 36524 - doe / 146096) / 365) in *.
  set (doy := doe - (365 * yoe + yoe / 4 - yoe / 100)) in *.
  destruct (month_bounds doy Hdoy) as [Hm Hday].
  set (mp := (5 * doy + 2) / 153) in *.
  destruct (mp <? 10) eqn:E; bool_prop; split; lia.
Qed.

Lemma sys_days_year_month_day z : sys_days_of (year_month_day z) = z.
Proof.
  unfold sys_days_of, year_month_day. cbn [year month day].
  pose proof (Z.mod_pos_bound (z + 719468) 146097 ltac:(lia)) as Hd.
  pose proof (Z.div_mod (z + 719468) 146097 ltac:(lia)) as Hz.
  set (doe := (z + 719468) mod 146097) in *.
  set (era := (z + 719468) / 146097) in *.
  destruct (era_bounds doe Hd) as [Hy Hdoy].
  set (yoe := (doe - doe / 1460 + doe / 36524 - doe / 146096) / 365) in *.
  set (doy := doe - (365 * yoe + yoe / 4 - yoe / 100)) in *.
  destruct (month_bounds doy Hdoy) as [Hm Hday].
  set (mp := (5 * doy + 2) / 153) in *.
  set (m := if mp <? 10 then mp + 3 else mp - 9).
  assert (Hmp : (if 2 <? m then m - 3 else m + 9) = mp).
  { subst m. destruct (mp <? 10) eqn:E; bool_prop;
      destruct (2 <? _) eqn:F; bool_prop; lia. }
  rewrite Hmp.
  replace (yoe + era * 400 + (if m <=? 2 then 1 else 0) - (if m <=? 2 then 1 else 0))
    with (yoe + era * 400) by lia.
  rewrite Z.div_add, Z.mod_add, Z.div_small, Z.mod_small by lia.
  subst doy. lia.
Qed.

(** ** The text of a timestamp

    A number that fits its field is printed as exactly its digits. *)
Lemma small_digits n :
  0 <= n →
  (n < 10 → dec n = String (digit_char n) "") ∧
  (10 <= n < 100 →
     dec n = String (digit_char (n / 10)) (String (digit_char (n mod 10)) "")) ∧
  (100 <= n < 1000 →
     dec n = String (digit_char (n / 10 / 10)) (String (digit_char (n / 10 mod 10))
               (String (digit_char (n mod 10)) ""))) ∧
  (1000 <= n < 10000 →
     dec n = String (digit_char (n / 10 / 10 / 10)) (String (digit_char (n / 10 / 10 mod 10))
               (String (digit_char (n / 10 mod 10)) (String (digit_char (n mod 10)) "")))).
Proof.
  intros H0. unfold dec.
  repeat split; intros H; cbn [dec_go];
    repeat match goal with
    | |- context [?a <? 10] => destruct (a <? 10) eqn:?; bool_prop
    end; try done; divisions.
Qed.

(** Unfold [pad] on a number that fits, digit by digit. *)
Ltac pad_case n :=
  rewrite Z.abs_eq by lia;
  destruct (small_digits n) as (H1 & H2 & H3 & H4); [lia|];
  destruct (Z.lt_ge_cases n 10); [rewrite H1 by lia|
  destruct (Z.lt_ge_cases n 100); [rewrite H2 by lia|
  destruct (Z.lt_ge_cases n 1000); [rewrite H3 by lia|rewrite H4 by lia]]];
  cbn [String.length Nat.sub zeros]; autorewrite with cns_str.

Ltac same_digits :=
  repeat match goal with
  | |- String ?a _ = String ?b _ => replace b with a; [f_equal|]
  | |- "0"%char = digit_char ?x => replace x with 0 by divisions; reflexivity
  | |- digit_char ?x = digit_char ?y => f_equal; divisions
  end; try done; try lia.

Lemma pad_nonneg w n :
  0 <= n → pad w n = zeros (w - String.length (dec (Z.abs n))) +:+ dec (Z.abs n).
Proof. intros H. unfold pad. by rewrite (proj2 (Z.ltb_ge n 0) H). Qed.

Lemma pad_4 n : 0 <= n < 10000 →
  pad 4 n = String (digit_char (n / 1000)) (String (digit_char (n / 100 mod 10))
              (String (digit_char (n / 10 mod 10)) (String (digit_char (n mod 10)) ""))).
Proof. intros H. rewrite pad_nonneg by lia. pad_case n; same_digits. Qed.

Lemma pad_3 n : 0 <= n < 1000 →
  pad 3 n = String (digit_char (n / 100)) (String (digit_char (n / 10 mod 10))
              (String (digit_char (n mod 10)) "")).
Proof. intros H. rewrite pad_nonneg by lia. pad_case n; same_digits. Qed.

Lemma pad_2 n : 0 <= n < 100 →
  pad 2 n = String (digit_char (n / 10)) (String (digit_char (n mod 10)) "").
Proof. intros H. rewrite pad_nonneg by lia. pad_case n; same_digits. Qed.

Lemma digit_at s i d :
  String.get i s = Some (digit_char d) → 0 <= d <= 9 → digit s i = Some d.
Proof.
  intros Hg Hd. unfold digit. rewrite Hg, is_digit_digit_char, code_digit_char by done.
  f_equal. lia.
Qed.

(** The range of the nanosecond clock is the years 1677 to 2262. *)
Lemma clock_years v :
  - 2 ^ 63 <= v < 2 ^ 63 → 1600 <= year (year_month_day (v / 1000000 / 86400000)) < 2800.
Proof.
  intros Hv. set (z := v / 1000000 / 86400000).
  assert (-106752 <= z <= 106752) as Hz by (subst z; divisions).
  unfold year_month_day. cbn [year].
  pose proof (Z.mod_pos_bound (z + 719468) 146097 ltac:(lia)) as Hd.
  destruct (era_bounds _ Hd) as [Hy _].
  assert (4 <= (z + 719468) / 146097 <= 5) by divisions.
  match goal with |- context [if ?b then 1 else 0] => destruct b end; lia.
Qed.

Lemma format_parse v :
  - 2 ^ 63 <= v < 2 ^ 63 →
  String.length (FormatUtcRfc3339Millis v) = 24%nat ∧
  parse_rfc3339 (FormatUtcRfc3339Millis v) = Some (v / 1000000).
Proof.
  intros Hv. pose proof (clock_years v Hv) as Hy.
  unfold FormatUtcRfc3339Millis.
  set (ms := v / 1000000) in *. set (ds := ms / 86400000) in *.
  destruct (year_month_day_valid ds) as [Hm Hd].
  pose proof (sys_days_year_month_day ds) as Hback.
  destruct (year_month_day ds) as [y mo d] eqn:Ec. cbn [year month day] in *.
  assert (0 <= ms - ds * 86400000 < 86400000) as Ht by (subst ds; divisions).
  set (t := ms - ds * 86400000) in *.
  rewrite pad_4 by lia. rewrite !pad_2 by divisions. rewrite pad_3 by divisions.
  autorewrite with cns_str. split; [reflexivity|].
  unfold parse_rfc3339. cbn [digits].
  repeat (erewrite digit_at; [|reflexivity|divisions]).
  cbn -[Z.mul Z.add sys_days_of]. f_equal.
  replace (10 * (10 * (10 * (10 * 0 + y / 1000) + y / 100 mod 10) + y / 10 mod 10)
    + y mod 10) with y by divisions.
  replace (10 * (10 * 0 + mo / 10) + mo mod 10) with mo by divisions.
  replace (10 * (10 * 0 + d / 10) + d mod 10) with d by divisions.
  rewrite Hback. subst t. divisions.
Qed.

(** Every 64-bit time point is printed with 24 characters that read back as the same instant to
    the millisecond, before and after the epoch. *)
Theorem format_roundtrip v :
  - 2 ^ 63 <= v < 2 ^ 63 →
  String.length (FormatUtcRfc3339Millis v) = 24%nat ∧
  parse_rfc3339 (FormatUtcRfc3339Millis v) = Some (v / 1000000).
Proof. apply format_parse. Qed.

Lemma format_roundtrip_witness :
  FormatUtcRfc3339Millis 1760000000123456789 = "2025-10-09T08:53:20.123Z" ∧
  parse_rfc3339 (FormatUtcRfc3339Millis 1760000000123456789) = Some 1760000000123.
Proof.
  split; [vm_compute; reflexivity|].
  apply (format_roundtrip 1760000000123456789). split; [discriminate|reflexivity].
Defined.
