(* ===== verification/Logger.v ===== *)
(** * Logger: src/route_service/src/core/logging/logger.cpp

    Levels, filtering and the line format.  The local time of an instant is what
    [localtime_r] says, an argument. *)

From Stdlib Require Import Ascii ZArith Lia.
From Stdlib Require String.
From S2P Require Import Prelude TimeFormat.
From stdpp Require Import options.

(** ** Levels *)
Inductive Level := kDebug | kInfo | kWarn | kError.
#[export] Instance Level_eq_dec : EqDecision Level.
Proof. solve_decision. Defined.

Definition level_value (level : Level) : Z :=
  match level with kDebug => 0 | kInfo => 1 | kWarn => 2 | kError => 3 end.

Definition LevelName (level : Level) : string :=
  match level with
  | kDebug => "DEBUG" | kInfo => "INFO " | kWarn => "WARN " | kError => "ERROR"
  end.

Definition ParseLevel (text : string) : option Level :=
  if String.eqb text "debug" then Some kDebug
  else if String.eqb text "info" then Some kInfo
  else if String.eqb text "warn" then Some kWarn
  else if String.eqb text "error" then Some kError
  else None.

(** ** The line *)

(** The members of [std::tm] the format uses, the year in full and the month from 1. *)
Record LocalTime := {
  l_year : Z; l_month : Z; l_day : Z; l_hour : Z; l_minute : Z; l_second : Z
}.

Definition FormatTime (localtime : Z → option LocalTime) (now : TimePoint) : string :=
  let seconds := now / 1000000000 in
  let milliseconds := (now - seconds * 1000000000) / 1000000 in
  match localtime seconds with
  | Some local =>
      if l_year local <? 2025 then "---------- --:--:--.---"
      else
        dec (l_year local) +:+ "-" +:+ pad 2 (l_month local) +:+ "-" +:+ pad 2 (l_day local)
        +:+ " " +:+ pad 2 (l_hour local) +:+ ":" +:+ pad 2 (l_minute local) +:+ ":"
        +:+ pad 2 (l_second local) +:+ "." +:+ pad 3 milliseconds
  | None => "---------- --:--:--.---"
  end.

Definition newline (c : ascii) : bool := (code c =? 13) || (code c =? 10).

Fixpoint SingleLine (message : string) : string :=
  match message with
  | EmptyString => EmptyString
  | String c rest => String (if newline c then " "%char else c) (SingleLine rest)
  end.

(** ** The logger: what was written on each stream *)
Record Logger := { minimum_level_ : Level; out_ : string; err_ : string }.

Definition MakeLogger (minimum_level : Level) : Logger :=
  {| minimum_level_ := minimum_level; out_ := ""; err_ := "" |}.

Definition Enabled (l : Logger) (level : Level) : bool :=
  level_value (minimum_level_ l) <=? level_value level.

Definition line_feed : string := String (ascii_of_nat 10) "".

Definition Write (localtime : Z → option LocalTime) (l : Logger) (level : Level)
    (message : string) (now : TimePoint) : Logger :=
  if negb (Enabled l level) then l
  else
    let line := "[" +:+ FormatTime localtime now +:+ "] [" +:+ LevelName level +:+ "] "
                +:+ SingleLine message +:+ line_feed in
    if level_value kWarn <=? level_value level
    then {| minimum_level_ := minimum_level_ l; out_ := out_ l; err_ := err_ l +:+ line |}
    else {| minimum_level_ := minimum_level_ l; out_ := out_ l +:+ line; err_ := err_ l |}.

Definition Debug localtime l := Write localtime l kDebug.
Definition Info localtime l := Write localtime l kInfo.
Definition Warn localtime l := Write localtime l kWarn.
Definition LogError localtime l := Write localtime l kError.

(** ** One message is one line *)
Fixpoint lines (s : string) : nat :=
  match s with
  | EmptyString => 0
  | String c rest => (if code c =? 10 then 1 else 0) + lines rest
  end.

Lemma lines_app a b : lines (a +:+ b) = (lines a + lines b)%nat.
Proof.
  induction a as [|c a IH]; [done|]. rewrite app_String. cbn. rewrite IH. lia.
Qed.

Lemma lines_digits s : all_of is_digit s = true → lines s = 0%nat.
Proof.
  induction s as [|c s IH]; [done|]. cbn. intros [Hc Hs]%andb_true_iff. rewrite (IH Hs).
  unfold is_digit, in_range in Hc. bool_prop. destruct (Z.eqb_spec (code c) 10); [lia|done].
Qed.

Lemma lines_SingleLine s : lines (SingleLine s) = 0%nat.
Proof.
  induction s as [|c s IH]; [done|]. cbn. rewrite IH. unfold newline.
  destruct (Z.eqb_spec (code c) 10) as [->|H10]; [by rewrite orb_true_r|].
  destruct (code c =? 13); cbn; [done|]. by destruct (Z.eqb_spec (code c) 10).
Qed.

Lemma lines_digit d acc : 0 <= d <= 9 → lines (String (digit_char d) acc) = lines acc.
Proof.
  intros H. cbn. rewrite code_digit_char by done. destruct (Z.eqb_spec (48 + d) 10); [lia|done].
Qed.

Lemma lines_dec_go fuel n acc : 0 <= n → lines (dec_go fuel n acc) = lines acc.
Proof.
  revert n acc. induction fuel as [|fuel IH]; intros n acc Hn; [done|]. cbn [dec_go].
  destruct (Z.ltb_spec n 10); [apply lines_digit; lia|].
  rewrite IH by (apply Z.div_pos; lia). apply lines_digit. pose proof (Z.mod_pos_bound n 10). lia.
Qed.

Lemma lines_dec n : 0 <= n → lines (dec n) = 0%nat.
Proof. intros. unfold dec. by rewrite lines_dec_go. Qed.

Lemma lines_zeros n : lines (zeros n) = 0%nat.
Proof. induction n as [|n IH]; [done|]. cbn. exact IH. Qed.

Lemma lines_pad w z : lines (pad w z) = 0%nat.
Proof.
  unfold pad. destruct (z <? 0); cbn [lines]; rewrite lines_app, lines_zeros, lines_dec by lia; done.
Qed.

Lemma lines_FormatTime localtime now : lines (FormatTime localtime now) = 0%nat.
Proof.
  unfold FormatTime. destruct (localtime _) as [l|]; [|done].
  destruct (Z.ltb_spec (l_year l) 2025); [done|].
  rewrite !lines_app, !lines_pad, lines_dec by lia. done.
Qed.

(** A message that is enabled becomes exactly one line, on the error stream from
    warnings up and on the other one below; a message that is not changes nothing. *)
Theorem Write_one_line localtime l level message now :
  let l' := Write localtime l level message now in
  if Enabled l level then
    (lines (out_ l') + lines (err_ l') = S (lines (out_ l) + lines (err_ l)))%nat ∧
    (if decide (level = kWarn ∨ level = kError) then out_ l' = out_ l else err_ l' = err_ l)
  else l' = l.
Proof.
  cbv zeta. unfold Write. destruct (Enabled l level); [|done]. cbn [negb].
  set (line := "[" +:+ _).
  assert (lines line = 1%nat) as Hl.
  { subst line. rewrite !lines_app, lines_FormatTime, lines_SingleLine. by destruct level. }
  clearbody line.
  destruct level; cbn -[lines String.append]; (split; [|done]); rewrite lines_app, Hl; lia.
Qed.

Lemma ParseLevel_round level :
  ParseLevel (match level with kDebug => "debug" | kInfo => "info" | kWarn => "warn"
              | kError => "error" end) = Some level.
Proof. by destruct level. Qed.
