(* ===== verification/CommandLine.v ===== *)
(** * CommandLine: src/route_service/src/core/cli/command_line.cpp

    Parsing of the arguments of the process. *)

From Stdlib Require Import Arith Wf_nat Lia.
From S2P Require Import Prelude.
From stdpp Require Import options.

(** ** Data *)
Record Options := {
  config_path : string; migrations_path : string;
  migrate_only : bool; show_help : bool; show_version : bool
}.

Definition no_options : Options :=
  {| config_path := ""; migrations_path := ""; migrate_only := false;
     show_help := false; show_version := false |}.

(** The locals of the loop. *)
Record Seen := {
  has_config : bool; has_migrations : bool; has_migrate_only : bool;
  has_help : bool; has_version : bool
}.
Definition nothing_seen : Seen :=
  {| has_config := false; has_migrations := false; has_migrate_only := false;
     has_help := false; has_version := false |}.

Definition LooksLikeOption (value : string) : bool := starts_with "--" value.

Definition missing_path (option : string) : string := option +:+ " 缺少非空路径值".
Definition repeated (option : string) : string := "重复参数：" +:+ option.

(** ** The loop over the arguments

    What each branch assigns once its argument is accepted. *)
Inductive Argument :=
| AConfig (path : string) | AMigrations (path : string) | AMigrateOnly | AHelp | AVersion.

Definition note (s : Options * Seen) (a : Argument) : Options * Seen :=
  let (o, n) := s in
  match a with
  | AConfig p =>
      ({| config_path := p; migrations_path := migrations_path o; migrate_only := migrate_only o;
          show_help := show_help o; show_version := show_version o |},
       {| has_config := true; has_migrations := has_migrations n;
          has_migrate_only := has_migrate_only n; has_help := has_help n;
          has_version := has_version n |})
  | AMigrations p =>
      ({| config_path := config_path o; migrations_path := p; migrate_only := migrate_only o;
          show_help := show_help o; show_version := show_version o |},
       {| has_config := has_config n; has_migrations := true;
          has_migrate_only := has_migrate_only n; has_help := has_help n;
          has_version := has_version n |})
  | AMigrateOnly =>
      ({| config_path := config_path o; migrations_path := migrations_path o;
          migrate_only := true; show_help := show_help o; show_version := show_version o |},
       {| has_config := has_config n; has_migrations := has_migrations n;
          has_migrate_only := true; has_help := has_help n; has_version := has_version n |})
  | AHelp =>
      ({| config_path := config_path o; migrations_path := migrations_path o;
          migrate_only := migrate_only o; show_help := true; show_version := show_version o |},
       {| has_config := has_config n; has_migrations := has_migrations n;
          has_migrate_only := has_migrate_only n; has_help := true;
          has_version := has_version n |})
  | AVersion =>
      ({| config_path := config_path o; migrations_path := migrations_path o;
          migrate_only := migrate_only o; show_help := show_help o; show_version := true |},
       {| has_config := has_config n; has_migrations := has_migrations n;
          has_migrate_only := has_migrate_only n; has_help := has_help n;
          has_version := true |})
  end.

Fixpoint parse_arguments (s : Options * Seen) (arguments : list string) :
    expected (Options * Seen) string :=
  match arguments with
  | [] => Ok s
  | argument :: rest =>
      if String.eqb argument "--config" then
        if has_config s.2 then Unexpected (repeated "--config")
        else
          match rest with
          | [] => Unexpected (missing_path argument)
          | value :: rest' =>
              if str_empty value || LooksLikeOption value then Unexpected (missing_path argument)
              else parse_arguments (note s (AConfig value)) rest'
          end
      else if String.eqb argument "--migrations" then
        if has_migrations s.2 then Unexpected (repeated "--migrations")
        else
          match rest with
          | [] => Unexpected (missing_path argument)
          | value :: rest' =>
              if str_empty value || LooksLikeOption value then Unexpected (missing_path argument)
              else parse_arguments (note s (AMigrations value)) rest'
          end
      else if String.eqb argument "--migrate-only" then
        if has_migrate_only s.2 then Unexpected (repeated "--migrate-only")
        else parse_arguments (note s AMigrateOnly) rest
      else if String.eqb argument "--help" then
        if has_help s.2 then Unexpected (repeated "--help")
        else parse_arguments (note s AHelp) rest
      else if String.eqb argument "--version" then
        if has_version s.2 then Unexpected (repeated "--version")
        else parse_arguments (note s AVersion) rest
      else Unexpected ("未知参数：" +:+ argument)
  end.

Definition ParseCommandLine (arguments : list string) : expected Options string :=
  let! parsed := parse_arguments (no_options, nothing_seen) (tail arguments) in
  let (options, seen) := parsed in
  let option_count := length (tail arguments) in
  if (has_help seen || has_version seen) && negb (option_count =? 1)%nat then
    Unexpected "--help 和 --version 只能单独使用"
  else if has_help seen || has_version seen then Ok options
  else if negb (has_config seen) then Unexpected "缺少必需参数：--config"
  else if negb (has_migrations seen) then Unexpected "缺少必需参数：--migrations"
  else Ok options.

(** ** The grammar of the command line *)
Definition render (a : Argument) : list string :=
  match a with
  | AConfig path => ["--config"; path]
  | AMigrations path => ["--migrations"; path]
  | AMigrateOnly => ["--migrate-only"]
  | AHelp => ["--help"]
  | AVersion => ["--version"]
  end.

Definition path_ok (a : Argument) : Prop :=
  match a with
  | AConfig p | AMigrations p => str_empty p = false ∧ LooksLikeOption p = false
  | _ => True
  end.

(** The kinds of arguments, each of which may be given once. *)
Inductive Kind := KConfig | KMigrations | KMigrateOnly | KHelp | KVersion.
#[export] Instance Kind_eq_dec : EqDecision Kind.
Proof. solve_decision. Defined.

Definition kind (a : Argument) : Kind :=
  match a with
  | AConfig _ => KConfig | AMigrations _ => KMigrations | AMigrateOnly => KMigrateOnly
  | AHelp => KHelp | AVersion => KVersion
  end.
Definition has (n : Seen) (k : Kind) : bool :=
  match k with
  | KConfig => has_config n | KMigrations => has_migrations n | KMigrateOnly => has_migrate_only n
  | KHelp => has_help n | KVersion => has_version n
  end.

(** The arguments [l] may be given once [n] has been seen. *)
Definition readable (n : Seen) (l : list Argument) : Prop :=
  Forall path_ok l ∧ NoDup (kind <$> l) ∧ Forall (λ a, has n (kind a) = false) l.

Lemma has_note s a k : has (note s a).2 k = bool_decide (k = kind a) || has s.2 k.
Proof. by destruct s as [o n], a, k. Qed.

Lemma has_notes s l k : has (foldl note s l).2 k = bool_decide (k ∈ (kind <$> l)) || has s.2 k.
Proof.
  revert s. induction l as [|a l IH]; intros s; [done|]. cbn [foldl fmap list_fmap].
  rewrite IH, has_note. repeat case_bool_decide; rewrite ?orb_true_r; set_solver.
Qed.

Lemma readable_cons s a l :
  readable s.2 (a :: l) ↔ path_ok a ∧ has s.2 (kind a) = false ∧ readable (note s a).2 l.
Proof.
  unfold readable. cbn [fmap list_fmap]. rewrite !Forall_cons, NoDup_cons. split.
  - intros ([? ?] & [Hn ?] & [? Hf]). do 4 (split; [done|]).
    apply Forall_forall. intros b Hb. rewrite has_note. rewrite Forall_forall in Hf.
    rewrite (Hf b Hb). rewrite bool_decide_eq_false_2; [done|].
    intros E. apply Hn. rewrite <- E. by apply list_elem_of_fmap_2.
  - intros (? & ? & ? & ? & Hf). rewrite Forall_forall in Hf. split; [done|]. split; [split|split].
    + intros (b & E & Hb)%list_elem_of_fmap. specialize (Hf b Hb). rewrite has_note in Hf.
      by rewrite bool_decide_eq_true_2 in Hf.
    + done.
    + done.
    + apply Forall_forall. intros b Hb. specialize (Hf b Hb). rewrite has_note in Hf.
      by apply orb_false_iff in Hf as [_ ?].
Qed.

(** ** What the loop reads *)
Lemma parse_render s a l :
  path_ok a → has s.2 (kind a) = false →
  parse_arguments s (render a ++ l) = parse_arguments (note s a) l.
Proof.
  intros Hp Hf.
  destruct a; cbn in Hf |- *; rewrite Hf; try done; destruct Hp as [-> ->]; done.
Qed.

Lemma parse_arguments_complete s l :
  readable s.2 l → parse_arguments s (l ≫= render) = Ok (foldl note s l).
Proof.
  revert s. induction l as [|a l IH]; intros s H; [done|].
  apply readable_cons in H as (Hp & Hf & H). cbn [mbind list_bind foldl].
  rewrite parse_render by done. by apply IH.
Qed.

(** One step of the loop takes one argument of the grammar. *)
Lemma parse_arguments_step s args t :
  parse_arguments s args = Ok t → args ≠ [] →
  ∃ a rest, args = render a ++ rest ∧ path_ok a ∧ has s.2 (kind a) = false ∧
    parse_arguments (note s a) rest = Ok t ∧ (length rest < length args)%nat.
Proof.
  destruct args as [|argument rest]; [done|]. intros H _. cbn [parse_arguments] in H.
  destruct (String.eqb_spec argument "--config") as [->|_].
  { destruct (has_config s.2) eqn:E; [done|]. destruct rest as [|v rest]; [done|].
    destruct (str_empty v) eqn:E1, (LooksLikeOption v) eqn:E2; try done.
    exists (AConfig v), rest. cbn. repeat split; try done. lia. }
  destruct (String.eqb_spec argument "--migrations") as [->|_].
  { destruct (has_migrations s.2) eqn:E; [done|]. destruct rest as [|v rest]; [done|].
    destruct (str_empty v) eqn:E1, (LooksLikeOption v) eqn:E2; try done.
    exists (AMigrations v), rest. cbn. repeat split; try done. lia. }
  destruct (String.eqb_spec argument "--migrate-only") as [->|_].
  { destruct (has_migrate_only s.2) eqn:E; [done|]. exists AMigrateOnly, rest. cbn. repeat split; done || lia. }
  destruct (String.eqb_spec argument "--help") as [->|_].
  { destruct (has_help s.2) eqn:E; [done|]. exists AHelp, rest. cbn. repeat split; done || lia. }
  destruct (String.eqb_spec argument "--version") as [->|_]; [|done].
  destruct (has_version s.2) eqn:E; [done|]. exists AVersion, rest. cbn. repeat split; done || lia.
Qed.

Lemma parse_arguments_sound s args t :
  parse_arguments s args = Ok t →
  ∃ l, args = l ≫= render ∧ readable s.2 l ∧ t = foldl note s l.
Proof.
  revert s. induction args as [args IH] using (induction_ltof1 _ length). intros s H.
  destruct (decide (args = [])) as [->|Hne].
  { exists []. injection H as <-. repeat split; try constructor. }
  destruct (parse_arguments_step s args t H Hne) as (a & rest & -> & Hp & Hf & Hr & Hl).
  destruct (IH rest Hl _ Hr) as (l & -> & Hread & ->). exists (a :: l).
  split; [done|]. split; [|done]. by apply readable_cons.
Qed.

(** What is accepted as a whole: help or version alone, or the two paths. *)
Definition complete (l : list Argument) : Prop :=
  l = [AHelp] ∨ l = [AVersion] ∨
  (KHelp ∉ (kind <$> l) ∧ KVersion ∉ (kind <$> l) ∧ KConfig ∈ (kind <$> l) ∧ KMigrations ∈ (kind <$> l)).

Lemma render_length l : (length l <= length (l ≫= render))%nat.
Proof.
  induction l as [|a l IH]; [done|]. cbn [mbind list_bind length]. rewrite length_app.
  destruct a; cbn; lia.
Qed.

Lemma alone l k :
  length (l ≫= render) = 1%nat → k ∈ (kind <$> l) → (k = KHelp ∨ k = KVersion) →
  l = [AHelp] ∨ l = [AVersion].
Proof.
  intros Hl Hk Hor. pose proof (render_length l) as Hle.
  destruct l as [|a [|b l]]; [by apply elem_of_nil in Hk| |cbn [length] in *; lia].
  apply list_elem_of_singleton in Hk as ->. destruct a; cbn in Hor; naive_solver.
Qed.

(** ParseCommandLine accepts exactly the command lines of the grammar, whatever the
    order of the arguments, and returns what they say. *)
Theorem ParseCommandLine_spec program arguments o :
  ParseCommandLine (program :: arguments) = Ok o ↔
  ∃ l, arguments = l ≫= render ∧ Forall path_ok l ∧ NoDup (kind <$> l) ∧ complete l ∧
       o = (foldl note (no_options, nothing_seen) l).1.
Proof.
  unfold ParseCommandLine. cbn [tail].
  assert (∀ l, readable nothing_seen l ↔ Forall path_ok l ∧ NoDup (kind <$> l)) as Hread.
  { intros l. unfold readable. split; [tauto|]. intros [? ?]. do 2 (split; [done|]).
    apply Forall_forall. by intros [] _. }
  assert (∀ l k, has (foldl note (no_options, nothing_seen) l).2 k
            = bool_decide (k ∈ (kind <$> l))) as Hhas.
  { intros l k. rewrite has_notes. by destruct k; rewrite orb_false_r. }
  split.
  - destruct (parse_arguments _ arguments) as [t|] eqn:E; [|done].
    apply parse_arguments_sound in E as (l & -> & Hl & ->). cbn [snd] in Hl.
    specialize (Hhas l). destruct (foldl note _ l) as [o' n] eqn:Et. cbn [snd has] in Hhas.
    pose proof (Hhas KHelp) as H3. pose proof (Hhas KVersion) as H4.
    pose proof (Hhas KConfig) as H0. pose proof (Hhas KMigrations) as H1. cbn in H0, H1, H3, H4.
    intros H. exists l. apply Hread in Hl as [? ?]. rewrite Et. split; [done|].
    do 2 (split; [done|]). cbn [fst]. rewrite H0, H1, H3, H4 in H. revert H.
    destruct (Nat.eqb_spec (length (l ≫= render)) 1) as [El|].
    + repeat case_bool_decide; cbn; intros; simplify_eq; (split; [|done]);
        unfold complete; try tauto; edestruct (alone l); eauto.
    + repeat case_bool_decide; cbn; intros; simplify_eq; split; unfold complete; tauto || done.
  - intros (l & -> & Hp & Hn & Hc & ->).
    rewrite (parse_arguments_complete (no_options, nothing_seen)) by by apply Hread.
    specialize (Hhas l). destruct (foldl note _ l) as [o n] eqn:Et. cbn [snd fst] in *.
    destruct Hc as [->|[->|(N3 & N4 & I0 & I1)]]; [by injection Et as <- <-..|].
    pose proof (Hhas KHelp) as H3. pose proof (Hhas KVersion) as H4.
    pose proof (Hhas KConfig) as H0. pose proof (Hhas KMigrations) as H1. cbn in H0, H1, H3, H4.
    rewrite H0, H1, H3, H4, !(bool_decide_eq_true_2 _ I0), !(bool_decide_eq_true_2 _ I1),
      !(bool_decide_eq_false_2 _ N3), !(bool_decide_eq_false_2 _ N4). done.
Qed.

Example sample_command_line :
  ParseCommandLine ["route_service"; "--migrate-only"; "--migrations"; "m"; "--config"; "c.json"]
    = Ok {| config_path := "c.json"; migrations_path := "m"; migrate_only := true;
            show_help := false; show_version := false |}.
Proof. reflexivity. Qed.
