(* ===== verification/Migration.v ===== *)
(** * Migration: src/route_service/src/core/migration/migration.cpp, migration_plan.cpp

    The migration files of a directory, and the plan that leads from the migrations
    a database records to those the program ships.  The file system is an argument:
    what iterating the directory gives. *)

From Stdlib Require Import Ascii ZArith Lia.
From Stdlib Require String.
From S2P Require Import Prelude TimeFormat.
From stdpp Require Import options.

(** ** Data *)
Record Migration := { version : Z; name : string; file : string }.
Record AppliedMigration := { a_version : Z; a_name : string }.
Inductive Mode := kCheckOnly | kApply.
Record MigrationPlan := { pending : list Migration }.

#[export] Instance Mode_eq_dec : EqDecision Mode.
Proof. solve_decision. Defined.

(** ** DiscoverMigrations

    An entry of the directory; the test for a regular file may throw. *)
Record DirectoryEntry := {
  e_filename : string; e_path : string; e_regular : expected bool string
}.

(** What the file system says of the directory: not one, or its entries, after
    which the iteration may throw. *)
Inductive Listing :=
| NotDirectory
| DirectoryFails (what : string)
| Entries (l : list DirectoryEntry) (failure : option string).

Definition char_at (s : string) (n : nat) : ascii := default "000"%char (String.get n s).

Definition read_failed (what : string) : string := "读取迁移目录失败：" +:+ what.

Definition three_digits (filename : string) : bool :=
  is_digit (char_at filename 0) && is_digit (char_at filename 1) && is_digit (char_at filename 2).

Definition ParseMigration (entry : DirectoryEntry) : expected Migration string :=
  let filename := e_filename entry in
  if (String.length filename <? 8)%nat || negb (ends_with ".sql" filename)
     || negb (Ascii.eqb (char_at filename 3) "_") || negb (three_digits filename) then
    Unexpected ("迁移 SQL 文件名格式非法：" +:+ filename)
  else
    let digit n := code (char_at filename n) - 48 in
    let v := digit 0%nat * 100 + digit 1%nat * 10 + digit 2%nat in
    if v =? 0 then Unexpected ("迁移版本必须大于零：" +:+ filename)
    else
      let n := substr filename 4 (String.length filename - 4 - 4) in
      if str_empty n then Unexpected ("迁移名称不能为空：" +:+ filename)
      else
        match e_regular entry with
        | Unexpected what => Unexpected (read_failed what)
        | Ok false => Unexpected ("迁移 SQL 路径不是普通文件：" +:+ filename)
        | Ok true => Ok {| version := v; name := n; file := e_path entry |}
        end.

(** The loop over the entries: files that do not end in .sql are skipped. *)
Fixpoint parse_entries (entries : list DirectoryEntry) : expected (list Migration) string :=
  match entries with
  | [] => Ok []
  | entry :: rest =>
      if ends_with ".sql" (e_filename entry) then
        let! m := ParseMigration entry in
        let! ms := parse_entries rest in
        Ok (m :: ms)
      else parse_entries rest
  end.

(** [std::ranges::sort(migrations, {}, &Migration::version)]; the order of equal
    versions does not matter, since they are refused. *)
Definition version_le (a b : Migration) : Prop := version a <= version b.
#[export] Instance version_le_dec : RelDecision version_le.
Proof. intros a b. unfold version_le. apply _. Defined.
#[export] Instance version_le_total : Total version_le.
Proof. intros a b. unfold version_le. lia. Qed.
#[export] Instance version_le_trans : Transitive version_le.
Proof. intros a b c. unfold version_le. lia. Qed.

(** The check of the sorted versions; [previous] is that of the migration before. *)
Fixpoint check_versions (index : nat) (previous : option Z) (ms : list Migration) :
    expected unit string :=
  match ms with
  | [] => Ok tt
  | m :: rest =>
      let expected_version := Z.of_nat index + 1 in
      if version m =? expected_version then check_versions (S index) (Some (version m)) rest
      else if bool_decide (previous = Some (version m)) then
        Unexpected ("迁移版本重复：" +:+ pad 3 (version m))
      else
        Unexpected ("迁移版本不连续，期望 " +:+ pad 3 expected_version +:+ "，实际 "
                    +:+ pad 3 (version m))
  end.

Definition DiscoverMigrations (directory : string) (listing : Listing) :
    expected (list Migration) string :=
  match listing with
  | NotDirectory => Unexpected ("迁移目录不存在或不是目录：" +:+ directory)
  | DirectoryFails what => Unexpected (read_failed what)
  | Entries l failure =>
      let! migrations := parse_entries l in
      match failure with
      | Some what => Unexpected (read_failed what)
      | None =>
          match migrations with
          | [] => Unexpected "迁移目录中缺少 001 迁移文件"
          | _ =>
              let migrations := merge_sort version_le migrations in
              let! unused := check_versions 0 None migrations in
              Ok migrations
          end
      end
  end.

(** ** BuildMigrationPlan *)
Fixpoint ValidateContinuous (index : nat) (versions : list Z) (source : string) :
    expected unit string :=
  match versions with
  | [] => Ok tt
  | v :: rest =>
      let expected_version := Z.of_nat index + 1 in
      if v =? expected_version then ValidateContinuous (S index) rest source
      else Unexpected (source +:+ "迁移版本不连续，期望 " +:+ pad 3 expected_version
                       +:+ "，实际 " +:+ pad 3 v)
  end.

(** The loop over the common prefix. *)
Fixpoint check_prefix (available : list Migration) (applied : list AppliedMigration) :
    expected unit string :=
  match available, applied with
  | m :: ms, a :: as_ =>
      if negb (version m =? a_version a) || negb (String.eqb (name m) (a_name a)) then
        Unexpected ("迁移 " +:+ pad 3 (version m) +:+ " 的目录名称与数据库记录不一致")
      else check_prefix ms as_
  | _, _ => Ok tt
  end.

Definition BuildMigrationPlan (available : list Migration) (applied : list AppliedMigration)
    (mode : Mode) : expected MigrationPlan string :=
  let! directory := ValidateContinuous 0 (version <$> available) "目录" in
  let! database := ValidateContinuous 0 (a_version <$> applied) "数据库" in
  let! common := check_prefix available applied in
  match drop (length available) applied with
  | unknown :: _ => Unexpected ("数据库包含程序未知的迁移版本：" +:+ pad 3 (a_version unknown))
  | [] =>
      match drop (length applied) available with
      | [] => Ok {| pending := [] |}
      | next :: rest =>
          if bool_decide (mode = kCheckOnly) then
            Unexpected ("存在待执行迁移 " +:+ pad 3 (version next) +:+ "，请显式运行迁移模式")
          else Ok {| pending := next :: rest |}
      end
  end.

(** ** Versions from one on *)
Definition numbered (from : nat) (versions : list Z) : Prop :=
  versions = Z.of_nat <$> seq (S from) (length versions).

Lemma numbered_cons from v vs :
  numbered from (v :: vs) ↔ v = Z.of_nat from + 1 ∧ numbered (S from) vs.
Proof.
  unfold numbered. cbn [length seq fmap list_fmap]. split.
  - intros [= -> H]. split; [lia|exact H].
  - intros [-> H]. f_equal; [lia|exact H].
Qed.

Lemma ValidateContinuous_spec index vs source :
  is_ok (ValidateContinuous index vs source) = true ↔ numbered index vs.
Proof.
  revert index. induction vs as [|v vs IH]; intros index; [done|]. cbn [ValidateContinuous].
  rewrite numbered_cons, <- IH. destruct (Z.eqb_spec v (Z.of_nat index + 1)); [naive_solver|].
  split; [done|]. by intros [? _].
Qed.

Lemma check_versions_spec index previous ms :
  is_ok (check_versions index previous ms) = true ↔ numbered index (version <$> ms).
Proof.
  revert index previous. induction ms as [|m ms IH]; intros index previous; [done|].
  cbn [check_versions fmap list_fmap]. rewrite numbered_cons, <- IH.
  destruct (Z.eqb_spec (version m) (Z.of_nat index + 1)); [naive_solver|].
  case_bool_decide; (split; [done|by intros [? _]]).
Qed.

Lemma check_prefix_spec available applied :
  is_ok (check_prefix available applied) = true ↔
  ∀ i m a, available !! i = Some m → applied !! i = Some a →
    a_version a = version m ∧ a_name a = name m.
Proof.
  revert applied. induction available as [|m ms IH]; intros [|a as_]; try done.
  cbn [check_prefix]. split.
  - intros H i m' a' Hm Ha. destruct (Z.eqb_spec (version m) (a_version a)); [|done].
    destruct (String.eqb_spec (name m) (a_name a)); [|done]. cbn in H.
    destruct i as [|i]; cbn in Hm, Ha; [by simplify_eq|].
    rewrite IH in H. by apply (H i).
  - intros H. destruct (H 0%nat m a) as [-> ->]; [done..|].
    rewrite Z.eqb_refl, String.eqb_refl. cbn. apply IH. intros i. apply (H (S i)).
Qed.


(** What the database keeps of a migration. *)
Definition recorded (m : Migration) : AppliedMigration :=
  {| a_version := version m; a_name := name m |}.

Lemma numbered_prefix from vs ws : numbered from (vs ++ ws) → numbered from vs.
Proof.
  revert from. induction vs as [|v vs IH]; intros from; [done|]. cbn [app].
  rewrite !numbered_cons. naive_solver.
Qed.

Lemma common_prefix available applied :
  is_ok (check_prefix available applied) = true → (length applied <= length available)%nat →
  applied = recorded <$> take (length applied) available.
Proof.
  revert applied. induction available as [|m ms IH]; intros [|a as_] H Hl; try done; cbn in Hl; [lia|].
  cbn [check_prefix] in H. destruct (Z.eqb_spec (version m) (a_version a)) as [Ev|]; [|done].
  destruct (String.eqb_spec (name m) (a_name a)) as [En|]; [|done]. cbn in H |- *.
  f_equal; [by destruct a; unfold recorded; cbn in *; subst|]. apply IH; [done|lia].
Qed.

Lemma recorded_prefix available n :
  is_ok (check_prefix available (recorded <$> take n available)) = true.
Proof.
  apply check_prefix_spec. intros i m a Hm Ha.
  rewrite list_lookup_fmap, lookup_take in Ha. case_decide; [|done]. rewrite Hm in Ha.
  cbn in Ha. by simplify_eq.
Qed.

(** A plan is built exactly when both sides are numbered from one, what the database
    records is the beginning of what the program ships, and nothing is pending when
    only a check was asked for; the plan is then the rest. *)
Theorem BuildMigrationPlan_spec available applied mode plan :
  BuildMigrationPlan available applied mode = Ok plan ↔
  numbered 0 (version <$> available) ∧
  (∃ done, available = done ++ pending plan ∧ applied = recorded <$> done) ∧
  (mode = kCheckOnly → pending plan = []).
Proof.
  unfold BuildMigrationPlan. split.
  - destruct (ValidateContinuous 0 (version <$> available) _) as [[]|] eqn:E1; [|done].
    destruct (ValidateContinuous 0 (a_version <$> applied) _) as [[]|] eqn:E2; [|done].
    destruct (check_prefix available applied) as [[]|] eqn:E3; [|done].
    destruct (drop (length available) applied) eqn:E4; [|done]. intros H.
    assert (length applied <= length available)%nat as Hl
      by (apply (f_equal length) in E4; rewrite length_drop in E4; cbn in E4; lia).
    assert (drop (length applied) available = pending plan ∧
      (mode = kCheckOnly → pending plan = [])) as [Hd Hm].
    { destruct (drop (length applied) available); [by simplify_eq/=|].
      case_bool_decide; simplify_eq/=; naive_solver. }
    split; [eapply ValidateContinuous_spec; by rewrite E1|]. split; [|done].
    exists (take (length applied) available). rewrite <- Hd, take_drop. split; [done|].
    apply common_prefix; [by rewrite E3|done].
  - intros (Hn & (dn & Ha & ->) & Hm).
    assert (take (length dn) available = dn) as Ht by by rewrite Ha, take_app_length.
    assert (drop (length dn) available = pending plan) as Hd by by rewrite Ha, drop_app_length.
    assert (a_version <$> (recorded <$> dn) = version <$> dn) as Hv by by rewrite <- list_fmap_compose.
    pose proof (proj2 (ValidateContinuous_spec 0 (version <$> available) "目录") Hn) as E1.
    assert (numbered 0 (version <$> dn)) as Hn2
      by (rewrite Ha, fmap_app in Hn; by apply numbered_prefix in Hn).
    pose proof (proj2 (ValidateContinuous_spec 0 (version <$> dn) "数据库") Hn2) as E2.
    pose proof (recorded_prefix available (length dn)) as E3. rewrite Ht in E3. rewrite Hv.
    destruct (ValidateContinuous 0 (version <$> available) _); [|done].
    destruct (ValidateContinuous 0 (version <$> dn) _); [|done].
    destruct (check_prefix available _); [|done].
    rewrite length_fmap, Hd.
    rewrite drop_ge by (rewrite length_fmap, Ha, length_app; lia).
    destruct plan as [[|next rest]]; [done|]. cbn in *.
    case_bool_decide; [by specialize (Hm ltac:(done))|done].
Qed.

(** ** What a directory gives *)
Lemma parse_entries_spec l ms :
  parse_entries l = Ok ms ↔
  ms = omap (λ e, match ParseMigration e with Ok m => Some m | Unexpected _ => None end)
         (filter (λ e, ends_with ".sql" (e_filename e) = true) l) ∧
  ∀ e, e ∈ l → ends_with ".sql" (e_filename e) = true → is_ok (ParseMigration e) = true.
Proof.
  revert ms. induction l as [|e l IH]; intros ms; cbn [parse_entries].
  - split; [intros [= <-]; split; [done|by intros ? ?%elem_of_nil]|by intros [-> _]].
  - rewrite filter_cons. destruct (ends_with ".sql" (e_filename e)) eqn:Ee.
    + rewrite decide_True by done. cbn [omap list_omap].
      destruct (ParseMigration e) as [m|err] eqn:Em; cycle 1.
      { split; [done|]. intros [_ H]. specialize (H e ltac:(by left) Ee). by rewrite Em in H. }
      split.
      * destruct (parse_entries l) as [ms'|]; [|done]. intros [= <-].
        destruct (proj1 (IH ms') eq_refl) as [-> H]. split; [done|].
        intros e' [->|He]%elem_of_cons; [by rewrite Em|by apply H].
      * intros [-> H].
        rewrite (proj2 (IH _) (conj eq_refl (λ e' He, H e' (proj2 (elem_of_cons _ _ _) (or_intror He))))).
        done.
    + rewrite decide_False by done. rewrite IH. split; intros [-> H]; split; try done.
      * intros e' [->|He]%elem_of_cons; [congruence|by apply H].
      * intros e' He. apply H. by right.
Qed.

(** The migrations of a directory are exactly those of its .sql files, in the order
    of their versions, which run from one without a gap or a repetition. *)
Theorem DiscoverMigrations_spec directory listing ms :
  DiscoverMigrations directory listing = Ok ms ↔
  ∃ l, listing = Entries l None ∧ ms ≠ [] ∧ numbered 0 (version <$> ms) ∧
    (∃ found, parse_entries l = Ok found ∧ ms = merge_sort version_le found).
Proof.
  unfold DiscoverMigrations. split.
  - destruct listing as [|?|l failure]; [done..|].
    destruct (parse_entries l) as [found|] eqn:E; [|done]. destruct failure; [done|].
    destruct found as [|m found]; [done|]. set (sorted := merge_sort version_le (m :: found)).
    destruct (check_versions 0 None sorted) as [[]|] eqn:Ec; [|done]. intros [= <-].
    exists l. split; [done|]. split; [|split; [eapply check_versions_spec; by rewrite Ec|by eexists]].
    intros H. pose proof (merge_sort_Permutation version_le (m :: found)) as P.
    fold sorted in P. rewrite H in P. by apply Permutation_nil_cons in P.
  - intros (l & -> & Hne & Hn & found & -> & ->).
    destruct found as [|m found]; [done|]. set (sorted := merge_sort _ _) in *.
    apply (check_versions_spec 0 None) in Hn. by destruct (check_versions 0 None sorted).
Qed.

(** ** File names *)
Definition file_name (v : Z) (n : string) : string := pad 3 v +:+ "_" +:+ n +:+ ".sql".

Definition hundreds (v : Z) : string :=
  String (digit_char (v / 100)) (String (digit_char (v / 10 mod 10))
    (String (digit_char (v mod 10)) "")).

Lemma pad_hundreds v : 0 <= v < 1000 → pad 3 v = hundreds v.
Proof.
  intros Hv.
  assert (Forall (λ n, pad 3 (Z.of_nat n) = hundreds (Z.of_nat n)) (seq 0 1000)) as H
    by (apply (bool_decide_unpack _); vm_compute; exact I).
  rewrite Forall_forall in H. specialize (H (Z.to_nat v)). rewrite Z2Nat.id in H by lia.
  apply H. apply elem_of_seq. lia.
Qed.

(** A migration file named by its version and name reads back as both. *)
Theorem ParseMigration_roundtrip v n path :
  1 <= v <= 999 → n ≠ "" →
  ParseMigration {| e_filename := file_name v n; e_path := path; e_regular := Ok true |}
    = Ok {| version := v; name := n; file := path |}.
Proof.
  intros Hv Hn. unfold ParseMigration. cbn [e_filename e_path e_regular]. cbv zeta.
  set (f := file_name v n).
  assert (f = hundreds v +:+ "_" +:+ n +:+ ".sql") as Ef
    by (unfold f, file_name; by rewrite pad_hundreds by lia).
  assert (String.length f = (8 + String.length n)%nat) as El
    by (rewrite Ef, !str_length_app; cbn; lia).
  assert (ends_with ".sql" f = true) as Ee.
  { rewrite Ef. replace (hundreds v +:+ "_" +:+ n +:+ ".sql")
      with ((hundreds v +:+ "_" +:+ n) +:+ ".sql") by by rewrite <- !str_app_assoc.
    apply ends_with_app. }
  assert (substr f 4 (String.length f - 4 - 4) = n) as Es.
  { rewrite El. replace (8 + String.length n - 4 - 4)%nat with (String.length n) by lia.
    rewrite Ef. change (hundreds v +:+ "_" +:+ n +:+ ".sql")
      with ((hundreds v +:+ "_") +:+ n +:+ ".sql").
    apply (substr_mid (hundreds v +:+ "_")). }
  rewrite El, Ee. rewrite El in Es.
  assert (0 <= v / 100 <= 9 ∧ 0 <= v / 10 mod 10 <= 9 ∧ 0 <= v mod 10 <= 9 ∧
    v / 100 * 100 + v / 10 mod 10 * 10 + v mod 10 = v) as (H1 & H2 & H3 & H4)
    by (Z.to_euclidean_division_equations; lia).
  assert (char_at f 0 = digit_char (v / 100) ∧ char_at f 1 = digit_char (v / 10 mod 10) ∧
    char_at f 2 = digit_char (v mod 10) ∧ char_at f 3 = "_"%char) as (C1 & C2 & C3 & C4)
    by by rewrite Ef.
  unfold three_digits. rewrite C1, C2, C3, C4, !is_digit_digit_char by done.
  rewrite !code_digit_char by done.
  replace (48 + v / 100 - 48) with (v / 100) by lia.
  replace (48 + v / 10 mod 10 - 48) with (v / 10 mod 10) by lia.
  replace (48 + v mod 10 - 48) with (v mod 10) by lia. rewrite H4, Es.
  destruct (Nat.ltb_spec (8 + String.length n) 8); [lia|]. cbn.
  destruct (Z.eqb_spec v 0); [lia|]. unfold str_empty.
  by destruct n.
Qed.

(** ** A directory and a plan *)
Definition sample_entry (v : Z) (n : string) : DirectoryEntry :=
  {| e_filename := file_name v n; e_path := "migrations/" +:+ file_name v n;
     e_regular := Ok true |}.
Definition sample_listing : Listing :=
  Entries [sample_entry 2 "core"; {| e_filename := "README"; e_path := "migrations/README";
                                      e_regular := Ok true |}; sample_entry 1 "init"] None.

Example sample_directory :
  match DiscoverMigrations "migrations" sample_listing with
  | Ok ms => name <$> ms = ["init"; "core"] ∧
      (∃ plan, BuildMigrationPlan ms [{| a_version := 1; a_name := "init" |}] kApply = Ok plan ∧
               version <$> pending plan = [2])
  | Unexpected _ => False
  end.
Proof. vm_compute. split; [done|]. by eexists. Qed.

Lemma ParseMigration_roundtrip_witness :
  ParseMigration (sample_entry 7 "core") =
    Ok {| version := 7; name := "core"; file := "migrations/007_core.sql" |}.
Proof. apply (ParseMigration_roundtrip 7 "core" "migrations/007_core.sql"); [lia|done]. Defined.
