(* ===== verification/DeviceTopic.v ===== *)
(** * DeviceTopic: src/route_service/src/core/mqtt_topic/device_topic.cpp

    The MQTT topics devices publish on, the filters the service subscribes to and
    the topics of its own state snapshots. *)

From Stdlib Require Import Ascii ZArith Lia.
From S2P Require Import Prelude.
From stdpp Require Import options.

Definition valid_device_char (character : ascii) : bool :=
  in_range 48 57 character || in_range 65 90 character || in_range 97 122 character
  || Ascii.eqb character "." || Ascii.eqb character "_"
  || Ascii.eqb character ":" || Ascii.eqb character "-".

Definition IsValidDeviceId (device_id : string) : bool :=
  negb (str_empty device_id) && (String.length device_id <=? 20)%nat
  && all_of valid_device_char device_id.

Inductive DeviceMessageKind := kRegistration | kTelemetry.

Record ParsedDeviceTopic := { device_id : string; kind : DeviceMessageKind }.

Definition ParseDeviceTopic (topic_namespace topic : string) :
    expected ParsedDeviceTopic string :=
  match str_find "/" topic with
  | None => Unexpected "设备 topic 格式无效"
  | Some first =>
      match str_find_from "/" topic (first + 1) with
      | None => Unexpected "设备 topic 格式无效"
      | Some device_id_end =>
          if negb (String.eqb (substr topic 0 first) topic_namespace) then
            Unexpected "设备 topic 格式无效"
          else
            let id := substr topic (first + 1) (device_id_end - first - 1) in
            if negb (IsValidDeviceId id) then Unexpected "device_id 无效"
            else
              let suffix := substr_from topic (device_id_end + 1) in
              if String.eqb suffix "registration" then
                Ok {| device_id := id; kind := kRegistration |}
              else if String.eqb suffix "telemetry/snapshot/v1" then
                Ok {| device_id := id; kind := kTelemetry |}
              else Unexpected "设备消息类型无效"
      end
  end.

Definition RegistrationFilter (topic_namespace : string) : string :=
  topic_namespace +:+ "/+/registration".
Definition TelemetryFilter (topic_namespace : string) : string :=
  topic_namespace +:+ "/+/telemetry/snapshot/v1".
Definition DeviceDirectoryTopic (topic_namespace : string) : string :=
  topic_namespace +:+ "/events/devices/directory".
Definition StateEventTopic (topic_namespace device_id : string) : string :=
  topic_namespace +:+ "/events/devices/" +:+ device_id +:+ "/state".

(** The topic a device publishes a message of kind [kind] on: what the parser is
    specified against. *)
Definition kind_suffix (k : DeviceMessageKind) : string :=
  match k with kRegistration => "registration" | kTelemetry => "telemetry/snapshot/v1" end.
Definition device_topic (topic_namespace : string) (p : ParsedDeviceTopic) : string :=
  topic_namespace +:+ String "/" (device_id p +:+ String "/" (kind_suffix (kind p))).

(** A namespace is one topic segment. *)
Definition one_segment (s : string) : Prop := str_find "/" s = None.

#[export] Instance DeviceMessageKind_eq_dec : EqDecision DeviceMessageKind.
Proof. solve_decision. Defined.
#[export] Instance ParsedDeviceTopic_eq_dec : EqDecision ParsedDeviceTopic.
Proof. solve_decision. Defined.

(** ** Segments of a topic *)
Lemma valid_id_no_slash s : IsValidDeviceId s = true → one_segment s.
Proof.
  intros H. apply andb_true_iff in H as [_ H].
  by apply (str_find_all_of _ valid_device_char).
Qed.

Lemma substr_prefix a b : substr (a +:+ b) 0 (String.length a) = a.
Proof. apply substring_app_l. Qed.

Lemma substr_after a c b : substr_from (a +:+ String c b) (String.length a + 1) = b.
Proof.
  replace (a +:+ String c b) with ((a +:+ String c "") +:+ b)
    by (by rewrite str_app_assoc).
  replace (String.length a + 1)%nat with (String.length (a +:+ String c ""))
    by (by rewrite str_length_app).
  apply substr_from_app.
Qed.

Lemma find_second a c b :
  one_segment a → one_segment c →
  str_find_from "/" (a +:+ String "/" (c +:+ String "/" b)) (String.length a + 1)
  = Some (String.length a + 1 + String.length c)%nat.
Proof.
  intros Ha Hc. unfold str_find_from. rewrite substr_after.
  by rewrite (str_find_app_None "/" c b Hc).
Qed.

Lemma substr_second a c b :
  substr (a +:+ String "/" (c +:+ String "/" b)) (String.length a + 1) (String.length c) = c.
Proof.
  replace (a +:+ String "/" (c +:+ String "/" b))
    with ((a +:+ String "/" "") +:+ c +:+ String "/" b) by (by rewrite str_app_assoc).
  replace (String.length a + 1)%nat with (String.length (a +:+ String "/" ""))
    by (by rewrite str_length_app).
  apply substr_mid.
Qed.

Lemma substr_third a c b :
  substr_from (a +:+ String "/" (c +:+ String "/" b))
    (String.length a + 1 + String.length c + 1) = b.
Proof.
  replace (a +:+ String "/" (c +:+ String "/" b))
    with ((a +:+ String "/" c) +:+ String "/" b)
    by (by rewrite str_app_assoc, app_String).
  replace (String.length a + 1 + String.length c + 1)%nat
    with (String.length (a +:+ String "/" c) + 1)%nat
    by (rewrite str_length_app; cbn; lia).
  apply substr_after.
Qed.

(** The parser on a topic already split at its first two slashes. *)
Lemma ParseDeviceTopic_split ns a c b :
  one_segment a → one_segment c →
  ParseDeviceTopic ns (a +:+ String "/" (c +:+ String "/" b)) =
    if negb (String.eqb a ns) then Unexpected "设备 topic 格式无效"
    else if negb (IsValidDeviceId c) then Unexpected "device_id 无效"
    else if String.eqb b "registration" then
      Ok {| device_id := c; kind := kRegistration |}
    else if String.eqb b "telemetry/snapshot/v1" then
      Ok {| device_id := c; kind := kTelemetry |}
    else Unexpected "设备消息类型无效".
Proof.
  intros Ha Hc. unfold ParseDeviceTopic.
  rewrite (str_find_app_None "/" a _ Ha), find_second by done.
  rewrite substr_prefix, substr_third.
  replace (String.length a + 1 + String.length c - String.length a - 1)%nat
    with (String.length c) by lia.
  by rewrite substr_second.
Qed.

Lemma two_slashes topic first second :
  str_find "/" topic = Some first →
  str_find_from "/" topic (first + 1) = Some second →
  ∃ a c b, topic = a +:+ String "/" (c +:+ String "/" b) ∧ one_segment a ∧ one_segment c.
Proof.
  intros H1 H2. apply str_find_Some in H1 as (a & r & -> & <- & Ha).
  unfold str_find_from in H2. rewrite substr_after in H2.
  destruct (str_find "/" r) as [n|] eqn:E; [|done].
  apply str_find_Some in E as (c & b & -> & _ & Hc). by exists a, c, b.
Qed.

Lemma ParseDeviceTopic_iff ns topic p :
  ParseDeviceTopic ns topic = Ok p ↔
  one_segment ns ∧ IsValidDeviceId (device_id p) = true ∧ topic = device_topic ns p.
Proof.
  split.
  - intros H. destruct (str_find "/" topic) as [f|] eqn:E1;
      [|unfold ParseDeviceTopic in H; by rewrite E1 in H].
    destruct (str_find_from "/" topic (f + 1)) as [g|] eqn:E2;
      [|unfold ParseDeviceTopic in H; by rewrite E1, E2 in H].
    destruct (two_slashes _ _ _ E1 E2) as (a & c & b & -> & Ha & Hc).
    rewrite ParseDeviceTopic_split in H by done.
    repeat step_match; bool_prop; subst; done.
  - intros (Hns & Hid & ->). unfold device_topic.
    rewrite ParseDeviceTopic_split by eauto using valid_id_no_slash.
    rewrite String.eqb_refl, Hid. by destruct p as [i []].
Qed.

(** A topic parses to a device and a message kind exactly when the name space is one segment, the
    identifier is valid and the topic is the one built from them. *)
Theorem ParseDeviceTopic_correct ns topic p :
  ParseDeviceTopic ns topic = Ok p ↔
  one_segment ns ∧ IsValidDeviceId (device_id p) = true ∧ topic = device_topic ns p.
Proof. apply ParseDeviceTopic_iff. Qed.

(** The topics the service publishes on are not read as messages of devices. *)
Theorem own_topics_not_device_messages ns id :
  is_ok (ParseDeviceTopic ns (DeviceDirectoryTopic ns)) = false ∧
  is_ok (ParseDeviceTopic ns (StateEventTopic ns id)) = false.
Proof.
  assert (∀ b, is_ok (ParseDeviceTopic ns
    (ns +:+ String "/" ("events" +:+ String "/" ("devices/" +:+ b)))) = false) as Key.
  { intros b. destruct (ParseDeviceTopic _ _) as [p|] eqn:E; [|done].
    pose proof E as (Hns & _ & _)%ParseDeviceTopic_iff.
    rewrite ParseDeviceTopic_split in E by done. cbn in E.
    by repeat step_match. }
  split; [apply (Key "directory")|apply (Key (id +:+ "/state"))].
Qed.
