(* ===== verification/DeviceMessage.v ===== *)
(** * DeviceMessage: src/route_service/src/core/protocol/device_message.cpp

    The schema v3 registration and telemetry payloads of the devices. *)

From Stdlib Require Import Ascii ZArith Lia.
From S2P Require Import Prelude Json DeviceTopic.
From stdpp Require Import options.

Inductive RegistrationStatus := kRegOnline | kRegOffline.
Inductive DeviceType := kCnsBox | kFlightController.

Definition DeviceTypeText (type : DeviceType) : string :=
  match type with kCnsBox => "cns_box" | kFlightController => "flight_controller" end.

Record Registration := {
  reg_device_id : string;
  reg_status : RegistrationStatus;
  reg_school_name : option string;
  reg_dcdw_label : option string;
  reg_device_type : DeviceType;
  reg_capabilities : option (list string);
  reg_product : option json;
  reg_version : option json
}.

Record Telemetry := {
  tel_payload : json;
  tel_dcdw_label : option string;
  tel_device_type : option DeviceType
}.

#[export] Instance RegistrationStatus_eq_dec : EqDecision RegistrationStatus.
Proof. solve_decision. Defined.
#[export] Instance DeviceType_eq_dec : EqDecision DeviceType.
Proof. solve_decision. Defined.
#[export] Instance Registration_eq_dec : EqDecision Registration.
Proof. solve_decision. Defined.

Section Parsing.
Context `{JL : JsonLib}.

Definition ParseObject (payload : string) : expected json string :=
  match json_parse payload with
  | None => Unexpected "JSON 语法无效"
  | Some value =>
      if negb (is_object value) then Unexpected "JSON 根节点必须是 object" else Ok value
  end.

Definition RequiredString (object : json) (key : string) : expected string string :=
  match jfind object key with
  | Some (JString s) =>
      if str_empty s then Unexpected (key +:+ " 必须是非空字符串") else Ok s
  | _ => Unexpected (key +:+ " 必须是非空字符串")
  end.

Definition OptionalString (object : json) (key : string) :
    expected (option string) string :=
  match jfind object key with
  | None | Some JNull => Ok None
  | Some (JString s) =>
      if str_empty s then Unexpected (key +:+ " 必须是非空字符串") else Ok (Some s)
  | _ => Unexpected (key +:+ " 必须是非空字符串")
  end.

Definition ParseDeviceType (object : json) : expected DeviceType string :=
  let! value := RequiredString object "device_type" in
  if String.eqb value "cns_box" then Ok kCnsBox
  else if String.eqb value "flight_controller" then Ok kFlightController
  else Unexpected "device_type 无效".

Definition is_nonempty_string (value : json) : bool :=
  match value with JString s => negb (str_empty s) | _ => false end.

Definition ValidateOptionalStringArray (object : json) (key : string) :
    expected unit string :=
  match jfind object key with
  | None => Ok tt
  | Some value =>
      if negb (is_array value) then Unexpected (key +:+ " 必须是字符串数组")
      else if forallb is_nonempty_string (jelements value) then Ok tt
      else Unexpected (key +:+ " 必须是字符串数组")
  end.

Definition ValidateOptionalObject (object : json) (key : string) :
    expected unit string :=
  match jfind object key with
  | Some value => if is_object value then Ok tt else Unexpected (key +:+ " 必须是 object")
  | None => Ok tt
  end.

Definition removed_fields : list string :=
  ["vendor_id"; "remote_id"; "uid"; "uid2";
   "gateway_id"; "rpi_serial"; "endpoint"; "identity"].

Fixpoint reject_fields (removed : list string) (object : json) : expected unit string :=
  match removed with
  | [] => Ok tt
  | field :: removed' =>
      if jcontains object field then Unexpected (field +:+ " 已从 schema v3 删除")
      else reject_fields removed' object
  end.

Definition RejectRemovedFields (object : json) : expected unit string :=
  reject_fields removed_fields object.

Definition ValidateDeviceId (device_id topic_device_id : string) : expected unit string :=
  if negb (IsValidDeviceId device_id) || negb (String.eqb device_id topic_device_id)
  then Unexpected "device_id 与 topic 不一致" else Ok tt.

(** [version != root->end() && version->is_number_integer() && *version == 3] *)
Definition schema_is_3 (root : json) : bool :=
  match jfind root "schema_version" with
  | Some version => is_number_integer version && json_equal version (JInt 3)
  | None => false
  end.

Definition ParseRegistration (payload topic_device_id : string) :
    expected Registration string :=
  let! root := ParseObject payload in
  guard! schema_is_3 root else "schema_version 必须是整数 3" in
  let! _clean := RejectRemovedFields root in
  let! device_id := RequiredString root "device_id" in
  let! _valid := ValidateDeviceId device_id topic_device_id in
  let! device_type := ParseDeviceType root in
  let! status := RequiredString root "status" in
  guard! String.eqb status "online" || String.eqb status "offline"
    else "status 无效" in
  let! school := OptionalString root "school_name" in
  let! label := OptionalString root "dcdw_label" in
  let! _caps := ValidateOptionalStringArray root "capabilities" in
  let! _prod := ValidateOptionalObject root "product" in
  let! _vers := ValidateOptionalObject root "version" in
  guard! negb (String.eqb status "online" && bool_decide (device_type = kCnsBox)
               && bool_decide (school = None))
    else "cns_box online registration 缺少 school_name" in
  Ok {| reg_device_id := device_id;
        reg_status := if String.eqb status "online" then kRegOnline else kRegOffline;
        reg_school_name := school;
        reg_dcdw_label := label;
        reg_device_type := device_type;
        reg_capabilities := (λ v, map get_string (jelements v)) <$> jfind root "capabilities";
        reg_product := jfind root "product";
        reg_version := jfind root "version" |}.

Definition ParseTelemetry (payload topic_device_id : string) :
    expected Telemetry string :=
  let! root := ParseObject payload in
  guard! schema_is_3 root else "telemetry schema_version 必须是整数 3" in
  let! _clean := RejectRemovedFields root in
  let! device_id := RequiredString root "device_id" in
  let! _valid := ValidateDeviceId device_id topic_device_id in
  let! device_type := ParseDeviceType root in
  let! _sent_at := RequiredString root "sent_at" in
  guard! default false (is_object <$> jfind root "telemetry")
    else "telemetry 必须是 object" in
  guard! default false (is_object <$> jfind root "drone_id")
    else "drone_id 必须是 object" in
  let basic_id := drone_id ← jfind root "drone_id"; jfind drone_id "basic_id" in
  guard! default false (is_object <$> basic_id)
    else "drone_id.basic_id 必须是 object" in
  guard! negb (jcontains (default JNull basic_id) "uas_id")
    else "drone_id.basic_id.uas_id 已从 schema v3 删除" in
  Ok {| tel_payload := root; tel_dcdw_label := None; tel_device_type := Some device_type |}.

(** ** The payload of a registration

    The object a device sends for [r]: what the parser is specified against. *)
Definition opt_field (key : string) (o : option json) : list (string * json) :=
  match o with Some v => [(key, v)] | None => [] end.

Definition StatusText (s : RegistrationStatus) : string :=
  match s with kRegOnline => "online" | kRegOffline => "offline" end.

Definition registration_json (r : Registration) : json :=
  JObject
    (opt_field "capabilities" ((λ l, JArray (map JString l)) <$> reg_capabilities r)
     ++ opt_field "dcdw_label" (JString <$> reg_dcdw_label r)
     ++ [("device_id", JString (reg_device_id r));
         ("device_type", JString (DeviceTypeText (reg_device_type r)))]
     ++ opt_field "product" (reg_product r)
     ++ [("schema_version", JUInt 3)]
     ++ opt_field "school_name" (JString <$> reg_school_name r)
     ++ [("status", JString (StatusText (reg_status r)))]
     ++ opt_field "version" (reg_version r)).

Definition nonempty (s : string) : bool := negb (str_empty s).

(** What the schema demands of a registration beyond its types. *)
Definition registration_valid (r : Registration) : bool :=
  IsValidDeviceId (reg_device_id r)
  && default true (nonempty <$> reg_school_name r)
  && default true (nonempty <$> reg_dcdw_label r)
  && default true (forallb nonempty <$> reg_capabilities r)
  && default true (is_object <$> reg_product r)
  && default true (is_object <$> reg_version r)
  && negb (bool_decide (reg_status r = kRegOnline) && bool_decide (reg_device_type r = kCnsBox)
           && bool_decide (reg_school_name r = None)).

(** ** Lemmas on the field readers *)
Lemma RequiredString_Ok v k s :
  RequiredString v k = Ok s ↔ jfind v k = Some (JString s) ∧ nonempty s = true.
Proof.
  unfold RequiredString, nonempty. split.
  - intros H. destruct (jfind v k) as [[]|]; try done.
    destruct (str_empty _) eqn:E; simplify_eq. by rewrite E.
  - intros [-> H]. by destruct (str_empty s).
Qed.

Lemma OptionalString_Ok v k o :
  OptionalString v k = Ok o → default true (nonempty <$> o) = true.
Proof.
  unfold OptionalString, nonempty. intros H.
  destruct (jfind v k) as [[]|]; simplify_eq; try done.
  destruct (str_empty _) eqn:E; simplify_eq/=. by rewrite E.
Qed.

Lemma reject_fields_Ok fs v :
  reject_fields fs v = Ok tt ↔ ∀ f, f ∈ fs → jcontains v f = false.
Proof.
  induction fs as [|f fs IH]; cbn.
  - split; [intros _ f Hf; by apply elem_of_nil in Hf|done].
  - destruct (jcontains v f) eqn:E; rewrite ?IH.
    + split; [done|]. intros H. rewrite H in E; [done|left].
    + setoid_rewrite elem_of_cons. split; [by intros H g [->|Hg]; auto|auto].
Qed.

Lemma map_get_string l :
  forallb is_nonempty_string l = true → forallb nonempty (map get_string l) = true.
Proof.
  induction l as [|x l IH]; cbn; [done|]. intros H. apply andb_true_iff in H as [Hx Hl].
  destruct x as [| | | | |s| |]; try done. cbn in Hx.
  change (nonempty s && forallb nonempty (map get_string l) = true).
  unfold nonempty at 1. by rewrite Hx, IH.
Qed.

Lemma ValidateOptionalStringArray_Ok v k :
  ValidateOptionalStringArray v k = Ok tt →
  default true (forallb nonempty <$> ((λ w, map get_string (jelements w)) <$> jfind v k))
  = true.
Proof.
  unfold ValidateOptionalStringArray. destruct (jfind v k) as [w|]; [|done]. cbn.
  destruct (negb (is_array w)); [done|].
  destruct (forallb _ (jelements w)) eqn:E; [|done]. intros _. by apply map_get_string.
Qed.

Lemma ValidateOptionalObject_Ok v k :
  ValidateOptionalObject v k = Ok tt → default true (is_object <$> jfind v k) = true.
Proof.
  unfold ValidateOptionalObject. destruct (jfind v k) as [w|]; [|done]. cbn.
  by destruct (is_object w).
Qed.

Lemma ParseObject_Ok payload v :
  ParseObject payload = Ok v → json_parse payload = Some v ∧ is_object v = true.
Proof.
  unfold ParseObject. destruct (json_parse payload) as [w|]; [|done].
  destruct (is_object w) eqn:E; cbn; intros; by simplify_eq.
Qed.

Lemma ValidateDeviceId_Ok i id :
  ValidateDeviceId i id = Ok tt ↔ IsValidDeviceId i = true ∧ i = id.
Proof.
  unfold ValidateDeviceId. rewrite <- String.eqb_eq.
  destruct (IsValidDeviceId i), (String.eqb i id); cbn; split; intros H; try done;
    by destruct H.
Qed.

(** A registration that parses is valid. *)
Theorem ParseRegistration_valid payload id r :
  ParseRegistration payload id = Ok r →
  reg_device_id r = id ∧ registration_valid r = true ∧
  ∃ v, json_parse payload = Some v ∧ schema_is_3 v = true ∧
       ∀ f, f ∈ removed_fields → jcontains v f = false.
Proof.
  unfold ParseRegistration. intros H.
  destruct (ParseObject payload) as [v|] eqn:Ev; [|done].
  destruct (schema_is_3 v) eqn:E3; [|done].
  destruct (RejectRemovedFields v) as [[]|] eqn:Er; [|done].
  destruct (RequiredString v "device_id") as [i|] eqn:Ei; [|done].
  destruct (ValidateDeviceId i id) as [[]|] eqn:Evi; [|done].
  destruct (ParseDeviceType v) as [ty|] eqn:Et; [|done].
  destruct (RequiredString v "status") as [st|] eqn:Es; [|done].
  destruct (String.eqb st "online" || String.eqb st "offline") eqn:Est; [|done].
  destruct (OptionalString v "school_name") as [sc|] eqn:Esc; [|done].
  destruct (OptionalString v "dcdw_label") as [lb|] eqn:Elb; [|done].
  destruct (ValidateOptionalStringArray v "capabilities") as [[]|] eqn:Ec; [|done].
  destruct (ValidateOptionalObject v "product") as [[]|] eqn:Ep; [|done].
  destruct (ValidateOptionalObject v "version") as [[]|] eqn:Eve; [|done].
  match type of H with context [negb ?b] => destruct b eqn:Eb; [done|] end.
  cbn in H. simplify_eq. cbn [reg_device_id].
  apply ParseObject_Ok in Ev as [Ev _]. apply ValidateDeviceId_Ok in Evi as [Hid ->].
  split; [done|]. split.
  - unfold registration_valid; cbn [reg_device_id reg_status reg_school_name
      reg_dcdw_label reg_device_type reg_capabilities reg_product reg_version].
    rewrite Hid, (OptionalString_Ok _ _ _ Esc), (OptionalString_Ok _ _ _ Elb),
      (ValidateOptionalStringArray_Ok _ _ Ec), (ValidateOptionalObject_Ok _ _ Ep),
      (ValidateOptionalObject_Ok _ _ Eve).
    destruct (String.eqb st "online"); [|done].
    rewrite (bool_decide_eq_true_2 (kRegOnline = kRegOnline)) by done.
    cbn [andb default option_fmap option_map] in *. by rewrite Eb.
  - exists v. split; [done|]. split; [done|]. by apply reject_fields_Ok.
Qed.

(** The fields of the payload of a registration. *)
Lemma registration_fields r :
  let v := registration_json r in
  jfind v "schema_version" = Some (JUInt 3) ∧
  jfind v "device_id" = Some (JString (reg_device_id r)) ∧
  jfind v "device_type" = Some (JString (DeviceTypeText (reg_device_type r))) ∧
  jfind v "status" = Some (JString (StatusText (reg_status r))) ∧
  jfind v "school_name" = JString <$> reg_school_name r ∧
  jfind v "dcdw_label" = JString <$> reg_dcdw_label r ∧
  jfind v "capabilities" = (λ l, JArray (map JString l)) <$> reg_capabilities r ∧
  jfind v "product" = reg_product r ∧
  jfind v "version" = reg_version r ∧
  RejectRemovedFields v = Ok tt.
Proof.
  destruct r as [i st [sc|] [lb|] ty [cs|] [p|] [w|]]; cbn;
    repeat (split; [reflexivity|]); reflexivity.
Qed.

Lemma RequiredString_find v k s :
  jfind v k = Some (JString s) → nonempty s = true → RequiredString v k = Ok s.
Proof. intros. by apply RequiredString_Ok. Qed.

Lemma OptionalString_find v k o :
  jfind v k = JString <$> o → default true (nonempty <$> o) = true →
  OptionalString v k = Ok o.
Proof.
  intros Hf Hn. unfold OptionalString. rewrite Hf. destruct o as [s|]; [|done]. cbn in *.
  unfold nonempty in Hn. by destruct (str_empty s).
Qed.

Lemma string_array_find v k o :
  jfind v k = (λ l, JArray (map JString l)) <$> o →
  default true (forallb nonempty <$> o) = true →
  ValidateOptionalStringArray v k = Ok tt ∧
  (λ w, map get_string (jelements w)) <$> jfind v k = o.
Proof.
  intros Hf Hn. unfold ValidateOptionalStringArray. rewrite Hf.
  destruct o as [l|]; [|done]. cbn in *. rewrite map_map, map_id.
  replace (forallb is_nonempty_string (map JString l)) with (forallb nonempty l); [by rewrite Hn|].
  clear. induction l as [|s l IH]; [done|]. cbn. by rewrite IH.
Qed.

Lemma optional_object_find v k :
  default true (is_object <$> jfind v k) = true → ValidateOptionalObject v k = Ok tt.
Proof.
  unfold ValidateOptionalObject. destruct (jfind v k); [|done]. cbn. by intros ->.
Qed.

(** Every valid registration is accepted as it was written by the device. *)
Theorem ParseRegistration_complete `{!JsonLaws JL} payload r :
  json_parse payload = Some (registration_json r) →
  registration_valid r = true →
  ParseRegistration payload (reg_device_id r) = Ok r.
Proof.
  intros Hp Hv. unfold registration_valid in Hv.
  do 6 (apply andb_true_iff in Hv; destruct Hv as [Hv ?]).
  destruct (registration_fields r) as (F1 & F2 & F3 & F4 & F5 & F6 & F7 & F8 & F9 & F10).
  unfold ParseRegistration, ParseObject. rewrite Hp.
  change (is_object (registration_json r)) with true. cbn [negb].
  set (v := registration_json r) in *.
  assert (schema_is_3 v = true) as ->.
  { unfold schema_is_3. rewrite F1. cbn. by rewrite equal_int. }
  rewrite F10, (RequiredString_find _ _ _ F2).
  2: { unfold IsValidDeviceId in Hv. bool_prop. by apply negb_true_iff. }
  rewrite (proj2 (ValidateDeviceId_Ok _ _) (conj Hv eq_refl)).
  assert (ParseDeviceType v = Ok (reg_device_type r)) as ->.
  { unfold ParseDeviceType. rewrite (RequiredString_find _ _ _ F3);
      by destruct (reg_device_type r). }
  rewrite (RequiredString_find _ _ _ F4) by (by destruct (reg_status r)).
  rewrite (OptionalString_find _ _ _ F5), (OptionalString_find _ _ _ F6) by done.
  destruct (string_array_find _ _ _ F7) as [-> F7']; [done|].
  rewrite !optional_object_find by (by rewrite ?F8, ?F9).
  rewrite F7', F8, F9.
  assert (negb (String.eqb (StatusText (reg_status r)) "online"
    && bool_decide (reg_device_type r = kCnsBox)
    && bool_decide (reg_school_name r = None)) = true) as ->.
  { by destruct (reg_status r). }
  by destruct r as [i [] sc lb ty cs p w].
Qed.

(** Telemetry that parses is valid. *)
Theorem ParseTelemetry_valid payload id t :
  ParseTelemetry payload id = Ok t →
  json_parse payload = Some (tel_payload t) ∧
  jfind (tel_payload t) "device_id" = Some (JString id) ∧ IsValidDeviceId id = true ∧
  tel_dcdw_label t = None ∧
  (∃ ty, tel_device_type t = Some ty ∧
     jfind (tel_payload t) "device_type" = Some (JString (DeviceTypeText ty))) ∧
  schema_is_3 (tel_payload t) = true ∧
  (∀ f, f ∈ removed_fields → jcontains (tel_payload t) f = false).
Proof.
  unfold ParseTelemetry. intros H.
  destruct (ParseObject payload) as [v|] eqn:Ev; [|done].
  destruct (schema_is_3 v) eqn:E3; [|done].
  destruct (RejectRemovedFields v) as [[]|] eqn:Er; [|done].
  destruct (RequiredString v "device_id") as [i|] eqn:Ei; [|done].
  destruct (ValidateDeviceId i id) as [[]|] eqn:Evi; [|done].
  destruct (ParseDeviceType v) as [ty|] eqn:Et; [|done].
  destruct (RequiredString v "sent_at") as [at_|] eqn:Es; [|done].
  repeat match type of H with (if ?b then _ else _) = _ => destruct b; [|done] end.
  simplify_eq/=. apply ParseObject_Ok in Ev as [Ev _].
  apply ValidateDeviceId_Ok in Evi as [Hid ->].
  apply RequiredString_Ok in Ei as [Ei _].
  do 4 (split; [done|]). split; [|split; [done|by apply reject_fields_Ok]].
  exists ty. split; [done|]. unfold ParseDeviceType in Et.
  destruct (RequiredString v "device_type") as [s|] eqn:Ed; [|done].
  apply RequiredString_Ok in Ed as [-> _].
  destruct (String.eqb s "cns_box") eqn:E1; [bool_prop; by simplify_eq|].
  destruct (String.eqb s "flight_controller") eqn:E2; [bool_prop; by simplify_eq|done].
Qed.
End Parsing.

Definition online_registration : Registration :=
  {| reg_device_id := "d1"; reg_status := kRegOnline; reg_school_name := Some "S";
     reg_dcdw_label := Some "A"; reg_device_type := kCnsBox; reg_capabilities := Some ["video"];
     reg_product := None; reg_version := None |}.

Lemma ParseRegistration_complete_witness :
  ParseRegistration (JL := codec_lib) (codec_dump (registration_json online_registration)) "d1"
    = Ok online_registration.
Proof.
  refine (ParseRegistration_complete (JL := codec_lib) (JsonLaws0 := codec_laws)
    (codec_dump (registration_json online_registration)) online_registration _ _);
    vm_compute; reflexivity.
Defined.
