(* ===== verification/DeviceRegistry.v ===== *)
(** * DeviceRegistry: src/route_service/src/core/device/device_registry.cpp

    The in-memory directory of devices with its two role indexes.  The hash maps
    of the class are [gmap]s: the hash functions only place the entries.  An
    operation returns the new directory; a refused one changes nothing. *)

From Stdlib Require Import Ascii ZArith Lia.
From S2P Require Import Prelude Json DeviceMessage.
From stdpp Require Import options.

Inductive Status := kOnline | kOffline.

(** [state_event::ChangeReason] *)
Inductive ChangeReason :=
| kRegistrationOnline
| kRegistrationOffline
| kTelemetryReason
| kActivityTimeout
| kDatabaseRecovered
| kSnapshotReplay.

Record DeviceRecord := {
  dr_device_id : string;
  dr_school_id : Z;
  dr_school_name : string;
  dr_dcdw_label : option string;
  dr_model_version : string;
  dr_status : Status;
  dr_last_seen_at : option TimePoint;
  dr_latest_telemetry : option json;
  dr_telemetry_received_at : option TimePoint;
  dr_revision : Z;
  dr_device_type : DeviceType;
  dr_capabilities : option (list string);
  dr_product : option json;
  dr_version : option json
}.

Record Mutation := {
  mut_record : DeviceRecord;
  mut_reason : ChangeReason;
  mut_status_changed : bool;
  mut_diagnostic : option string
}.

#[export] Instance Status_eq_dec : EqDecision Status.
Proof. solve_decision. Defined.
#[export] Instance ChangeReason_eq_dec : EqDecision ChangeReason.
Proof. solve_decision. Defined.
#[export] Instance DeviceRecord_eq_dec : EqDecision DeviceRecord.
Proof. solve_decision. Defined.
#[export] Instance Mutation_eq_dec : EqDecision Mutation.
Proof. solve_decision. Defined.

(** [RoleKey{school_id, dcdw_label}] and [NamedRoleKey{school_name, dcdw_label}]. *)
Abbreviation RoleKey := (Z * string)%type (only parsing).
Abbreviation NamedRoleKey := (string * string)%type (only parsing).
Abbreviation NamedRoles := (gmap NamedRoleKey (list string)) (only parsing).

Record DeviceRegistry := {
  records : gmap string DeviceRecord;
  roles : gmap RoleKey string;
  named_roles : NamedRoles
}.

Definition empty_registry : DeviceRegistry :=
  {| records := ∅; roles := ∅; named_roles := ∅ |}.

Definition AppendDiagnostic (diagnostic : option string) (message : string) :
    option string :=
  match diagnostic with
  | None => Some message
  | Some d => Some (d +:+ "；" +:+ message)
  end.

Definition AddNamedRole (named : NamedRoles) (record : DeviceRecord) : NamedRoles :=
  match dr_dcdw_label record with
  | None => named
  | Some label =>
      let key := (dr_school_name record, label) in
      <[key := default [] (named !! key) ++ [dr_device_id record]]> named
  end.

Definition RemoveNamedRole (named : NamedRoles) (record : DeviceRecord) : NamedRoles :=
  match dr_dcdw_label record with
  | None => named
  | Some label =>
      let key := (dr_school_name record, label) in
      match named !! key with
      | None => named
      | Some device_ids =>
          match filter (λ id, id ≠ dr_device_id record) device_ids with
          | [] => delete key named
          | device_ids' => <[key := device_ids']> named
          end
      end
  end.

(** The body of the loop of [Load] on the three new maps. *)
Definition load_record (new : DeviceRegistry) (record : DeviceRecord) :
    expected DeviceRegistry string :=
  let device_id := dr_device_id record in
  match records new !! device_id with
  | Some _ => Unexpected ("加载设备目录发现重复 device_id: " +:+ device_id)
  | None =>
      match dr_dcdw_label record with
      | None =>
          Ok {| records := <[device_id := record]> (records new);
                roles := roles new; named_roles := named_roles new |}
      | Some label =>
          let key := (dr_school_id record, label) in
          match roles new !! key with
          | Some _ => Unexpected ("加载设备目录发现同校角色号冲突: " +:+ label)
          | None =>
              Ok {| records := <[device_id := record]> (records new);
                    roles := <[key := device_id]> (roles new);
                    named_roles := AddNamedRole (named_roles new) record |}
          end
      end
  end.

Fixpoint load_loop (new : DeviceRegistry) (rs : list DeviceRecord) :
    expected DeviceRegistry string :=
  match rs with
  | [] => Ok new
  | record :: rs' => let! new' := load_record new record in load_loop new' rs'
  end.

(** [Load] builds fresh maps and swaps them in when all records are accepted. *)
Definition Load (rs : list DeviceRecord) : expected DeviceRegistry string :=
  load_loop empty_registry rs.

(** How a registration changes the role of [record]: the new diagnostic, the role
    given up, the role taken and the label of the new record. *)
Definition registration_role (reg : DeviceRegistry) (record : DeviceRecord)
    (label : option string) (diagnostic : option string) :
    option string * option RoleKey * option RoleKey * option string :=
  match label with
  | Some l =>
      if bool_decide (Some l = dr_dcdw_label record) then
        (diagnostic, None, None, dr_dcdw_label record)
      else
        let candidate := (dr_school_id record, l) in
        let old_role := (λ l0, (dr_school_id record, l0)) <$> dr_dcdw_label record in
        match roles reg !! candidate with
        | Some owner =>
            if String.eqb owner (dr_device_id record) then
              (diagnostic, old_role, None, Some l)
            else (AppendDiagnostic diagnostic "拒绝同校冲突角色号",
                  None, None, dr_dcdw_label record)
        | None => (diagnostic, old_role, Some candidate, Some l)
        end
  | None => (diagnostic, None, None, dr_dcdw_label record)
  end.

(** The updates of the three maps at the end of [ApplyRegistration], in its order. *)
Definition commit_record (reg : DeviceRegistry) (record new_record : DeviceRecord)
    (old_role new_role : option RoleKey) : DeviceRegistry :=
  let named1 := if old_role is Some _ then RemoveNamedRole (named_roles reg) record
                else named_roles reg in
  let roles1 := match new_role with
                | Some k => <[k := dr_device_id record]> (roles reg)
                | None => roles reg
                end in
  let records1 := <[dr_device_id record := new_record]> (records reg) in
  let named2 := if new_role is Some _ then AddNamedRole named1 new_record else named1 in
  let roles2 := match old_role with Some k => delete k roles1 | None => roles1 end in
  {| records := records1; roles := roles2; named_roles := named2 |}.

Definition ApplyRegistration (reg : DeviceRegistry) (registration : Registration)
    (received_at : TimePoint) : expected (Mutation * DeviceRegistry) string :=
  match records reg !! reg_device_id registration with
  | None => Unexpected ("未知设备: " +:+ reg_device_id registration)
  | Some record =>
      if negb (bool_decide (dr_device_type record = reg_device_type registration)) then
        Unexpected "device_type 与已建档设备不一致"
      else
        let diagnostic :=
          match reg_school_name registration with
          | Some s => if String.eqb s (dr_school_name record) then None
                      else AppendDiagnostic None "拒绝设备自动迁移学校"
          | None => None
          end in
        let '(diagnostic, old_role, new_role, label) :=
          registration_role reg record (reg_dcdw_label registration) diagnostic in
        let online := bool_decide (reg_status registration = kRegOnline) in
        let new_record :=
          {| dr_device_id := dr_device_id record;
             dr_school_id := dr_school_id record;
             dr_school_name := dr_school_name record;
             dr_dcdw_label := label;
             dr_model_version := dr_model_version record;
             dr_status := if online then kOnline else kOffline;
             dr_last_seen_at := if online then Some received_at else dr_last_seen_at record;
             dr_latest_telemetry := dr_latest_telemetry record;
             dr_telemetry_received_at := dr_telemetry_received_at record;
             dr_revision := u64 (dr_revision record + 1);
             dr_device_type := dr_device_type record;
             dr_capabilities := match reg_capabilities registration with
                                | Some c => Some c | None => dr_capabilities record end;
             dr_product := match reg_product registration with
                           | Some p => Some p | None => dr_product record end;
             dr_version := match reg_version registration with
                           | Some v => Some v | None => dr_version record end |} in
        Ok ({| mut_record := new_record;
               mut_reason := if online then kRegistrationOnline else kRegistrationOffline;
               mut_status_changed :=
                 negb (bool_decide (dr_status record = dr_status new_record));
               mut_diagnostic := diagnostic |},
            commit_record reg record new_record old_role new_role)
  end.

(** The role a telemetry message gives to a record that has none. *)
Definition telemetry_role (reg : DeviceRegistry) (record : DeviceRecord)
    (label : option string) : option string * option RoleKey * option string :=
  match dr_dcdw_label record, label with
  | None, Some l =>
      let candidate := (dr_school_id record, l) in
      match roles reg !! candidate with
      | Some owner =>
          if String.eqb owner (dr_device_id record) then (None, None, Some l)
          else (Some "拒绝同校冲突角色号", None, None)
      | None => (None, Some candidate, Some l)
      end
  | old, _ => (None, None, old)
  end.

Definition ApplyTelemetry (reg : DeviceRegistry) (device_id : string)
    (telemetry : Telemetry) (received_at : TimePoint) :
    expected (Mutation * DeviceRegistry) string :=
  match records reg !! device_id with
  | None => Unexpected ("未知设备: " +:+ device_id)
  | Some record =>
      if match tel_device_type telemetry with
         | Some ty => negb (bool_decide (ty = dr_device_type record))
         | None => false
         end
      then Unexpected "device_type 与已建档设备不一致"
      else
        let '(diagnostic, new_role, label) :=
          telemetry_role reg record (tel_dcdw_label telemetry) in
        let new_record :=
          {| dr_device_id := dr_device_id record;
             dr_school_id := dr_school_id record;
             dr_school_name := dr_school_name record;
             dr_dcdw_label := label;
             dr_model_version := dr_model_version record;
             dr_status := kOnline;
             dr_last_seen_at := Some received_at;
             dr_latest_telemetry := Some (tel_payload telemetry);
             dr_telemetry_received_at := Some received_at;
             dr_revision := u64 (dr_revision record + 1);
             dr_device_type := dr_device_type record;
             dr_capabilities := dr_capabilities record;
             dr_product := dr_product record;
             dr_version := dr_version record |} in
        Ok ({| mut_record := new_record;
               mut_reason := kTelemetryReason;
               mut_status_changed :=
                 negb (bool_decide (dr_status record = dr_status new_record));
               mut_diagnostic := diagnostic |},
            commit_record reg record new_record None new_role)
  end.

(** A device that is online and was last heard of at least [timeout] ago. *)
Definition is_inactive (now timeout : TimePoint) (record : DeviceRecord) : bool :=
  bool_decide (dr_status record = kOnline)
  && match dr_last_seen_at record with
     | Some seen => negb (now - seen <? timeout)
     | None => false
     end.

Definition expire_record (record : DeviceRecord) : DeviceRecord :=
  {| dr_device_id := dr_device_id record;
     dr_school_id := dr_school_id record;
     dr_school_name := dr_school_name record;
     dr_dcdw_label := dr_dcdw_label record;
     dr_model_version := dr_model_version record;
     dr_status := kOffline;
     dr_last_seen_at := dr_last_seen_at record;
     dr_latest_telemetry := dr_latest_telemetry record;
     dr_telemetry_received_at := dr_telemetry_received_at record;
     dr_revision := u64 (dr_revision record + 1);
     dr_device_type := dr_device_type record;
     dr_capabilities := dr_capabilities record;
     dr_product := dr_product record;
     dr_version := dr_version record |}.

Definition expire_mutation (record : DeviceRecord) : Mutation :=
  {| mut_record := expire_record record; mut_reason := kActivityTimeout;
     mut_status_changed := true; mut_diagnostic := None |}.

Section Iteration.
Context `{MapOrder}.

(** The two loops: collect the expired entries in iteration order, then replace
    each of them in place. *)
Definition expired_entries (reg : DeviceRegistry) (now timeout : TimePoint) :
    list (string * DeviceRecord) :=
  filter (λ kv, is_inactive now timeout kv.2 = true) (map_order (records reg)).

Definition ExpireInactive (reg : DeviceRegistry) (now timeout : TimePoint) :
    list Mutation * DeviceRegistry :=
  let expired := expired_entries reg now timeout in
  ((λ kv, expire_mutation kv.2) <$> expired,
   {| records := foldl (λ m kv, <[kv.1 := expire_record kv.2]> m) (records reg) expired;
      roles := roles reg; named_roles := named_roles reg |}).

Definition record_le (a b : DeviceRecord) : Prop :=
  String.le (dr_device_id a) (dr_device_id b).
#[export] Instance record_le_dec : RelDecision record_le.
Proof. intros a b. unfold record_le. apply _. Defined.

Definition ListDevices (reg : DeviceRegistry) : list DeviceRecord :=
  merge_sort record_le (map_order (records reg)).*2.

Definition ListOnlineDevices (reg : DeviceRegistry) : list DeviceRecord :=
  merge_sort record_le
    (filter (λ r, dr_status r = kOnline) (map_order (records reg)).*2).
End Iteration.

Definition AddProvisioned (reg : DeviceRegistry) (record : DeviceRecord) :
    expected DeviceRegistry string :=
  match records reg !! dr_device_id record with
  | Some _ => Unexpected ("重复 device_id: " +:+ dr_device_id record)
  | None =>
      match dr_dcdw_label record with
      | None =>
          Ok {| records := <[dr_device_id record := record]> (records reg);
                roles := roles reg; named_roles := AddNamedRole (named_roles reg) record |}
      | Some label =>
          let key := (dr_school_id record, label) in
          match roles reg !! key with
          | Some _ => Unexpected ("同校角色号冲突: " +:+ label)
          | None =>
              Ok {| records := <[dr_device_id record := record]> (records reg);
                    roles := <[key := dr_device_id record]> (roles reg);
                    named_roles := AddNamedRole (named_roles reg) record |}
          end
      end
  end.

Definition Find (reg : DeviceRegistry) (device_id : string) : option DeviceRecord :=
  records reg !! device_id.

Definition FindBySchoolAndLabel (reg : DeviceRegistry) (school_id : Z) (label : string) :
    option DeviceRecord :=
  match roles reg !! (school_id, label) with
  | Some id => Find reg id
  | None => None
  end.

Definition FindBySchoolNameAndLabel (reg : DeviceRegistry)
    (school_name label : string) : option DeviceRecord :=
  match named_roles reg !! (school_name, label) with
  | Some [id] => Find reg id
  | _ => None
  end.

Definition IsSchoolNameAndLabelAmbiguous (reg : DeviceRegistry)
    (school_name label : string) : bool :=
  match named_roles reg !! (school_name, label) with
  | Some ids => (1 <? length ids)%nat
  | None => false
  end.

(** ** The operations as steps

    Every call that changes a directory, for the statements about histories. *)
Inductive RegistryOp :=
| OpLoad (rs : list DeviceRecord)
| OpRegistration (r : Registration) (received_at : TimePoint)
| OpTelemetry (device_id : string) (t : Telemetry) (received_at : TimePoint)
| OpExpire (now timeout : TimePoint)
| OpProvision (record : DeviceRecord).

Definition run_op `{MapOrder} (reg : DeviceRegistry) (op : RegistryOp) : DeviceRegistry :=
  match op with
  | OpLoad rs => match Load rs with Ok reg' => reg' | Unexpected _ => reg end
  | OpRegistration r received_at =>
      match ApplyRegistration reg r received_at with Ok (_, reg') => reg' | _ => reg end
  | OpTelemetry id t received_at =>
      match ApplyTelemetry reg id t received_at with Ok (_, reg') => reg' | _ => reg end
  | OpExpire now timeout => (ExpireInactive reg now timeout).2
  | OpProvision record =>
      match AddProvisioned reg record with Ok reg' => reg' | _ => reg end
  end.

Definition run_ops `{MapOrder} (reg : DeviceRegistry) (ops : list RegistryOp) :
    DeviceRegistry := foldl run_op reg ops.

(** ** The invariant

    [roles] and [named_roles] are exactly the inverse of the labels of the
    records; a named role never maps to an empty list. *)
Definition in_role (r : DeviceRecord) (k : RoleKey) : Prop :=
  dr_school_id r = k.1 ∧ dr_dcdw_label r = Some k.2.
Definition in_named_role (r : DeviceRecord) (k : NamedRoleKey) : Prop :=
  dr_school_name r = k.1 ∧ dr_dcdw_label r = Some k.2.

Definition ids_ok (recs : gmap string DeviceRecord) : Prop :=
  ∀ id r, recs !! id = Some r → dr_device_id r = id.
Definition roles_ok (recs : gmap string DeviceRecord) (ro : gmap RoleKey string) : Prop :=
  ∀ k id, ro !! k = Some id ↔ ∃ r, recs !! id = Some r ∧ in_role r k.
Definition named_ids (named : NamedRoles) (k : NamedRoleKey) : list string :=
  default [] (named !! k).
Definition named_ok (recs : gmap string DeviceRecord) (named : NamedRoles) : Prop :=
  ∀ k, named !! k ≠ Some [] ∧ NoDup (named_ids named k) ∧
       ∀ id, id ∈ named_ids named k ↔ ∃ r, recs !! id = Some r ∧ in_named_role r k.

Definition registry_ok (reg : DeviceRegistry) : Prop :=
  ids_ok (records reg) ∧ roles_ok (records reg) (roles reg) ∧
  named_ok (records reg) (named_roles reg).

(** The two ways an accepted message changes a role: not at all, or the record
    moves from its old role, if any, to a free one. *)
Definition role_step (reg : DeviceRegistry) (record : DeviceRecord)
    (old_role new_role : option RoleKey) (label : option string) : Prop :=
  (old_role = None ∧ new_role = None ∧ label = dr_dcdw_label record) ∨
  (∃ l, label = Some l ∧ new_role = Some (dr_school_id record, l) ∧
        roles reg !! (dr_school_id record, l) = None ∧
        old_role = (λ l0, (dr_school_id record, l0)) <$> dr_dcdw_label record).

(** *** Replacing one record *)
Lemma ids_ok_insert recs id r :
  ids_ok recs → dr_device_id r = id → ids_ok (<[id := r]> recs).
Proof. intros H Hr i r' Hl. destruct (decide (id = i)); simplify_map_eq; eauto. Qed.

(** Same school and label: neither index changes. *)
Lemma roles_ok_keep recs ro id r r' :
  roles_ok recs ro → recs !! id = Some r →
  dr_school_id r' = dr_school_id r → dr_dcdw_label r' = dr_dcdw_label r →
  roles_ok (<[id := r']> recs) ro.
Proof.
  intros H Hr Hs Hl k i. rewrite (H k i). unfold in_role.
  destruct (decide (id = i)) as [->|]; simplify_map_eq; [|done].
  rewrite ?Hr. split; intros (x & ? & ?); simplify_eq; eexists; (split; [done|]); congruence.
Qed.

Lemma named_ok_keep recs named id r r' :
  named_ok recs named → recs !! id = Some r →
  dr_school_name r' = dr_school_name r → dr_dcdw_label r' = dr_dcdw_label r →
  named_ok (<[id := r']> recs) named.
Proof.
  intros H Hr Hs Hl k. destruct (H k) as (H1 & H2 & H3).
  split; [done|]. split; [done|]. intros i. rewrite (H3 i). unfold in_named_role.
  destruct (decide (id = i)) as [->|]; simplify_map_eq; [|done].
  rewrite ?Hr. split; intros (x & ? & ?); simplify_eq; eexists; (split; [done|]); congruence.
Qed.

(** A record without a label takes a free role. *)
Definition unlabelled (recs : gmap string DeviceRecord) (id : string) : Prop :=
  ∀ r, recs !! id = Some r → dr_dcdw_label r = None.

Lemma roles_ok_add recs ro id r l :
  roles_ok recs ro → unlabelled recs id → dr_dcdw_label r = Some l →
  ro !! (dr_school_id r, l) = None →
  roles_ok (<[id := r]> recs) (<[(dr_school_id r, l) := id]> ro).
Proof.
  intros H Hu Hl Hf k i. split.
  - intros Hk. destruct (decide (k = (dr_school_id r, l))) as [->|]; simplify_map_eq.
    + exists r. by simplify_map_eq.
    + apply H in Hk as (x & Hx & Hin). exists x. split; [|done].
      rewrite lookup_insert_ne; [done|]. intros <-.
      destruct Hin as [_ Hlab]. by rewrite (Hu x Hx) in Hlab.
  - intros (x & Hx & Hin). destruct (decide (id = i)) as [->|]; simplify_map_eq.
    + destruct k as [z s], Hin as [Hz Hs]; cbn in Hz, Hs. rewrite Hl in Hs.
      simplify_eq. by rewrite lookup_insert_eq.
    + assert (ro !! k = Some i) as Hk by (apply H; eauto).
      rewrite lookup_insert_ne; [done|]. intros <-. congruence.
Qed.

Lemma named_ids_add named r k :
  named_ids (AddNamedRole named r) k =
    if decide (in_named_role r k) then named_ids named k ++ [dr_device_id r]
    else named_ids named k.
Proof.
  unfold named_ids, AddNamedRole, in_named_role. destruct k as [n l]. cbn.
  destruct (dr_dcdw_label r) as [l'|] eqn:E; [|by rewrite decide_False by naive_solver].
  destruct (decide ((dr_school_name r, l') = (n, l))) as [Heq|Hne].
  - simplify_eq. by rewrite decide_True, lookup_insert_eq by done.
  - rewrite lookup_insert_ne by done. by rewrite decide_False by naive_solver.
Qed.

Lemma AddNamedRole_nonempty named r k :
  named !! k ≠ Some [] → AddNamedRole named r !! k ≠ Some [].
Proof.
  unfold AddNamedRole. destruct (dr_dcdw_label r) as [l|]; [|done]. intros H.
  destruct (decide ((dr_school_name r, l) = k)) as [<-|]; simplify_map_eq; [|done].
  intros [=E]. by destruct (default [] _).
Qed.

Lemma named_ok_add recs named id r :
  named_ok recs named → unlabelled recs id → dr_device_id r = id →
  named_ok (<[id := r]> recs) (AddNamedRole named r).
Proof.
  intros H Hu Hid k. destruct (H k) as (H1 & H2 & H3).
  split; [by apply AddNamedRole_nonempty|].
  assert (id ∉ named_ids named k) as Hnotin.
  { rewrite H3. intros (x & Hx & _ & Hl). by rewrite (Hu x Hx) in Hl. }
  rewrite named_ids_add. case_decide as Hin.
  - split; [apply NoDup_app; split; [done|]; split;
      [intros x Hx ->%list_elem_of_singleton; by subst|apply NoDup_singleton]|].
    intros i. rewrite elem_of_app, list_elem_of_singleton, H3.
    destruct (decide (id = i)) as [<-|].
    + split; [intros _; exists r; by simplify_map_eq|naive_solver].
    + rewrite lookup_insert_ne by done. naive_solver.
  - split; [done|]. intros i. rewrite H3.
    destruct (decide (id = i)) as [<-|]; simplify_map_eq; [|done].
    split; [intros (x & Hx & _ & Hl); by rewrite (Hu x Hx) in Hl|naive_solver].
Qed.

(** A record gives its role up. *)
Definition unlabel (r : DeviceRecord) : DeviceRecord :=
  {| dr_device_id := dr_device_id r; dr_school_id := dr_school_id r;
     dr_school_name := dr_school_name r; dr_dcdw_label := None;
     dr_model_version := dr_model_version r; dr_status := dr_status r;
     dr_last_seen_at := dr_last_seen_at r; dr_latest_telemetry := dr_latest_telemetry r;
     dr_telemetry_received_at := dr_telemetry_received_at r;
     dr_revision := dr_revision r; dr_device_type := dr_device_type r;
     dr_capabilities := dr_capabilities r; dr_product := dr_product r;
     dr_version := dr_version r |}.

Lemma roles_ok_remove recs ro id r l :
  roles_ok recs ro → recs !! id = Some r → dr_dcdw_label r = Some l →
  roles_ok (<[id := unlabel r]> recs) (delete (dr_school_id r, l) ro).
Proof.
  intros H Hr Hl k i.
  assert (ro !! (dr_school_id r, l) = Some id) as Hown by (apply H; exists r; done).
  split.
  - intros Hk. destruct (decide (k = (dr_school_id r, l))) as [->|]; simplify_map_eq.
    apply H in Hk as (x & Hx & Hin). exists x. split; [|done].
    rewrite lookup_insert_ne; [done|]. intros <-. simplify_eq.
    destruct Hin as [? ?], k; cbn in *; congruence.
  - intros (x & Hx & Hin). destruct (decide (id = i)) as [->|]; simplify_map_eq.
    + by destruct Hin.
    + rewrite lookup_delete_ne; [apply H; eauto|]. intros <-.
      assert (ro !! (dr_school_id r, l) = Some i) by (apply H; eauto). congruence.
Qed.

Lemma named_ids_remove named r k :
  named_ids (RemoveNamedRole named r) k =
    if decide (in_named_role r k)
    then filter (λ id, id ≠ dr_device_id r) (named_ids named k)
    else named_ids named k.
Proof.
  unfold named_ids, RemoveNamedRole, in_named_role. destruct k as [n l]. cbn.
  destruct (dr_dcdw_label r) as [l'|] eqn:E; [|by rewrite decide_False by naive_solver].
  destruct (decide ((dr_school_name r, l') = (n, l))) as [Heq|Hne].
  - simplify_eq. rewrite decide_True by done.
    destruct (named !! (dr_school_name r, l)) as [ids|] eqn:Ek; [|by rewrite Ek]. cbn.
    destruct (filter _ ids); [by rewrite lookup_delete_eq|by rewrite lookup_insert_eq].
  - rewrite decide_False by naive_solver.
    destruct (named !! (dr_school_name r, l')) as [ids|]; [|done].
    destruct (filter _ ids);
      [by rewrite lookup_delete_ne by done|by rewrite lookup_insert_ne by done].
Qed.

Lemma RemoveNamedRole_nonempty named r k :
  named !! k ≠ Some [] → RemoveNamedRole named r !! k ≠ Some [].
Proof.
  unfold RemoveNamedRole. destruct (dr_dcdw_label r) as [l|]; [|done]. intros H.
  destruct (named !! (dr_school_name r, l)) as [ids|]; [|done].
  destruct (filter _ ids) eqn:E; destruct (decide ((dr_school_name r, l) = k)) as [<-|];
    by simplify_map_eq.
Qed.

Lemma named_ok_remove recs named id r :
  named_ok recs named → recs !! id = Some r → dr_device_id r = id →
  named_ok (<[id := unlabel r]> recs) (RemoveNamedRole named r).
Proof.
  intros H Hr Hid k. destruct (H k) as (H1 & H2 & H3).
  split; [by apply RemoveNamedRole_nonempty|]. rewrite named_ids_remove.
  split; [case_decide; [by apply NoDup_filter|done]|]. intros i.
  case_decide as Hin; rewrite ?list_elem_of_filter, H3;
    (destruct (decide (id = i)) as [<-|]; simplify_map_eq; [|naive_solver]).
  - split; [naive_solver|]. intros (x & ? & _ & Hl). by simplify_eq.
  - split; [intros (x & ? & ?); by simplify_eq|]. intros (x & ? & _ & Hl). by simplify_eq.
Qed.

(** *** The operations keep the invariant *)
Lemma empty_registry_ok : registry_ok empty_registry.
Proof.
  split; [intros ? ? H; simplify_map_eq|]. split.
  - intros k id. cbn. split; [intros H; simplify_map_eq|].
    intros (r & H & _). simplify_map_eq.
  - intros k. cbn. unfold named_ids. rewrite lookup_empty. cbn.
    split; [done|]. split; [apply NoDup_nil_2|]. intros id.
    split; [intros H; by apply elem_of_nil in H|]. intros (r & H & _). simplify_map_eq.
Qed.

Lemma unlabelled_fresh recs id : recs !! id = None → unlabelled recs id.
Proof. intros H r Hr. congruence. Qed.

Lemma registry_ok_add reg r :
  registry_ok reg → records reg !! dr_device_id r = None →
  (∀ l, dr_dcdw_label r = Some l → roles reg !! (dr_school_id r, l) = None) →
  registry_ok {| records := <[dr_device_id r := r]> (records reg);
                 roles := match dr_dcdw_label r with
                          | Some l => <[(dr_school_id r, l) := dr_device_id r]> (roles reg)
                          | None => roles reg
                          end;
                 named_roles := AddNamedRole (named_roles reg) r |}.
Proof.
  intros (H1 & H2 & H3) Hfresh Hfree. pose proof (unlabelled_fresh _ _ Hfresh) as Hu.
  split; [by apply ids_ok_insert|]. split; [|by apply named_ok_add]. cbn.
  destruct (dr_dcdw_label r) as [l|] eqn:El; [apply roles_ok_add; auto|].
  intros k id. rewrite (H2 k id). split.
  - intros (x & Hx & Hin). exists x. split; [|done]. rewrite lookup_insert_ne; [done|].
    intros <-. congruence.
  - intros (x & Hx & Hin). destruct (decide (dr_device_id r = id)) as [<-|]; simplify_map_eq.
    + destruct Hin. congruence.
    + eauto.
Qed.

Lemma AddNamedRole_unlabelled named r : dr_dcdw_label r = None → AddNamedRole named r = named.
Proof. unfold AddNamedRole. by intros ->. Qed.

(** What an accepted new record is appended to, for [Load] and [AddProvisioned]. *)
Definition add_record (reg : DeviceRegistry) (r : DeviceRecord) : DeviceRegistry :=
  {| records := <[dr_device_id r := r]> (records reg);
     roles := match dr_dcdw_label r with
              | Some l => <[(dr_school_id r, l) := dr_device_id r]> (roles reg)
              | None => roles reg
              end;
     named_roles := AddNamedRole (named_roles reg) r |}.

Definition addable (reg : DeviceRegistry) (r : DeviceRecord) : Prop :=
  records reg !! dr_device_id r = None ∧
  ∀ l, dr_dcdw_label r = Some l → roles reg !! (dr_school_id r, l) = None.

Lemma load_record_spec reg r :
  load_record reg r = Ok (add_record reg r) ∧ addable reg r ∨
  is_ok (load_record reg r) = false ∧ ¬ addable reg r.
Proof.
  unfold load_record, add_record, addable.
  destruct (records reg !! _) eqn:E1; [right; split; [done|naive_solver]|].
  destruct (dr_dcdw_label r) as [l|] eqn:E2.
  - destruct (roles reg !! _) eqn:E3.
    + right. split; [done|]. intros [_ H]. by rewrite (H l eq_refl) in E3.
    + left. split; [done|]. split; [done|]. by intros ? [= <-].
  - left. rewrite AddNamedRole_unlabelled by done. by split.
Qed.

Lemma AddProvisioned_spec reg r :
  AddProvisioned reg r = Ok (add_record reg r) ∧ addable reg r ∨
  is_ok (AddProvisioned reg r) = false ∧ ¬ addable reg r.
Proof.
  unfold AddProvisioned, add_record, addable.
  destruct (records reg !! _) eqn:E1; [right; split; [done|naive_solver]|].
  destruct (dr_dcdw_label r) as [l|] eqn:E2.
  - destruct (roles reg !! _) eqn:E3.
    + right. split; [done|]. intros [_ H]. by rewrite (H l eq_refl) in E3.
    + left. split; [done|]. split; [done|]. by intros ? [= <-].
  - left. by split.
Qed.

Lemma load_loop_ok rs new reg :
  registry_ok new → load_loop new rs = Ok reg → registry_ok reg.
Proof.
  revert new. induction rs as [|r rs IH]; intros new Hn; cbn; [by intros [= <-]|].
  destruct (load_record_spec new r) as [[-> [Hf Hl]]|[Hk _]].
  - apply IH. by apply registry_ok_add.
  - by destruct (load_record new r).
Qed.

Lemma registration_role_spec reg record label d0 d old_role new_role lab :
  registry_ok reg → records reg !! dr_device_id record = Some record →
  registration_role reg record label d0 = (d, old_role, new_role, lab) →
  role_step reg record old_role new_role lab.
Proof.
  intros (_ & Hro & _) Hr. unfold registration_role.
  destruct label as [l|]; [|intros [= <- <- <- <-]; by left].
  case_bool_decide as Hl; [intros [= <- <- <- <-]; by left|].
  destruct (roles reg !! (dr_school_id record, l)) as [owner|] eqn:Eo.
  - destruct (String.eqb owner (dr_device_id record)) eqn:Eq.
    + apply String.eqb_eq in Eq as ->. apply Hro in Eo as (x & Hx & _ & Hxl). cbn in Hxl.
      congruence.
    + intros [= <- <- <- <-]. by left.
  - intros [= <- <- <- <-]. right. by exists l.
Qed.

(** The three updates of [commit_record] keep the indexes in step. *)
Lemma commit_record_ok reg record new_record old_role new_role :
  registry_ok reg → records reg !! dr_device_id record = Some record →
  dr_device_id new_record = dr_device_id record →
  dr_school_id new_record = dr_school_id record →
  dr_school_name new_record = dr_school_name record →
  role_step reg record old_role new_role (dr_dcdw_label new_record) →
  registry_ok (commit_record reg record new_record old_role new_role).
Proof.
  intros (H1 & H2 & H3) Hr Hid Hs Hn Hcase. unfold commit_record.
  split; [by apply ids_ok_insert|].
  destruct Hcase as [(-> & -> & Hl)|(l & Hl & -> & Hfree & ->)]; cbn.
  - split; [by eapply roles_ok_keep|by eapply named_ok_keep].
  - destruct (dr_dcdw_label record) as [l0|] eqn:E0; cbn.
    + set (recs := <[dr_device_id record := unlabel record]> (records reg)).
      assert (unlabelled recs (dr_device_id record)) as Hu.
      { intros x Hx. subst recs. by simplify_map_eq. }
      rewrite <- (insert_insert_eq (records reg) (dr_device_id record) new_record
        (unlabel record)). fold recs.
      assert (l0 ≠ l) as Hne.
      { intros ->. assert (roles reg !! (dr_school_id record, l) =
          Some (dr_device_id record)) by (apply H2; by exists record). congruence. }
      split.
      * rewrite delete_insert_ne by congruence. rewrite <- Hs.
        apply roles_ok_add; [rewrite Hs; by apply roles_ok_remove|done..|].
        rewrite Hs, lookup_delete_ne; congruence.
      * apply named_ok_add; [|done..]. by apply named_ok_remove.
    + assert (unlabelled (records reg) (dr_device_id record)) as Hu.
      { intros x Hx. congruence. }
      split; [rewrite <- Hs; apply roles_ok_add; [done..|by rewrite Hs]|].
      by apply named_ok_add.
Qed.

Lemma records_find_id reg id r :
  registry_ok reg → records reg !! id = Some r →
  records reg !! dr_device_id r = Some r.
Proof. intros (H & _) Hr. by rewrite (H id r Hr). Qed.

Lemma ApplyRegistration_ok reg r at_ m reg' :
  registry_ok reg → ApplyRegistration reg r at_ = Ok (m, reg') → registry_ok reg'.
Proof.
  intros Hok. unfold ApplyRegistration.
  destruct (records reg !! reg_device_id r) as [record|] eqn:Hr; [|done].
  pose proof (records_find_id _ _ _ Hok Hr) as Hrec.
  destruct (negb _); [done|].
  destruct (registration_role _ _ _ _) as [[[d old_role] new_role] lab] eqn:Erole.
  intros [= <- <-]. apply registration_role_spec in Erole; [|done..].
  by apply commit_record_ok.
Qed.

Lemma telemetry_role_spec reg record label d new_role lab :
  registry_ok reg → records reg !! dr_device_id record = Some record →
  telemetry_role reg record label = (d, new_role, lab) →
  role_step reg record None new_role lab.
Proof.
  intros (_ & Hro & _) Hr. unfold telemetry_role, role_step.
  destruct (dr_dcdw_label record) as [l0|] eqn:E0; [intros [= <- <- <-]; by left|].
  destruct label as [l|]; [|intros [= <- <- <-]; by left].
  destruct (roles reg !! (dr_school_id record, l)) as [owner|] eqn:Eo.
  - destruct (String.eqb owner (dr_device_id record)) eqn:Eq;
      [|intros [= <- <- <-]; by left].
    apply String.eqb_eq in Eq as ->. apply Hro in Eo as (x & Hx & _ & Hxl). cbn in Hxl.
    congruence.
  - intros [= <- <- <-]. right. by exists l.
Qed.

Lemma ApplyTelemetry_ok reg id t at_ m reg' :
  registry_ok reg → ApplyTelemetry reg id t at_ = Ok (m, reg') → registry_ok reg'.
Proof.
  intros Hok. unfold ApplyTelemetry.
  destruct (records reg !! id) as [record|] eqn:Hr; [|done].
  pose proof (records_find_id _ _ _ Hok Hr) as Hrec.
  match goal with |- context [if ?b then _ else _] => destruct b; [done|] end.
  destruct (telemetry_role _ _ _) as [[d new_role] lab] eqn:Erole.
  intros [= <- <-]. apply telemetry_role_spec in Erole; [|done..].
  by apply commit_record_ok.
Qed.

(** *** Expiry *)
Section Expiry.
Context `{MapOrder}.

(** Replacing the listed entries one by one. *)
Lemma foldl_insert_lookup (f : DeviceRecord → DeviceRecord)
    (l : list (string * DeviceRecord)) (m : gmap string DeviceRecord) id :
  NoDup l.*1 →
  foldl (λ m kv, <[kv.1 := f kv.2]> m) m l !! id =
    match (list_to_map l : gmap string DeviceRecord) !! id with
    | Some r => Some (f r) | None => m !! id end.
Proof.
  revert m. induction l as [|[k v] l IH]; intros m Hnd; cbn; [by rewrite lookup_empty|].
  cbn in Hnd. apply NoDup_cons in Hnd as [Hk Hnd]. rewrite IH by done.
  destruct (decide (k = id)) as [->|].
  - rewrite not_elem_of_list_to_map_1 by done. by rewrite !lookup_insert_eq.
  - rewrite (lookup_insert_ne (list_to_map l : gmap string DeviceRecord)) by done.
    by destruct ((list_to_map l : gmap string DeviceRecord) !! id);
      rewrite ?lookup_insert_ne.
Qed.

Lemma expired_entries_lookup reg now timeout id r :
  (id, r) ∈ expired_entries reg now timeout ↔
  records reg !! id = Some r ∧ is_inactive now timeout r = true.
Proof.
  unfold expired_entries. rewrite list_elem_of_filter, map_order_lookup. cbn. tauto.
Qed.

Lemma expired_entries_NoDup reg now timeout : NoDup (expired_entries reg now timeout).*1.
Proof.
  unfold expired_entries. pose proof (map_order_NoDup (records reg)) as Hnd.
  induction (map_order (records reg)) as [|[k v] l IH]; [done|].
  rewrite fmap_cons, NoDup_cons in Hnd. destruct Hnd as [Hk Hnd]. rewrite filter_cons.
  case_decide; [|auto]. rewrite fmap_cons, NoDup_cons. split; [|auto].
  intros Hin. apply Hk. apply list_elem_of_fmap in Hin as ([k' v'] & ? & Hin).
  simplify_eq/=. apply list_elem_of_filter in Hin as [_ Hin].
  apply list_elem_of_fmap. by exists (k', v').
Qed.

Lemma expire_lookup reg now timeout id :
  records (ExpireInactive reg now timeout).2 !! id =
    (λ r, if is_inactive now timeout r then expire_record r else r) <$> records reg !! id.
Proof.
  cbn. rewrite foldl_insert_lookup by apply expired_entries_NoDup.
  destruct ((list_to_map (expired_entries reg now timeout) : gmap string DeviceRecord) !! id)
    as [r|] eqn:E.
  - apply elem_of_list_to_map_2, expired_entries_lookup in E as [-> Hi]. cbn. by rewrite Hi.
  - destruct (records reg !! id) as [r|] eqn:Er; [|done]. cbn.
    destruct (is_inactive now timeout r) eqn:Hi; [|done].
    apply not_elem_of_list_to_map in E. destruct E.
    apply list_elem_of_fmap. exists (id, r). split; [done|].
    by apply expired_entries_lookup.
Qed.

Lemma ExpireInactive_ok reg now timeout :
  registry_ok reg → registry_ok (ExpireInactive reg now timeout).2.
Proof.
  intros (H1 & H2 & H3).
  assert (∀ id r', records (ExpireInactive reg now timeout).2 !! id = Some r' →
    ∃ r, records reg !! id = Some r ∧ dr_device_id r' = dr_device_id r ∧
      dr_school_id r' = dr_school_id r ∧ dr_school_name r' = dr_school_name r ∧
      dr_dcdw_label r' = dr_dcdw_label r) as Back.
  { intros id r'. rewrite expire_lookup. destruct (records reg !! id) as [r|]; [|done].
    cbn. intros [= <-]. exists r. by destruct (is_inactive now timeout r). }
  assert (∀ id r, records reg !! id = Some r →
    ∃ r', records (ExpireInactive reg now timeout).2 !! id = Some r' ∧
      dr_school_id r' = dr_school_id r ∧ dr_school_name r' = dr_school_name r ∧
      dr_dcdw_label r' = dr_dcdw_label r) as Forth.
  { intros id r Hr. rewrite expire_lookup, Hr. cbn. eexists. split; [done|].
    by destruct (is_inactive now timeout r). }
  split; [|split].
  - intros id r' Hr'. destruct (Back id r' Hr') as (r & Hr & -> & _). eauto.
  - intros k id. change (roles (ExpireInactive reg now timeout).2) with (roles reg).
    rewrite (H2 k id). unfold in_role. split.
    + intros (r & Hr & Hs & Hl). destruct (Forth id r Hr) as (r' & Hr' & ? & _ & ?).
      exists r'. split; [done|]. split; congruence.
    + intros (r' & Hr' & Hs & Hl). destruct (Back id r' Hr') as (r & Hr & _ & ? & _ & ?).
      exists r. split; [done|]. split; congruence.
  - intros k. change (named_roles (ExpireInactive reg now timeout).2) with (named_roles reg).
    destruct (H3 k) as (? & ? & Hin). split; [done|]. split; [done|].
    intros id. rewrite (Hin id). unfold in_named_role. split.
    + intros (r & Hr & Hs & Hl). destruct (Forth id r Hr) as (r' & Hr' & _ & ? & ?).
      exists r'. split; [done|]. split; congruence.
    + intros (r' & Hr' & Hs & Hl). destruct (Back id r' Hr') as (r & Hr & _ & _ & ? & ?).
      exists r. split; [done|]. split; congruence.
Qed.
End Expiry.

Lemma run_op_ok `{MapOrder} reg op : registry_ok reg → registry_ok (run_op reg op).
Proof.
  intros Hok. destruct op as [rs|r t|id tel t|now timeout|record]; cbn.
  - destruct (Load rs) as [reg'|] eqn:E; [|done].
    exact (load_loop_ok _ _ _ empty_registry_ok E).
  - destruct (ApplyRegistration reg r t) as [[m reg']|] eqn:E; [|done].
    by eapply ApplyRegistration_ok.
  - destruct (ApplyTelemetry reg id tel t) as [[m reg']|] eqn:E; [|done].
    by eapply ApplyTelemetry_ok.
  - by apply ExpireInactive_ok.
  - destruct (AddProvisioned_spec reg record) as [[-> [Hf Hl]]|[Hk _]].
    + by apply registry_ok_add.
    + by destruct (AddProvisioned reg record).
Qed.

Lemma run_ops_ok `{MapOrder} reg ops : registry_ok reg → registry_ok (run_ops reg ops).
Proof.
  revert reg. induction ops as [|op ops IH]; intros reg Hok; [done|].
  apply IH. by apply run_op_ok.
Qed.
#[export] Hint Resolve empty_registry_ok run_op_ok run_ops_ok : cns.

(** *** Lookups by role *)
Lemma FindBySchoolAndLabel_spec reg s l r :
  registry_ok reg →
  FindBySchoolAndLabel reg s l = Some r ↔
  Find reg (dr_device_id r) = Some r ∧ dr_school_id r = s ∧ dr_dcdw_label r = Some l.
Proof.
  intros (H1 & H2 & _). unfold FindBySchoolAndLabel, Find. split.
  - destruct (roles reg !! (s, l)) as [id|] eqn:E; [|done]. intros Hr.
    apply H2 in E as (x & Hx & Hs & Hl). cbn in Hs, Hl.
    assert (x = r) as -> by congruence. by rewrite (H1 _ _ Hr).
  - intros (Hr & <- & Hl).
    assert (roles reg !! (dr_school_id r, l) = Some (dr_device_id r)) as -> by
      (apply H2; by exists r). done.
Qed.

Lemma named_role_members reg n l :
  registry_ok reg →
  ∀ r, dr_device_id r ∈ named_ids (named_roles reg) (n, l) ∧ Find reg (dr_device_id r) = Some r ↔
       Find reg (dr_device_id r) = Some r ∧ dr_school_name r = n ∧ dr_dcdw_label r = Some l.
Proof.
  intros (H1 & _ & H3) r. destruct (H3 (n, l)) as (_ & _ & Hin). rewrite Hin.
  unfold Find, in_named_role. cbn. split.
  - intros [(x & Hx & ? & ?) Hr]. simplify_eq. done.
  - intros (Hr & ? & ?). split; [by exists r|done].
Qed.

(** C7: After any sequence of registrations, telemetry, upserts and expiries the registry files
    every device under its own identifier, its role index finds exactly the device that holds the
    role, and no two devices of a school hold the same role label. *)
Theorem reachable_registry_ok `{MapOrder} ops :
  let reg := run_ops empty_registry ops in
  (∀ id r, Find reg id = Some r → dr_device_id r = id) ∧
  (∀ s l r, FindBySchoolAndLabel reg s l = Some r ↔
     Find reg (dr_device_id r) = Some r ∧ dr_school_id r = s ∧ dr_dcdw_label r = Some l) ∧
  (∀ id1 id2 r1 r2 l, Find reg id1 = Some r1 → Find reg id2 = Some r2 →
     dr_school_id r1 = dr_school_id r2 → dr_dcdw_label r1 = Some l →
     dr_dcdw_label r2 = Some l → id1 = id2).
Proof.
  intros reg. assert (registry_ok reg) as Hok by (apply run_ops_ok, empty_registry_ok).
  split; [apply Hok|]. split; [intros; by apply FindBySchoolAndLabel_spec|].
  intros id1 id2 r1 r2 l Hr1 Hr2 Hs Hl1 Hl2. destruct Hok as (H1 & H2 & _).
  assert (roles reg !! (dr_school_id r1, l) = Some id1) as E1 by (apply H2; by exists r1).
  assert (roles reg !! (dr_school_id r1, l) = Some id2) as E2 by (apply H2; by exists r2).
  congruence.
Qed.

(** In a reachable registry the lookup by school name and role finds a device exactly when it is
    the only one with that name and role, and the ambiguity test holds exactly when two devices
    share them. *)
Theorem named_role_lookup `{MapOrder} ops n l :
  let reg := run_ops empty_registry ops in
  (∀ r, FindBySchoolNameAndLabel reg n l = Some r ↔
     (Find reg (dr_device_id r) = Some r ∧ dr_school_name r = n ∧ dr_dcdw_label r = Some l) ∧
     ∀ id' r', Find reg id' = Some r' → dr_school_name r' = n → dr_dcdw_label r' = Some l →
       r' = r) ∧
  (IsSchoolNameAndLabelAmbiguous reg n l = true ↔
     ∃ id1 id2 r1 r2, id1 ≠ id2 ∧ Find reg id1 = Some r1 ∧ Find reg id2 = Some r2 ∧
       in_named_role r1 (n, l) ∧ in_named_role r2 (n, l)).
Proof.
  intros reg. assert (registry_ok reg) as Hok by (apply run_ops_ok, empty_registry_ok).
  destruct Hok as (H1 & H2 & H3). destruct (H3 (n, l)) as (Hne & Hnd & Hin).
  unfold FindBySchoolNameAndLabel, IsSchoolNameAndLabelAmbiguous, Find.
  unfold named_ids in Hnd, Hin. unfold in_named_role in Hin |- *.
  cbn [fst snd] in Hin |- *.
  destruct (named_roles reg !! (n, l)) as [ids|] eqn:E; cbn in Hin, Hnd.
  - split.
    + intros r. split.
      * destruct ids as [|i [|j ids]]; try done. intros Hr.
        assert (dr_device_id r = i) as <- by eauto.
        destruct (proj1 (Hin (dr_device_id r))) as (x & Hx & Hxn & Hxl); [left|].
        simplify_eq. split; [done|]. intros id' r' Hr' Hn Hl.
        assert (id' ∈ [dr_device_id r]) as Hid%list_elem_of_singleton
          by (apply Hin; eauto). congruence.
      * intros [(Hr & Hn & Hl) Huniq].
        assert (dr_device_id r ∈ ids) as Hr' by (apply Hin; eauto).
        destruct ids as [|i [|j ids]].
        -- by apply elem_of_nil in Hr'.
        -- apply list_elem_of_singleton in Hr' as <-. done.
        -- exfalso. apply NoDup_cons in Hnd as [Hij _]. apply Hij.
           destruct (proj1 (Hin i)) as (xi & Hxi & ? & ?); [left|].
           destruct (proj1 (Hin j)) as (xj & Hxj & ? & ?); [right; left|].
           assert (xi = r) as -> by eauto. assert (xj = r) as -> by eauto.
           rewrite <- (H1 _ _ Hxi), (H1 _ _ Hxj). left.
    + rewrite Nat.ltb_lt. split.
      * intros Hlen. destruct ids as [|i [|j ids]]; cbn in Hlen; [lia..|].
        destruct (proj1 (Hin i)) as (xi & Hxi & ? & ?); [left|].
        destruct (proj1 (Hin j)) as (xj & Hxj & ? & ?); [right; left|].
        exists i, j, xi, xj. split; [|done]. intros ->. apply NoDup_cons in Hnd as [Hij _].
        apply Hij. left.
      * intros (i & j & xi & xj & Hij & Hi & Hj & ? & ?).
        assert (i ∈ ids) as Hi' by (apply Hin; eauto).
        assert (j ∈ ids) as Hj' by (apply Hin; eauto).
        destruct ids as [|a [|b ids]]; [by apply elem_of_nil in Hi'| |cbn; lia].
        apply list_elem_of_singleton in Hi', Hj'. congruence.
  - assert (∀ id r, records reg !! id = Some r → dr_school_name r = n →
      dr_dcdw_label r = Some l → False) as Hnone.
    { intros id r Hr Hn Hl. assert (id ∈ ([] : list string)) as Hx by (apply Hin; eauto).
      by apply elem_of_nil in Hx. }
    split; [intros r; split; [done|]; intros [(Hr & Hn & Hl) _]; exfalso; eauto|].
    split; [done|]. intros (i & j & xi & xj & _ & Hi & _ & [? ?] & _). exfalso. eauto.
Qed.

(** *** Effect of one message *)

(** C24: The effect of a registration on the registry: refused for an unknown device or another device
    type; otherwise only that device changes, its school is kept, its revision increases by one
    on 64 bits, its status is the one reported, the change of status is flagged exactly when
    there is one, and its role label changes only when no other device of the school holds it. *)
Theorem ApplyRegistration_effect `{MapOrder} ops r received_at :
  let reg := run_ops empty_registry ops in
  match ApplyRegistration reg r received_at with
  | Unexpected _ =>
      ∀ old, Find reg (reg_device_id r) = Some old → dr_device_type old ≠ reg_device_type r
  | Ok (m, reg') =>
      let new := mut_record m in
      ∃ old, Find reg (reg_device_id r) = Some old ∧
        dr_device_type old = reg_device_type r ∧
        (∀ id, Find reg' id = if decide (id = reg_device_id r) then Some new else Find reg id) ∧
        dr_device_id new = reg_device_id r ∧
        dr_school_id new = dr_school_id old ∧ dr_school_name new = dr_school_name old ∧
        dr_revision new = u64 (dr_revision old + 1) ∧
        (dr_status new = kOnline ↔ reg_status r = kRegOnline) ∧
        (mut_status_changed m = true ↔ dr_status old ≠ dr_status new) ∧
        match reg_dcdw_label r with
        | None => dr_dcdw_label new = dr_dcdw_label old
        | Some l =>
            match FindBySchoolAndLabel reg (dr_school_id old) l with
            | Some owner =>
                if decide (dr_device_id owner = reg_device_id r)
                then dr_dcdw_label new = Some l
                else dr_dcdw_label new = dr_dcdw_label old ∧ is_Some (mut_diagnostic m)
            | None => dr_dcdw_label new = Some l
            end
        end
  end.
Proof.
  intros reg. assert (registry_ok reg) as Hok by (apply run_ops_ok, empty_registry_ok).
  unfold ApplyRegistration, Find.
  destruct (records reg !! reg_device_id r) as [old|] eqn:Hr; [|by intros ? ?].
  pose proof (records_find_id _ _ _ Hok Hr) as Hrec.
  assert (dr_device_id old = reg_device_id r) as Hid by (by apply Hok).
  case_bool_decide as Hty; cbn [negb]; [|by intros ? [= <-]].
  destruct (registration_role _ _ _ _) as [[[d old_role] new_role] lab] eqn:Erole.
  cbn. exists old. split; [done|]. split; [done|]. split.
  { intros id. rewrite Hid. case_decide; [subst; by simplify_map_eq|].
    by rewrite lookup_insert_ne. }
  split; [done|]. do 2 (split; [done|]). split; [done|].
  split; [by destruct (reg_status r)|].
  split; [by rewrite negb_true_iff, bool_decide_eq_false|].
  unfold registration_role in Erole.
  destruct (reg_dcdw_label r) as [l|] eqn:El; [|by simplify_eq].
  destruct (FindBySchoolAndLabel reg (dr_school_id old) l) as [owner|] eqn:Ef.
  - apply FindBySchoolAndLabel_spec in Ef as (Ho & Hs & Hl); [|done].
    assert (roles reg !! (dr_school_id old, l) = Some (dr_device_id owner)) as Hro.
    { apply Hok. by exists owner. }
    rewrite Hro in Erole.
    destruct (decide (dr_device_id owner = reg_device_id r)) as [Hown|Hown].
    + case_bool_decide as Hsame; [simplify_eq; by rewrite Hsame|].
      rewrite Hown, <- Hid, String.eqb_refl in Erole. by simplify_eq.
    + case_bool_decide as Hsame.
      * exfalso. apply Hown. rewrite <- Hid. destruct Hok as (_ & H2 & _).
        assert (roles reg !! (dr_school_id old, l) = Some (dr_device_id old)) as Hro'
          by (apply H2; by exists old). congruence.
      * rewrite <- Hid in Hown. apply String.eqb_neq in Hown. rewrite Hown in Erole.
        simplify_eq. split; [done|].
        match goal with |- is_Some (AppendDiagnostic ?d _) => destruct d; by eexists end.
  - case_bool_decide as Hsame; [simplify_eq; by rewrite Hsame|].
    destruct (roles reg !! (dr_school_id old, l)) as [o|] eqn:Hro; [|by simplify_eq].
    exfalso. destruct Hok as (H1 & H2 & _). apply H2 in Hro as (x & Hx & Hxs & Hxl).
    assert (FindBySchoolAndLabel reg (dr_school_id old) l = Some x) as Hx'.
    { unfold FindBySchoolAndLabel, Find. assert (roles reg !! (dr_school_id old, l) = Some o)
        as -> by (apply H2; by exists x). done. }
    congruence.
Qed.

(** Expiry marks offline exactly the inactive devices, reports one mutation for each of them,
    leaves the others as they were, and no device is inactive afterwards. *)
Theorem ExpireInactive_effect `{MapOrder} reg now timeout :
  let '(ms, reg') := ExpireInactive reg now timeout in
  (∀ id, Find reg' id =
     (λ r, if is_inactive now timeout r then expire_record r else r) <$> Find reg id) ∧
  (∀ m, m ∈ ms ↔ ∃ id r, Find reg id = Some r ∧ is_inactive now timeout r = true ∧
                          m = expire_mutation r) ∧
  (∀ id r, Find reg' id = Some r → is_inactive now timeout r = false).
Proof.
  pose proof (expire_lookup reg now timeout) as Hl.
  destruct (ExpireInactive reg now timeout) as [ms reg'] eqn:E.
  unfold Find. split; [exact Hl|]. split.
  - unfold ExpireInactive in E. simplify_eq/=. intros m. rewrite list_elem_of_fmap. split.
    + intros ([id r] & -> & Hin). apply expired_entries_lookup in Hin as [? ?]. eauto.
    + intros (id & r & Hr & Hi & ->). exists (id, r). split; [done|].
      by apply expired_entries_lookup.
  - intros id r Hr. specialize (Hl id). cbn in Hl. rewrite Hr in Hl.
    destruct (records reg !! id) as [x|]; [|done]. cbn in Hl. simplify_eq.
    destruct (is_inactive now timeout x) eqn:Ex; [|done].
    unfold is_inactive. by cbn.
Qed.

(** *** Listings do not depend on the hash order *)
#[export] Instance record_le_trans : Transitive record_le.
Proof. intros a b c. unfold record_le. apply transitivity. Qed.
#[export] Instance record_le_total : Total record_le.
Proof. intros a b. unfold record_le. apply (total String.le). Qed.

(** The listing does not depend on the order in which the map is walked. *)
Theorem ListDevices_sorted `{O1 : MapOrder, O2 : MapOrder} ops :
  let reg := run_ops (H := O1) empty_registry ops in
  ListDevices (H := O1) reg = ListDevices (H := O2) reg ∧
  StronglySorted record_le (ListDevices (H := O1) reg) ∧
  (∀ r, r ∈ ListDevices (H := O1) reg ↔ Find reg (dr_device_id r) = Some r).
Proof.
  intros reg. assert (registry_ok reg) as Hok by (apply run_ops_ok, empty_registry_ok).
  assert (∀ O : MapOrder, ∀ r, r ∈ ListDevices (H := O) reg ↔
    Find reg (dr_device_id r) = Some r) as Hin.
  { intros O r. unfold ListDevices. rewrite merge_sort_Permutation, list_elem_of_fmap.
    unfold Find. split.
    - intros ([k x] & -> & Hx). apply map_order_lookup in Hx as Hx.
      by apply (records_find_id reg k).
    - intros Hr. exists (dr_device_id r, r). split; [done|]. by apply map_order_lookup. }
  split; [|split; [apply (StronglySorted_merge_sort _)|apply Hin]].
  apply (StronglySorted_unique_strong record_le).
  - intros a b Ha Hb Hab Hba. apply Hin in Ha, Hb.
    assert (dr_device_id a = dr_device_id b) as E by (by apply (anti_symm String.le)).
    rewrite E in Ha. congruence.
  - apply (StronglySorted_merge_sort _).
  - apply (StronglySorted_merge_sort _).
  - unfold ListDevices. rewrite !merge_sort_Permutation. f_equiv.
    by rewrite !map_order_perm.
Qed.

(** *** Loading a directory *)
Definition role_of (r : DeviceRecord) : option RoleKey :=
  (λ l, (dr_school_id r, l)) <$> dr_dcdw_label r.

(** The maps after the records [rs] have been taken in. *)
Definition loaded (rs : list DeviceRecord) (reg : DeviceRegistry) : Prop :=
  (∀ id r, records reg !! id = Some r ↔ r ∈ rs ∧ id = dr_device_id r) ∧
  (∀ k, is_Some (roles reg !! k) ↔ k ∈ omap role_of rs) ∧
  NoDup (dr_device_id <$> rs) ∧ NoDup (omap role_of rs).

Lemma loaded_addable rs reg r :
  loaded rs reg →
  addable reg r ↔ (dr_device_id r ∉ dr_device_id <$> rs) ∧
                  (∀ k, role_of r = Some k → k ∉ omap role_of rs).
Proof.
  intros (H1 & H2 & _). unfold addable, role_of. f_equiv.
  - split.
    + intros Hn Hin. apply list_elem_of_fmap in Hin as (x & Hid & Hx).
      assert (records reg !! dr_device_id r = Some x) by (by apply H1). congruence.
    + intros Hn. apply eq_None_not_Some. intros [x Hx]. apply H1 in Hx as [Hx Hid].
      apply Hn. rewrite Hid. by apply list_elem_of_fmap_2.
  - split.
    + intros Hl k Hk. destruct (dr_dcdw_label r) as [l|]; [|done]. simplify_eq/=.
      rewrite <- H2, (Hl l eq_refl). apply is_Some_None.
    + intros Hk l El. rewrite El in Hk. specialize (Hk _ eq_refl).
      rewrite <- H2 in Hk. by apply eq_None_not_Some.
Qed.

Lemma loaded_add rs reg r :
  loaded rs reg → addable reg r → loaded (rs ++ [r]) (add_record reg r).
Proof.
  intros Hload Hadd. pose proof (proj1 (loaded_addable _ _ _ Hload) Hadd) as [Hid Hk].
  destruct Hload as (H1 & H2 & H3 & H4), Hadd as [Hf Hl].
  unfold loaded, add_record. cbn. split; [|split; [|split]].
  - intros id x. rewrite elem_of_app, list_elem_of_singleton.
    destruct (decide (dr_device_id r = id)) as [<-|Hne].
    + rewrite lookup_insert_eq. split; [intros [= <-]; auto|].
      intros [[Hx| ->] Heq]; [|done]. destruct Hid. rewrite Heq. by apply list_elem_of_fmap_2.
    + rewrite lookup_insert_ne, H1 by done. split; [intros [? ?]; auto|].
      intros [[Hx| ->] ->]; [by split|done].
  - intros k. rewrite omap_app, elem_of_app. cbn. unfold role_of at 2.
    destruct (dr_dcdw_label r) as [l|] eqn:El; cbn.
    + rewrite list_elem_of_singleton, <- H2.
      destruct (decide ((dr_school_id r, l) = k)) as [<-|Hne].
      * rewrite lookup_insert_eq. split; [by auto|by eexists].
      * rewrite lookup_insert_ne by done. naive_solver.
    + rewrite H2. split; [auto|]. intros [?|Hn]; [done|by apply elem_of_nil in Hn].
  - rewrite fmap_app, NoDup_app. split; [done|]. split; [|apply NoDup_singleton].
    intros id Hin ->%list_elem_of_singleton. done.
  - rewrite omap_app, NoDup_app. split; [done|]. cbn.
    destruct (role_of r) as [k|] eqn:Er; cbn.
    + split; [|apply NoDup_singleton]. intros k' Hin ->%list_elem_of_singleton.
      by apply (Hk k).
    + split; [|apply NoDup_nil_2]. intros k' _ Hn. by apply elem_of_nil in Hn.
Qed.

Lemma load_loop_spec rs done_ new :
  loaded done_ new →
  (∀ reg, load_loop new rs = Ok reg → loaded (done_ ++ rs) reg) ∧
  (is_ok (load_loop new rs) = false →
     ¬ (NoDup (dr_device_id <$> (done_ ++ rs)) ∧ NoDup (omap role_of (done_ ++ rs)))).
Proof.
  revert done_ new. induction rs as [|r rs IH]; intros done_ new Hl; cbn.
  - rewrite app_nil_r. split; [by intros ? [= <-]|done].
  - destruct (load_record_spec new r) as [[-> Hadd]|[Hno Hadd]].
    + specialize (IH (done_ ++ [r]) _ (loaded_add _ _ _ Hl Hadd)).
      by rewrite <- (assoc_L (++)) in IH.
    + destruct (load_record new r); [done|]. split; [done|]. intros _ [Hi Hr].
      apply Hadd. apply (loaded_addable _ _ _ Hl). split.
      * rewrite fmap_app, NoDup_app in Hi. destruct Hi as (_ & Hi & _).
        intros Hin. apply (Hi _ Hin). left.
      * rewrite omap_app, NoDup_app in Hr. destruct Hr as (_ & Hr & _).
        intros k Hk Hin. apply (Hr _ Hin). cbn. rewrite Hk. left.
Qed.

Lemma loaded_empty : loaded [] empty_registry.
Proof.
  split; [|split; [|split; apply NoDup_nil_2]].
  - intros id r. cbn. split; [intros H; simplify_map_eq|].
    intros [H _]. by apply elem_of_nil in H.
  - intros k. cbn. rewrite lookup_empty. split; [by intros [? ?]|].
    intros H. by apply elem_of_nil in H.
Qed.

(** Loading a list of records succeeds exactly when no identifier and no role of a school occurs
    twice, and then gives a well-formed registry that holds exactly those records. *)
Theorem Load_correct rs :
  (is_ok (Load rs) = true ↔ NoDup (dr_device_id <$> rs) ∧ NoDup (omap role_of rs)) ∧
  (∀ reg, Load rs = Ok reg →
     registry_ok reg ∧ ∀ r, Find reg (dr_device_id r) = Some r ↔ r ∈ rs).
Proof.
  destruct (load_loop_spec rs [] empty_registry loaded_empty) as [Hok Hno].
  unfold Load, Find. split.
  - destruct (load_loop empty_registry rs) as [reg|e] eqn:E; cbn.
    + destruct (Hok reg eq_refl) as (_ & _ & H3 & H4). by split.
    + split; [done|]. intros H. by destruct (Hno eq_refl).
  - intros reg E. split; [exact (load_loop_ok _ _ _ empty_registry_ok E)|]. intros r.
    destruct (Hok reg E) as (H1 & _). rewrite H1. naive_solver.
Qed.
