(* ===== verification/DirtyState.v ===== *)
(** * DirtyState: src/route_service/src/core/persistence/dirty_state.cpp

    The write-behind buffer between the directory and the database: per device
    the newest record and, per group of columns, the revision still to be written
    and the revision on its way. *)

From Stdlib Require Import Ascii ZArith Lia.
From S2P Require Import Prelude Json DeviceMessage DeviceRegistry.
From stdpp Require Import options.

Inductive Urgency := kImmediate | kTelemetryBatch.

Record DesiredDeviceWrite := {
  w_record : DeviceRecord;
  w_revision : Z;
  w_metadata : bool;
  w_status : bool;
  w_telemetry : bool;
  w_urgency : Urgency
}.

Record FieldState := { dirty_revision : Z; in_flight_revision : Z }.

Record Entry := {
  e_record : DeviceRecord;
  e_revision : Z;
  e_metadata : FieldState;
  e_status : FieldState;
  e_telemetry : FieldState;
  e_urgency : Urgency;
  e_marked_at : TimePoint
}.

Abbreviation DirtyState := (gmap string Entry) (only parsing).

#[export] Instance Urgency_eq_dec : EqDecision Urgency.
Proof. solve_decision. Defined.
#[export] Instance DesiredDeviceWrite_eq_dec : EqDecision DesiredDeviceWrite.
Proof. solve_decision. Defined.

Definition w_device_id (w : DesiredDeviceWrite) : string := dr_device_id (w_record w).

Definition clean_field : FieldState := {| dirty_revision := 0; in_flight_revision := 0 |}.

Definition MarkField (field : FieldState) (selected : bool) (revision : Z) : FieldState :=
  if selected then
    {| dirty_revision := Z.max (dirty_revision field) revision;
       in_flight_revision := in_flight_revision field |}
  else field.

Definition RestoreField (field : FieldState) (selected : bool) (revision : Z) : FieldState :=
  if negb selected then field
  else
    {| dirty_revision := Z.max (dirty_revision field) revision;
       in_flight_revision :=
         if in_flight_revision field <=? revision then 0 else in_flight_revision field |}.

Definition FieldHasWork (field : FieldState) : bool :=
  negb (dirty_revision field =? 0) || negb (in_flight_revision field =? 0).

Definition HasDirty (entry : Entry) : bool :=
  negb (dirty_revision (e_metadata entry) =? 0)
  || negb (dirty_revision (e_status entry) =? 0)
  || negb (dirty_revision (e_telemetry entry) =? 0).

Definition HasWork (entry : Entry) : bool :=
  FieldHasWork (e_metadata entry) || FieldHasWork (e_status entry)
  || FieldHasWork (e_telemetry entry).

(** The entry [Mark] and [Restore] emplace for a device that has none. *)
Definition fresh_entry (w : DesiredDeviceWrite) (marked_at : TimePoint) : Entry :=
  {| e_record := w_record w; e_revision := w_revision w;
     e_metadata := clean_field; e_status := clean_field; e_telemetry := clean_field;
     e_urgency := kTelemetryBatch; e_marked_at := marked_at |}.

(** [if (!inserted && write.revision >= entry.revision) ...]: the newest record. *)
Definition newest (entry : Entry) (w : DesiredDeviceWrite) : DeviceRecord * Z :=
  if e_revision entry <=? w_revision w then (w_record w, w_revision w)
  else (e_record entry, e_revision entry).

Definition raise_urgency (old new : Urgency) : Urgency :=
  match new with kImmediate => kImmediate | kTelemetryBatch => old end.

Definition mark_entry (entry : Entry) (w : DesiredDeviceWrite) (marked_at : TimePoint) :
    Entry :=
  let telemetry_was_dirty := negb (dirty_revision (e_telemetry entry) =? 0) in
  {| e_record := (newest entry w).1;
     e_revision := (newest entry w).2;
     e_metadata := MarkField (e_metadata entry) (w_metadata w) (w_revision w);
     e_status := MarkField (e_status entry) (w_status w) (w_revision w);
     e_telemetry := MarkField (e_telemetry entry) (w_telemetry w) (w_revision w);
     e_urgency := raise_urgency (e_urgency entry) (w_urgency w);
     e_marked_at := if w_telemetry w && negb telemetry_was_dirty then marked_at
                    else e_marked_at entry |}.

Definition restore_entry (entry : Entry) (w : DesiredDeviceWrite) : Entry :=
  {| e_record := (newest entry w).1;
     e_revision := (newest entry w).2;
     e_metadata := RestoreField (e_metadata entry) (w_metadata w) (w_revision w);
     e_status := RestoreField (e_status entry) (w_status w) (w_revision w);
     e_telemetry := RestoreField (e_telemetry entry) (w_telemetry w) (w_revision w);
     e_urgency := raise_urgency (e_urgency entry) (w_urgency w);
     e_marked_at := e_marked_at entry |}.

Definition Mark (st : DirtyState) (w : DesiredDeviceWrite) (marked_at : TimePoint) :
    DirtyState :=
  let entry := default (fresh_entry w marked_at) (st !! w_device_id w) in
  <[w_device_id w := mark_entry entry w marked_at]> st.

(** [now] is the reading of the steady clock a new entry is stamped with. *)
Definition Restore (st : DirtyState) (w : DesiredDeviceWrite) (now : TimePoint) :
    DirtyState :=
  let entry := default (fresh_entry w now) (st !! w_device_id w) in
  <[w_device_id w := restore_entry entry w]> st.

Definition complete_field (revision : Z) (field : FieldState) (selected : bool) :
    FieldState :=
  if selected && negb (in_flight_revision field =? 0)
     && (in_flight_revision field <=? revision)
  then {| dirty_revision := dirty_revision field; in_flight_revision := 0 |}
  else field.

Definition complete_entry (entry : Entry) (w : DesiredDeviceWrite) : Entry :=
  {| e_record := e_record entry; e_revision := e_revision entry;
     e_metadata := complete_field (w_revision w) (e_metadata entry) (w_metadata w);
     e_status := complete_field (w_revision w) (e_status entry) (w_status w);
     e_telemetry := complete_field (w_revision w) (e_telemetry entry) (w_telemetry w);
     e_urgency := e_urgency entry; e_marked_at := e_marked_at entry |}.

Definition Complete (st : DirtyState) (w : DesiredDeviceWrite) : DirtyState :=
  match st !! w_device_id w with
  | None => st
  | Some entry =>
      let entry' := complete_entry entry w in
      if HasWork entry' then <[w_device_id w := entry']> st
      else delete (w_device_id w) st
  end.

Definition Clear (st : DirtyState) : DirtyState := ∅.
Definition Size (st : DirtyState) : nat := size st.

Definition dispatch (field : FieldState) : FieldState :=
  {| dirty_revision := 0;
     in_flight_revision := Z.max (in_flight_revision field) (dirty_revision field) |}.

Definition dispatch_entry (entry : Entry) : Entry :=
  {| e_record := e_record entry; e_revision := e_revision entry;
     e_metadata := dispatch (e_metadata entry);
     e_status := dispatch (e_status entry);
     e_telemetry := dispatch (e_telemetry entry);
     e_urgency := kTelemetryBatch; e_marked_at := e_marked_at entry |}.

Definition write_of (entry : Entry) : DesiredDeviceWrite :=
  {| w_record := e_record entry;
     w_revision := e_revision entry;
     w_metadata := negb (dirty_revision (e_metadata entry) =? 0);
     w_status := negb (dirty_revision (e_status entry) =? 0);
     w_telemetry := negb (dirty_revision (e_telemetry entry) =? 0);
     w_urgency := e_urgency entry |}.

(** The entries the loop of [TakeMatching] does not [continue] past. *)
Definition matching (immediate : bool) (now interval : TimePoint) (force : bool)
    (entry : Entry) : bool :=
  let is_immediate := bool_decide (e_urgency entry = kImmediate) in
  HasDirty entry
  && negb (negb force
           && (negb (Bool.eqb immediate is_immediate)
               || (negb immediate && (now - e_marked_at entry <? interval)))).

Section Taking.
Context `{MapOrder}.

Definition TakeMatching (st : DirtyState) (immediate : bool) (now interval : TimePoint)
    (force : bool) : list DesiredDeviceWrite * DirtyState :=
  ((λ kv, write_of kv.2) <$>
     filter (λ kv, matching immediate now interval force kv.2 = true) (map_order st),
   (λ entry, if matching immediate now interval force entry then dispatch_entry entry
             else entry) <$> st).

Definition TakeImmediate (st : DirtyState) := TakeMatching st true 0 0 false.
Definition TakeTelemetryDue (st : DirtyState) (now interval : TimePoint) :=
  TakeMatching st false now interval false.
Definition TakeAllDirty (st : DirtyState) := TakeMatching st false 0 0 true.
End Taking.

(** ** What is still owed to the database

    Per device and column group, the highest revision that is dirty or on its
    way; 0 when nothing is owed. *)
Inductive Column := Metadata | StatusColumns | TelemetryColumns.

Definition field_of (entry : Entry) (c : Column) : FieldState :=
  match c with
  | Metadata => e_metadata entry
  | StatusColumns => e_status entry
  | TelemetryColumns => e_telemetry entry
  end.
Definition selects (w : DesiredDeviceWrite) (c : Column) : bool :=
  match c with
  | Metadata => w_metadata w | StatusColumns => w_status w | TelemetryColumns => w_telemetry w
  end.

Definition field_owed (f : FieldState) : Z := Z.max (dirty_revision f) (in_flight_revision f).
Definition owed (st : DirtyState) (id : string) (c : Column) : Z :=
  match st !! id with Some entry => field_owed (field_of entry c) | None => 0 end.
Definition dirty (st : DirtyState) (id : string) (c : Column) : Z :=
  match st !! id with Some entry => dirty_revision (field_of entry c) | None => 0 end.
Definition in_flight (st : DirtyState) (id : string) (c : Column) : Z :=
  match st !! id with Some entry => in_flight_revision (field_of entry c) | None => 0 end.

(** The calls on a buffer. *)
Inductive DirtyOp :=
| OpMark (w : DesiredDeviceWrite) (marked_at : TimePoint)
| OpTake (immediate : bool) (now interval : TimePoint) (force : bool)
| OpComplete (w : DesiredDeviceWrite)
| OpRestore (w : DesiredDeviceWrite) (now : TimePoint)
| OpClear.

Definition dirty_step `{MapOrder} (st : DirtyState) (op : DirtyOp) : DirtyState :=
  match op with
  | OpMark w t => Mark st w t
  | OpTake immediate now interval force => (TakeMatching st immediate now interval force).2
  | OpComplete w => Complete st w
  | OpRestore w now => Restore st w now
  | OpClear => Clear st
  end.

(** A write the service makes: it has a positive revision, the one of its record,
    and selects at least one column group. *)
Definition write_ok (w : DesiredDeviceWrite) : Prop :=
  0 < w_revision w ∧ w_metadata w || w_status w || w_telemetry w = true.
Definition op_ok (op : DirtyOp) : Prop :=
  match op with OpMark w _ | OpRestore w _ | OpComplete w => write_ok w | _ => True end.

(** Every entry owes something, nothing newer than its record. *)
Definition field_ok (revision : Z) (f : FieldState) : Prop :=
  0 <= dirty_revision f <= revision ∧ 0 <= in_flight_revision f <= revision.
Definition entry_ok (id : string) (entry : Entry) : Prop :=
  dr_device_id (e_record entry) = id ∧ HasWork entry = true ∧ 0 < e_revision entry ∧
  ∀ c, field_ok (e_revision entry) (field_of entry c).
Definition dirty_ok (st : DirtyState) : Prop := map_Forall entry_ok st.

#[local] Arguments Z.max : simpl never.
(** ** Lemmas on one field *)
Lemma MarkField_owed f b r :
  field_owed (MarkField f b r) = if b then Z.max (field_owed f) r else field_owed f.
Proof. destruct b; [|done]. unfold field_owed; cbn. lia. Qed.

Lemma RestoreField_owed f b r : 0 <= r →
  field_owed (RestoreField f b r) = if b then Z.max (field_owed f) r else field_owed f.
Proof.
  intros Hr. destruct b; [|done]. unfold field_owed; cbn.
  destruct (in_flight_revision f <=? r) eqn:E; bool_prop; lia.
Qed.

Lemma field_of_mark e w t c :
  field_of (mark_entry e w t) c = MarkField (field_of e c) (selects w c) (w_revision w).
Proof. by destruct c. Qed.
Lemma field_of_restore e w c :
  field_of (restore_entry e w) c = RestoreField (field_of e c) (selects w c) (w_revision w).
Proof. by destruct c. Qed.
Lemma field_of_complete e w c :
  field_of (complete_entry e w) c
  = complete_field (w_revision w) (field_of e c) (selects w c).
Proof. by destruct c. Qed.
Lemma field_of_dispatch e c : field_of (dispatch_entry e) c = dispatch (field_of e c).
Proof. by destruct c. Qed.
Lemma field_of_fresh w t c : field_of (fresh_entry w t) c = clean_field.
Proof. by destruct c. Qed.
Create Rewrite HintDb cns_dirty.
#[export] Hint Rewrite field_of_mark field_of_restore field_of_complete field_of_dispatch
  field_of_fresh MarkField_owed : cns_dirty.

Lemma HasWork_field e : HasWork e = true ↔ ∃ c, FieldHasWork (field_of e c) = true.
Proof.
  unfold HasWork. rewrite !orb_true_iff. split.
  - intros [[?|?]|?]; [by exists Metadata|by exists StatusColumns|by exists TelemetryColumns].
  - intros [[] ?]; auto.
Qed.

Lemma HasDirty_field e : HasDirty e = true ↔ ∃ c, dirty_revision (field_of e c) ≠ 0.
Proof.
  unfold HasDirty. rewrite !orb_true_iff, !negb_true_iff, !Z.eqb_neq. split.
  - intros [[?|?]|?]; [by exists Metadata|by exists StatusColumns|by exists TelemetryColumns].
  - intros [[] ?]; auto.
Qed.

Lemma no_work_field e c :
  HasWork e = false → dirty_revision (field_of e c) = 0 ∧ in_flight_revision (field_of e c) = 0.
Proof.
  intros H. destruct (FieldHasWork (field_of e c)) eqn:E.
  - assert (HasWork e = true) by (apply HasWork_field; eauto). congruence.
  - unfold FieldHasWork in E. bool_prop. done.
Qed.

Lemma selects_some w :
  w_metadata w || w_status w || w_telemetry w = true → ∃ c, selects w c = true.
Proof.
  rewrite !orb_true_iff.
  intros [[?|?]|?]; [by exists Metadata|by exists StatusColumns|by exists TelemetryColumns].
Qed.

(** ** What each call does to the debts *)
Lemma Mark_owed st w t id c :
  owed (Mark st w t) id c =
    if decide (id = w_device_id w) then
      if selects w c then Z.max (owed st id c) (w_revision w) else owed st id c
    else owed st id c.
Proof.
  unfold owed, Mark. case_decide as E; [subst|by rewrite lookup_insert_ne by done].
  rewrite lookup_insert_eq, field_of_mark, MarkField_owed.
  destruct (st !! w_device_id w) as [e|]; cbn; [done|].
  rewrite field_of_fresh. by destruct (selects w c).
Qed.

Lemma Restore_owed st w now id c : 0 <= w_revision w →
  owed (Restore st w now) id c =
    if decide (id = w_device_id w) then
      if selects w c then Z.max (owed st id c) (w_revision w) else owed st id c
    else owed st id c.
Proof.
  intros Hr. unfold owed, Restore. case_decide as E; [subst|by rewrite lookup_insert_ne by done].
  rewrite lookup_insert_eq, field_of_restore, RestoreField_owed by done.
  destruct (st !! w_device_id w) as [e|]; cbn; [done|].
  rewrite field_of_fresh. by destruct (selects w c).
Qed.

Lemma Take_lookup `{MapOrder} st imm now interval force id :
  (TakeMatching st imm now interval force).2 !! id =
    (λ e, if matching imm now interval force e then dispatch_entry e else e) <$> st !! id.
Proof. cbn. apply lookup_fmap. Qed.

Lemma dispatch_owed f : 0 <= dirty_revision f → 0 <= in_flight_revision f →
  field_owed (dispatch f) = field_owed f.
Proof. unfold field_owed; cbn. lia. Qed.

Lemma Complete_in_flight st w id c :
  in_flight (Complete st w) id c =
    if decide (id = w_device_id w) then
      if selects w c && (in_flight st id c <=? w_revision w) then 0 else in_flight st id c
    else in_flight st id c.
Proof.
  unfold in_flight, Complete.
  destruct (st !! w_device_id w) as [e|] eqn:E; cycle 1.
  { case_decide; [subst; rewrite E; by destruct (_ && _)|done]. }
  assert (in_flight_revision (field_of (complete_entry e w) c) =
    if selects w c && (in_flight_revision (field_of e c) <=? w_revision w) then 0
    else in_flight_revision (field_of e c)) as Hf.
  { rewrite field_of_complete. unfold complete_field. destruct (selects w c); [|done]. cbn.
    destruct (in_flight_revision (field_of e c) =? 0) eqn:E0; bool_prop; cbn; [|by destruct (_ <=? _)].
    rewrite E0. by destruct (_ <=? _). }
  case_decide as Hid; [subst id; rewrite E|].
  - destruct (HasWork (complete_entry e w)) eqn:Ew.
    + by rewrite lookup_insert_eq.
    + rewrite lookup_delete_eq. rewrite <- Hf. symmetry. by apply no_work_field.
  - destruct (HasWork _); by rewrite ?lookup_insert_ne, ?lookup_delete_ne by done.
Qed.

Lemma Complete_dirty st w id c : dirty (Complete st w) id c = dirty st id c.
Proof.
  unfold dirty, Complete. destruct (st !! w_device_id w) as [e|] eqn:E; [|done].
  assert (dirty_revision (field_of (complete_entry e w) c) = dirty_revision (field_of e c))
    as Hf by (rewrite field_of_complete; unfold complete_field; by destruct (_ && _)).
  destruct (decide (id = w_device_id w)) as [->|Hid].
  - rewrite E. destruct (HasWork (complete_entry e w)) eqn:Ew.
    + by rewrite lookup_insert_eq.
    + rewrite lookup_delete_eq, <- Hf. symmetry. by apply no_work_field.
  - destruct (HasWork _); by rewrite ?lookup_insert_ne, ?lookup_delete_ne by done.
Qed.

(** ** The invariant *)
Lemma newest_bounds e w :
  w_device_id w = dr_device_id (e_record e) →
  e_revision e <= (newest e w).2 ∧ w_revision w <= (newest e w).2 ∧
  dr_device_id (newest e w).1 = w_device_id w.
Proof.
  unfold newest. intros Hid. destruct (e_revision e <=? w_revision w) eqn:E; bool_prop; cbn;
    (split; [lia|]; split; [lia|done]).
Qed.

Definition base_ok (id : string) (entry : Entry) : Prop :=
  dr_device_id (e_record entry) = id ∧ 0 < e_revision entry ∧
  ∀ c, field_ok (e_revision entry) (field_of entry c).

Lemma base_entry st w t :
  dirty_ok st → write_ok w →
  base_ok (w_device_id w) (default (fresh_entry w t) (st !! w_device_id w)).
Proof.
  intros Hst [Hr _]. destruct (st !! w_device_id w) as [e|] eqn:E; cbn.
  - destruct (Hst _ _ E) as (? & _ & ? & ?). done.
  - split; [done|]. split; [done|]. intros c. rewrite field_of_fresh.
    unfold field_ok. cbn. lia.
Qed.

Lemma mark_entry_ok id e w t :
  base_ok id e → w_device_id w = id → write_ok w → entry_ok id (mark_entry e w t).
Proof.
  intros (Hid & Hr & Hf) Hw [Hp Hs]. destruct (newest_bounds e w) as (H1 & H2 & H3); [congruence|].
  split; [cbn; congruence|]. split; [|split; [cbn; lia|]].
  - apply HasWork_field. destruct (selects_some w Hs) as [c Hc]. exists c.
    rewrite field_of_mark, Hc. unfold FieldHasWork. cbn. apply orb_true_iff. left.
    apply negb_true_iff, Z.eqb_neq. destruct (Hf c). lia.
  - intros c. rewrite field_of_mark. destruct (Hf c). unfold field_ok, MarkField. cbn [e_revision].
    cbn. destruct (selects w c); cbn; lia.
Qed.

Lemma restore_entry_ok id e w :
  base_ok id e → w_device_id w = id → write_ok w → entry_ok id (restore_entry e w).
Proof.
  intros (Hid & Hr & Hf) Hw [Hp Hs]. destruct (newest_bounds e w) as (H1 & H2 & H3); [congruence|].
  split; [cbn; congruence|]. split; [|split; [cbn; lia|]].
  - apply HasWork_field. destruct (selects_some w Hs) as [c Hc]. exists c.
    rewrite field_of_restore, Hc. unfold FieldHasWork. cbn. apply orb_true_iff. left.
    apply negb_true_iff, Z.eqb_neq. destruct (Hf c). lia.
  - intros c. rewrite field_of_restore. destruct (Hf c).
    unfold field_ok, RestoreField. cbn.
    destruct (selects w c); cbn; [|lia]. destruct (_ <=? _); lia.
Qed.

Lemma complete_field_ok r rev f b : field_ok r f → field_ok r (complete_field rev f b).
Proof.
  unfold field_ok, complete_field. intros. destruct (_ && _); cbn; lia.
Qed.

Lemma dispatch_entry_ok id e : entry_ok id e → entry_ok id (dispatch_entry e).
Proof.
  intros (Hid & Hw & Hr & Hf). split; [done|]. split; [|split; [done|]].
  - apply HasWork_field in Hw as [c Hc]. apply HasWork_field. exists c.
    rewrite field_of_dispatch. unfold FieldHasWork in *. cbn.
    destruct (Hf c). apply negb_true_iff, Z.eqb_neq. apply orb_true_iff in Hc.
    rewrite !negb_true_iff, !Z.eqb_neq in Hc. lia.
  - intros c. rewrite field_of_dispatch. destruct (Hf c). unfold field_ok. cbn. lia.
Qed.

Lemma dirty_step_ok `{MapOrder} st op : dirty_ok st → op_ok op → dirty_ok (dirty_step st op).
Proof.
  intros Hst Hop. destruct op as [w t|imm now itv force|w|w now|]; cbn in *.
  - apply map_Forall_insert_2; [|done]. apply mark_entry_ok; [by apply base_entry|done..].
  - intros id e. rewrite lookup_fmap. destruct (st !! id) as [e0|] eqn:E; [|done]. cbn.
    intros [= <-]. destruct (matching _ _ _ _ _); [apply dispatch_entry_ok|]; by apply Hst.
  - unfold Complete. destruct (st !! w_device_id w) as [e|] eqn:E; [|done].
    destruct (HasWork (complete_entry e w)) eqn:Ew; [|by apply map_Forall_delete].
    apply map_Forall_insert_2; [|done]. destruct (Hst _ _ E) as (Hid & _ & Hr & Hf).
    split; [done|]. split; [done|]. split; [done|]. intros c. rewrite field_of_complete.
    by apply complete_field_ok.
  - apply map_Forall_insert_2; [|done]. apply restore_entry_ok; [by apply base_entry|done..].
  - apply map_Forall_empty.
Qed.

Lemma dirty_steps_ok `{MapOrder} st ops :
  dirty_ok st → Forall op_ok ops → dirty_ok (foldl dirty_step st ops).
Proof.
  intros Hst Hops. revert st Hst. induction Hops as [|op ops Hop _ IH]; intros st Hst; [done|].
  apply IH. by apply dirty_step_ok.
Qed.

Lemma dirty_ok_empty : dirty_ok ∅.
Proof. apply map_Forall_empty. Qed.

(** ** Writes taken from the buffer *)
Lemma write_of_selects e c :
  selects (write_of e) c = negb (dirty_revision (field_of e c) =? 0).
Proof. by destruct c. Qed.

Lemma Take_writes `{MapOrder} st imm now itv force w :
  dirty_ok st →
  w ∈ (TakeMatching st imm now itv force).1 ↔
  ∃ e, st !! w_device_id w = Some e ∧ matching imm now itv force e = true ∧ w = write_of e.
Proof.
  intros Hok. cbn. rewrite list_elem_of_fmap. split.
  - intros ([id e] & -> & Hin). rewrite list_elem_of_filter in Hin. destruct Hin as [Hm Hin].
    apply map_order_lookup in Hin. destruct (Hok _ _ Hin) as [Hid _].
    exists e. unfold w_device_id. cbn. by rewrite Hid.
  - intros (e & He & Hm & ->). exists (w_device_id (write_of e), e). split; [done|].
    apply list_elem_of_filter. split; [done|]. by apply map_order_lookup.
Qed.

Lemma Take_NoDup `{MapOrder} st imm now itv force :
  dirty_ok st → NoDup (w_device_id <$> (TakeMatching st imm now itv force).1).
Proof.
  intros Hok. cbn. rewrite <- list_fmap_compose.
  rewrite (list_fmap_ext _ fst).
  - eapply sublist_NoDup; [apply (map_order_NoDup st)|].
    apply fmap_sublist, sublist_filter.
  - intros i [id e] Hi. apply list_elem_of_lookup_2 in Hi.
    rewrite list_elem_of_filter in Hi. destruct Hi as [_ Hi].
    apply map_order_lookup in Hi. apply (Hok _ _ Hi).
Qed.

Lemma matching_force imm now itv e : matching imm now itv true e = HasDirty e.
Proof. unfold matching. by rewrite andb_true_r. Qed.
Lemma matching_immediate now itv e :
  matching true now itv false e = HasDirty e && bool_decide (e_urgency e = kImmediate).
Proof. unfold matching. by case_bool_decide. Qed.
Lemma matching_telemetry now itv e :
  matching false now itv false e =
    HasDirty e && bool_decide (e_urgency e = kTelemetryBatch)
    && (e_marked_at e + itv <=? now).
Proof.
  unfold matching. destruct (HasDirty e); [|done]. cbn.
  destruct (e_urgency e); cbn; [done|].
  destruct (now - e_marked_at e <? itv) eqn:E; bool_prop; cbn; symmetry;
    [apply Z.leb_gt|apply Z.leb_le]; lia.
Qed.

Lemma Take_dirty `{MapOrder} st imm now itv force id c :
  dirty (TakeMatching st imm now itv force).2 id c =
    match st !! id with
    | Some e => if matching imm now itv force e then 0 else dirty st id c
    | None => 0
    end.
Proof.
  unfold dirty. rewrite Take_lookup. destruct (st !! id) as [e|]; [|done]. cbn.
  destruct (matching _ _ _ _ _); [|done]. by rewrite field_of_dispatch.
Qed.

Lemma Take_owed `{MapOrder} st imm now itv force id c :
  dirty_ok st → owed (TakeMatching st imm now itv force).2 id c = owed st id c.
Proof.
  intros Hok. unfold owed. rewrite Take_lookup. destruct (st !! id) as [e|] eqn:E; [|done]. cbn.
  destruct (matching _ _ _ _ _); [|done]. rewrite field_of_dispatch.
  destruct (Hok _ _ E) as (_ & _ & _ & Hf). destruct (Hf c). apply dispatch_owed; lia.
Qed.

Lemma owed_split st id c : owed st id c = Z.max (dirty st id c) (in_flight st id c).
Proof. unfold owed, dirty, in_flight. by destruct (st !! id). Qed.

Lemma in_flight_nonneg st id c : dirty_ok st → 0 <= in_flight st id c.
Proof.
  intros Hok. unfold in_flight. destruct (st !! id) as [e|] eqn:E; [|done].
  destruct (Hok _ _ E) as (_ & _ & _ & Hf). destruct (Hf c). lia.
Qed.

Lemma Take_all_clean `{MapOrder} st id c : dirty (TakeAllDirty st).2 id c = 0.
Proof.
  unfold TakeAllDirty. rewrite Take_dirty. unfold dirty. destruct (st !! id) as [e|]; [|done].
  rewrite matching_force. destruct (HasDirty e) eqn:E; [done|].
  destruct (decide (dirty_revision (field_of e c) = 0)) as [|Hn]; [done|].
  assert (HasDirty e = true) by (apply HasDirty_field; eauto). congruence.
Qed.

Lemma Take_all_ids `{MapOrder} st id :
  dirty_ok st →
  id ∈ (w_device_id <$> (TakeAllDirty st).1) ↔ ∃ c, dirty st id c ≠ 0.
Proof.
  intros Hok. rewrite list_elem_of_fmap. unfold dirty. split.
  - intros (w & -> & Hw). apply Take_writes in Hw as (e & -> & Hm & _); [|done].
    rewrite matching_force in Hm. by apply HasDirty_field.
  - intros [c Hc]. destruct (st !! id) as [e|] eqn:E; [|done].
    exists (write_of e). destruct (Hok _ _ E) as [Hid _]. split; [done|].
    apply Take_writes; [done|]. exists e. unfold w_device_id. cbn. rewrite Hid.
    split; [done|]. split; [|done]. rewrite matching_force. apply HasDirty_field. eauto.
Qed.

(** [settles op id c r]: the call confirms a write of column group [c] of device
    [id] that is at least as new as revision [r], or drops the buffer. *)
Definition settles (op : DirtyOp) (id : string) (c : Column) (r : Z) : Prop :=
  match op with
  | OpClear => True
  | OpComplete w => w_device_id w = id ∧ selects w c = true ∧ r <= w_revision w
  | _ => False
  end.

Lemma step_owed `{MapOrder} st op id c r :
  dirty_ok st → op_ok op → ¬ settles op id c r → r <= owed st id c →
  r <= owed (dirty_step st op) id c.
Proof.
  intros Hok Hop Hn Hr. destruct op as [w t|imm now itv force|w|w now|]; cbn in Hn, Hop |- *.
  - rewrite Mark_owed. repeat case_match; lia.
  - change (r <= owed (TakeMatching st imm now itv force).2 id c). by rewrite Take_owed.
  - rewrite owed_split in *. rewrite Complete_dirty, Complete_in_flight.
    case_decide as Hid; [|done]. destruct (selects w c) eqn:Es; cbn; [|done].
    destruct (_ <=? _) eqn:E; bool_prop; [|done].
    destruct (Z.le_gt_cases r (w_revision w)); [exfalso; by apply Hn|lia].
  - rewrite Restore_owed by (destruct Hop; lia). repeat case_match; lia.
  - done.
Qed.

(** Telemetry of device [id] waits in the buffer since [t0]. *)
Definition waits_since (st : DirtyState) (id : string) (t0 : TimePoint) : Prop :=
  ∃ e, st !! id = Some e ∧ 0 < dirty_revision (e_telemetry e) ∧ e_marked_at e = t0.

(** A call that takes nothing out of the buffer. *)
Definition keeps (op : DirtyOp) : Prop :=
  match op with OpTake _ _ _ _ | OpClear => False | _ => True end.

Lemma Mark_waits st w t0 :
  write_ok w → w_telemetry w = true → dirty st (w_device_id w) TelemetryColumns = 0 →
  waits_since (Mark st w t0) (w_device_id w) t0.
Proof.
  intros [Hr _] Ht Hd. eexists. split; [apply lookup_insert_eq|]. unfold dirty in Hd.
  destruct (st !! w_device_id w) as [e|]; cbn in *; rewrite Ht, ?Hd; cbn; split; done || lia.
Qed.

Lemma step_waits `{MapOrder} st op id t0 :
  op_ok op → keeps op → waits_since st id t0 → waits_since (dirty_step st op) id t0.
Proof.
  intros Hop Hk (e & He & Hd & Ht).
  destruct op as [w t|imm now itv force|w|w now|]; cbn in Hk, Hop |- *; try done.
  - unfold Mark, waits_since. destruct (decide (w_device_id w = id)) as [<-|]; cycle 1.
    { rewrite lookup_insert_ne by done. eauto. }
    rewrite lookup_insert_eq, He. eexists. split; [done|]. cbn.
    assert ((dirty_revision (e_telemetry e) =? 0) = false) as -> by (apply Z.eqb_neq; lia).
    rewrite andb_false_r. split; [|done]. unfold MarkField. case_match; cbn; lia.
  - unfold Complete, waits_since. destruct (st !! w_device_id w) as [e0|] eqn:E0; [|eauto].
    destruct (decide (w_device_id w = id)) as [<-|]; cycle 1.
    { case_match; rewrite ?lookup_insert_ne, ?lookup_delete_ne by done; eauto. }
    simplify_eq. assert (0 < dirty_revision (e_telemetry (complete_entry e w))) as Hd'
      by (cbn; unfold complete_field; by case_match).
    replace (HasWork (complete_entry e w)) with true.
    { rewrite lookup_insert_eq. eauto. }
    symmetry. apply HasWork_field. exists TelemetryColumns. unfold FieldHasWork.
    cbn [field_of]. apply orb_true_iff. left. apply negb_true_iff, Z.eqb_neq. lia.
  - unfold Restore, waits_since. destruct (decide (w_device_id w = id)) as [<-|]; cycle 1.
    { rewrite lookup_insert_ne by done. eauto. }
    rewrite lookup_insert_eq, He. eexists. split; [done|]. cbn. split; [|done].
    unfold RestoreField. case_match; cbn; lia.
Qed.

Lemma waits_taken `{MapOrder} st id t0 now itv :
  dirty_ok st → waits_since st id t0 → t0 + itv <= now →
  ∃ w, w_device_id w = id ∧ w_telemetry w = true ∧
    (w ∈ (TakeTelemetryDue st now itv).1 ∨ w ∈ (TakeImmediate st).1).
Proof.
  intros Hok (e & He & Hd & Ht) Hnow. exists (write_of e).
  destruct (Hok _ _ He) as [Hid _]. split; [done|].
  assert (HasDirty e = true) as Hh by (apply HasDirty_field; exists TelemetryColumns; cbn; lia).
  split; [cbn; apply negb_true_iff, Z.eqb_neq; lia|].
  unfold TakeTelemetryDue, TakeImmediate. rewrite !Take_writes by done.
  unfold w_device_id. cbn [write_of w_record]. rewrite Hid.
  destruct (e_urgency e) eqn:Eu; [right|left]; exists e; (split; [done|]);
    rewrite ?matching_immediate, ?matching_telemetry, Hh, Eu; cbn; [done|].
  split; [apply Z.leb_le; lia|done].
Qed.

Lemma waits_held `{MapOrder} st id t0 now itv w :
  dirty_ok st → waits_since st id t0 → now < t0 + itv →
  w ∈ (TakeTelemetryDue st now itv).1 → w_device_id w ≠ id.
Proof.
  intros Hok (e & He & _ & Ht) Hnow Hw <-.
  apply Take_writes in Hw as (e' & He' & Hm & _); [|done]. simplify_eq.
  rewrite matching_telemetry in Hm. bool_prop. lia.
Qed.

(** ** Properties *)

(** From the empty buffer, any sequence of calls whose writes carry a positive
    revision and select a column group keeps the invariant. *)
Theorem reachable_dirty_ok `{MapOrder} ops :
  Forall op_ok ops → dirty_ok (foldl dirty_step ∅ ops).
Proof. apply dirty_steps_ok, dirty_ok_empty. Qed.

(** C6: An update marked in the dirty buffer stays owed to the database, as dirty or as in flight,
    at its revision or a newer one, through every later sequence of takes, restores, marks and
    completions, until a completion of that column group at least as new arrives or the buffer
    is cleared. *)
Theorem no_lost_update `{MapOrder} before w t after id c :
  Forall op_ok (before ++ OpMark w t :: after) →
  w_device_id w = id → selects w c = true →
  Forall (λ op, ¬ settles op id c (w_revision w)) after →
  let st := foldl dirty_step ∅ (before ++ OpMark w t :: after) in
  w_revision w <= owed st id c.
Proof.
  intros Hops Hid Hc Hns. cbn zeta. rewrite foldl_app. cbn [foldl].
  apply Forall_app in Hops as [Hb [Hw Ha]%Forall_cons].
  assert (dirty_ok (foldl dirty_step ∅ before)) as Hok by by apply dirty_steps_ok, Hb.
  assert (Hok' := dirty_step_ok _ _ Hok Hw).
  assert (w_revision w <= owed (dirty_step (foldl dirty_step ∅ before) (OpMark w t)) id c)
    as Hr by (cbn; rewrite Mark_owed, decide_True, Hc by done; lia).
  revert Hok' Hr. generalize (dirty_step (foldl dirty_step ∅ before) (OpMark w t)). clear Hw Hb.
  induction after as [|op after IH]; intros st Hok' Hr; [done|]. cbn.
  apply Forall_cons in Ha as [Hop Ha]. apply Forall_cons in Hns as [Hn Hns].
  apply IH; [done|done|by apply dirty_step_ok|by apply step_owed].
Qed.

(** Taking everything leaves nothing dirty. *)
Theorem TakeAllDirty_correct `{MapOrder} st :
  dirty_ok st →
  let writes := (TakeAllDirty st).1 in let st' := (TakeAllDirty st).2 in
  NoDup (w_device_id <$> writes) ∧
  (∀ id, id ∈ (w_device_id <$> writes) ↔ ∃ c, dirty st id c ≠ 0) ∧
  (∀ w, w ∈ writes → ∃ e, st !! w_device_id w = Some e ∧
     w_record w = e_record e ∧ w_revision w = e_revision e ∧
     ∀ c, selects w c = true ↔ dirty st (w_device_id w) c ≠ 0) ∧
  (∀ id c, dirty st' id c = 0 ∧ in_flight st' id c = owed st id c) ∧
  (TakeAllDirty st').1 = [].
Proof.
  intros Hok writes st'.
  assert (dirty_ok st') as Hok' by apply (dirty_step_ok st (OpTake false 0 0 true) Hok I).
  assert (∀ id c, dirty st' id c = 0) as Hclean by (intros; apply Take_all_clean).
  split; [by apply Take_NoDup|]. split; [intros id; by apply Take_all_ids|].
  split; [|split].
  - intros w Hw. apply Take_writes in Hw as (e & He & _ & ->); [|done].
    exists e. split; [done|]. split; [done|]. split; [done|]. intros c.
    rewrite write_of_selects. unfold dirty. rewrite He, negb_true_iff, Z.eqb_neq. done.
  - intros id c. split; [apply Hclean|].
    rewrite <- (Take_owed st false 0 0 true) by done. fold (TakeAllDirty st). fold st'.
    rewrite owed_split, Hclean. pose proof (in_flight_nonneg st' id c Hok'). lia.
  - apply elem_of_nil_inv. intros w Hw. assert (Hid := list_elem_of_fmap_2 w_device_id _ _ Hw).
    apply Take_all_ids in Hid as [c Hc]; [|done]. by rewrite Hclean in Hc.
Qed.

(** C23: Telemetry marked on a device with none waiting is, as long as nothing is taken from the buffer
    and it is not cleared, handed out by the batch no earlier than the interval after this mark;
    later marks, restores and completions do not postpone it, and from that time on it is due,
    in the batch or with an immediate write of the same device. *)
Theorem telemetry_batching `{MapOrder} st w t0 ops now itv :
  dirty_ok st → write_ok w → w_telemetry w = true →
  dirty st (w_device_id w) TelemetryColumns = 0 →
  Forall op_ok ops → Forall keeps ops →
  let st' := foldl dirty_step (Mark st w t0) ops in
  (t0 + itv <= now → ∃ w', w_device_id w' = w_device_id w ∧ w_telemetry w' = true ∧
     (w' ∈ (TakeTelemetryDue st' now itv).1 ∨ w' ∈ (TakeImmediate st').1)) ∧
  (now < t0 + itv → ∀ w', w' ∈ (TakeTelemetryDue st' now itv).1 →
     w_device_id w' ≠ w_device_id w).
Proof.
  intros Hok Hw Ht Hd Hops Hk. cbn zeta.
  assert (Hok' := dirty_step_ok st (OpMark w t0) Hok Hw). cbn in Hok'.
  assert (dirty_ok (foldl dirty_step (Mark st w t0) ops)) as Hok'' by by apply dirty_steps_ok.
  assert (waits_since (foldl dirty_step (Mark st w t0) ops) (w_device_id w) t0) as Hwait.
  { assert (Hm := Mark_waits st w t0 Hw Ht Hd). revert Hm. generalize (Mark st w t0). clear Hok'' Hok'.
    induction ops as [|op ops IH]; intros s0 Hm; [done|]. cbn.
    apply Forall_cons in Hops as [Hop Hops], Hk as [Hk1 Hk].
    apply IH; [done|done|by apply step_waits]. }
  split; [by apply waits_taken|]. intros Hnow w' Hw'. by eapply waits_held.
Qed.

(** ** Witnesses *)
Definition sample_record (id : string) (revision : Z) : DeviceRecord :=
  {| dr_device_id := id; dr_school_id := 7; dr_school_name := "S"; dr_dcdw_label := Some "A";
     dr_model_version := "m"; dr_status := kOnline; dr_last_seen_at := Some 5;
     dr_latest_telemetry := None; dr_telemetry_received_at := None; dr_revision := revision;
     dr_device_type := kCnsBox; dr_capabilities := None; dr_product := None;
     dr_version := None |}.
Definition sample_write (id : string) (revision : Z) (telemetry : bool) : DesiredDeviceWrite :=
  {| w_record := sample_record id revision; w_revision := revision; w_metadata := negb telemetry;
     w_status := negb telemetry; w_telemetry := telemetry;
     w_urgency := if telemetry then kTelemetryBatch else kImmediate |}.

#[local] Ltac calls_ok :=
  repeat (apply Forall_cons; split; [vm_compute; intuition discriminate|]); apply Forall_nil_2.

(** Device d1 is taken at revision 1, marked again at 2, and only the older write
    completes: revision 2 of the telemetry is still owed. *)
Lemma no_lost_update_witness :
  2 <= owed (foldl (dirty_step (H := key_order)) ∅
    ([OpMark (sample_write "d1" 1 true) 10; OpTake true 20 5 true]
     ++ OpMark (sample_write "d1" 2 true) 30
     :: [OpComplete (sample_write "d1" 1 true); OpTake false 99 5 false])) "d1" TelemetryColumns.
Proof.
  apply (no_lost_update (H := key_order)
    [OpMark (sample_write "d1" 1 true) 10; OpTake true 20 5 true] (sample_write "d1" 2 true) 30
    [OpComplete (sample_write "d1" 1 true); OpTake false 99 5 false] "d1" TelemetryColumns).
  - calls_ok.
  - reflexivity.
  - reflexivity.
  - calls_ok.
Defined.

Lemma reachable_dirty_ok_witness :
  dirty_ok (foldl (dirty_step (H := key_order)) ∅
    [OpMark (sample_write "d1" 1 false) 10; OpTake true 20 5 false;
     OpRestore (sample_write "d1" 1 false) 30]).
Proof. apply (reachable_dirty_ok (H := key_order)). calls_ok. Defined.

Lemma TakeAllDirty_correct_witness :
  let st := Mark (Mark ∅ (sample_write "d1" 1 false) 10) (sample_write "d2" 4 true) 20 in
  dirty_ok st ∧ (TakeAllDirty (H := key_order) (TakeAllDirty (H := key_order) st).2).1 = [].
Proof.
  intros st.
  assert (dirty_ok st) as Hok.
  { apply (dirty_steps_ok (H := key_order) ∅
      [OpMark (sample_write "d1" 1 false) 10; OpMark (sample_write "d2" 4 true) 20]);
      [apply dirty_ok_empty|calls_ok]. }
  split; [exact Hok|]. apply (TakeAllDirty_correct (H := key_order) st Hok).
Defined.

Lemma telemetry_batching_witness :
  ∃ w', w_device_id w' = "d1" ∧ w_telemetry w' = true ∧
    (w' ∈ (TakeTelemetryDue (H := key_order)
             (foldl (dirty_step (H := key_order)) (Mark ∅ (sample_write "d1" 1 true) 100)
                [OpMark (sample_write "d1" 2 true) 140]) 150 50).1
     ∨ w' ∈ (TakeImmediate (H := key_order)
             (foldl (dirty_step (H := key_order)) (Mark ∅ (sample_write "d1" 1 true) 100)
                [OpMark (sample_write "d1" 2 true) 140])).1).
Proof.
  refine (proj1 (telemetry_batching (H := key_order) ∅ (sample_write "d1" 1 true) 100
    [OpMark (sample_write "d1" 2 true) 140] 150 50 _ _ _ _ _ _) _).
  - apply dirty_ok_empty.
  - vm_compute. intuition discriminate.
  - reflexivity.
  - reflexivity.
  - calls_ok.
  - calls_ok.
  - vm_compute. discriminate.
Defined.
