(* ===== verification/StateEvent.v ===== *)
(** * StateEvent: src/route_service/src/core/state_event/state_event.cpp

    The JSON documents the service publishes about devices, and the directory
    cache that decides when the retained directory document changes. *)

From Stdlib Require Import Ascii ZArith Lia.
From S2P Require Import Prelude Json TimeFormat DeviceRegistry.
From stdpp Require Import options.

Record Snapshot := {
  sn_device_id : string;
  sn_revision : Z;
  sn_school_id : Z;
  sn_school_name : string;
  sn_dcdw_label : option string;
  sn_model_version : string;
  sn_online : bool;
  sn_last_seen_at : option TimePoint;
  sn_telemetry_received_at : option TimePoint;
  sn_latest_telemetry : option json;
  sn_degraded : bool;
  sn_device_type : string;
  sn_capabilities : option (list string);
  sn_product : option json;
  sn_version : option json
}.

Record DirectoryEntry := {
  de_device_id : string;
  de_school_name : string;
  de_dcdw_label : option string;
  de_model_version : string;
  de_online : bool;
  de_device_type : string;
  de_capabilities : option (list string);
  de_product : option json;
  de_version : option json
}.

Record DeviceDirectory := {
  dir_entries : gmap string DirectoryEntry;
  dir_revision : Z;
  dir_initialized : bool
}.

Definition empty_directory : DeviceDirectory :=
  {| dir_entries := ∅; dir_revision := 0; dir_initialized := false |}.

Definition ToString (reason : ChangeReason) : string :=
  match reason with
  | kRegistrationOnline => "registration_online"
  | kRegistrationOffline => "registration_offline"
  | kTelemetryReason => "telemetry"
  | kActivityTimeout => "activity_timeout"
  | kDatabaseRecovered => "database_recovered"
  | kSnapshotReplay => "snapshot_replay"
  end.

Definition OptionalTime (value : option TimePoint) : json :=
  match value with Some t => JString (FormatUtcRfc3339Millis t) | None => JNull end.

(** A text that is published as null when empty, and a list of texts. *)
Definition text_or_null (s : string) : json := if str_empty s then JNull else JString s.
Definition texts_or_null (o : option (list string)) : json :=
  match o with Some l => JArray (JString <$> l) | None => JNull end.

Definition directory_device (entry : DirectoryEntry) : json :=
  jobject
    [("device_id", JString (de_device_id entry));
     ("device_type", JString (de_device_type entry));
     ("school_name", text_or_null (de_school_name entry));
     ("dcdw_label", jopt_string (de_dcdw_label entry));
     ("model_version", JString (de_model_version entry));
     ("capabilities", texts_or_null (de_capabilities entry));
     ("product", jopt (de_product entry));
     ("version", jopt (de_version entry));
     ("status", JString (if de_online entry then "online" else "offline"))].

Definition entry_le (a b : DirectoryEntry) : Prop :=
  String.le (de_device_id a) (de_device_id b).
#[export] Instance entry_le_dec : RelDecision entry_le.
Proof. intros a b. unfold entry_le. apply _. Defined.

Definition BuildDeviceDirectorySnapshot (entries : list DirectoryEntry) (revision : Z)
    (generated_at : TimePoint) : json :=
  let sorted_entries := merge_sort entry_le entries in
  jobject
    [("schema_version", JInt 1);
     ("event_type", JString "device_directory_snapshot");
     ("generated_at", JString (FormatUtcRfc3339Millis generated_at));
     ("revision", JUInt revision);
     ("devices", JArray (directory_device <$> sorted_entries))].

Definition BuildStateEvent (snapshot : Snapshot) (reason : ChangeReason)
    (event_at : TimePoint) : json :=
  jobject
    [("schema_version", JInt 1); ("event_type", JString "device_state");
     ("event_at", JString (FormatUtcRfc3339Millis event_at));
     ("revision", JUInt (sn_revision snapshot));
     ("device_id", JString (sn_device_id snapshot));
     ("device_type", JString (sn_device_type snapshot));
     ("school_name", text_or_null (sn_school_name snapshot));
     ("dcdw_label", jopt_string (sn_dcdw_label snapshot));
     ("model_version", JString (sn_model_version snapshot));
     ("capabilities", texts_or_null (sn_capabilities snapshot));
     ("product", jopt (sn_product snapshot));
     ("version", jopt (sn_version snapshot));
     ("status", JString (if sn_online snapshot then "online" else "offline"));
     ("last_seen_at", OptionalTime (sn_last_seen_at snapshot));
     ("telemetry_received_at", OptionalTime (sn_telemetry_received_at snapshot));
     ("latest_telemetry", jopt (sn_latest_telemetry snapshot));
     ("change_reason", JString (ToString reason));
     ("degraded", JBool (sn_degraded snapshot))].

Section Directory.
Context `{JL : JsonLib}.

(** The defaulted comparison of [DirectoryEntry] and of a map of entries; JSON
    members compare with the library's equality. *)
Definition opt_equal (a b : option json) : bool :=
  match a, b with
  | Some x, Some y => json_equal x y
  | None, None => true
  | _, _ => false
  end.

Definition entry_equal (a b : DirectoryEntry) : bool :=
  String.eqb (de_device_id a) (de_device_id b)
  && String.eqb (de_school_name a) (de_school_name b)
  && bool_decide (de_dcdw_label a = de_dcdw_label b)
  && String.eqb (de_model_version a) (de_model_version b)
  && Bool.eqb (de_online a) (de_online b)
  && String.eqb (de_device_type a) (de_device_type b)
  && bool_decide (de_capabilities a = de_capabilities b)
  && opt_equal (de_product a) (de_product b)
  && opt_equal (de_version a) (de_version b).

Fixpoint items_equal (a b : list (string * DirectoryEntry)) : bool :=
  match a, b with
  | [], [] => true
  | (k1, e1) :: a', (k2, e2) :: b' =>
      String.eqb k1 k2 && entry_equal e1 e2 && items_equal a' b'
  | _, _ => false
  end.

Definition Update (d : DeviceDirectory) (entry : DirectoryEntry) : bool * DeviceDirectory :=
  let changed := match dir_entries d !! de_device_id entry with
                 | None => true
                 | Some old => negb (entry_equal old entry)
                 end in
  if negb (dir_initialized d) || changed then
    (true, {| dir_entries := <[de_device_id entry := entry]> (dir_entries d);
              dir_revision := u64 (dir_revision d + 1);
              dir_initialized := true |})
  else (false, d).

Definition replacement (entries : list DirectoryEntry) : gmap string DirectoryEntry :=
  foldl (λ m entry, <[de_device_id entry := entry]> m) ∅ entries.

Definition Replace (d : DeviceDirectory) (entries : list DirectoryEntry) :
    bool * DeviceDirectory :=
  let new := replacement entries in
  if dir_initialized d && items_equal (map_items new) (map_items (dir_entries d))
  then (false, d)
  else (true, {| dir_entries := new; dir_revision := u64 (dir_revision d + 1);
                 dir_initialized := true |}).

Definition Entries (d : DeviceDirectory) : list DirectoryEntry := (map_items (dir_entries d)).*2.
Definition Revision (d : DeviceDirectory) : Z := dir_revision d.

(** The calls that change a directory. *)
Inductive DirectoryOp :=
| OpUpdate (entry : DirectoryEntry)
| OpReplace (entries : list DirectoryEntry).

Definition directory_step (d : DeviceDirectory) (op : DirectoryOp) : bool * DeviceDirectory :=
  match op with OpUpdate e => Update d e | OpReplace es => Replace d es end.

(** The run of a list of calls, with what each of them returned. *)
Fixpoint directory_run (d : DeviceDirectory) (ops : list DirectoryOp) :
    list bool * DeviceDirectory :=
  match ops with
  | [] => ([], d)
  | op :: ops' =>
      let r := directory_step d op in
      let rest := directory_run r.2 ops' in (r.1 :: rest.1, rest.2)
  end.

(** What a reader of the directory expects after [ops]: for every device the
    entry given last, up to JSON equality. *)
Definition directory_spec (m : gmap string DirectoryEntry) (op : DirectoryOp) :
    gmap string DirectoryEntry :=
  match op with
  | OpUpdate e => <[de_device_id e := e]> m
  | OpReplace es => replacement es
  end.
End Directory.

(** ** Lemmas on the directory *)
Section DirectoryFacts.
Context `{JL : JsonLib}.

(** The two ways an announced entry can stand for another: identical, or equal
    for the library in one of the two argument orders the code uses. *)
Definition same_entry (a b : DirectoryEntry) : Prop :=
  a = b ∨ entry_equal a b = true ∨ entry_equal b a = true.

Definition same_entries (a b : gmap string DirectoryEntry) : Prop :=
  ∀ id, match a !! id, b !! id with
        | Some x, Some y => same_entry x y
        | None, None => True
        | _, _ => False
        end.

Lemma same_entries_refl a : same_entries a a.
Proof. intros id. destruct (a !! id); [by left|done]. Qed.

Lemma items_equal_assoc (a b : list (string * DirectoryEntry)) :
  items_equal a b = true →
  a.*1 = b.*1 ∧ ∀ k x, (k, x) ∈ b → ∃ y, (k, y) ∈ a ∧ entry_equal y x = true.
Proof.
  revert b. induction a as [|[k1 e1] a IH]; intros [|[k2 e2] b] H; try done; cbn in H.
  - split; [done|]. intros k x Hx. by apply elem_of_nil in Hx.
  - bool_prop. subst. destruct (IH b) as [Hk Hv]; [done|]. split; [cbn; congruence|].
    intros k x [[= -> ->]|Hx]%elem_of_cons; [by exists e1; split; [left|]|].
    destruct (Hv _ _ Hx) as (y & Hy & He). exists y. split; [by right|done].
Qed.

Lemma items_equal_same a b : items_equal (map_items a) (map_items b) = true → same_entries b a.
Proof.
  intros H. apply items_equal_assoc in H as [Hk Hv]. intros id.
  destruct (b !! id) as [x|] eqn:Eb.
  - apply map_items_lookup in Eb. destruct (Hv _ _ Eb) as (y & Hy & He).
    apply map_items_lookup in Hy. rewrite Hy. by right; right.
  - destruct (a !! id) as [x|] eqn:Ea; [|done]. apply map_items_lookup in Ea.
    apply (list_elem_of_fmap_2 fst) in Ea. rewrite Hk in Ea.
    apply list_elem_of_fmap in Ea as ([k y] & Hid & Hy). cbn in Hid. subst.
    apply map_items_lookup in Hy. congruence.
Qed.

Lemma same_entries_insert a b id e :
  same_entries a b → same_entries (<[id:=e]> a) (<[id:=e]> b).
Proof.
  intros H i. destruct (decide (i = id)) as [->|].
  - rewrite !lookup_insert_eq. by left.
  - rewrite !lookup_insert_ne by done. apply H.
Qed.

(** One call: what it returns, what happens to the revision, and that the stored
    entries keep standing for the announced ones. *)
Lemma directory_step_spec d op m :
  same_entries (dir_entries d) m →
  same_entries (dir_entries (directory_step d op).2) (directory_spec m op) ∧
  (if (directory_step d op).1
   then dir_revision (directory_step d op).2 = u64 (dir_revision d + 1)
   else (directory_step d op).2 = d).
Proof.
  intros Hs. destruct op as [e|es]; cbn; [unfold Update|unfold Replace].
  - destruct (negb (dir_initialized d) || _) eqn:E; cbn; (split; [|done]).
    + by apply same_entries_insert.
    + bool_prop. destruct (dir_entries d !! de_device_id e) as [old|] eqn:Eo; [|done].
      bool_prop. intros i. destruct (decide (i = de_device_id e)) as [->|].
      * rewrite Eo, lookup_insert_eq. by right; left.
      * rewrite lookup_insert_ne by done. apply Hs.
  - destruct (dir_initialized d && _) eqn:E; cbn; (split; [|done]).
    + bool_prop. by apply items_equal_same.
    + apply same_entries_refl.
Qed.

Definition announced (rs : list bool) : Z := Z.of_nat (length (filter (λ b, b = true) rs)).

Lemma directory_run_spec ops d m :
  same_entries (dir_entries d) m → 0 <= dir_revision d <= max_u64 →
  let r := directory_run d ops in
  same_entries (dir_entries r.2) (foldl directory_spec m ops) ∧
  length r.1 = length ops ∧
  dir_revision r.2 = u64 (dir_revision d + announced r.1) ∧
  (announced r.1 = 0 → r.2 = d).
Proof.
  revert d m. induction ops as [|op ops IH]; intros d m Hs Hr; cbn zeta.
  { cbn. rewrite Z.add_0_r, u64_small by done. done. }
  destruct (directory_step_spec d op m Hs) as [Hs' Hd]. cbn.
  destruct (directory_step d op) as [b d'] eqn:E. cbn in Hs', Hd |- *.
  assert (0 <= dir_revision d' <= max_u64) as Hr'.
  { destruct b; [rewrite Hd; apply u64_range|by subst]. }
  destruct (IH d' _ Hs' Hr') as (H1 & H2 & H3 & H4).
  split; [done|]. split; [by rewrite H2|]. unfold announced in *. rewrite filter_cons.
  destruct b; cbn [length decide decide_rel].
  - rewrite decide_True by done. split; [|cbn [length]; intros; exfalso; lia]. rewrite H3, Hd. unfold u64. rewrite Zplus_mod_idemp_l. f_equal. cbn [length]. lia.
  - subst d'. done.
Qed.

Lemma announced_bounds rs : 0 <= announced rs <= Z.of_nat (length rs).
Proof. unfold announced. pose proof (length_filter (λ b, b = true) rs). lia. Qed.
End DirectoryFacts.

(** ** Properties of the directory *)

(** The directory kept for publication, after any sequence of announcements, holds for every
    device the last announced entry (a finite map specification), without duplicates and sorted
    by device identifier, and its listing is the list of those entries. *)
Theorem directory_refines_spec `{JL : JsonLib} ops :
  let d := (directory_run empty_directory ops).2 in
  same_entries (dir_entries d) (foldl directory_spec ∅ ops) ∧
  NoDup (map_items (dir_entries d)).*1 ∧
  StronglySorted key_le (map_items (dir_entries d)) ∧
  Entries d = (map_items (dir_entries d)).*2.
Proof.
  intros d. split; [|auto using map_items_NoDup, map_items_sorted].
  apply directory_run_spec; [apply same_entries_refl|done].
Qed.

(** The revision of the directory counts the announcements that changed it, on 64 bits, and as
    long as fewer than 2^64 announcements were made, an unchanged revision means an unchanged
    listing. *)
Theorem revision_identifies_directory `{JL : JsonLib} before after :
  Z.of_nat (length after) < two64 →
  let d := (directory_run empty_directory before).2 in
  let r := directory_run d after in
  dir_revision r.2 = u64 (dir_revision d + announced r.1) ∧
  (Revision r.2 = Revision d → Entries r.2 = Entries d ∧ Forall (eq false) r.1).
Proof.
  intros Hlen d r.
  destruct (directory_run_spec before empty_directory ∅ (same_entries_refl _) ltac:(done))
    as (Hs & _ & Hrev & _). fold d in Hs, Hrev.
  assert (0 <= dir_revision d <= max_u64) as Hr by (rewrite Hrev; apply u64_range).
  destruct (directory_run_spec after d _ Hs Hr) as (_ & Hl & Hrev' & H0). fold r in Hl, Hrev', H0.
  split; [done|]. unfold Revision. rewrite Hrev'. intros E.
  assert (announced r.1 = 0) as Ha.
  { pose proof (announced_bounds r.1). rewrite Hl in *. unfold u64, max_u64, two64 in *.
    Z.to_euclidean_division_equations. lia. }
  rewrite H0 by done. split; [done|]. apply Forall_forall. intros [] Hb; [|done].
  unfold announced in Ha. exfalso.
  assert (true ∈ filter (λ b, b = true) r.1) as Hin by by apply list_elem_of_filter.
  destruct (filter (λ b, b = true) r.1); [by apply elem_of_nil in Hin|done].
Qed.

(** ** Properties of the documents *)
#[export] Instance entry_le_trans : Transitive entry_le.
Proof. intros a b c. unfold entry_le. apply transitivity. Qed.
#[export] Instance entry_le_total : Total entry_le.
Proof. intros a b. unfold entry_le. apply (total String.le). Qed.

(** The order of the entries does not matter. *)
Theorem snapshot_order_independent es1 es2 revision t :
  NoDup (de_device_id <$> es1) → es1 ≡ₚ es2 →
  BuildDeviceDirectorySnapshot es1 revision t = BuildDeviceDirectorySnapshot es2 revision t.
Proof.
  intros Hnd Hp. unfold BuildDeviceDirectorySnapshot.
  assert (merge_sort entry_le es1 = merge_sort entry_le es2) as ->; [|done].
  apply (StronglySorted_unique_strong entry_le);
    [|apply (StronglySorted_merge_sort _)|apply (StronglySorted_merge_sort _)|
      by rewrite !merge_sort_Permutation].
  intros a b Ha Hb Hab Hba. rewrite merge_sort_Permutation in Ha, Hb.
  assert (de_device_id a = de_device_id b) as E by (by apply (anti_symm String.le)).
  rewrite <- Hp in Hb. apply list_elem_of_lookup in Ha as [i Hi], Hb as [j Hj].
  assert (i = j) as ->; [|congruence].
  apply (NoDup_lookup _ i j (de_device_id a) Hnd); by rewrite list_lookup_fmap, ?Hi, ?Hj; cbn; rewrite ?E.
Qed.

(** The millisecond a published time denotes. *)
Definition milliseconds (t : TimePoint) : Z := t / 1000000.
Definition clock_range (o : option TimePoint) : Prop :=
  match o with Some t => - 2 ^ 63 <= t < 2 ^ 63 | None => True end.

Lemma format_inj a b :
  clock_range (Some a) → clock_range (Some b) →
  FormatUtcRfc3339Millis a = FormatUtcRfc3339Millis b → milliseconds a = milliseconds b.
Proof.
  intros Ha Hb E. apply format_parse in Ha as [_ Ha], Hb as [_ Hb]. rewrite E in Ha.
  unfold milliseconds. congruence.
Qed.

Lemma OptionalTime_inj a b :
  clock_range a → clock_range b → OptionalTime a = OptionalTime b →
  milliseconds <$> a = milliseconds <$> b.
Proof.
  intros Ha Hb E. destruct a, b; cbn in *; try done. injection E as E. f_equal. by apply format_inj.
Qed.

Lemma text_or_null_inj a b : text_or_null a = text_or_null b → a = b.
Proof. unfold text_or_null. destruct a, b; cbn; intros; congruence. Qed.
Lemma jopt_string_inj a b : jopt_string a = jopt_string b → a = b.
Proof. destruct a, b; cbn; intros; congruence. Qed.
Lemma texts_or_null_inj a b : texts_or_null a = texts_or_null b → a = b.
Proof.
  destruct a as [a|], b as [b|]; cbn; intros E; try congruence. injection E as E. f_equal.
  revert b E. induction a as [|x a IH]; intros [|y b] E; cbn in *; try done.
  injection E as E1 E2. subst. f_equal. by apply IH.
Qed.
Lemma online_inj (a b : bool) :
  (if a then "online" else "offline") = (if b then "online" else "offline") → a = b.
Proof. by destruct a, b. Qed.
Lemma ToString_inj a b : ToString a = ToString b → a = b.
Proof. by destruct a, b. Qed.

(** Two device events with the same content were built from states that agree on every field
    they report, the times to the millisecond: the event tells the state. *)
Theorem state_event_faithful s1 s2 r1 r2 t1 t2 :
  Forall clock_range [Some t1; Some t2; sn_last_seen_at s1; sn_last_seen_at s2;
    sn_telemetry_received_at s1; sn_telemetry_received_at s2] →
  BuildStateEvent s1 r1 t1 = BuildStateEvent s2 r2 t2 →
  r1 = r2 ∧ milliseconds t1 = milliseconds t2 ∧
  sn_device_id s1 = sn_device_id s2 ∧ sn_revision s1 = sn_revision s2 ∧
  sn_school_name s1 = sn_school_name s2 ∧ sn_dcdw_label s1 = sn_dcdw_label s2 ∧
  sn_model_version s1 = sn_model_version s2 ∧ sn_online s1 = sn_online s2 ∧
  sn_degraded s1 = sn_degraded s2 ∧ sn_device_type s1 = sn_device_type s2 ∧
  sn_capabilities s1 = sn_capabilities s2 ∧
  jopt (sn_latest_telemetry s1) = jopt (sn_latest_telemetry s2) ∧
  jopt (sn_product s1) = jopt (sn_product s2) ∧ jopt (sn_version s1) = jopt (sn_version s2) ∧
  milliseconds <$> sn_last_seen_at s1 = milliseconds <$> sn_last_seen_at s2 ∧
  milliseconds <$> sn_telemetry_received_at s1 = milliseconds <$> sn_telemetry_received_at s2.
Proof.
  intros Hr E. rewrite !Forall_cons in Hr. destruct Hr as (Ht1 & Ht2 & Hl1 & Hl2 & Hm1 & Hm2 & _).
  apply jobject_inj in E; [|by apply (bool_decide_unpack _)|done].
  injection E as Etime Erev Eid Etype Eschool Elabel Emodel Ecap Eprod Ever Estatus Eseen Erecv
    Etel Ereason Edeg.
  repeat split; auto using ToString_inj, format_inj, text_or_null_inj, jopt_string_inj,
    texts_or_null_inj, online_inj, OptionalTime_inj.
Qed.

(** ** A directory of one device *)
Definition sample_entry (online : bool) : DirectoryEntry :=
  {| de_device_id := "d1"; de_school_name := "S"; de_dcdw_label := Some "A";
     de_model_version := "m"; de_online := online; de_device_type := "cns_box";
     de_capabilities := None; de_product := None; de_version := None |}.

Lemma revision_identifies_directory_witness :
  let d := (directory_run (JL := codec_lib) empty_directory [OpUpdate (sample_entry true)]).2 in
  let r := directory_run (JL := codec_lib) d [OpUpdate (sample_entry true); OpReplace [sample_entry true]] in
  Entries r.2 = Entries d ∧ Forall (eq false) r.1.
Proof.
  refine (proj2 (revision_identifies_directory (JL := codec_lib) [OpUpdate (sample_entry true)]
    [OpUpdate (sample_entry true); OpReplace [sample_entry true]] _) _);
    vm_compute; reflexivity.
Defined.

Definition sample_snapshot : Snapshot :=
  {| sn_device_id := "d1"; sn_school_name := "S"; sn_dcdw_label := None; sn_model_version := "m";
     sn_revision := 3; sn_school_id := 7; sn_online := true; sn_last_seen_at := Some 1; sn_telemetry_received_at := None;
     sn_latest_telemetry := None; sn_degraded := false; sn_device_type := "cns_box";
     sn_capabilities := None; sn_product := None; sn_version := None |}.

(** Two times of the same millisecond give the same event. *)
Lemma state_event_faithful_witness :
  milliseconds 5000001 = milliseconds 5000002.
Proof.
  refine (proj1 (proj2 (state_event_faithful sample_snapshot sample_snapshot kTelemetryReason
    kTelemetryReason 5000001 5000002 _ _))).
  - repeat (apply Forall_cons; split; [cbn; lia|]). apply Forall_nil_2.
  - vm_compute. reflexivity.
Defined.
