(* ===== verification/BoundedQueue.v ===== *)
(** * BoundedQueue: src/route_service/src/core/queue/bounded_queue.hpp

    The bounded queue between the threads.  Every operation runs under the mutex
    of the queue, so a run is a sequence of atomic steps; [WaitPop] is the only
    operation with more than one: the test of the predicate on entry, and its
    test again after every wake-up of the condition variable, spurious ones
    included. *)

From Stdlib Require Import ZArith Lia.
From S2P Require Import Prelude.
From stdpp Require Import options.

Record BoundedQueue (T : Type) := {
  capacity_ : nat;
  queue_ : list T;
  closed_ : bool;
  waiting : nat;   (* consumers blocked in the condition variable *)
  awake : nat      (* consumers woken up, not yet back under the mutex *)
}.
Arguments capacity_ {T} b. Arguments queue_ {T} b. Arguments closed_ {T} b.
Arguments waiting {T} b. Arguments awake {T} b.

Section Operations.
Context {T : Type}.

Definition MakeBoundedQueue (capacity : nat) : expected (BoundedQueue T) string :=
  if (capacity =? 0)%nat then Unexpected "invalid_argument"
  else Ok {| capacity_ := capacity; queue_ := []; closed_ := false;
             waiting := 0; awake := 0 |}.

Definition notify_one (q : BoundedQueue T) : BoundedQueue T :=
  match waiting q with
  | O => q
  | S n => {| capacity_ := capacity_ q; queue_ := queue_ q; closed_ := closed_ q;
              waiting := n; awake := S (awake q) |}
  end.

Definition notify_all (q : BoundedQueue T) : BoundedQueue T :=
  {| capacity_ := capacity_ q; queue_ := queue_ q; closed_ := closed_ q;
     waiting := 0; awake := waiting q + awake q |}.

Definition TryPush (q : BoundedQueue T) (value : T) : bool * BoundedQueue T :=
  if closed_ q || (capacity_ q <=? length (queue_ q))%nat then (false, q)
  else (true, notify_one
          {| capacity_ := capacity_ q; queue_ := queue_ q ++ [value]; closed_ := closed_ q;
             waiting := waiting q; awake := awake q |}).

Definition Close (q : BoundedQueue T) : BoundedQueue T :=
  notify_all {| capacity_ := capacity_ q; queue_ := queue_ q; closed_ := true;
                waiting := waiting q; awake := awake q |}.

(** The predicate of the wait, and what follows once it holds. *)
Definition ready (q : BoundedQueue T) : bool :=
  closed_ q || negb (length (queue_ q) =? 0)%nat.

Definition take_front (q : BoundedQueue T) : option T * BoundedQueue T :=
  match queue_ q with
  | [] => (None, q)
  | value :: rest =>
      (Some value, {| capacity_ := capacity_ q; queue_ := rest; closed_ := closed_ q;
                      waiting := waiting q; awake := awake q |})
  end.

(** A consumer that holds the mutex: it returns a result, or blocks ([None]). *)
Definition WaitPop (q : BoundedQueue T) : option (option T) * BoundedQueue T :=
  if ready q then let r := take_front q in (Some r.1, r.2)
  else (None, {| capacity_ := capacity_ q; queue_ := queue_ q; closed_ := closed_ q;
                 waiting := S (waiting q); awake := awake q |}).

Definition Size (q : BoundedQueue T) : nat := length (queue_ q).
Definition IsClosed (q : BoundedQueue T) : bool := closed_ q.

(** The steps of the threads that share a queue. *)
Inductive QueueOp :=
| OpPush (value : T)
| OpPop                  (* a consumer enters [WaitPop] *)
| OpResume               (* a woken consumer tests the predicate again *)
| OpSpurious             (* the condition variable wakes a consumer by itself *)
| OpClose.

Inductive QueueEvent :=
| Pushed (value : T)
| Rejected (value : T)
| Popped (value : T)
| Finished               (* [WaitPop] returned no value *)
| Blocked
| Silent.

Definition pop_event (r : option (option T)) : QueueEvent :=
  match r with Some (Some v) => Popped v | Some None => Finished | None => Blocked end.

Definition queue_step (q : BoundedQueue T) (op : QueueOp) : QueueEvent * BoundedQueue T :=
  match op with
  | OpPush v => let r := TryPush q v in (if r.1 then Pushed v else Rejected v, r.2)
  | OpPop => let r := WaitPop q in (pop_event r.1, r.2)
  | OpResume =>
      match awake q with
      | O => (Silent, q)
      | S n =>
          let r := WaitPop {| capacity_ := capacity_ q; queue_ := queue_ q;
                              closed_ := closed_ q; waiting := waiting q; awake := n |} in
          (pop_event r.1, r.2)
      end
  | OpSpurious => (Silent, notify_one q)
  | OpClose => (Silent, Close q)
  end.

Fixpoint queue_run (q : BoundedQueue T) (ops : list QueueOp) :
    list QueueEvent * BoundedQueue T :=
  match ops with
  | [] => ([], q)
  | op :: ops' =>
      let r := queue_step q op in
      let rest := queue_run r.2 ops' in (r.1 :: rest.1, rest.2)
  end.

(** The values the producers got in, and the ones the consumers got out. *)
Definition pushed (es : list QueueEvent) : list T :=
  omap (λ e, match e with Pushed v => Some v | _ => None end) es.
Definition popped (es : list QueueEvent) : list T :=
  omap (λ e, match e with Popped v => Some v | _ => None end) es.

(** No wake-up is lost: as long as a consumer sleeps there are enough woken ones
    for the values in the queue, and nobody sleeps once the queue is closed. *)
Definition queue_ok (q : BoundedQueue T) : Prop :=
  (0 < capacity_ q)%nat ∧ (length (queue_ q) <= capacity_ q)%nat ∧
  (0 < waiting q → length (queue_ q) <= awake q)%nat ∧
  (closed_ q = true → waiting q = 0%nat).

Lemma notify_one_ok q : queue_ok q → queue_ok (notify_one q).
Proof.
  unfold queue_ok, notify_one. destruct (waiting q) eqn:E; cbn; rewrite ?E; [tauto|].
  intros (? & ? & H1 & H2). repeat split; [lia..|]. intros Hc. by apply H2 in Hc.
Qed.

Lemma TryPush_ok q v : queue_ok q → queue_ok (TryPush q v).2.
Proof.
  unfold queue_ok, TryPush. intros (Hc & Hl & Hw & Hcl).
  destruct (closed_ q || _) eqn:E; [done|]. apply orb_false_iff in E as [E1 E2].
  apply Nat.leb_gt in E2. cbn. unfold notify_one. cbn.
  destruct (waiting q); cbn; rewrite length_app, E1; cbn; repeat split; lia || done.
Qed.

Lemma WaitPop_ok q : queue_ok q → queue_ok (WaitPop q).2.
Proof.
  unfold queue_ok, WaitPop, ready, take_front. intros (Hc & Hl & Hw & Hcl).
  destruct (closed_ q) eqn:E; cbn; destruct (queue_ q) as [|v l] eqn:Eq; cbn in *; rewrite ?E, ?Eq;
    cbn; repeat split; try lia; try done; intuition lia.
Qed.

Lemma resume_ok q n : queue_ok q → awake q = S n →
  queue_ok (WaitPop {| capacity_ := capacity_ q; queue_ := queue_ q; closed_ := closed_ q;
                       waiting := waiting q; awake := n |}).2.
Proof.
  unfold queue_ok, WaitPop, ready, take_front. cbn. intros (Hc & Hl & Hw & Hcl) Ha.
  destruct (closed_ q) eqn:E; cbn; destruct (queue_ q) as [|v l] eqn:Eq; cbn in *; rewrite ?E, ?Eq;
    cbn; repeat split; try lia; try done; intuition lia.
Qed.

Lemma queue_step_ok q op : queue_ok q → queue_ok (queue_step q op).2.
Proof.
  intros Hq. destruct op; cbn.
  - by apply TryPush_ok.
  - by apply WaitPop_ok.
  - destruct (awake q) eqn:E; [done|]. by apply resume_ok.
  - by apply notify_one_ok.
  - destruct Hq as (? & ? & ? & ?). unfold queue_ok. cbn. repeat split; lia || done.
Qed.

(** One step keeps the order of the values. *)
Lemma WaitPop_fifo q :
  (match pop_event (WaitPop q).1 with Popped v => [v] | _ => [] end) ++ queue_ (WaitPop q).2
  = queue_ q.
Proof. unfold WaitPop, take_front. destruct (ready q); [|done]. by destruct (queue_ q) eqn:E. Qed.

Lemma queue_step_fifo q op :
  popped [(queue_step q op).1] ++ queue_ (queue_step q op).2
  = queue_ q ++ pushed [(queue_step q op).1].
Proof.
  destruct op; cbn; rewrite ?app_nil_r.
  - unfold TryPush. destruct (closed_ q || _); cbn; [by rewrite app_nil_r|].
    unfold notify_one. cbn. by destruct (waiting q).
  - pose proof (WaitPop_fifo q) as H. by destruct (pop_event (WaitPop q).1) eqn:E; cbn in *;
      rewrite ?app_nil_r; destruct (WaitPop q).1 as [[]|].
  - destruct (awake q) as [|n]; [by rewrite app_nil_r|]. cbn.
    pose proof (WaitPop_fifo {| capacity_ := capacity_ q; queue_ := queue_ q;
      closed_ := closed_ q; waiting := waiting q; awake := n |}) as H. cbn in H.
    destruct (WaitPop _).1 as [[]|]; cbn in *; by rewrite app_nil_r.
  - unfold notify_one. destruct (waiting q); cbn; by rewrite ?app_nil_r.
  - done.
Qed.

Lemma capacity_notify_one q : capacity_ (notify_one q) = capacity_ q.
Proof. unfold notify_one. by destruct (waiting q). Qed.
Lemma closed_notify_one q : closed_ (notify_one q) = closed_ q.
Proof. unfold notify_one. by destruct (waiting q). Qed.
Lemma WaitPop_frame q :
  capacity_ (WaitPop q).2 = capacity_ q ∧ closed_ (WaitPop q).2 = closed_ q.
Proof. unfold WaitPop, take_front. destruct (ready q); [|done]. by destruct (queue_ q). Qed.

Lemma queue_step_capacity q op : capacity_ (queue_step q op).2 = capacity_ q.
Proof.
  destruct op; cbn; [|apply WaitPop_frame| |apply capacity_notify_one|done].
  - unfold TryPush. destruct (closed_ q || _); [done|]. by cbn; rewrite capacity_notify_one.
  - destruct (awake q); [done|]. cbn. by destruct (WaitPop_frame {| capacity_ := capacity_ q;
      queue_ := queue_ q; closed_ := closed_ q; waiting := waiting q; awake := n |}) as [-> _].
Qed.

(** A closed queue stays closed, takes nothing in and blocks nobody. *)
Lemma queue_step_closed q op :
  closed_ q = true →
  closed_ (queue_step q op).2 = true ∧ pushed [(queue_step q op).1] = [] ∧
  (queue_step q op).1 ≠ Blocked.
Proof.
  intros Hc. assert (∀ q', closed_ q' = true →
    closed_ (WaitPop q').2 = true ∧ pushed [pop_event (WaitPop q').1] = [] ∧
    pop_event (WaitPop q').1 ≠ Blocked) as Hpop.
  { intros q' Hq'. unfold WaitPop, ready, take_front. rewrite Hq'. cbn.
    by destruct (queue_ q'). }
  destruct op; cbn; [|by apply Hpop| |by rewrite closed_notify_one|done].
  - unfold TryPush. by rewrite Hc.
  - destruct (awake q); [done|]. cbn. by apply Hpop.
Qed.

(** A consumer is told the end only when the queue is closed and drained. *)
Lemma queue_step_finished q op :
  (queue_step q op).1 = Finished → closed_ q = true ∧ queue_ q = [].
Proof.
  assert (∀ q', pop_event (WaitPop q').1 = Finished → closed_ q' = true ∧ queue_ q' = []) as Hpop.
  { intros q'. unfold WaitPop, ready, take_front.
    destruct (closed_ q'), (queue_ q') eqn:E; cbn; rewrite ?E; cbn; done. }
  destruct op; cbn; [by destruct (TryPush q value).1|apply Hpop| |done|done].
  destruct (awake q); [done|]. cbn. intros Hf. by apply Hpop in Hf.
Qed.

Lemma pushed_cons e es : pushed (e :: es) = pushed [e] ++ pushed es.
Proof. by destruct e. Qed.
Lemma popped_cons e es : popped (e :: es) = popped [e] ++ popped es.
Proof. by destruct e. Qed.

Lemma queue_run_fifo q ops :
  popped (queue_run q ops).1 ++ queue_ (queue_run q ops).2
  = queue_ q ++ pushed (queue_run q ops).1.
Proof.
  revert q. induction ops as [|op ops IH]; intros q; [cbn; by rewrite app_nil_r|].
  cbn [queue_run fst snd]. rewrite pushed_cons, popped_cons, <- app_assoc, IH, !app_assoc.
  f_equal. apply queue_step_fifo.
Qed.

Lemma queue_run_ok q ops :
  queue_ok q → queue_ok (queue_run q ops).2 ∧ capacity_ (queue_run q ops).2 = capacity_ q.
Proof.
  revert q. induction ops as [|op ops IH]; intros q Hq; [done|]. cbn.
  destruct (IH (queue_step q op).2) as [H1 H2]; [by apply queue_step_ok|].
  split; [done|]. by rewrite H2, queue_step_capacity.
Qed.

Lemma queue_run_closed q ops :
  closed_ q = true →
  closed_ (queue_run q ops).2 = true ∧ pushed (queue_run q ops).1 = [] ∧
  Forall (λ e, e ≠ Blocked) (queue_run q ops).1.
Proof.
  revert q. induction ops as [|op ops IH]; intros q Hc; [done|]. cbn [queue_run fst snd].
  destruct (queue_step_closed q op Hc) as (H1 & H2 & H3). destruct (IH _ H1) as (H4 & H5 & H6).
  split; [done|]. split; [by rewrite pushed_cons, H2, H5|by constructor].
Qed.

Lemma queue_run_finished q ops :
  Finished ∈ (queue_run q ops).1 →
  closed_ (queue_run q ops).2 = true ∧ queue_ (queue_run q ops).2 = [].
Proof.
  revert q. induction ops as [|op ops IH]; intros q Hf; [by apply elem_of_nil in Hf|].
  cbn [queue_run fst snd] in *. apply elem_of_cons in Hf as [Hf|Hf]; [|by apply IH].
  symmetry in Hf. destruct (queue_step_finished q op Hf) as [Hc Hq].
  destruct (queue_step_closed q op Hc) as (Hc' & Hp & _).
  pose proof (queue_step_fifo q op) as H. rewrite Hf, Hq in H. cbn in H.
  destruct (queue_run_closed _ ops Hc') as (? & Hps & _). split; [done|].
  pose proof (queue_run_fifo (queue_step q op).2 ops) as H'. rewrite H, Hps in H'.
  by apply app_nil in H' as [_ ->].
Qed.

(** C33: The queue between threads delivers what was pushed in order and once, never holds more than
    its capacity, wakes enough consumers whenever it holds an element while one waits, and leaves
    no consumer waiting once closed. *)
Theorem bounded_queue_fifo capacity q ops :
  MakeBoundedQueue capacity = Ok q →
  let es := (queue_run q ops).1 in let q' := (queue_run q ops).2 in
  pushed es = popped es ++ queue_ q' ∧
  (Size q' <= capacity)%nat ∧
  (0 < waiting q' → Size q' <= awake q')%nat ∧ (IsClosed q' = true → waiting q' = 0%nat).
Proof.
  intros Hq es q'. assert (queue_ok q ∧ capacity_ q = capacity ∧ queue_ q = []) as (Hok & Hc & He).
  { unfold MakeBoundedQueue in Hq. destruct (capacity =? 0)%nat eqn:E; [done|].
    apply Nat.eqb_neq in E. injection Hq as <-. unfold queue_ok. cbn. repeat split; lia. }
  destruct (queue_run_ok q ops Hok) as [(_ & Hl & Hw & Hcl) Hc'].
  split; [by pose proof (queue_run_fifo q ops) as H; rewrite He in H|].
  split; [unfold Size, q'; lia|done].
Qed.

(** Closing keeps what is queued and refuses everything later. *)
Theorem bounded_queue_close q before after :
  queue_ q = [] →
  let es1 := (queue_run q (before ++ [OpClose])).1 in
  let q1 := (queue_run q (before ++ [OpClose])).2 in
  let es2 := (queue_run q1 after).1 in let q2 := (queue_run q1 after).2 in
  pushed es2 = [] ∧ Forall (λ e, e ≠ Blocked) es2 ∧ IsClosed q2 = true ∧
  (Finished ∈ es2 → pushed es1 = popped es1 ++ popped es2).
Proof.
  intros Hq es1 q1 es2 q2. assert (closed_ q1 = true) as Hc.
  { unfold q1. clear. revert q. induction before as [|op before IH]; intros q; [done|]. apply IH. }
  destruct (queue_run_closed q1 after Hc) as (Hc2 & Hp & Hb).
  split; [done|]. split; [done|]. split; [done|].
  intros Hf. destruct (queue_run_finished q1 after Hf) as [_ He].
  pose proof (queue_run_fifo q1 after) as H2. fold es2 in Hp, H2. rewrite Hp, He, !app_nil_r in H2.
  rewrite H2. symmetry. unfold es1, q1. rewrite <- (app_nil_l (pushed _)), <- Hq.
  apply queue_run_fifo.
Qed.
End Operations.

Lemma bounded_queue_fifo_witness :
  let q := {| capacity_ := 2; queue_ := []; closed_ := false; waiting := 0; awake := 0 |} in
  let ops := [OpPop; OpPush 1; OpResume; OpPush 2; OpPush 3; OpPush 4] in
  pushed (queue_run q ops).1 = popped (queue_run q ops).1 ++ queue_ (queue_run q ops).2 ∧
  pushed (queue_run q ops).1 = [1; 2; 3].
Proof.
  split; [|vm_compute; reflexivity].
  refine (proj1 (bounded_queue_fifo 2 _ [OpPop; OpPush 1; OpResume; OpPush 2; OpPush 3;
    OpPush 4] _)).
  reflexivity.
Defined.
