(* ===== verification/Ingress.v ===== *)
(** * Ingress: src/route_service/src/core/runtime/rate_limiter.cpp, device_ingress.cpp

    The per-key rate limiter of the diagnostics and the bridge that hands MQTT
    device messages to the service. *)

From Stdlib Require Import ZArith Lia.
From S2P Require Import Prelude.
From stdpp Require Import options.

(** ** RateLimiter *)
Record RateLimiter := { window_ : Z; last_emissions_ : gmap string TimePoint }.

Definition MakeRateLimiter (window : Z) : RateLimiter :=
  {| window_ := window; last_emissions_ := ∅ |}.

Definition ShouldEmit (l : RateLimiter) (key : string) (now : TimePoint) : bool * RateLimiter :=
  let emit := {| window_ := window_ l; last_emissions_ := <[key := now]> (last_emissions_ l) |} in
  match last_emissions_ l !! key with
  | Some found => if now - found <? window_ l then (false, l) else (true, emit)
  | None => (true, emit)
  end.

(** The calls a limiter let through, per key, in order. *)
Fixpoint emissions (l : RateLimiter) (key : string) (calls : list (string * TimePoint)) :
    list TimePoint :=
  match calls with
  | [] => []
  | (k, now) :: calls' =>
      let r := ShouldEmit l k now in
      (if r.1 && String.eqb k key then [now] else []) ++ emissions r.2 key calls'
  end.

Definition limiter_run (l : RateLimiter) (calls : list (string * TimePoint)) : RateLimiter :=
  foldl (λ l c, (ShouldEmit l c.1 c.2).2) l calls.

(** ** DeviceIngress *)
Definition SaturatingAdd (left right : Z) : Z :=
  if max_u64 - left <? right then max_u64 else left + right.

Record DeviceIngress := {
  has_submit : bool;
  has_diagnostic : bool;
  limiter_ : RateLimiter;
  rejected_count_ : Z;
  rejected_bytes_ : Z;
  enabled_ : bool
}.

Definition MakeDeviceIngress (submit diagnostic : bool) (window : Z) : DeviceIngress :=
  {| has_submit := submit; has_diagnostic := diagnostic; limiter_ := MakeRateLimiter window;
     rejected_count_ := 0; rejected_bytes_ := 0; enabled_ := true |}.

(** The numbers of a diagnostic, and its text. *)
Record Report := { report_count : Z; report_bytes : Z }.
Definition report_text (r : Report) : string :=
  "MQTT设备消息队列已满，已拒绝消息，次数=" +:+ dec (report_count r)
  +:+ "，字节数=" +:+ dec (report_bytes r).

(** [Handle] takes the mutex twice.  First it copies the submitter, or returns
    when the bridge is disabled ([None]). *)
Definition handle_begin (st : DeviceIngress) : option bool :=
  if enabled_ st then Some (has_submit st) else None.

(** Then, when the message was not accepted, it counts the rejection under the
    mutex again; [now] is the reading of the steady clock, [delivered] is false
    when the diagnostic sink throws. *)
Definition handle_rejected (st : DeviceIngress) (payload_bytes : Z) (now : TimePoint)
    (delivered : bool) : option Report * DeviceIngress :=
  if negb (enabled_ st) then (None, st)
  else
    let count := SaturatingAdd (rejected_count_ st) 1 in
    let bytes := SaturatingAdd (rejected_bytes_ st) payload_bytes in
    let counted l :=
      {| has_submit := has_submit st; has_diagnostic := has_diagnostic st; limiter_ := l;
         rejected_count_ := count; rejected_bytes_ := bytes; enabled_ := true |} in
    if has_diagnostic st then
      let emit := ShouldEmit (limiter_ st) "mqtt_device_queue_full" now in
      if emit.1 then
        if delivered then
          (Some {| report_count := count; report_bytes := bytes |},
           {| has_submit := has_submit st; has_diagnostic := has_diagnostic st;
              limiter_ := emit.2; rejected_count_ := 0; rejected_bytes_ := 0;
              enabled_ := true |})
        else (None, counted emit.2)
      else (None, counted emit.2)
    else (None, counted (limiter_ st)).

(** The two sections one after the other; [submitted] is what the submitter
    returned, false when it threw. *)
Definition Handle (st : DeviceIngress) (payload_bytes : Z) (submitted : bool)
    (now : TimePoint) (delivered : bool) : option Report * DeviceIngress :=
  match handle_begin st with
  | None => (None, st)
  | Some submit =>
      if submit && submitted then (None, st)
      else handle_rejected st payload_bytes now delivered
  end.

Definition Disable (st : DeviceIngress) : DeviceIngress :=
  {| has_submit := false; has_diagnostic := false; limiter_ := limiter_ st;
     rejected_count_ := rejected_count_ st; rejected_bytes_ := rejected_bytes_ st;
     enabled_ := false |}.

(** The critical sections of the threads, in the order they get the mutex: the
    first section of [Handle] changes nothing. *)
Inductive IngressOp :=
| OpRejected (payload_bytes : Z) (now : TimePoint) (delivered : bool)
| OpDisable.

Definition ingress_step (st : DeviceIngress) (op : IngressOp) : option Report * DeviceIngress :=
  match op with
  | OpRejected bytes now delivered => handle_rejected st bytes now delivered
  | OpDisable => (None, Disable st)
  end.

Fixpoint ingress_run (st : DeviceIngress) (ops : list IngressOp) :
    list Report * DeviceIngress :=
  match ops with
  | [] => ([], st)
  | op :: ops' =>
      let r := ingress_step st op in
      let rest := ingress_run r.2 ops' in (option_list r.1 ++ rest.1, rest.2)
  end.

(** The rejections up to the first [Disable]: their number and their bytes. *)
Fixpoint rejections (ops : list IngressOp) : Z * Z :=
  match ops with
  | OpRejected bytes _ _ :: ops' => (1 + (rejections ops').1, bytes + (rejections ops').2)
  | _ => (0, 0)
  end.

Definition reported (rs : list Report) : Z * Z :=
  foldr (λ r acc, (report_count r + acc.1, report_bytes r + acc.2)) (0, 0) rs.

(** ** Lemmas *)
Lemma ShouldEmit_cases l k now :
  (∃ t, last_emissions_ l !! k = Some t ∧ now < t + window_ l ∧ ShouldEmit l k now = (false, l)) ∨
  ((∀ t, last_emissions_ l !! k = Some t → t + window_ l <= now) ∧
   ShouldEmit l k now =
     (true, {| window_ := window_ l; last_emissions_ := <[k := now]> (last_emissions_ l) |})).
Proof.
  unfold ShouldEmit. destruct (last_emissions_ l !! k) as [t|] eqn:E.
  - destruct (now - t <? window_ l) eqn:Et; bool_prop.
    + left. exists t. split; [done|]. split; [lia|done].
    + right. split; [|done]. intros t' [= <-]. lia.
  - right. split; [done|done].
Qed.

Lemma emissions_spaced l key calls w :
  window_ l = w →
  Sorted (λ a b, a + w <= b) (option_list (last_emissions_ l !! key) ++ emissions l key calls).
Proof.
  revert l. induction calls as [|[k now] calls IH]; intros l Hw; cbn [emissions].
  { rewrite app_nil_r. destruct (last_emissions_ l !! key); cbn; auto. }
  destruct (ShouldEmit_cases l k now) as [(t & Hl & Ht & ->)|[Hl ->]]; cbn [fst snd]; [by apply IH|].
  destruct (String.eqb k key) eqn:Ek; bool_prop; cbn [andb].
  - subst k. specialize (IH {| window_ := window_ l;
      last_emissions_ := <[key:=now]> (last_emissions_ l) |} Hw). cbn [last_emissions_] in IH.
    rewrite lookup_insert_eq in IH. destruct (last_emissions_ l !! key) as [t|] eqn:E; [|done].
    cbn in *. constructor; [done|]. constructor. rewrite <- Hw. by apply Hl.
  - specialize (IH {| window_ := window_ l;
      last_emissions_ := <[k:=now]> (last_emissions_ l) |} Hw). cbn [last_emissions_] in IH.
    by rewrite lookup_insert_ne in IH by done.
Qed.

Lemma limiter_last l key calls t :
  last_emissions_ (limiter_run l calls) !! key = Some t →
  last_emissions_ l !! key = Some t ∨ t ∈ emissions l key calls.
Proof.
  revert l. induction calls as [|[k now] calls IH]; intros l H; [by left|].
  cbn [limiter_run foldl emissions fst snd] in *. apply IH in H as [H|H];
    [|right; apply elem_of_app; by right].
  destruct (ShouldEmit_cases l k now) as [(? & _ & _ & E)|[_ E]]; rewrite E in *; cbn in *; [by left|].
  destruct (String.eqb k key) eqn:Ek; bool_prop; cbn.
  - subst. rewrite lookup_insert_eq in H. injection H as ->. right. by left.
  - rewrite lookup_insert_ne in H by done. by left.
Qed.

Lemma limiter_window l calls : window_ (limiter_run l calls) = window_ l.
Proof.
  revert l. induction calls as [|[k now] calls IH]; intros l; [done|]. cbn. rewrite IH.
  by destruct (ShouldEmit_cases l k now) as [(? & _ & _ & ->)|[_ ->]].
Qed.

Lemma SaturatingAdd_spec a b : 0 <= a <= max_u64 → 0 <= b <= max_u64 →
  SaturatingAdd a b = Z.min max_u64 (a + b).
Proof. intros. unfold SaturatingAdd. destruct (max_u64 - a <? b) eqn:E; bool_prop; lia. Qed.

(** The limiter lets two messages with one key through only when they are a window
    apart, and refuses one exactly when the last is less than a window old. *)
Theorem rate_limiter_spacing window key calls now :
  let l := limiter_run (MakeRateLimiter window) calls in
  let sent := emissions (MakeRateLimiter window) key calls in
  Sorted (λ a b, a + window <= b) sent ∧
  ((ShouldEmit l key now).1 = false ↔
   ∃ t, last_emissions_ l !! key = Some t ∧ now < t + window) ∧
  (∀ t, last_emissions_ l !! key = Some t → t ∈ sent).
Proof.
  intros l sent. split; [by apply (emissions_spaced (MakeRateLimiter window))|]. split.
  - assert (window_ l = window) as Hw by apply limiter_window.
    destruct (ShouldEmit_cases l key now) as [(t & Hl & Ht & ->)|[Hl ->]]; cbn; split; try done.
    + intros _. exists t. by rewrite <- Hw.
    + intros (t & H1 & H2). apply Hl in H1. lia.
  - intros t Ht. by apply limiter_last in Ht as [Ht|Ht].
Qed.

Lemma rejections_nonneg ops :
  Forall (λ op, match op with OpRejected b _ _ => 0 <= b | OpDisable => True end) ops →
  0 <= (rejections ops).1 ∧ 0 <= (rejections ops).2.
Proof.
  intros H. induction H as [|[b now d|] ops Hb _ IH]; cbn [rejections fst snd] in *; lia.
Qed.

Lemma ingress_disabled st ops :
  enabled_ st = false →
  (ingress_run st ops).1 = [] ∧ enabled_ (ingress_run st ops).2 = false ∧
  rejected_count_ (ingress_run st ops).2 = rejected_count_ st ∧
  rejected_bytes_ (ingress_run st ops).2 = rejected_bytes_ st.
Proof.
  revert st. induction ops as [|op ops IH]; intros st He; [done|].
  cbn [ingress_run fst snd]. destruct op as [b now d|]; cbn [ingress_step].
  - unfold handle_rejected. rewrite He. cbn. by apply IH.
  - cbn. by destruct (IH (Disable st)) as (? & ? & ? & ?).
Qed.

(** One rejection is counted, or reported together with the ones counted before. *)
Lemma handle_rejected_account st b now d r st' :
  enabled_ st = true → handle_rejected st b now d = (r, st') →
  enabled_ st' = true ∧
  (reported (option_list r)).1 + rejected_count_ st' = SaturatingAdd (rejected_count_ st) 1 ∧
  (reported (option_list r)).2 + rejected_bytes_ st' = SaturatingAdd (rejected_bytes_ st) b ∧
  (r = None → rejected_count_ st' = SaturatingAdd (rejected_count_ st) 1 ∧
              rejected_bytes_ st' = SaturatingAdd (rejected_bytes_ st) b) ∧
  (r ≠ None → rejected_count_ st' = 0 ∧ rejected_bytes_ st' = 0).
Proof.
  intros He. unfold handle_rejected. rewrite He. cbn [negb].
  repeat case_match; intros [= <- <-]; cbn; repeat split; done || lia.
Qed.

Lemma reported_app a b :
  (reported (a ++ b)).1 = (reported a).1 + (reported b).1 ∧
  (reported (a ++ b)).2 = (reported a).2 + (reported b).2.
Proof.
  induction a as [|r a IH]; [done|]. unfold reported in *. cbn [app foldr fst snd].
  destruct IH as [-> ->]. lia.
Qed.

Lemma ingress_run_account st ops :
  enabled_ st = true → 0 <= rejected_count_ st → 0 <= rejected_bytes_ st →
  Forall (λ op, match op with OpRejected b _ _ => 0 <= b | OpDisable => True end) ops →
  rejected_count_ st + (rejections ops).1 <= max_u64 →
  rejected_bytes_ st + (rejections ops).2 <= max_u64 →
  let r := ingress_run st ops in
  (reported r.1).1 + rejected_count_ r.2 = rejected_count_ st + (rejections ops).1 ∧
  (reported r.1).2 + rejected_bytes_ r.2 = rejected_bytes_ st + (rejections ops).2.
Proof.
  revert st. induction ops as [|op ops IH]; intros st He Hc Hb Hf Hm1 Hm2; cbn zeta.
  { cbn. lia. }
  apply Forall_cons in Hf as [Hop Hf]. destruct (rejections_nonneg ops Hf) as [Hn1 Hn2].
  cbn [ingress_run fst snd]. destruct op as [b now d|]; cbn [ingress_step rejections] in *.
  - cbn [fst snd] in *. destruct (handle_rejected st b now d) as [r st'] eqn:E. cbn [fst snd].
    destruct (handle_rejected_account _ _ _ _ _ _ He E) as (He' & H1 & H2 & HN & HS).
    rewrite SaturatingAdd_spec in H1, H2 by (unfold max_u64, two64 in *; lia).
    assert (0 <= rejected_count_ st' <= rejected_count_ st + 1 ∧
            0 <= rejected_bytes_ st' <= rejected_bytes_ st + b) as [Hc' Hb'].
    { destruct r as [r|]; [destruct (HS ltac:(done)) as [-> ->]; lia|].
      destruct (HN ltac:(done)) as [-> ->].
      rewrite !SaturatingAdd_spec by (unfold max_u64, two64 in *; lia). lia. }
    destruct (IH st') as [I1 I2]; [done|lia..|done|lia|lia|].
    destruct (reported_app (option_list r) (ingress_run st' ops).1) as [-> ->]. lia.
  - cbn [fst snd]. destruct (ingress_disabled (Disable st) ops) as (H1 & _ & H2 & H3); [done|].
    cbn [option_list app]. rewrite H1, H2, H3. cbn. lia.
Qed.

(** Nothing is lost in the count of rejected messages: what was reported plus what is still
    counted is the number and the total size of the rejections, as long as these fit in 64
    bits. *)
Theorem device_ingress_accounting submit diagnostic window ops :
  Forall (λ op, match op with OpRejected b _ _ => 0 <= b | OpDisable => True end) ops →
  (rejections ops).1 <= max_u64 → (rejections ops).2 <= max_u64 →
  let r := ingress_run (MakeDeviceIngress submit diagnostic window) ops in
  (reported r.1).1 + rejected_count_ r.2 = (rejections ops).1 ∧
  (reported r.1).2 + rejected_bytes_ r.2 = (rejections ops).2.
Proof. intros. apply ingress_run_account; done || lia. Qed.

Lemma device_ingress_accounting_witness :
  let r := ingress_run (MakeDeviceIngress true true (seconds 30))
    [OpRejected 10 0 true; OpRejected 20 5 true; OpRejected 30 6 true;
     OpRejected 5 (seconds 31) false; OpRejected 7 (seconds 70) true; OpDisable;
     OpRejected 9 (seconds 99) true] in
  r.1 = [{| report_count := 1; report_bytes := 10 |}; {| report_count := 4; report_bytes := 62 |}]
  ∧ (reported r.1).1 + rejected_count_ r.2 = 5.
Proof.
  split; [vm_compute; reflexivity|].
  apply (device_ingress_accounting true true (seconds 30)
    [OpRejected 10 0 true; OpRejected 20 5 true; OpRejected 30 6 true;
     OpRejected 5 (seconds 31) false; OpRejected 7 (seconds 70) true; OpDisable;
     OpRejected 9 (seconds 99) true]).
  - repeat (apply Forall_cons; split; [vm_compute; intuition discriminate|]). apply Forall_nil_2.
  - vm_compute. discriminate.
  - vm_compute. discriminate.
Defined.
