(* ===== verification/CommandTypes.v ===== *)
(** * CommandTypes: src/route_service/src/core/command/command_types.hpp, command_validation.hpp

    The vocabulary of the command protocol and the two checks its parsers share. *)

From Stdlib Require Import Ascii ZArith Lia.
From S2P Require Import Prelude Json.
From stdpp Require Import options.

Inductive SourceKind := kDevice | kHostApp | kControlCenter.
Inductive CommandType := kConfig | kControl.
Inductive CommandStatus :=
| kPending
| kDispatched
| kInProgress
| kSucceeded
| kFailed
| kTimeout
| kDeliveryUncertain.

#[export] Instance SourceKind_eq_dec : EqDecision SourceKind.
Proof. solve_decision. Defined.
#[export] Instance CommandType_eq_dec : EqDecision CommandType.
Proof. solve_decision. Defined.
#[export] Instance CommandStatus_eq_dec : EqDecision CommandStatus.
Proof. solve_decision. Defined.

Definition CommandTypeText (type : CommandType) : string :=
  match type with kConfig => "config" | kControl => "control" end.

Definition ParseCommandType (text : string) : expected CommandType string :=
  if String.eqb text "config" then Ok kConfig
  else if String.eqb text "control" then Ok kControl
  else Unexpected "未知命令类型".

(** [std::variant<DeviceLabelTarget, SchoolLabelTarget, DeviceTarget>] *)
Inductive RequestTarget :=
| DeviceLabelTarget (dcdw_label : string)
| SchoolLabelTarget (school_name dcdw_label : string)
| DeviceTarget (device_id : string).

Record ConfigParameters := {
  telemetry_publish_interval_ms : option Z;
  heartbeat_interval_ms : option Z;
  mqtt_reconnect_delay_s : option Z;
  mqtt_reconnect_delay_max_s : option Z
}.

Record SourceConfigRequest := {
  cr_request_id : string;
  cr_target : RequestTarget;
  cr_parameters : ConfigParameters;
  cr_comparison_payload : json
}.

Inductive ControlCommand := kSetMotorPwm | kEmergencyStop | kTakeoff | kLand.

(** [std::optional<std::array<std::uint16_t, 4>>]; the parsers only build arrays of four. *)
Record ControlParameters := { pwm_us : option (list Z) }.

Record SourceControlRequest := {
  tr_request_id : string;
  tr_target : RequestTarget;
  tr_command : ControlCommand;
  tr_parameters : ControlParameters;
  tr_comparison_payload : json
}.

Record DeviceControlAck := {
  ca_command_id : string;
  ca_command : ControlCommand;
  ca_business_status : string;
  ca_mavlink_command : option Z;
  ca_result : option Z;
  ca_result_code : option string;
  ca_progress : option Z;
  ca_result_param2 : option Z;
  ca_error_code : option string;
  ca_raw : json
}.

Record DeviceConfigAck := {
  fa_command_id : string;
  fa_business_status : string;
  fa_restart_required : bool;
  fa_error_code : option string;
  fa_raw : json
}.

Record ProtocolError := { pe_code : string; pe_message : string }.
Definition Error (code message : string) : ProtocolError :=
  {| pe_code := code; pe_message := message |}.

Record RejectedSourceRequest := {
  rj_request_id : option string;
  rj_comparison_payload : option json;
  rj_error : ProtocolError
}.

Inductive ParsedSourceRequest :=
| ParsedConfig (request : SourceConfigRequest)
| ParsedControl (request : SourceControlRequest)
| ParsedRejected (rejected : RejectedSourceRequest).

#[export] Instance RequestTarget_eq_dec : EqDecision RequestTarget.
Proof. solve_decision. Defined.
#[export] Instance ConfigParameters_eq_dec : EqDecision ConfigParameters.
Proof. solve_decision. Defined.
#[export] Instance ControlCommand_eq_dec : EqDecision ControlCommand.
Proof. solve_decision. Defined.
#[export] Instance ControlParameters_eq_dec : EqDecision ControlParameters.
Proof. solve_decision. Defined.
#[export] Instance ProtocolError_eq_dec : EqDecision ProtocolError.
Proof. solve_decision. Defined.

(** ** command_validation.hpp *)
Definition char_at (s : string) (i : nat) : ascii := default zero (String.get i s).
Definition is_hyphen (index : nat) : bool :=
  (index =? 8)%nat || (index =? 13)%nat || (index =? 18)%nat || (index =? 23)%nat.
Definition is_lower_hex (c : ascii) : bool := is_digit c || in_range 97 102 c.

Definition IsUuidV4Shape (value : string) : bool :=
  (String.length value =? 36)%nat
  && Ascii.eqb (char_at value 8) "-" && Ascii.eqb (char_at value 13) "-"
  && Ascii.eqb (char_at value 18) "-" && Ascii.eqb (char_at value 23) "-"
  && forallb (λ index, is_hyphen index || is_lower_hex (char_at value index))
       (seq 0 (String.length value))
  && Ascii.eqb (char_at value 14) "4"
  && (Ascii.eqb (char_at value 19) "8" || Ascii.eqb (char_at value 19) "9"
      || Ascii.eqb (char_at value 19) "a" || Ascii.eqb (char_at value 19) "b").

Definition IsValidErrorCode (value : string) : bool :=
  negb (str_empty value) && (String.length value <=? 64)%nat
  && all_of (λ c, is_lower c || is_digit c || Ascii.eqb c "_") value.

(** ** Reading fields, as the parsers of this layer do *)

(** [root.contains(key) && root.at(key).is_string()] and the string. *)
Definition string_field (root : json) (key : string) : option string :=
  match jfind root key with Some (JString s) => Some s | _ => None end.

(** [root.contains("schema_version") && ... == 1] *)
Definition schema_is_1 (root : json) : bool :=
  match jfind root "schema_version" with
  | Some v => is_number_integer v && (get_i64 v =? 1)
  | None => false
  end.

Lemma string_field_Some root key s :
  string_field root key = Some s ↔ jfind root key = Some (JString s).
Proof. unfold string_field. destruct (jfind root key) as [[]|]; split; intros; simplify_eq; done. Qed.

Lemma ParseCommandType_text type : ParseCommandType (CommandTypeText type) = Ok type.
Proof. by destruct type. Qed.
