(* ===== verification/CommandState.v ===== *)
(** * CommandState: src/route_service/src/core/command/command_state.cpp

    The life cycle of a command, the acknowledgements its source receives and the
    identifiers the service gives out. *)

From Stdlib Require Import Ascii ZArith Lia.
From S2P Require Import Prelude Json TimeFormat CommandTypes.
From stdpp Require Import options.

(** [ResolvedTarget] of command_router.hpp, which this file only prints. *)
Record ResolvedTarget := {
  rt_device_id : string;
  rt_school_name : string;
  rt_dcdw_label : option string
}.

Record CommandRecord := {
  c_command_id : string;
  c_command_type : CommandType;
  c_source_id : string;
  c_request_id : string;
  c_target_device_id : option string;
  c_request_payload : json;
  c_status : CommandStatus;
  c_error_code : option string;
  c_error_message : option string;
  c_device_ack : option json;
  c_created_at : TimePoint;
  c_dispatched_at : option TimePoint;
  c_updated_at : TimePoint;
  c_completed_at : option TimePoint
}.

Record CommandUpdate := {
  u_error_code : option string;
  u_error_message : option string;
  u_device_ack : option json;
  u_dispatched_at : option TimePoint;
  u_completed_at : option TimePoint;
  u_updated_at : TimePoint
}.

Definition StatusText (status : CommandStatus) : string :=
  match status with
  | kPending => "pending"
  | kDispatched => "dispatched"
  | kInProgress => "in_progress"
  | kSucceeded => "succeeded"
  | kFailed => "failed"
  | kTimeout => "timeout"
  | kDeliveryUncertain => "delivery_uncertain"
  end.

Definition BaseAck (request_id command_id : json) (command_type : CommandType)
    (status : CommandStatus) (occurred_at : TimePoint) : json :=
  jobject
    [("schema_version", JInt 1);
     ("request_id", request_id);
     ("command_id", command_id);
     ("command_type", JString (CommandTypeText command_type));
     ("status", JString (StatusText status));
     ("business_status", JNull);
     ("occurred_at", JString (FormatUtcRfc3339Millis occurred_at))].

Definition is_status (a b : CommandStatus) : bool := bool_decide (a = b).

Definition IsTerminal (status : CommandStatus) : bool :=
  is_status status kSucceeded || is_status status kFailed || is_status status kTimeout
  || is_status status kDeliveryUncertain.

Definition CanTransition (from to : CommandStatus) : bool :=
  if is_status from kPending then
    is_status to kDispatched || is_status to kFailed || is_status to kTimeout
    || is_status to kDeliveryUncertain
  else if is_status from kDispatched then
    is_status to kInProgress || is_status to kSucceeded || is_status to kFailed
    || is_status to kTimeout || is_status to kDeliveryUncertain
  else if is_status from kInProgress then
    is_status to kInProgress || is_status to kSucceeded || is_status to kFailed
    || is_status to kTimeout || is_status to kDeliveryUncertain
  else false.

Inductive IdempotencyResult := kSame | kConflict.

Definition CompareRequest `{JsonLib} (existing : CommandRecord) (comparison_payload : json) :
    IdempotencyResult :=
  if json_equal (c_request_payload existing) comparison_payload then kSame else kConflict.

Definition target_json (target : ResolvedTarget) : json :=
  jobject [("device_id", JString (rt_device_id target));
           ("school_name", JString (rt_school_name target));
           ("dcdw_label", jopt_string (rt_dcdw_label target))].

Definition error_json (code message : json) : json :=
  jobject [("code", code); ("message", message)].

(** [device_ack.value("restart_required", false)]: [None] is the [type_error] the
    library throws for a value of another type. *)
Definition value_bool (object : json) (key : string) (fallback : bool) : option bool :=
  if is_object object then
    match jfind object key with
    | None => Some fallback
    | Some (JBool b) => Some b
    | Some _ => None
    end
  else None.

Definition control_ack_fields : list string :=
  ["command"; "mavlink_command"; "result"; "result_code"; "progress"; "result_param2";
   "error_code"].

Definition ack_device (command_type : CommandType) (device_ack : json) : option json :=
  match command_type with
  | kConfig =>
      restart ← value_bool device_ack "restart_required" false;
      Some (jobject [("restart_required", JBool restart);
                     ("error_code", jopt (jfind device_ack "error_code"))])
  | kControl =>
      Some (foldl (λ device field,
              match jfind device_ack field with
              | Some v => jset device field v
              | None => device
              end) (JObject []) control_ack_fields)
  end.

Definition ack_target (ack : json) (target : option ResolvedTarget) : json :=
  match target with Some t => jset ack "target" (target_json t) | None => ack end.

Definition ack_error (ack : json) (command : CommandRecord) : json :=
  if bool_decide (c_command_type command = kControl)
     && is_status (c_status command) kDeliveryUncertain then
    jset ack "error" (error_json (JString "control_delivery_uncertain")
                        (JString "服务恢复后无法确认飞控命令是否已经执行"))
  else
    match c_error_code command with
    | Some code =>
        jset ack "error" (error_json (JString code) (jopt_string (c_error_message command)))
    | None => ack
    end.

(** [None] is an exception of the library. *)
Definition BuildSourceAck (command : CommandRecord) (target : option ResolvedTarget)
    (occurred_at : TimePoint) : option json :=
  let ack := BaseAck (JString (c_request_id command)) (JString (c_command_id command))
               (c_command_type command) (c_status command) occurred_at in
  let ack := ack_target ack target in
  let ack := ack_error ack command in
  match c_device_ack command with
  | None => Some ack
  | Some device_ack =>
      let ack := match jfind device_ack "status" with
                 | Some (JString s) => jset ack "business_status" (JString s)
                 | _ => ack
                 end in
      device ← ack_device (c_command_type command) device_ack;
      Some (jset ack "device" device)
  end.

Definition BuildPrePersistenceRejection (request_id : option string) (error : ProtocolError)
    (occurred_at : TimePoint) (command_type : CommandType) : json :=
  jset (BaseAck (jopt_string request_id) JNull command_type kFailed occurred_at) "error"
    (error_json (JString (pe_code error)) (JString (pe_message error))).

(** ** Identifiers *)
Definition kHex : list ascii :=
  ["0"; "1"; "2"; "3"; "4"; "5"; "6"; "7"; "8"; "9"; "a"; "b"; "c"; "d"; "e"; "f"]%char.
Definition hex_char (n : Z) : ascii := nth (Z.to_nat n) kHex zero.

Definition stamp_version (random_bytes : list Z) : list Z :=
  let bytes := alter (λ b, Z.lor (Z.land b 15) 64) 6%nat random_bytes in
  alter (λ b, Z.lor (Z.land b 63) 128) 8%nat bytes.

Fixpoint uuid_go (index : nat) (bytes : list Z) : string :=
  match bytes with
  | [] => ""
  | b :: bytes' =>
      let rest := String (hex_char (Z.shiftr b 4))
                    (String (hex_char (Z.land b 15)) (uuid_go (S index) bytes')) in
      if (index =? 4)%nat || (index =? 6)%nat || (index =? 8)%nat || (index =? 10)%nat
      then String "-" rest else rest
  end.

Definition FormatUuidV4 (random_bytes : list Z) : string := uuid_go 0 (stamp_version random_bytes).

(** Sixteen readings of [std::random_device], each cut to a byte. *)
Definition GenerateUuidV4 (random : nat → Z) : string :=
  FormatUuidV4 ((λ i, random i mod 256) <$> seq 0 16).

(** ** The life cycle as a relation *)

(** A command's statuses after [from], each step a permitted transition. *)
Fixpoint lifecycle (from : CommandStatus) (statuses : list CommandStatus) : bool :=
  match statuses with
  | [] => true
  | to :: rest => CanTransition from to && lifecycle to rest
  end.

Lemma terminal_no_successor from to : IsTerminal from = true → CanTransition from to = false.
Proof. by destruct from. Qed.

Lemma CanTransition_not_pending from to : CanTransition from to = true → to ≠ kPending.
Proof. by destruct from, to. Qed.

Lemma lifecycle_terminal from statuses :
  IsTerminal from = true → lifecycle from statuses = true → statuses = [].
Proof.
  destruct statuses as [|to l]; [done|]. cbn. intros Ht H.
  by rewrite (terminal_no_successor _ _ Ht) in H.
Qed.

Lemma lifecycle_in_progress statuses :
  lifecycle kInProgress statuses = true →
  ∃ n rest, statuses = replicate n kInProgress ++ rest ∧
    (rest = [] ∨ ∃ s, rest = [s] ∧ IsTerminal s = true).
Proof.
  induction statuses as [|to l IH]; intros H; [exists 0%nat, []; auto|].
  cbn [lifecycle] in H. apply andb_true_iff in H as [H1 H2].
  destruct (decide (to = kInProgress)) as [->|Hn].
  - destruct (IH H2) as (n & rest & -> & Hr). by exists (S n), rest.
  - assert (IsTerminal to = true) as Ht by (by destruct to).
    rewrite (lifecycle_terminal to l Ht H2). exists 0%nat, [to]. eauto.
Qed.

(** ** Identifiers *)
Lemma byte_all (f : Z → bool) :
  forallb f (Z.of_nat <$> seq 0 256) = true → ∀ b, 0 <= b < 256 → f b = true.
Proof.
  intros H b Hb. rewrite forallb_forall in H. apply H, in_map_iff.
  exists (Z.to_nat b). split; [lia|]. apply in_seq. lia.
Qed.

Definition nibbles_lower (b : Z) : bool :=
  is_lower_hex (hex_char (Z.shiftr b 4)) && is_lower_hex (hex_char (Z.land b 15)).
Lemma hex_digits_lower b : 0 <= b < 256 → nibbles_lower b = true.
Proof. apply byte_all. vm_compute. reflexivity. Qed.

Definition stamped_6 (b : Z) : bool :=
  let v := Z.lor (Z.land b 15) 64 in
  nibbles_lower v && Ascii.eqb (hex_char (Z.shiftr v 4)) "4" && (0 <=? v) && (v <? 256).
Lemma stamped_6_ok b : 0 <= b < 256 → stamped_6 b = true.
Proof. apply byte_all. vm_compute. reflexivity. Qed.

Definition stamped_8 (b : Z) : bool :=
  let v := Z.lor (Z.land b 63) 128 in
  let c := hex_char (Z.shiftr v 4) in
  nibbles_lower v && (Ascii.eqb c "8" || Ascii.eqb c "9" || Ascii.eqb c "a" || Ascii.eqb c "b")
  && (0 <=? v) && (v <? 256).
Lemma stamped_8_ok b : 0 <= b < 256 → stamped_8 b = true.
Proof. apply byte_all. vm_compute. reflexivity. Qed.

Lemma hex_char_inj a b : 0 <= a < 16 → 0 <= b < 16 → hex_char a = hex_char b → a = b.
Proof.
  intros Ha Hb H. unfold hex_char in H.
  assert (Z.to_nat a = Z.to_nat b); [|lia].
  apply (proj1 (NoDup_nth kHex zero)); [|cbn; lia|cbn; lia|done].
  repeat constructor; cbn; intuition discriminate.
Qed.

Lemma byte_nibbles b : 0 <= b < 256 →
  0 <= Z.shiftr b 4 < 16 ∧ 0 <= Z.land b 15 < 16 ∧ b = 16 * Z.shiftr b 4 + Z.land b 15.
Proof.
  intros Hb. rewrite Z.shiftr_div_pow2 by lia. change 15 with (Z.ones 4).
  rewrite Z.land_ones by lia. change (2 ^ 4) with 16. Z.to_euclidean_division_equations. lia.
Qed.

Definition is_byte (b : Z) : Prop := 0 <= b < 256.

Lemma stamp_version_bytes bytes :
  Forall is_byte bytes → Forall is_byte (stamp_version bytes).
Proof.
  intros H. unfold stamp_version. apply Forall_alter; [apply Forall_alter; [done|]|].
  - intros b _ Hb. pose proof (stamped_6_ok b Hb) as E. unfold stamped_6 in E.
    unfold is_byte. bool_prop. lia.
  - intros b _ Hb. pose proof (stamped_8_ok b Hb) as E. unfold stamped_8 in E.
    unfold is_byte. bool_prop. lia.
Qed.

Lemma uuid_go_inj i l1 l2 :
  Forall is_byte l1 → Forall is_byte l2 → length l1 = length l2 →
  uuid_go i l1 = uuid_go i l2 → l1 = l2.
Proof.
  intros H1. revert i l2. induction H1 as [|a l1 Ha _ IH]; intros i [|b l2] H2 Hl E; try done.
  apply Forall_cons in H2 as [Hb H2].
  destruct (byte_nibbles a Ha) as (Ha1 & Ha2 & Ha3), (byte_nibbles b Hb) as (Hb1 & Hb2 & Hb3).
  cbn [uuid_go] in E. assert (
    String (hex_char (Z.shiftr a 4)) (String (hex_char (Z.land a 15)) (uuid_go (S i) l1))
    = String (hex_char (Z.shiftr b 4)) (String (hex_char (Z.land b 15)) (uuid_go (S i) l2)))
    as [= E1 E2 E3] by (destruct (_ || _); congruence).
  apply hex_char_inj in E1, E2; try done. f_equal; [lia|]. by apply (IH (S i)); auto.
Qed.

#[local] Arguments hex_char : simpl never.
Lemma uuid_shape bytes :
  length bytes = 16%nat → Forall is_byte bytes → IsUuidV4Shape (FormatUuidV4 bytes) = true.
Proof.
  intros Hl Hb. unfold FormatUuidV4.
  assert (∃ b0 b1 b2 b3 b4 b5 b6 b7 b8 b9 b10 b11 b12 b13 b14 b15,
    bytes = [b0; b1; b2; b3; b4; b5; b6; b7; b8; b9; b10; b11; b12; b13; b14; b15])
    as (b0 & b1 & b2 & b3 & b4 & b5 & b6 & b7 & b8 & b9 & b10 & b11 & b12 & b13 & b14 & b15 & ->).
  { do 17 (destruct bytes as [|? bytes]; try discriminate Hl). by repeat eexists. }
  assert (is_byte b6 ∧ is_byte b8) as [H6 H8] by (rewrite !Forall_cons in Hb; tauto).
  assert (Hs := stamp_version_bytes _ Hb). cbn in Hs |- *.
  pose proof (stamped_6_ok b6 H6) as S6. pose proof (stamped_8_ok b8 H8) as S8.
  unfold stamped_6 in S6. unfold stamped_8 in S8.
  set (v6 := Z.lor (Z.land b6 15) 64) in *. set (v8 := Z.lor (Z.land b8 63) 128) in *.
  clearbody v6 v8. clear Hb H6 H8 Hl.
  apply andb_true_iff in S6 as [[[_ S6]%andb_true_iff _]%andb_true_iff _].
  apply andb_true_iff in S8 as [[[_ S8]%andb_true_iff _]%andb_true_iff _].
  unfold IsUuidV4Shape. cbn -[hex_char is_lower_hex Z.shiftr Z.land Ascii.eqb].
  rewrite !Forall_cons in Hs. decompose [and] Hs. clear Hs.
  repeat match goal with
  | H : is_byte ?b |- _ =>
      apply hex_digits_lower in H; unfold nibbles_lower in H; apply andb_true_iff in H as [-> ->]
  end.
  rewrite S6. cbn -[hex_char Z.shiftr Ascii.eqb orb]. by rewrite S8.
Qed.

(** A generated identifier has the shape of a UUID v4, and two of them are equal exactly when the
    random bytes agree outside the bits of version and variant. *)
Theorem uuid_v4_shape_and_uniqueness bytes other :
  length bytes = 16%nat → Forall is_byte bytes →
  length other = 16%nat → Forall is_byte other →
  IsUuidV4Shape (FormatUuidV4 bytes) = true ∧
  (FormatUuidV4 bytes = FormatUuidV4 other ↔ stamp_version bytes = stamp_version other).
Proof.
  intros Hl1 H1 Hl2 H2. split; [by apply uuid_shape|]. unfold FormatUuidV4.
  split; [|by intros ->]. apply uuid_go_inj; try by apply stamp_version_bytes.
  unfold stamp_version. by rewrite !length_alter, Hl1, Hl2.
Qed.

Lemma uuid_v4_shape_and_uniqueness_witness :
  IsUuidV4Shape (FormatUuidV4 [0; 17; 34; 51; 68; 85; 102; 119; 136; 153; 170; 187; 204; 221; 238; 255])
    = true ∧
  FormatUuidV4 [0; 17; 34; 51; 68; 85; 102; 119; 136; 153; 170; 187; 204; 221; 238; 255]
    = "00112233-4455-4677-8899-aabbccddeeff".
Proof.
  split; [|vm_compute; reflexivity].
  refine (proj1 (uuid_v4_shape_and_uniqueness
    [0; 17; 34; 51; 68; 85; 102; 119; 136; 153; 170; 187; 204; 221; 238; 255]
    [0; 17; 34; 51; 68; 85; 102; 119; 136; 153; 170; 187; 204; 221; 238; 255] _ _ _ _));
    try reflexivity;
    repeat (apply Forall_cons; split; [vm_compute; intuition discriminate|]); apply Forall_nil_2.
Defined.
