(* ===== verification/CommandRouter.v ===== *)
(** * CommandRouter: src/route_service/src/core/command/command_router.cpp

    Who may send commands, and which device a request addresses.  The directory is
    used through the laws of [DirectoryLaws], which every reachable registry
    satisfies. *)

From Stdlib Require Import ZArith Lia.
From S2P Require Import Prelude Json DeviceMessage DeviceRegistry CommandTypes CommandState.
From stdpp Require Import options.

Record CommandSource := {
  s_source_id : string;
  s_kind : SourceKind;
  s_device_id : option string;
  s_enabled : bool
}.

#[export] Instance CommandSource_eq_dec : EqDecision CommandSource.
Proof. solve_decision. Defined.

Abbreviation SourceCatalog := (gmap string CommandSource) (only parsing).

Definition check_source (source : CommandSource) : expected unit string :=
  if str_empty (s_source_id source) then Unexpected "命令来源标识不能为空"
  else
    match s_kind source with
    | kDevice =>
        match s_device_id source with
        | None => Unexpected "设备来源缺少关联设备"
        | Some id =>
            if negb (String.eqb id (s_source_id source)) then
              Unexpected "设备来源标识必须等于关联设备标识"
            else Ok tt
        end
    | _ =>
        match s_device_id source with
        | Some _ => Unexpected "非设备来源不得关联设备"
        | None => Ok tt
        end
    end.

Fixpoint load_sources (loaded : SourceCatalog) (sources : list CommandSource) :
    expected SourceCatalog string :=
  match sources with
  | [] => Ok loaded
  | source :: rest =>
      let! _ := check_source source in
      match loaded !! s_source_id source with
      | Some _ => Unexpected ("命令来源标识重复: " +:+ s_source_id source)
      | None => load_sources (<[s_source_id source := source]> loaded) rest
      end
  end.

(** [SourceCatalog::Load]; the caller keeps the old catalogue on an error. *)
Definition CatalogLoad (sources : list CommandSource) : expected SourceCatalog string :=
  load_sources ∅ sources.

Definition CatalogFind (catalog : SourceCatalog) (source_id : string) : option CommandSource :=
  catalog !! source_id.

Definition Resolve (record : DeviceRecord) : ResolvedTarget :=
  {| rt_device_id := dr_device_id record; rt_school_name := dr_school_name record;
     rt_dcdw_label := dr_dcdw_label record |}.

Definition found (target : option DeviceRecord) : expected ResolvedTarget ProtocolError :=
  match target with
  | None => Unexpected (Error "target_not_found" "目标设备不存在")
  | Some record => Ok (Resolve record)
  end.

Definition ResolveConfigTarget (source : CommandSource) (target : RequestTarget)
    (devices : DeviceRegistry) : expected ResolvedTarget ProtocolError :=
  match s_kind source with
  | kDevice =>
      match target, s_device_id source with
      | DeviceLabelTarget label, Some source_device_id =>
          match Find devices source_device_id with
          | None => Unexpected (Error "permission_denied" "来源设备不在设备目录中")
          | Some source_device =>
              if negb (bool_decide (dr_status source_device = kOnline)) then
                Unexpected (Error "source_device_offline" "来源设备当前离线")
              else
                found (FindBySchoolAndLabel devices (dr_school_id source_device) label)
          end
      | _, _ => Unexpected (Error "invalid_target" "设备来源只能使用同校角色号寻址")
      end
  | _ =>
      match target with
      | DeviceTarget id => found (Find devices id)
      | SchoolLabelTarget name label =>
          if IsSchoolNameAndLabelAmbiguous devices name label then
            Unexpected (Error "target_ambiguous" "学校名和角色号对应多个设备")
          else found (FindBySchoolNameAndLabel devices name label)
      | DeviceLabelTarget _ =>
          Unexpected (Error "invalid_target" "命令来源不能使用该目标形式")
      end
  end.

Definition ResolveControlTarget (source : CommandSource) (target : RequestTarget)
    (devices : DeviceRegistry) : expected ResolvedTarget ProtocolError :=
  let! resolved := ResolveConfigTarget source target devices in
  match Find devices (rt_device_id resolved) with
  | Some t =>
      if bool_decide (dr_device_type t = kFlightController) then
        Unexpected (Error "unsupported_device_type"
          "真实飞控当前只接收遥测与 Remote ID，不支持主控箱私有控制命令")
      else Ok resolved
  | None => Ok resolved
  end.

(** ** What the directory promises its clients *)
Class DirectoryLaws (devices : DeviceRegistry) : Prop := {
  find_id : ∀ id r, Find devices id = Some r → dr_device_id r = id;
  find_by_role : ∀ s l r, FindBySchoolAndLabel devices s l = Some r ↔
    Find devices (dr_device_id r) = Some r ∧ in_role r (s, l);
  find_by_name : ∀ n l r, FindBySchoolNameAndLabel devices n l = Some r →
    Find devices (dr_device_id r) = Some r ∧ in_named_role r (n, l);
  name_unique : ∀ n l, IsSchoolNameAndLabelAmbiguous devices n l = false →
    ∀ r, Find devices (dr_device_id r) = Some r → in_named_role r (n, l) →
    FindBySchoolNameAndLabel devices n l = Some r;
  name_ambiguous : ∀ n l, IsSchoolNameAndLabelAmbiguous devices n l = true →
    ∃ r1 r2, Find devices (dr_device_id r1) = Some r1 ∧ Find devices (dr_device_id r2) = Some r2 ∧
      dr_device_id r1 ≠ dr_device_id r2 ∧ in_named_role r1 (n, l) ∧ in_named_role r2 (n, l)
}.

Lemma registry_directory reg : registry_ok reg → DirectoryLaws reg.
Proof.
  intros Hok. assert (Hok' := Hok). destruct Hok as (Hids & Hroles & Hnamed).
  split; [exact Hids| | | |].
  - intros s l r. rewrite (FindBySchoolAndLabel_spec reg s l r Hok'). done.
  - intros n l r. unfold FindBySchoolNameAndLabel. destruct (Hnamed (n, l)) as (_ & _ & Hin).
    unfold named_ids in Hin. destruct (named_roles reg !! (n, l)) as [[|i [|]]|]; try done.
    intros Hr. assert (dr_device_id r = i) as <- by by apply Hids.
    destruct (proj1 (Hin (dr_device_id r))) as (x & Hx & Hn); [left|].
    unfold Find in *. by simplify_eq.
  - intros n l Ha r Hr Hn. unfold IsSchoolNameAndLabelAmbiguous, FindBySchoolNameAndLabel in *.
    destruct (Hnamed (n, l)) as (_ & _ & Hin).
    assert (dr_device_id r ∈ named_ids (named_roles reg) (n, l)) as Hi by (apply Hin; eauto).
    unfold named_ids in Hi. destruct (named_roles reg !! (n, l)) as [ids|]; cbn in Hi;
      [|by apply elem_of_nil in Hi].
    destruct ids as [|i [|j ids]]; [by apply elem_of_nil in Hi| |done].
    by apply list_elem_of_singleton in Hi as <-.
  - intros n l Ha. unfold IsSchoolNameAndLabelAmbiguous in Ha.
    destruct (Hnamed (n, l)) as (_ & Hnd & Hin). unfold named_ids in *.
    destruct (named_roles reg !! (n, l)) as [ids|]; [|done]. cbn in Hnd, Hin.
    destruct ids as [|i [|j ids]]; [done..|].
    destruct (proj1 (Hin i)) as (ri & Hi & Hni); [left|].
    destruct (proj1 (Hin j)) as (rj & Hj & Hnj); [right; left|].
    assert (dr_device_id ri = i) as <- by by apply Hids.
    assert (dr_device_id rj = j) as <- by by apply Hids.
    exists ri, rj. do 2 (split; [done|]). split; [|done].
    intros E. apply NoDup_cons in Hnd as [Hnd _]. apply Hnd. rewrite E. left.
Qed.

(** ** Who may address whom

    The addressing rules, stated on the directory alone. *)
Inductive may_address (devices : DeviceRegistry) (source : CommandSource) :
    RequestTarget → DeviceRecord → Prop :=
| same_school id s label r :
    s_kind source = kDevice → s_device_id source = Some id →
    Find devices id = Some s → dr_status s = kOnline →
    in_role r (dr_school_id s, label) →
    may_address devices source (DeviceLabelTarget label) r
| by_device_id r :
    s_kind source ≠ kDevice →
    may_address devices source (DeviceTarget (dr_device_id r)) r
| by_school_name name label r :
    s_kind source ≠ kDevice → in_named_role r (name, label) →
    (∀ r', Find devices (dr_device_id r') = Some r' → in_named_role r' (name, label) → r' = r) →
    may_address devices source (SchoolLabelTarget name label) r.

Section Routing.
Context (devices : DeviceRegistry) `{Laws : !DirectoryLaws devices}.

Lemma found_Ok (target : option DeviceRecord) t :
  found target = Ok t ↔ ∃ r, target = Some r ∧ t = Resolve r.
Proof. destruct target; cbn; split; [intros [= <-]|intros (? & ? & ?)| |intros (? & ? & ?)]; naive_solver. Qed.

Lemma name_not_ambiguous n l r :
  Find devices (dr_device_id r) = Some r →
  (∀ r', Find devices (dr_device_id r') = Some r' → in_named_role r' (n, l) → r' = r) →
  IsSchoolNameAndLabelAmbiguous devices n l = false.
Proof using Laws.
  intros Hr Hu. destruct (IsSchoolNameAndLabelAmbiguous devices n l) eqn:E; [|done].
  apply name_ambiguous in E as (r1 & r2 & H1 & H2 & Hne & Hn1 & Hn2).
  destruct Hne. by rewrite (Hu r1), (Hu r2).
Qed.

Lemma resolve_config source target t :
  ResolveConfigTarget source target devices = Ok t ↔
  ∃ r, Find devices (dr_device_id r) = Some r ∧ t = Resolve r ∧
       may_address devices source target r.
Proof using Laws.
  split.
  - intros H. unfold ResolveConfigTarget in H.
    destruct (decide (s_kind source = kDevice)) as [Hk|Hk].
    + rewrite Hk in H. destruct target as [l| |], (s_device_id source) as [id|] eqn:Ei; try done.
      destruct (Find devices id) as [s|] eqn:Es; [|done].
      destruct (negb _) eqn:Eo; [done|]. bool_prop.
      apply found_Ok in H as (r & Hr & ->). apply find_by_role in Hr as [Hr Hin].
      exists r. split; [done|]. split; [done|]. by eapply same_school.
    + assert (match target with
              | DeviceTarget id => found (Find devices id) = Ok t
              | SchoolLabelTarget name label =>
                  IsSchoolNameAndLabelAmbiguous devices name label = false ∧
                  found (FindBySchoolNameAndLabel devices name label) = Ok t
              | DeviceLabelTarget _ => False end) as H'.
      { destruct (s_kind source), target; try done; by destruct (IsSchoolNameAndLabelAmbiguous _ _ _). }
      destruct target as [l|n l|id]; [done| |].
      * destruct H' as [Ha (r & Hr & ->)%found_Ok]. assert (Hr' := Hr).
        apply find_by_name in Hr as [Hr Hn]. exists r. split; [done|]. split; [done|].
        apply by_school_name; [done|done|]. intros r' Hf Hn'.
        pose proof (name_unique n l Ha r' Hf Hn') as E. congruence.
      * apply found_Ok in H' as (r & Hr & ->). assert (dr_device_id r = id) as <- by by apply find_id.
        exists r. split; [done|]. split; [done|]. by apply by_device_id.
  - intros (r & Hr & -> & Hm). unfold ResolveConfigTarget.
    destruct Hm as [id s l r Hk Hi Hs Ho Hin|r Hk|n l r Hk Hn Hu].
    + rewrite Hk, Hi, Hs, Ho. cbn. apply found_Ok. exists r. split; [|done]. by apply find_by_role.
    + destruct (s_kind source); [done| |]; by rewrite Hr.
    + assert (Ha := name_not_ambiguous n l r Hr Hu).
      pose proof (name_unique n l Ha r Hr Hn) as E.
      destruct (s_kind source); [done| |]; by rewrite Ha, E.
Qed.
End Routing.

(** C14: In any reachable registry a configuration request resolves to a device exactly when that
    device is registered and the source may address it by the target it gave (by identifier, or
    by school and role label with no ambiguity). *)
Theorem ResolveConfigTarget_spec `{MapOrder} ops source target t :
  let devices := run_ops empty_registry ops in
  ResolveConfigTarget source target devices = Ok t ↔
  ∃ r, Find devices (dr_device_id r) = Some r ∧ t = Resolve r ∧
       may_address devices source target r.
Proof.
  intros devices. apply resolve_config, registry_directory, run_ops_ok, empty_registry_ok.
Qed.

(** A control request resolves to a device exactly when a configuration request would and the
    device is not a flight controller. *)
Theorem ResolveControlTarget_spec `{MapOrder} ops source target t :
  let devices := run_ops empty_registry ops in
  ResolveControlTarget source target devices = Ok t ↔
  ∃ r, Find devices (dr_device_id r) = Some r ∧ t = Resolve r ∧
       may_address devices source target r ∧ dr_device_type r ≠ kFlightController.
Proof.
  intros devices. assert (DirectoryLaws devices) as Laws
    by apply registry_directory, run_ops_ok, empty_registry_ok.
  unfold ResolveControlTarget. pose proof (resolve_config devices source target) as Hs.
  destruct (ResolveConfigTarget source target devices) as [t'|e] eqn:E.
  - destruct (proj1 (Hs t') eq_refl) as (r & Hr & -> & Hm). cbn [Resolve rt_device_id].
    rewrite Hr.
    assert (∀ r', Find devices (dr_device_id r') = Some r' → may_address devices source target r' →
      r' = r) as Huniq.
    { intros r' Hr' Hm'.
      pose proof (proj2 (Hs (Resolve r')) (ex_intro _ r' (conj Hr' (conj eq_refl Hm')))) as [= H'].
      congruence. }
    case_bool_decide as Hd; split.
    + done.
    + intros (r' & Hr' & _ & Hm' & Hd'). by rewrite (Huniq r' Hr' Hm') in Hd'.
    + intros [= <-]. by exists r.
    + intros (r' & Hr' & -> & Hm' & _). by rewrite (Huniq r' Hr' Hm').
  - split; [done|]. intros (r & Hr & -> & Hm & _).
    pose proof (proj2 (Hs (Resolve r)) (ex_intro _ r (conj Hr (conj eq_refl Hm)))). done.
Qed.

(** ** The catalogue *)

(** A source the catalogue accepts: named, and tied to its own device exactly when it is one. *)
Definition source_ok (s : CommandSource) : Prop :=
  s_source_id s ≠ "" ∧
  (s_kind s = kDevice → s_device_id s = Some (s_source_id s)) ∧
  (s_kind s ≠ kDevice → s_device_id s = None).

Lemma check_source_ok s : check_source s = Ok tt ↔ source_ok s.
Proof.
  unfold check_source, source_ok. destruct (s_source_id s) as [|c n] eqn:En; cbn; [split; naive_solver|].
  destruct (s_kind s), (s_device_id s) as [id|]; cbn; try (split; naive_solver).
  destruct (String.eqb id (String c n)) eqn:E; bool_prop; subst; cbn; split; naive_solver.
Qed.

(** [catalog] holds exactly [sources]. *)
Definition catalog_of (sources : list CommandSource) (catalog : SourceCatalog) : Prop :=
  NoDup (s_source_id <$> sources) ∧
  ∀ id s, catalog !! id = Some s ↔ s ∈ sources ∧ s_source_id s = id.

Lemma catalog_of_snoc sources s catalog :
  catalog_of sources catalog → catalog !! s_source_id s = None →
  catalog_of (sources ++ [s]) (<[s_source_id s := s]> catalog).
Proof.
  intros [Hnd Hin] Hnone. split.
  - rewrite fmap_app, NoDup_app. split; [done|]. split; [|apply NoDup_singleton].
    intros id (x & -> & Hx)%list_elem_of_fmap Hid. cbn in Hid. apply list_elem_of_singleton in Hid.
    rewrite <- Hid in Hnone. assert (catalog !! s_source_id x = Some x) by by apply Hin. congruence.
  - intros id x. rewrite elem_of_app, list_elem_of_singleton.
    destruct (decide (id = s_source_id s)) as [->|Hid].
    + rewrite lookup_insert_eq. split; [intros [= <-]; auto|].
      intros [[Hx| ->] E]; [|done]. assert (catalog !! s_source_id x = Some x) by by apply Hin. congruence.
    + rewrite lookup_insert_ne, Hin by done. naive_solver.
Qed.

Lemma load_sources_spec sources done_ loaded :
  catalog_of done_ loaded →
  (∀ cat, load_sources loaded sources = Ok cat →
     catalog_of (done_ ++ sources) cat ∧ Forall source_ok sources) ∧
  (is_ok (load_sources loaded sources) = false →
     ¬ (Forall source_ok sources ∧ NoDup (s_source_id <$> done_ ++ sources))).
Proof.
  revert done_ loaded. induction sources as [|s rest IH]; intros done_ loaded Hd; cbn [load_sources].
  { split; [intros cat [= <-]; by rewrite app_nil_r|done]. }
  destruct (check_source s) as [[]|e] eqn:Ec; cycle 1.
  { split; [done|]. intros _ [Hf _]. apply Forall_cons in Hf as [Hs _].
    apply check_source_ok in Hs. congruence. }
  apply check_source_ok in Ec. destruct (loaded !! s_source_id s) as [x|] eqn:Ex.
  - split; [done|]. intros _ [_ Hnd]. destruct Hd as [_ Hin]. apply Hin in Ex as [Hx E].
    rewrite fmap_app, NoDup_app in Hnd. destruct Hnd as (_ & Hdis & _).
    apply (Hdis (s_source_id x)); [by apply list_elem_of_fmap_2|]. rewrite E. left.
  - destruct (IH _ _ (catalog_of_snoc _ _ _ Hd Ex)) as [IH1 IH2].
    rewrite <- app_assoc in IH1, IH2. cbn in IH1, IH2. split.
    + intros cat Hc. destruct (IH1 cat Hc). split; [done|by constructor].
    + intros Hf [Hs Hnd]. apply Forall_cons in Hs as [_ Hs]. by apply IH2.
Qed.

(** The catalogue of sources loads exactly when no identifier occurs twice. *)
Theorem CatalogLoad_correct sources :
  (is_ok (CatalogLoad sources) = true ↔
     Forall source_ok sources ∧ NoDup (s_source_id <$> sources)) ∧
  (∀ catalog, CatalogLoad sources = Ok catalog →
     ∀ id s, CatalogFind catalog id = Some s ↔ s ∈ sources ∧ s_source_id s = id).
Proof.
  assert (catalog_of [] ∅) as H0.
  { split; [constructor|]. intros id s. rewrite lookup_empty, elem_of_nil. naive_solver. }
  destruct (load_sources_spec sources [] ∅ H0) as [H1 H2]. cbn in H1, H2. unfold CatalogLoad.
  destruct (load_sources ∅ sources) as [cat|e] eqn:E.
  - destruct (H1 cat eq_refl) as [[Hnd Hin] Hf]. split; [done|]. by intros cat' [= <-].
  - split; [|done]. split; [done|]. intros H. by destruct (H2 eq_refl).
Qed.
