(* ===== verification/SourceRequest.v ===== *)
(** * SourceRequest: src/route_service/src/core/command/source_request.cpp

    The topics commands and acknowledgements arrive on, and the strict parsers of
    the two request envelopes. *)

From Stdlib Require Import Ascii ZArith Lia.
From S2P Require Import Prelude Json DeviceTopic CommandTypes.
From stdpp Require Import options.

Definition source_char (character : ascii) : bool :=
  is_alnum character || Ascii.eqb character "." || Ascii.eqb character "_"
  || Ascii.eqb character "-".

Definition IsValidSourceId (value : string) : bool :=
  negb (str_empty value) && (String.length value <=? 64)%nat && all_of source_char value.

Definition IsValidRequestId (value : string) : bool :=
  negb (str_empty value) && (String.length value <=? 128)%nat
  && all_of (λ c, source_char c || Ascii.eqb c ":") value.

Definition IsNonEmptyStringWithin (object : json) (key : string) (maximum : nat) : bool :=
  match jfind object key with
  | Some (JString value) => negb (str_empty value) && (String.length value <=? maximum)%nat
  | _ => false
  end.

(** [bool& valid] is threaded: the result is the reading and the new flag. *)
Definition ReadUnsignedInRange (object : json) (key : string) (minimum maximum : Z)
    (valid : bool) : option Z * bool :=
  match jfind object key with
  | None => (None, valid)
  | Some value =>
      if (negb (is_number_integer value) && negb (is_number_unsigned value))
         || (is_number_integer value && (get_i64 value <? 0)) then (None, false)
      else
        let number := get_u64 value in
        if (number <? minimum) || (maximum <? number) then (None, false)
        else (Some (number mod 2 ^ 32), valid)
  end.

Definition parameter_fields : list string :=
  ["telemetry_publish_interval_ms"; "heartbeat_interval_ms"; "mqtt_reconnect_delay_s";
   "mqtt_reconnect_delay_max_s"].

(** Every field of [object] is one of [allowed]. *)
Definition only_fields (object : json) (allowed : list string) : bool :=
  forallb (λ field, existsb (String.eqb field) allowed) (jkeys object).

Definition delays_ordered (p : ConfigParameters) : bool :=
  match mqtt_reconnect_delay_s p, mqtt_reconnect_delay_max_s p with
  | Some delay, Some delay_max => delay <=? delay_max
  | _, _ => true
  end.

Definition ParseParameters (value : json) : expected ConfigParameters ProtocolError :=
  if negb (is_object value) || jempty value then
    Unexpected (Error "invalid_parameters" "parameters必须是非空对象")
  else
    guard! only_fields value parameter_fields
      else (Error "invalid_parameters" "parameters包含未知字段") in
    let (telemetry, valid) :=
      ReadUnsignedInRange value "telemetry_publish_interval_ms" 100 60000 true in
    let (heartbeat, valid) :=
      ReadUnsignedInRange value "heartbeat_interval_ms" 100 60000 valid in
    let (delay, valid) := ReadUnsignedInRange value "mqtt_reconnect_delay_s" 1 3600 valid in
    let (delay_max, valid) :=
      ReadUnsignedInRange value "mqtt_reconnect_delay_max_s" 1 3600 valid in
    let parameters :=
      {| telemetry_publish_interval_ms := telemetry; heartbeat_interval_ms := heartbeat;
         mqtt_reconnect_delay_s := delay; mqtt_reconnect_delay_max_s := delay_max |} in
    guard! valid else (Error "invalid_parameters" "配置参数类型或范围非法") in
    guard! delays_ordered parameters
      else (Error "invalid_parameters" "MQTT重连初值不得大于最大值") in
    Ok parameters.

Definition ParseTarget (value : json) (kind : SourceKind) :
    expected RequestTarget ProtocolError :=
  if negb (is_object value) then Unexpected (Error "invalid_target" "target必须是对象")
  else if bool_decide (kind = kDevice) then
    if negb (jsize value =? 1)%nat || negb (IsNonEmptyStringWithin value "dcdw_label" 64) then
      Unexpected (Error "invalid_target" "设备来源只能按同校角色号寻址")
    else Ok (DeviceLabelTarget (default "" (string_field value "dcdw_label")))
  else if (jsize value =? 1)%nat
          && match string_field value "device_id" with
             | Some id => IsValidDeviceId id
             | None => false
             end then
    Ok (DeviceTarget (default "" (string_field value "device_id")))
  else if (jsize value =? 2)%nat && IsNonEmptyStringWithin value "school_name" 128
          && IsNonEmptyStringWithin value "dcdw_label" 64 then
    Ok (SchoolLabelTarget (default "" (string_field value "school_name"))
          (default "" (string_field value "dcdw_label")))
  else Unexpected (Error "invalid_target" "非设备来源目标形式非法或混用").

Definition Reject (request_id : option string) (comparison_payload : option json)
    (error : ProtocolError) : ParsedSourceRequest :=
  ParsedRejected {| rj_request_id := request_id; rj_comparison_payload := comparison_payload;
                    rj_error := error |}.

(** The text between [prefix] and [suffix] when [topic] is longer than both. *)
Definition topic_middle (prefix suffix topic : string) : option string :=
  if negb (starts_with prefix topic) || negb (ends_with suffix topic)
     || (String.length topic <=? String.length prefix + String.length suffix)%nat then None
  else Some (substr topic (String.length prefix)
               (String.length topic - String.length prefix - String.length suffix)).

Definition ParseSourceTopic (topic_namespace topic suffix description : string) :
    expected string ProtocolError :=
  match topic_middle (topic_namespace +:+ "/sources/") suffix topic with
  | None => Unexpected (Error "invalid_topic" (description +:+ "topic格式无效"))
  | Some source_id =>
      if negb (IsValidSourceId source_id) || bool_decide (is_Some (str_find "/" source_id)) then
        Unexpected (Error "invalid_topic" "source_id无效")
      else Ok source_id
  end.

Definition ParseDeviceAckTopic (topic_namespace topic suffix description : string) :
    expected string ProtocolError :=
  match topic_middle (topic_namespace +:+ "/") suffix topic with
  | None => Unexpected (Error "invalid_topic" (description +:+ " topic格式无效"))
  | Some device_id =>
      if negb (IsValidDeviceId device_id) then Unexpected (Error "invalid_topic" "device_id无效")
      else Ok device_id
  end.

Definition ParseControlCommand (root : json) : expected ControlCommand ProtocolError :=
  match string_field root "command" with
  | None => Unexpected (Error "unsupported_command" "command缺失或非法")
  | Some command =>
      if String.eqb command "set_motor_pwm" then Ok kSetMotorPwm
      else if String.eqb command "emergency_stop" then Ok kEmergencyStop
      else if String.eqb command "takeoff" then Ok kTakeoff
      else if String.eqb command "land" then Ok kLand
      else Unexpected (Error "unsupported_command" "不支持的飞控命令")
  end.

Fixpoint parse_pwm (items : list json) : expected (list Z) ProtocolError :=
  match items with
  | [] => Ok []
  | item :: rest =>
      if (negb (is_number_integer item) && negb (is_number_unsigned item))
         || (is_number_integer item && (get_i64 item <? 0)) then
        Unexpected (Error "invalid_parameters" "PWM必须是1000到2000的整数")
      else
        let number := get_u64 item in
        if (number <? 1000) || (2000 <? number) then
          Unexpected (Error "invalid_parameters" "PWM必须是1000到2000的整数")
        else
          let! pwm := parse_pwm rest in
          Ok (number mod 2 ^ 16 :: pwm)
  end.

Definition ParseControlParameters (value : json) (command : ControlCommand) :
    expected ControlParameters ProtocolError :=
  if negb (is_object value) then
    Unexpected (Error "invalid_parameters" "parameters必须是对象")
  else if negb (bool_decide (command = kSetMotorPwm)) then
    if negb (jempty value) then Unexpected (Error "invalid_parameters" "该飞控命令不接受参数")
    else Ok {| pwm_us := None |}
  else
    match jfind value "pwm_us" with
    | Some (JArray items) =>
        if negb (jsize value =? 1)%nat || negb (length items =? 4)%nat then
          Unexpected (Error "invalid_parameters" "set_motor_pwm只接受四路pwm_us")
        else
          let! pwm := parse_pwm items in
          Ok {| pwm_us := Some pwm |}
    | _ => Unexpected (Error "invalid_parameters" "set_motor_pwm只接受四路pwm_us")
    end.

(** ** The interface *)
Definition ParseSourceRequestTopic (topic_namespace topic : string) :=
  ParseSourceTopic topic_namespace topic "/config/request" "来源配置请求".
Definition ParseDeviceConfigAckTopic (topic_namespace topic : string) :=
  ParseDeviceAckTopic topic_namespace topic "/config/ack" "设备配置ACK".
Definition ParseSourceControlRequestTopic (topic_namespace topic : string) :=
  ParseSourceTopic topic_namespace topic "/control/request" "来源飞控请求".
Definition ParseDeviceControlAckTopic (topic_namespace topic : string) :=
  ParseDeviceAckTopic topic_namespace topic "/control/ack" "设备飞控ACK".

Definition read_request_id (root : json) : option string :=
  match string_field root "request_id" with
  | Some id => if IsValidRequestId id then Some id else None
  | None => None
  end.

Section Requests.
Context `{JL : JsonLib}.

Definition ParseSourceConfigRequest (payload : string) (kind : SourceKind) :
    ParsedSourceRequest :=
  match json_parse payload with
  | None => Reject None None (Error "invalid_json" "来源请求不是合法JSON")
  | Some root =>
      if negb (is_object root) then
        Reject None None (Error "invalid_json" "来源请求必须是JSON对象")
      else
        match read_request_id root with
        | None => Reject None (Some root) (Error "invalid_request_id" "request_id缺失或非法")
        | Some request_id =>
            let reject := Reject (Some request_id) (Some root) in
            if negb (only_fields root ["schema_version"; "request_id"; "target"; "parameters"])
            then reject (Error "invalid_json" "来源请求包含未知字段")
            else if negb (schema_is_1 root) then
              reject (Error "unsupported_schema_version" "只支持schema_version=1")
            else
              match jfind root "target" with
              | None => reject (Error "invalid_target" "缺少target")
              | Some target_value =>
                  match ParseTarget target_value kind with
                  | Unexpected e => reject e
                  | Ok target =>
                      match jfind root "parameters" with
                      | None => reject (Error "invalid_parameters" "缺少parameters")
                      | Some parameters_value =>
                          match ParseParameters parameters_value with
                          | Unexpected e => reject e
                          | Ok parameters =>
                              ParsedConfig
                                {| cr_request_id := request_id; cr_target := target;
                                   cr_parameters := parameters;
                                   cr_comparison_payload := root |}
                          end
                      end
                  end
              end
        end
  end.

Definition ParseSourceControlRequest (payload : string) (kind : SourceKind) :
    ParsedSourceRequest :=
  match json_parse payload with
  | None => Reject None None (Error "invalid_json" "来源请求不是合法JSON")
  | Some root =>
      if negb (is_object root) then
        Reject None None (Error "invalid_json" "来源请求必须是JSON对象")
      else
        match read_request_id root with
        | None => Reject None (Some root) (Error "invalid_request_id" "request_id缺失或非法")
        | Some request_id =>
            let reject := Reject (Some request_id) (Some root) in
            if negb (only_fields root
                       ["schema_version"; "request_id"; "target"; "command"; "parameters"])
            then reject (Error "invalid_json" "来源请求包含未知字段")
            else if negb (schema_is_1 root) then
              reject (Error "unsupported_schema_version" "只支持schema_version=1")
            else
              match jfind root "target" with
              | None => reject (Error "invalid_target" "缺少target")
              | Some target_value =>
                  match ParseTarget target_value kind with
                  | Unexpected e => reject e
                  | Ok target =>
                      match ParseControlCommand root with
                      | Unexpected e => reject e
                      | Ok command =>
                          match jfind root "parameters" with
                          | None => reject (Error "invalid_parameters" "缺少parameters")
                          | Some parameters_value =>
                              match ParseControlParameters parameters_value command with
                              | Unexpected e => reject e
                              | Ok parameters =>
                                  ParsedControl
                                    {| tr_request_id := request_id; tr_target := target;
                                       tr_command := command; tr_parameters := parameters;
                                       tr_comparison_payload := root |}
                              end
                          end
                      end
                  end
              end
        end
  end.
End Requests.

(** ** Topics *)
Lemma str_app_split p q r s :
  p +:+ r = q +:+ s → (String.length p <= String.length q)%nat → ∃ m, q = p +:+ m ∧ r = m +:+ s.
Proof.
  revert q. induction p as [|c p IH]; intros q E Hl.
  { exists q. by rewrite !app_Empty in *. }
  destruct q as [|d q]; [cbn in Hl; lia|]. rewrite !app_String in E.
  injection E as -> E. destruct (IH q E) as (m & -> & ->); [cbn in Hl; lia|].
  exists m. by rewrite app_String.
Qed.

Lemma topic_middle_Some prefix suffix topic m :
  topic_middle prefix suffix topic = Some m ↔
  topic = prefix +:+ m +:+ suffix ∧ m ≠ "".
Proof.
  unfold topic_middle. split.
  - destruct (negb _ || _ || _) eqn:E; [done|]. bool_prop.
    match goal with H : (_ <=? _)%nat = false |- _ => apply Nat.leb_gt in H as Hl end.
    intros [= <-]. destruct (starts_with_inv prefix topic) as [r Hr]; [done|].
    destruct (ends_with_inv suffix topic) as [q Hq]; [done|].
    rewrite Hr in Hq. rewrite Hr, str_length_app in Hl.
    assert (String.length r + String.length prefix = String.length q + String.length suffix)%nat
      as Hlen by (apply (f_equal String.length) in Hq; rewrite !str_length_app in Hq; lia).
    destruct (str_app_split _ _ _ _ Hq) as (m & -> & ->); [lia|].
    assert (substr topic (String.length prefix) (String.length topic - String.length prefix
      - String.length suffix) = m) as ->.
    { rewrite Hr, !str_length_app.
      replace (String.length prefix + (String.length m + String.length suffix)
        - String.length prefix - String.length suffix)%nat with (String.length m) by lia.
      apply substr_mid. }
    split; [done|]. intros ->. rewrite !str_length_app in *. cbn in *. lia.
  - intros [-> Hm]. rewrite starts_with_app.
    replace (prefix +:+ m +:+ suffix) with ((prefix +:+ m) +:+ suffix) by apply str_app_assoc.
    rewrite ends_with_app, !str_length_app. cbn [negb orb].
    assert (0 < String.length m)%nat by (destruct m; [done|cbn; lia]).
    replace (_ <=? _)%nat with false by (symmetry; apply Nat.leb_gt; lia).
    replace (String.length prefix + String.length m + String.length suffix - String.length prefix
      - String.length suffix)%nat with (String.length m) by lia.
    by rewrite str_app_assoc, substr_mid.
Qed.

Lemma source_id_no_slash s : IsValidSourceId s = true → str_find "/" s = None.
Proof.
  intros H. unfold IsValidSourceId in H. bool_prop. by apply (str_find_all_of _ source_char).
Qed.
Lemma source_id_nonempty s : IsValidSourceId s = true → s ≠ "".
Proof. intros H ->. done. Qed.
Lemma device_id_nonempty s : IsValidDeviceId s = true → s ≠ "".
Proof. intros H ->. done. Qed.

Lemma ParseSourceTopic_iff ns topic suffix d id :
  ParseSourceTopic ns topic suffix d = Ok id ↔
  IsValidSourceId id = true ∧ topic = ns +:+ "/sources/" +:+ id +:+ suffix.
Proof.
  unfold ParseSourceTopic. split.
  - destruct (topic_middle _ _ _) as [m|] eqn:E; [|done].
    apply topic_middle_Some in E as [-> Hm].
    destruct (IsValidSourceId m) eqn:Ev; [|done]. cbn [negb orb].
    case_bool_decide; [done|]. intros [= <-]. by rewrite str_app_assoc.
  - intros [Hv ->]. assert (topic_middle (ns +:+ "/sources/") suffix
      (ns +:+ "/sources/" +:+ id +:+ suffix) = Some id) as ->.
    { apply topic_middle_Some. rewrite str_app_assoc. auto using source_id_nonempty. }
    rewrite Hv, source_id_no_slash by done. done.
Qed.

Lemma ParseDeviceAckTopic_iff ns topic suffix d id :
  ParseDeviceAckTopic ns topic suffix d = Ok id ↔
  IsValidDeviceId id = true ∧ topic = ns +:+ "/" +:+ id +:+ suffix.
Proof.
  unfold ParseDeviceAckTopic. split.
  - destruct (topic_middle _ _ _) as [m|] eqn:E; [|done].
    apply topic_middle_Some in E as [-> Hm].
    destruct (IsValidDeviceId m) eqn:Ev; [|done]. intros [= <-]. by rewrite str_app_assoc.
  - intros [Hv ->]. assert (topic_middle (ns +:+ "/") suffix (ns +:+ "/" +:+ id +:+ suffix)
      = Some id) as ->.
    { apply topic_middle_Some. rewrite str_app_assoc. auto using device_id_nonempty. }
    by rewrite Hv.
Qed.

(** The four kinds of inbound command topics. *)
Inductive CommandTopic :=
| ConfigRequestTopic (source_id : string)
| ConfigAckTopic (device_id : string)
| ControlRequestTopic (source_id : string)
| ControlAckTopic (device_id : string).

(** The topic text and the validity of its identifier, per kind. *)
Definition topic_text (ns : string) (t : CommandTopic) : string :=
  match t with
  | ConfigRequestTopic id => ns +:+ "/sources/" +:+ id +:+ "/config/request"
  | ConfigAckTopic id => ns +:+ "/" +:+ id +:+ "/config/ack"
  | ControlRequestTopic id => ns +:+ "/sources/" +:+ id +:+ "/control/request"
  | ControlAckTopic id => ns +:+ "/" +:+ id +:+ "/control/ack"
  end.
Definition topic_valid (t : CommandTopic) : bool :=
  match t with
  | ConfigRequestTopic id | ControlRequestTopic id => IsValidSourceId id
  | ConfigAckTopic id | ControlAckTopic id => IsValidDeviceId id
  end.

(** What the parser of its kind says of a topic. *)
Definition accepts (ns topic : string) (t : CommandTopic) : Prop :=
  match t with
  | ConfigRequestTopic id => ParseSourceRequestTopic ns topic = Ok id
  | ConfigAckTopic id => ParseDeviceConfigAckTopic ns topic = Ok id
  | ControlRequestTopic id => ParseSourceControlRequestTopic ns topic = Ok id
  | ControlAckTopic id => ParseDeviceControlAckTopic ns topic = Ok id
  end.

Lemma accepts_iff ns topic t :
  accepts ns topic t ↔ topic_valid t = true ∧ topic = topic_text ns t.
Proof.
  destruct t; [apply ParseSourceTopic_iff|apply ParseDeviceAckTopic_iff|
    apply ParseSourceTopic_iff|apply ParseDeviceAckTopic_iff].
Qed.

Lemma str_app_cancel_l a b c : a +:+ b = a +:+ c → b = c.
Proof.
  induction a as [|x a IH]; rewrite ?app_Empty, ?app_String; [done|]. intros [= E]. auto.
Qed.

(** The text before the first slash, and after it, is unique. *)
Lemma first_segment_inj a b x y :
  str_find "/" a = None → str_find "/" b = None →
  a +:+ String "/" x = b +:+ String "/" y → a = b ∧ x = y.
Proof.
  revert b. induction a as [|c a IH]; intros [|d b] Ha Hb E; rewrite ?app_Empty, ?app_String in E.
  - by injection E as ->.
  - injection E as <- E. by cbn in Hb.
  - injection E as -> E. by cbn in Ha.
  - injection E as -> E. cbn in Ha, Hb. destruct (Ascii.eqb "/" d); [done|].
    destruct (str_find "/" a) eqn:Ea; [done|]. destruct (str_find "/" b) eqn:Eb; [done|].
    destruct (IH b) as [-> ->]; auto.
Qed.

Lemma sources_sources_inj a b x y :
  str_find "/" a = None → str_find "/" b = None →
  "/sources/" +:+ a +:+ String "/" x = "/sources/" +:+ b +:+ String "/" y → a = b ∧ x = y.
Proof. intros Ha Hb E%str_app_cancel_l. by apply first_segment_inj. Qed.

Lemma devices_devices_inj a b x y :
  str_find "/" a = None → str_find "/" b = None →
  "/" +:+ a +:+ String "/" x = "/" +:+ b +:+ String "/" y → a = b ∧ x = y.
Proof. intros Ha Hb E%str_app_cancel_l. by apply first_segment_inj. Qed.

(** A source topic has one segment more than a device topic. *)
Lemma sources_devices_ne a b x y1 y2 :
  str_find "/" a = None → str_find "/" b = None → str_find "/" y1 = None → str_find "/" y2 = None →
  (∃ x1, x = x1 +:+ String "/" "request") →
  "/sources/" +:+ a +:+ String "/" x = "/" +:+ b +:+ String "/" (y1 +:+ String "/" y2) → False.
Proof.
  intros Ha Hb Hy1 Hy2 [x1 ->] E.
  change ("/sources/") with ("/" +:+ ("sources" +:+ String "/" "")) in E.
  rewrite !str_app_assoc in E. apply str_app_cancel_l in E.
  rewrite (app_String "/" ""), app_Empty in E. apply first_segment_inj in E as [<- E]; [|done|done].
  apply first_segment_inj in E as [-> E]; [|done|done].
  apply (f_equal (str_find "/")) in E. rewrite Hy2 in E.
  clear -E. induction x1 as [|c x1 IH]; rewrite ?app_Empty, ?app_String in E; [done|].
  cbn in E. destruct (Ascii.eqb "/" c); [done|]. apply IH.
  destruct (str_find "/" (x1 +:+ String "/" "request")); [done|done].
Qed.

Lemma requests_acks_ne a b x y :
  str_find "/" a = None → str_find "/" b = None →
  x = "/config/request" ∨ x = "/control/request" → y = "/config/ack" ∨ y = "/control/ack" →
  "/sources/" +:+ a +:+ x ≠ "/" +:+ b +:+ y.
Proof.
  intros Ha Hb [-> | ->] [-> | ->] E.
  - by apply (sources_devices_ne a b "config/request" "config" "ack") in E; [..|exists "config"].
  - by apply (sources_devices_ne a b "config/request" "control" "ack") in E; [..|exists "config"].
  - by apply (sources_devices_ne a b "control/request" "config" "ack") in E; [..|exists "control"].
  - by apply (sources_devices_ne a b "control/request" "control" "ack") in E; [..|exists "control"].
Qed.

(** C36: The topic parsers accept exactly the topics that the protocol builds from valid identifiers,
    and no topic is read as two different kinds of message. *)
Theorem command_topics_unambiguous ns topic t1 t2 :
  (accepts ns topic t1 ↔ topic_valid t1 = true ∧ topic = topic_text ns t1) ∧
  (accepts ns topic t1 → accepts ns topic t2 → t1 = t2).
Proof.
  split; [apply accepts_iff|]. rewrite !accepts_iff. intros [H1 ->] [H2 E].
  assert (∀ t, topic_valid t = true → str_find "/" (match t with ConfigRequestTopic id
    | ConfigAckTopic id | ControlRequestTopic id | ControlAckTopic id => id end) = None) as Hs.
  { intros [] H; first [by apply source_id_no_slash|by apply valid_id_no_slash]. }
  apply Hs in H1, H2.
  destruct t1 as [a|a|a|a], t2 as [b|b|b|b]; cbn [topic_text] in *; apply str_app_cancel_l in E;
    first
    [ apply sources_sources_inj in E as [-> E]; [done|done|done]
    | apply devices_devices_inj in E as [-> E]; [done|done|done]
    | exfalso; eapply requests_acks_ne; [exact H1|exact H2| | |exact E]; auto
    | exfalso; eapply requests_acks_ne; [exact H2|exact H1| | |symmetry; exact E]; auto].
Qed.

(** ** Requests *)

(** The values a request may carry. *)
Definition within (o : option Z) (lo hi : Z) : Prop :=
  match o with Some z => lo <= z <= hi | None => True end.
Definition parameters_ok (p : ConfigParameters) : Prop :=
  (telemetry_publish_interval_ms p ≠ None ∨ heartbeat_interval_ms p ≠ None ∨
   mqtt_reconnect_delay_s p ≠ None ∨ mqtt_reconnect_delay_max_s p ≠ None) ∧
  within (telemetry_publish_interval_ms p) 100 60000 ∧
  within (heartbeat_interval_ms p) 100 60000 ∧
  within (mqtt_reconnect_delay_s p) 1 3600 ∧ within (mqtt_reconnect_delay_max_s p) 1 3600 ∧
  delays_ordered p = true.

Definition text_within (s : string) (maximum : nat) : Prop :=
  s ≠ "" ∧ (String.length s <= maximum)%nat.
Definition target_ok (kind : SourceKind) (t : RequestTarget) : Prop :=
  match t with
  | DeviceLabelTarget l => kind = kDevice ∧ text_within l 64
  | SchoolLabelTarget n l => kind ≠ kDevice ∧ text_within n 128 ∧ text_within l 64
  | DeviceTarget id => kind ≠ kDevice ∧ IsValidDeviceId id = true
  end.

Definition control_ok (c : ControlCommand) (p : ControlParameters) : Prop :=
  match pwm_us p with
  | None => c ≠ kSetMotorPwm
  | Some l => c = kSetMotorPwm ∧ length l = 4%nat ∧ Forall (λ z, 1000 <= z <= 2000) l
  end.

Lemma ReadUnsignedInRange_spec object key lo hi valid o :
  0 <= lo → hi < 2 ^ 32 → ReadUnsignedInRange object key lo hi valid = (o, true) →
  valid = true ∧ within o lo hi ∧ (o = None ↔ jfind object key = None).
Proof.
  unfold ReadUnsignedInRange. intros Hlo Hhi. destruct (jfind object key) as [v|]; cycle 1.
  { intros [= <- <-]. done. }
  destruct (_ || _); [done|]. destruct (_ || _) eqn:E; [done|]. intros [= <- <-]. bool_prop.
  cbn [within]. rewrite Z.mod_small by lia. split; [done|]. split; [lia|done].
Qed.

Lemma only_fields_spec object allowed :
  only_fields object allowed = true ↔ ∀ k, k ∈ jkeys object → k ∈ allowed.
Proof.
  unfold only_fields. rewrite forallb_forall. split; intros H k Hk.
  - apply list_elem_of_In in Hk. apply H in Hk. apply existsb_exists in Hk as (x & Hx & E).
    apply String.eqb_eq in E as ->. by apply list_elem_of_In.
  - apply existsb_exists. exists k. rewrite String.eqb_refl. split; [|done].
    by apply list_elem_of_In, H, list_elem_of_In.
Qed.

Lemma jfind_key object k : jfind object k = None ↔ k ∉ jkeys object ∨ is_object object = false.
Proof.
  destruct object as [| | | | | | |l]; cbn; try (split; [by right|done]).
  induction l as [|[k' v] l IH]; cbn; [split; [left; apply not_elem_of_nil|done]|].
  destruct (String.eqb k' k) eqn:E; bool_prop.
  - subst. split; [done|]. intros [H|]; [|done]. destruct H. left.
  - rewrite IH, not_elem_of_cons. naive_solver.
Qed.

Lemma ParseParameters_ok v p : ParseParameters v = Ok p → parameters_ok p.
Proof.
  unfold ParseParameters. destruct (negb (is_object v) || jempty v) eqn:E0; [done|].
  destruct (only_fields v parameter_fields) eqn:Ef; [|done].
  destruct (ReadUnsignedInRange v "telemetry_publish_interval_ms" 100 60000 true) as [o1 v1] eqn:E1.
  destruct (ReadUnsignedInRange v "heartbeat_interval_ms" 100 60000 v1) as [o2 v2] eqn:E2.
  destruct (ReadUnsignedInRange v "mqtt_reconnect_delay_s" 1 3600 v2) as [o3 v3] eqn:E3.
  destruct (ReadUnsignedInRange v "mqtt_reconnect_delay_max_s" 1 3600 v3) as [o4 v4] eqn:E4.
  destruct v4; [|done]. destruct (delays_ordered _) eqn:Ed; [|done]. intros [= <-].
  apply ReadUnsignedInRange_spec in E4 as (-> & W4 & N4); [|lia..].
  apply ReadUnsignedInRange_spec in E3 as (-> & W3 & N3); [|lia..].
  apply ReadUnsignedInRange_spec in E2 as (-> & W2 & N2); [|lia..].
  apply ReadUnsignedInRange_spec in E1 as (_ & W1 & N1); [|lia..].
  split; [|done]. cbn. bool_prop. destruct v as [| | | | | | |[|[k w] l]]; try done.
  apply only_fields_spec with (k := k) in Ef; [|left]. unfold parameter_fields in Ef.
  assert (jfind (JObject ((k, w) :: l)) k ≠ None) as Hk by (cbn; by rewrite String.eqb_refl).
  repeat (apply elem_of_cons in Ef as [->|Ef]); [tauto..|]. by apply elem_of_nil in Ef.
Qed.

Lemma IsNonEmptyStringWithin_spec v k n :
  IsNonEmptyStringWithin v k n = true ↔ ∃ s, string_field v k = Some s ∧ text_within s n.
Proof.
  unfold IsNonEmptyStringWithin, string_field, text_within.
  destruct (jfind v k) as [[]|]; try (split; [done|naive_solver]).
  rewrite andb_true_iff, Nat.leb_le. destruct s; cbn; split; naive_solver.
Qed.

Lemma ParseTarget_ok v kind t : ParseTarget v kind = Ok t → target_ok kind t.
Proof.
  unfold ParseTarget. destruct (negb (is_object v)); [done|]. case_bool_decide as Hk.
  - destruct (negb (jsize v =? 1)%nat || _) eqn:E; [done|]. intros [= <-]. bool_prop.
    apply IsNonEmptyStringWithin_spec in H0 as (s & -> & Hs). done.
  - destruct (_ && _) eqn:E1.
    + intros [= <-]. bool_prop. by destruct (string_field v "device_id").
    + destruct (_ && _ && _) eqn:E2; [|done]. intros [= <-]. bool_prop.
      apply IsNonEmptyStringWithin_spec in H0 as (s & -> & Hs), H1 as (n & -> & Hn). done.
Qed.

Lemma parse_pwm_ok items l :
  parse_pwm items = Ok l → length l = length items ∧ Forall (λ z, 1000 <= z <= 2000) l.
Proof.
  revert l. induction items as [|v items IH]; intros l; cbn [parse_pwm]; [intros [= <-]; done|].
  destruct (_ || _); [done|]. destruct (_ || _) eqn:E; [done|].
  destruct (parse_pwm items) as [l'|]; [|done]. intros [= <-]. bool_prop.
  destruct (IH l' eq_refl). cbn. split; [congruence|]. constructor; [|done].
  rewrite Z.mod_small; lia.
Qed.

Lemma ParseControlParameters_ok v c p : ParseControlParameters v c = Ok p → control_ok c p.
Proof.
  unfold ParseControlParameters. destruct (negb (is_object v)); [done|]. case_bool_decide as Hc.
  - cbn. destruct (jfind v "pwm_us") as [[| | | | | |items|]|]; try done.
    destruct (_ || _) eqn:E; [done|]. destruct (parse_pwm items) as [l|] eqn:El; [|done].
    intros [= <-]. bool_prop. apply parse_pwm_ok in El as [Hl Hf]. cbn. 
    split; [done|]. split; [|done]. rewrite Hl. by apply Nat.eqb_eq.
  - cbn. destruct (jempty v); [|done]. by intros [= <-].
Qed.

(** *** The request of a value, and what the parser makes of it *)
Definition uint_field (key : string) (o : option Z) : list (string * json) :=
  match o with Some z => [(key, JUInt z)] | None => [] end.
Definition parameters_json (p : ConfigParameters) : json :=
  jobject (uint_field "telemetry_publish_interval_ms" (telemetry_publish_interval_ms p)
    ++ uint_field "heartbeat_interval_ms" (heartbeat_interval_ms p)
    ++ uint_field "mqtt_reconnect_delay_s" (mqtt_reconnect_delay_s p)
    ++ uint_field "mqtt_reconnect_delay_max_s" (mqtt_reconnect_delay_max_s p)).

Definition request_target_json (t : RequestTarget) : json :=
  match t with
  | DeviceLabelTarget l => jobject [("dcdw_label", JString l)]
  | SchoolLabelTarget n l => jobject [("school_name", JString n); ("dcdw_label", JString l)]
  | DeviceTarget id => jobject [("device_id", JString id)]
  end.

Definition config_request_json (id : string) (t : RequestTarget) (p : ConfigParameters) : json :=
  jobject [("schema_version", JUInt 1); ("request_id", JString id);
           ("target", request_target_json t); ("parameters", parameters_json p)].

Definition CommandText (command : ControlCommand) : string :=
  match command with
  | kSetMotorPwm => "set_motor_pwm"
  | kEmergencyStop => "emergency_stop"
  | kTakeoff => "takeoff"
  | kLand => "land"
  end.

Definition control_parameters_json (p : ControlParameters) : json :=
  match pwm_us p with
  | Some l => jobject [("pwm_us", JArray (JUInt <$> l))]
  | None => jobject []
  end.

Definition control_request_json (id : string) (t : RequestTarget) (c : ControlCommand)
    (p : ControlParameters) : json :=
  jobject [("schema_version", JUInt 1); ("request_id", JString id);
           ("target", request_target_json t); ("command", JString (CommandText c));
           ("parameters", control_parameters_json p)].

Lemma i64_nonneg z : 0 <= z < 2 ^ 63 → i64 z = z.
Proof. intros. apply i64_small. lia. Qed.

Lemma ReadUnsignedInRange_uint object key lo hi z :
  jfind object key = Some (JUInt z) → 0 <= lo → hi < 2 ^ 32 → lo <= z <= hi →
  ReadUnsignedInRange object key lo hi true = (Some z, true).
Proof.
  intros Hf Hlo Hhi Hz. unfold ReadUnsignedInRange. rewrite Hf. cbn [is_number_integer
    is_number_unsigned negb andb orb get_i64 get_u64]. rewrite i64_nonneg by lia.
  replace (z <? 0) with false by (symmetry; apply Z.ltb_ge; lia).
  replace (z <? lo) with false by (symmetry; apply Z.ltb_ge; lia).
  replace (hi <? z) with false by (symmetry; apply Z.ltb_ge; lia).
  cbn. by rewrite Z.mod_small by lia.
Qed.

Lemma ReadUnsignedInRange_opt object key lo hi o :
  jfind object key = JUInt <$> o → 0 <= lo → hi < 2 ^ 32 → within o lo hi →
  ReadUnsignedInRange object key lo hi true = (o, true).
Proof.
  intros Hf Hlo Hhi Hw. destruct o as [z|]; [by apply ReadUnsignedInRange_uint|].
  unfold ReadUnsignedInRange. by rewrite Hf.
Qed.

Lemma ParseParameters_json p : parameters_ok p → ParseParameters (parameters_json p) = Ok p.
Proof.
  intros (Hsome & H1 & H2 & H3 & H4 & Hd). set (v := parameters_json p).
  assert (jfind v "telemetry_publish_interval_ms" = JUInt <$> telemetry_publish_interval_ms p ∧
    jfind v "heartbeat_interval_ms" = JUInt <$> heartbeat_interval_ms p ∧
    jfind v "mqtt_reconnect_delay_s" = JUInt <$> mqtt_reconnect_delay_s p ∧
    jfind v "mqtt_reconnect_delay_max_s" = JUInt <$> mqtt_reconnect_delay_max_s p ∧
    is_object v = true ∧ jempty v = false ∧ only_fields v parameter_fields = true)
    as (F1 & F2 & F3 & F4 & Fo & Fe & Ff).
  { subst v. destruct p as [[a|] [b|] [c|] [d|]]; cbn in Hsome; try (exfalso; naive_solver);
      repeat split; reflexivity. }
  unfold ParseParameters. rewrite Fo, Fe, Ff. cbn [negb orb].
  rewrite (ReadUnsignedInRange_opt _ _ _ _ _ F1), (ReadUnsignedInRange_opt _ _ _ _ _ F2),
    (ReadUnsignedInRange_opt _ _ _ _ _ F3), (ReadUnsignedInRange_opt _ _ _ _ _ F4) by done.
  assert (p = {| telemetry_publish_interval_ms := telemetry_publish_interval_ms p;
    heartbeat_interval_ms := heartbeat_interval_ms p;
    mqtt_reconnect_delay_s := mqtt_reconnect_delay_s p;
    mqtt_reconnect_delay_max_s := mqtt_reconnect_delay_max_s p |}) as Hp by by destruct p.
  by rewrite <- Hp, Hd.
Qed.

Lemma text_within_spec v k s n :
  jfind v k = Some (JString s) → text_within s n → IsNonEmptyStringWithin v k n = true.
Proof.
  intros Hf Hs. apply IsNonEmptyStringWithin_spec. exists s. split; [|done].
  by apply string_field_Some.
Qed.

Lemma ParseTarget_json kind t : target_ok kind t → ParseTarget (request_target_json t) kind = Ok t.
Proof.
  intros H. unfold ParseTarget. destruct t as [l|n l|id]; cbn [request_target_json target_ok] in *.
  - destruct H as [-> Hl]. change (is_object _) with true. cbn [negb].
    rewrite bool_decide_eq_true_2 by done.
    by rewrite (text_within_spec _ "dcdw_label" l 64) by done.
  - destruct H as (Hk & Hn & Hl). change (is_object _) with true. cbn [negb].
    rewrite bool_decide_eq_false_2 by done. change (jsize _ =? 1)%nat with false. cbn [andb].
    change (jsize _ =? 2)%nat with true. cbn [andb].
    by rewrite (text_within_spec _ "school_name" n 128), (text_within_spec _ "dcdw_label" l 64)
      by done.
  - destruct H as [Hk Hid]. change (is_object _) with true. cbn [negb].
    rewrite bool_decide_eq_false_2 by done. change (jsize _ =? 1)%nat with true. cbn [andb].
    change (string_field _ "device_id") with (Some id). cbn [default]. by rewrite Hid.
Qed.

Lemma parse_pwm_json l :
  Forall (λ z, 1000 <= z <= 2000) l → parse_pwm (JUInt <$> l) = Ok l.
Proof.
  induction 1 as [|z l Hz _ IH]; [done|]. rewrite fmap_cons. cbn [parse_pwm is_number_integer
    is_number_unsigned negb andb orb get_i64 get_u64]. rewrite i64_nonneg, IH by lia.
  replace (z <? 0) with false by (symmetry; apply Z.ltb_ge; lia).
  replace (z <? 1000) with false by (symmetry; apply Z.ltb_ge; lia).
  replace (2000 <? z) with false by (symmetry; apply Z.ltb_ge; lia).
  cbn. by rewrite Z.mod_small by lia.
Qed.

Lemma ParseControlParameters_json c p :
  control_ok c p → ParseControlParameters (control_parameters_json p) c = Ok p.
Proof.
  unfold control_ok, ParseControlParameters, control_parameters_json.
  destruct p as [[l|]]; cbn [pwm_us].
  - intros (-> & Hl & Hf). rewrite bool_decide_eq_true_2 by done. change (is_object _) with true.
    cbn [negb]. change (jfind _ "pwm_us") with (Some (JArray (JUInt <$> l))).
    change (jsize _ =? 1)%nat with true. cbn [negb orb].
    by rewrite length_fmap, Hl, parse_pwm_json by done.
  - intros Hc. by rewrite bool_decide_eq_false_2.
Qed.

Lemma ParseControlCommand_text root c :
  jfind root "command" = Some (JString (CommandText c)) → ParseControlCommand root = Ok c.
Proof.
  intros H. apply string_field_Some in H. unfold ParseControlCommand. rewrite H. by destruct c.
Qed.

Lemma ParseControlCommand_sound root c :
  ParseControlCommand root = Ok c → jfind root "command" = Some (JString (CommandText c)).
Proof.
  unfold ParseControlCommand. destruct (string_field root "command") as [s|] eqn:E; [|done].
  apply string_field_Some in E. rewrite E. intros H.
  repeat (destruct (String.eqb s _) eqn:Es; [bool_prop; subst; by injection H as <-|clear Es]). done.
Qed.

Lemma read_request_id_sound root id :
  read_request_id root = Some id →
  jfind root "request_id" = Some (JString id) ∧ IsValidRequestId id = true.
Proof.
  unfold read_request_id. destruct (string_field root "request_id") as [s|] eqn:E; [|done].
  apply string_field_Some in E. destruct (IsValidRequestId s) eqn:Ei; [|done]. by intros [= <-].
Qed.

(** *** The codes of the errors *)
Lemma ParseParameters_code v e : ParseParameters v = Unexpected e → pe_code e = "invalid_parameters".
Proof.
  unfold ParseParameters. destruct (_ || _); [by intros [= <-]|].
  destruct (only_fields _ _); [|by intros [= <-]].
  destruct (ReadUnsignedInRange _ _ _ _ true) as [? ?]. do 3 destruct (ReadUnsignedInRange _ _ _ _ _) as [? ?].
  destruct b2; [|by intros [= <-]]. destruct (delays_ordered _); [done|by intros [= <-]].
Qed.
Lemma ParseTarget_code v k e : ParseTarget v k = Unexpected e → pe_code e = "invalid_target".
Proof. unfold ParseTarget. repeat case_match; intros; simplify_eq; done. Qed.
Lemma ParseControlCommand_code v e :
  ParseControlCommand v = Unexpected e → pe_code e = "unsupported_command".
Proof. unfold ParseControlCommand. repeat case_match; intros; simplify_eq; done. Qed.
Lemma parse_pwm_code l e : parse_pwm l = Unexpected e → pe_code e = "invalid_parameters".
Proof.
  induction l as [|v l IH]; cbn [parse_pwm]; [done|]. intros H.
  repeat step_match; try done; simplify_eq; auto.
Qed.
Lemma ParseControlParameters_code v c e :
  ParseControlParameters v c = Unexpected e → pe_code e = "invalid_parameters".
Proof.
  unfold ParseControlParameters. intros H. repeat step_match; simplify_eq; try done.
  by eapply parse_pwm_code.
Qed.

Section RequestTheorems.
Context `{JL : JsonLib}.

Lemma config_request_inv payload kind r :
  ParseSourceConfigRequest payload kind = ParsedConfig r →
  let root := cr_comparison_payload r in
  json_parse payload = Some root ∧ read_request_id root = Some (cr_request_id r) ∧
  only_fields root ["schema_version"; "request_id"; "target"; "parameters"] = true ∧
  schema_is_1 root = true ∧
  (∃ t, jfind root "target" = Some t ∧ ParseTarget t kind = Ok (cr_target r)) ∧
  (∃ p, jfind root "parameters" = Some p ∧ ParseParameters p = Ok (cr_parameters r)).
Proof.
  unfold ParseSourceConfigRequest, Reject. intros H. repeat step_match; bool_prop; naive_solver.
Qed.

Lemma control_request_inv payload kind r :
  ParseSourceControlRequest payload kind = ParsedControl r →
  let root := tr_comparison_payload r in
  json_parse payload = Some root ∧ read_request_id root = Some (tr_request_id r) ∧
  only_fields root ["schema_version"; "request_id"; "target"; "command"; "parameters"] = true ∧
  schema_is_1 root = true ∧
  (∃ t, jfind root "target" = Some t ∧ ParseTarget t kind = Ok (tr_target r)) ∧
  ParseControlCommand root = Ok (tr_command r) ∧
  (∃ p, jfind root "parameters" = Some p ∧
     ParseControlParameters p (tr_command r) = Ok (tr_parameters r)).
Proof.
  unfold ParseSourceControlRequest, Reject. intros H. repeat step_match; bool_prop; naive_solver.
Qed.

(** A configuration request that parses has a valid request identifier, a target of the kind its
    source uses, parameters within their ranges, and no field outside the protocol. *)
Theorem ParseSourceConfigRequest_sound payload kind r :
  ParseSourceConfigRequest payload kind = ParsedConfig r →
  json_parse payload = Some (cr_comparison_payload r) ∧
  jfind (cr_comparison_payload r) "request_id" = Some (JString (cr_request_id r)) ∧
  IsValidRequestId (cr_request_id r) = true ∧
  target_ok kind (cr_target r) ∧ parameters_ok (cr_parameters r) ∧
  (∀ k, k ∈ jkeys (cr_comparison_payload r) →
     k ∈ ["schema_version"; "request_id"; "target"; "parameters"]).
Proof.
  intros H. apply config_request_inv in H as (Hp & Hid & Hf & _ & (t & _ & Ht) & (p & _ & Hq)).
  apply read_request_id_sound in Hid as [Hid Hv]. do 3 (split; [done|]).
  split; [by eapply ParseTarget_ok|]. split; [by eapply ParseParameters_ok|].
  by apply only_fields_spec.
Qed.

(** Every well-formed configuration request is accepted, with the identifier, target and
    parameters it was written from. *)
Theorem ParseSourceConfigRequest_complete payload kind id t p :
  json_parse payload = Some (config_request_json id t p) →
  IsValidRequestId id = true → target_ok kind t → parameters_ok p →
  ParseSourceConfigRequest payload kind =
    ParsedConfig {| cr_request_id := id; cr_target := t; cr_parameters := p;
                    cr_comparison_payload := config_request_json id t p |}.
Proof.
  intros Hp Hid Ht Hq. unfold ParseSourceConfigRequest. rewrite Hp.
  change (is_object (config_request_json id t p)) with true. cbn [negb].
  assert (read_request_id (config_request_json id t p) = Some id) as ->.
  { unfold read_request_id. change (string_field _ _) with (Some id). cbn. by rewrite Hid. }
  change (only_fields _ _) with true. change (schema_is_1 _) with true. cbn [negb].
  change (jfind _ "target") with (Some (request_target_json t)).
  change (jfind _ "parameters") with (Some (parameters_json p)). cbn beta iota.
  by rewrite ParseTarget_json, ParseParameters_json by done.
Qed.

(** C35: A control request that parses has a valid request identifier, a known command, a target of
    the kind its source uses and parameters valid for that command. *)
Theorem ParseSourceControlRequest_sound payload kind r :
  ParseSourceControlRequest payload kind = ParsedControl r →
  json_parse payload = Some (tr_comparison_payload r) ∧
  jfind (tr_comparison_payload r) "request_id" = Some (JString (tr_request_id r)) ∧
  jfind (tr_comparison_payload r) "command" = Some (JString (CommandText (tr_command r))) ∧
  IsValidRequestId (tr_request_id r) = true ∧
  target_ok kind (tr_target r) ∧ control_ok (tr_command r) (tr_parameters r).
Proof.
  intros H. apply control_request_inv in H
    as (Hp & Hid & _ & _ & (t & _ & Ht) & Hc & (p & _ & Hq)).
  apply read_request_id_sound in Hid as [Hid Hv]. apply ParseControlCommand_sound in Hc.
  repeat (split; [done|]). split; [by eapply ParseTarget_ok|].
  by eapply ParseControlParameters_ok.
Qed.

(** Every well-formed control request is accepted, with the identifier, target, command and
    parameters it was written from. *)
Theorem ParseSourceControlRequest_complete payload kind id t c p :
  json_parse payload = Some (control_request_json id t c p) →
  IsValidRequestId id = true → target_ok kind t → control_ok c p →
  ParseSourceControlRequest payload kind =
    ParsedControl {| tr_request_id := id; tr_target := t; tr_command := c; tr_parameters := p;
                     tr_comparison_payload := control_request_json id t c p |}.
Proof.
  intros Hp Hid Ht Hq. unfold ParseSourceControlRequest. rewrite Hp.
  change (is_object (control_request_json id t c p)) with true. cbn [negb].
  assert (read_request_id (control_request_json id t c p) = Some id) as ->.
  { unfold read_request_id. change (string_field _ _) with (Some id). cbn. by rewrite Hid. }
  change (only_fields _ _) with true. change (schema_is_1 _) with true. cbn [negb].
  change (jfind _ "target") with (Some (request_target_json t)).
  change (jfind _ "parameters") with (Some (control_parameters_json p)). cbn beta iota.
  rewrite ParseTarget_json, (ParseControlCommand_text _ c) by done.
  by rewrite ParseControlParameters_json.
Qed.

Definition request_error_codes : list string :=
  ["invalid_json"; "invalid_request_id"; "unsupported_schema_version";
   "invalid_target"; "invalid_parameters"; "unsupported_command"].

Definition rejection_ok (payload : string) (rej : RejectedSourceRequest) : Prop :=
  rj_request_id rej = json_parse payload ≫= read_request_id ∧
  (is_Some (rj_request_id rej) → rj_comparison_payload rej = json_parse payload) ∧
  existsb (String.eqb (pe_code (rj_error rej))) request_error_codes = true.

Lemma no_object_no_id root : negb (is_object root) = true → read_request_id root = None.
Proof. by destruct root. Qed.

(** A rejection of a payload whose identifier was read. *)
Lemma reject_named payload root id e rej :
  json_parse payload = Some root → read_request_id root = Some id →
  existsb (String.eqb (pe_code e)) request_error_codes = true →
  Reject (Some id) (Some root) e = ParsedRejected rej → rejection_ok payload rej.
Proof.
  intros Hp Hid He [= <-]. unfold rejection_ok. rewrite Hp. cbn. by rewrite Hid.
Qed.
Lemma reject_unnamed payload root e rej o :
  json_parse payload = Some root → read_request_id root = None →
  existsb (String.eqb (pe_code e)) request_error_codes = true →
  Reject None o e = ParsedRejected rej → rejection_ok payload rej.
Proof.
  intros Hp Hid He [= <-]. unfold rejection_ok. rewrite Hp. cbn. rewrite Hid.
  split; [done|]. split; [by intros [? ?]|done].
Qed.

Lemma config_rejection payload kind rej :
  ParseSourceConfigRequest payload kind = ParsedRejected rej → rejection_ok payload rej.
Proof.
  unfold ParseSourceConfigRequest. destruct (json_parse payload) as [root|] eqn:Ep; cycle 1.
  { intros [= <-]. unfold rejection_ok. rewrite Ep. cbn. split; [done|]. by split; [intros [? ?]|]. }
  destruct (negb (is_object root)) eqn:Eo.
  { apply no_object_no_id in Eo. by eapply reject_unnamed. }
  destruct (read_request_id root) as [id|] eqn:Ei; [|by eapply reject_unnamed].
  destruct (negb (only_fields _ _)); [by eapply reject_named|].
  destruct (negb (schema_is_1 _)); [by eapply reject_named|].
  destruct (jfind root "target") as [tv|]; [|by eapply reject_named].
  destruct (ParseTarget tv kind) as [t|e] eqn:Et;
    [|apply ParseTarget_code in Et; eapply reject_named; [done|done|by rewrite Et]].
  destruct (jfind root "parameters") as [pv|]; [|by eapply reject_named].
  destruct (ParseParameters pv) as [p|e] eqn:Eq; [done|].
  apply ParseParameters_code in Eq. eapply reject_named; [done|done|by rewrite Eq].
Qed.

Lemma control_rejection payload kind rej :
  ParseSourceControlRequest payload kind = ParsedRejected rej → rejection_ok payload rej.
Proof.
  unfold ParseSourceControlRequest. destruct (json_parse payload) as [root|] eqn:Ep; cycle 1.
  { intros [= <-]. unfold rejection_ok. rewrite Ep. cbn. split; [done|]. by split; [intros [? ?]|]. }
  destruct (negb (is_object root)) eqn:Eo.
  { apply no_object_no_id in Eo. by eapply reject_unnamed. }
  destruct (read_request_id root) as [id|] eqn:Ei; [|by eapply reject_unnamed].
  destruct (negb (only_fields _ _)); [by eapply reject_named|].
  destruct (negb (schema_is_1 _)); [by eapply reject_named|].
  destruct (jfind root "target") as [tv|]; [|by eapply reject_named].
  destruct (ParseTarget tv kind) as [t|e] eqn:Et;
    [|apply ParseTarget_code in Et; eapply reject_named; [done|done|by rewrite Et]].
  destruct (ParseControlCommand root) as [c|e] eqn:Ec;
    [|apply ParseControlCommand_code in Ec; eapply reject_named; [done|done|by rewrite Ec]].
  destruct (jfind root "parameters") as [pv|]; [|by eapply reject_named].
  destruct (ParseControlParameters pv c) as [p|e] eqn:Eq; [done|].
  apply ParseControlParameters_code in Eq. eapply reject_named; [done|done|by rewrite Eq].
Qed.

(** A rejection can be answered exactly when the request named itself. *)
Theorem rejected_request_identity payload kind rej :
  ParseSourceConfigRequest payload kind = ParsedRejected rej ∨
  ParseSourceControlRequest payload kind = ParsedRejected rej →
  rj_request_id rej = json_parse payload ≫= read_request_id ∧
  (is_Some (rj_request_id rej) → rj_comparison_payload rej = json_parse payload) ∧
  pe_code (rj_error rej) ∈ request_error_codes.
Proof.
  intros H. assert (rejection_ok payload rej) as (H1 & H2 & H3).
  { destruct H; [by eapply config_rejection|by eapply control_rejection]. }
  do 2 (split; [done|]). apply existsb_exists in H3 as (x & Hx & E).
  apply String.eqb_eq in E as ->. by apply list_elem_of_In.
Qed.
End RequestTheorems.

(** ** Requests of a source, through the codec *)
Definition one_parameter : ConfigParameters :=
  {| telemetry_publish_interval_ms := None; heartbeat_interval_ms := Some 1000;
     mqtt_reconnect_delay_s := None; mqtt_reconnect_delay_max_s := None |}.
Definition four_motors : ControlParameters := {| pwm_us := Some [1000; 1200; 1500; 2000] |}.

Lemma one_parameter_ok : parameters_ok one_parameter.
Proof. repeat split; cbn; auto; lia. Qed.
Lemma four_motors_ok : control_ok kSetMotorPwm four_motors.
Proof. split; [done|]. split; [done|]. repeat (apply Forall_cons; split; [lia|]). apply Forall_nil_2. Qed.

Definition config_text : string := codec_dump (config_request_json "r1" (DeviceTarget "d1") one_parameter).
Definition control_text : string :=
  codec_dump (control_request_json "r1" (DeviceTarget "d1") kSetMotorPwm four_motors).

Lemma ParseSourceConfigRequest_complete_witness :
  ParseSourceConfigRequest (JL := codec_lib) config_text kHostApp =
    ParsedConfig {| cr_request_id := "r1"; cr_target := DeviceTarget "d1";
                    cr_parameters := one_parameter;
                    cr_comparison_payload := config_request_json "r1" (DeviceTarget "d1") one_parameter |}.
Proof.
  refine (ParseSourceConfigRequest_complete (JL := codec_lib) config_text kHostApp "r1"
    (DeviceTarget "d1") one_parameter _ _ _ one_parameter_ok); vm_compute; [reflexivity..|].
  split; [discriminate|reflexivity].
Defined.

Lemma ParseSourceControlRequest_complete_witness :
  ParseSourceControlRequest (JL := codec_lib) control_text kHostApp =
    ParsedControl {| tr_request_id := "r1"; tr_target := DeviceTarget "d1";
                     tr_command := kSetMotorPwm; tr_parameters := four_motors;
                     tr_comparison_payload :=
                       control_request_json "r1" (DeviceTarget "d1") kSetMotorPwm four_motors |}.
Proof.
  refine (ParseSourceControlRequest_complete (JL := codec_lib) control_text kHostApp "r1"
    (DeviceTarget "d1") kSetMotorPwm four_motors _ _ _ four_motors_ok); vm_compute; [reflexivity..|].
  split; [discriminate|reflexivity].
Defined.

Lemma ParseSourceConfigRequest_sound_witness :
  match ParseSourceConfigRequest (JL := codec_lib) config_text kHostApp with
  | ParsedConfig r => IsValidRequestId (cr_request_id r) = true
  | _ => False
  end.
Proof.
  destruct (ParseSourceConfigRequest (JL := codec_lib) config_text kHostApp) as [r|r|r] eqn:E.
  - exact (proj1 (proj2 (proj2 (ParseSourceConfigRequest_sound (JL := codec_lib) _ _ r E)))).
  - revert E. vm_compute. discriminate.
  - revert E. vm_compute. discriminate.
Defined.

Lemma ParseSourceControlRequest_sound_witness :
  match ParseSourceControlRequest (JL := codec_lib) control_text kHostApp with
  | ParsedControl r => control_ok (tr_command r) (tr_parameters r)
  | _ => False
  end.
Proof.
  destruct (ParseSourceControlRequest (JL := codec_lib) control_text kHostApp) as [r|r|r] eqn:E.
  - revert E. vm_compute. discriminate.
  - exact (proj2 (proj2 (proj2 (proj2 (proj2
      (ParseSourceControlRequest_sound (JL := codec_lib) _ _ r E)))))).
  - revert E. vm_compute. discriminate.
Defined.
