(* ===== verification/AppConfig.v ===== *)
(** * AppConfig: src/route_service/src/core/config/app_config.cpp

    The configuration file: read, parsed as JSON, and every field checked before it
    becomes a value of the program. *)

From Stdlib Require Import Ascii ZArith Lia.
From Stdlib Require String.
From S2P Require Import Prelude Json Logger SourceRequest.
From stdpp Require Import options.

(** ** Data: durations in seconds (the retention in days) *)
Record DatabaseConfig := {
  db_host : string; db_port : Z; db_name : string; db_user : string; db_password : string;
  db_connect_timeout : Z; db_reconnect_interval : Z
}.
Record MqttConfig := {
  mq_host : string; mq_port : Z; mq_keepalive : Z; mq_client_id : string;
  mq_username : string; mq_password : string; mq_reconnect_delay : Z;
  mq_reconnect_delay_max : Z; mq_topic_namespace : string; mq_max_payload_bytes : Z
}.
Record LoggingConfig := { lg_level : Level }.
Record QueueConfig := { qu_mqtt_inbound_capacity : Z }.
Record DeviceStateConfig := { ds_telemetry_flush_interval : Z; ds_offline_timeout : Z }.

Inductive FixedSourceKind := kHostApp | kControlCenter.
#[export] Instance FixedSourceKind_eq_dec : EqDecision FixedSourceKind.
Proof. solve_decision. Defined.

Record FixedSourceConfig := { fs_source_id : string; fs_source_kind : FixedSourceKind }.
Record CommandConfig := {
  cc_config_timeout : Z; cc_control_timeout : Z; cc_terminal_retention : Z;
  cc_cleanup_interval : Z; cc_cleanup_batch_size : Z; cc_max_inflight_commands : Z;
  cc_fixed_sources : list FixedSourceConfig
}.
Record AppConfig := {
  ac_database : DatabaseConfig; ac_mqtt : MqttConfig; ac_logging : LoggingConfig;
  ac_queues : QueueConfig; ac_device_state : DeviceStateConfig; ac_command : CommandConfig
}.

(** ** Readers of one field *)
Definition ConfigError {T} (path message : string) : expected T string :=
  Unexpected (path +:+ "：" +:+ message).

(** The first field that is not allowed. *)
Definition unknown_field (allowed : list string) (v : json) : option string :=
  find (λ field, negb (existsb (String.eqb field) allowed)) (jkeys v).

Definition ReadObject (parent : json) (key path : string) (allowed : list string) :
    expected json string :=
  match jfind parent key with
  | None => ConfigError path "缺少必填字段"
  | Some object =>
      if negb (is_object object) then ConfigError path "必须是对象"
      else
        match unknown_field allowed object with
        | Some field => ConfigError (path +:+ "." +:+ field) "未知字段"
        | None => Ok object
        end
  end.

Definition ReadString (object : json) (key path : string) : expected string string :=
  match jfind object key with
  | None => ConfigError path "缺少必填字段"
  | Some value => if is_string value then Ok (get_string value) else ConfigError path "必须是字符串"
  end.

Definition ReadInteger (object : json) (key path : string) (minimum maximum : Z) :
    expected Z string :=
  match jfind object key with
  | None => ConfigError path "缺少必填字段"
  | Some value =>
      if negb (is_number_integer value) && negb (is_number_unsigned value) then
        ConfigError path "必须是整数"
      else if is_number_integer value && (get_i64 value <? 0) then
        ConfigError path "数值超出允许范围"
      else
        let number := get_u64 value in
        if (number <? minimum) || (maximum <? number) then ConfigError path "数值超出允许范围"
        else Ok number
  end.

Definition CheckRoot (root : json) : expected unit string :=
  if negb (is_object root) then ConfigError "配置" "顶层必须是对象"
  else
    match unknown_field ["database"; "mqtt"; "logging"; "queues"; "device_state"; "command"] root with
    | Some field => ConfigError field "未知字段"
    | None => Ok tt
    end.

(** ** Sections of the file *)
Definition database_fields : list string :=
  ["host"; "port"; "name"; "user"; "password"; "connect_timeout_seconds";
   "reconnect_interval_seconds"].

Definition ParseDatabase (root : json) : expected DatabaseConfig string :=
  let! object := ReadObject root "database" "database" database_fields in
  let! host := ReadString object "host" "database.host" in
  let! port := ReadInteger object "port" "database.port" 1 65535 in
  let! name := ReadString object "name" "database.name" in
  let! user := ReadString object "user" "database.user" in
  let! password := ReadString object "password" "database.password" in
  if str_empty password then ConfigError "database.password" "不能为空" else
  let! timeout := ReadInteger object "connect_timeout_seconds"
                    "database.connect_timeout_seconds" 1 60 in
  let! reconnect := ReadInteger object "reconnect_interval_seconds"
                      "database.reconnect_interval_seconds" 1 300 in
  Ok {| db_host := host; db_port := port; db_name := name; db_user := user;
        db_password := password; db_connect_timeout := timeout;
        db_reconnect_interval := reconnect |}.

(** [std::isspace] in the C locale. *)
Definition is_space (c : ascii) : bool := (code c =? 32) || in_range 9 13 c.

Definition IsValidTopicNamespace (value : string) : bool :=
  negb (str_empty value)
  && all_of (λ c, negb ((code c =? 0) || Ascii.eqb c "/" || Ascii.eqb c "+" || Ascii.eqb c "#"
                        || is_space c)) value.

Definition mqtt_fields : list string :=
  ["host"; "port"; "keepalive_seconds"; "client_id"; "username"; "password";
   "reconnect_delay_seconds"; "reconnect_delay_max_seconds"; "topic_namespace";
   "max_payload_bytes"].

Definition ParseMqtt (root : json) : expected MqttConfig string :=
  let! object := ReadObject root "mqtt" "mqtt" mqtt_fields in
  let! host := ReadString object "host" "mqtt.host" in
  let! port := ReadInteger object "port" "mqtt.port" 1 65535 in
  let! keepalive := ReadInteger object "keepalive_seconds" "mqtt.keepalive_seconds" 1 3600 in
  let! client_id := ReadString object "client_id" "mqtt.client_id" in
  if str_empty client_id then ConfigError "mqtt.client_id" "不能为空" else
  let! username := ReadString object "username" "mqtt.username" in
  let! password := ReadString object "password" "mqtt.password" in
  if str_empty username && negb (str_empty password) then
    ConfigError "mqtt.password" "用户名为空时密码也必须为空" else
  let! delay := ReadInteger object "reconnect_delay_seconds" "mqtt.reconnect_delay_seconds" 1 3600 in
  let! delay_max := ReadInteger object "reconnect_delay_max_seconds"
                      "mqtt.reconnect_delay_max_seconds" 1 3600 in
  if delay_max <? delay then
    ConfigError "mqtt.reconnect_delay_seconds" "不得大于 mqtt.reconnect_delay_max_seconds" else
  let! topic_namespace := ReadString object "topic_namespace" "mqtt.topic_namespace" in
  if negb (IsValidTopicNamespace topic_namespace) then
    ConfigError "mqtt.topic_namespace" "必须是单个非空合法 topic 段" else
  let! max_payload := ReadInteger object "max_payload_bytes" "mqtt.max_payload_bytes" 1024 1048576 in
  Ok {| mq_host := host; mq_port := port; mq_keepalive := keepalive; mq_client_id := client_id;
        mq_username := username; mq_password := password; mq_reconnect_delay := delay;
        mq_reconnect_delay_max := delay_max; mq_topic_namespace := topic_namespace;
        mq_max_payload_bytes := max_payload |}.

Definition ParseDeviceState (root : json) (keepalive : Z) : expected DeviceStateConfig string :=
  let! object := ReadObject root "device_state" "device_state"
                   ["telemetry_flush_interval_seconds"; "offline_timeout_seconds"] in
  let! flush := ReadInteger object "telemetry_flush_interval_seconds"
                  "device_state.telemetry_flush_interval_seconds" 1 60 in
  let! offline := ReadInteger object "offline_timeout_seconds"
                    "device_state.offline_timeout_seconds" 61 86400 in
  if offline <=? keepalive then
    ConfigError "device_state.offline_timeout_seconds" "必须严格大于 mqtt.keepalive_seconds" else
  Ok {| ds_telemetry_flush_interval := flush; ds_offline_timeout := offline |}.

Definition ParseLogging (root : json) : expected LoggingConfig string :=
  let! object := ReadObject root "logging" "logging" ["level"] in
  let! level := ReadString object "level" "logging.level" in
  match ParseLevel level with
  | None => ConfigError "logging.level" "只接受 debug、info、warn 或 error"
  | Some parsed => Ok {| lg_level := parsed |}
  end.

Definition ParseQueues (root : json) : expected QueueConfig string :=
  let! object := ReadObject root "queues" "queues" ["mqtt_inbound_capacity"] in
  let! capacity := ReadInteger object "mqtt_inbound_capacity" "queues.mqtt_inbound_capacity" 1 65536 in
  Ok {| qu_mqtt_inbound_capacity := capacity |}.

(** ** The command section *)
Definition IsValidSourceId (source_id : string) : bool :=
  if str_empty source_id || (64 <? String.length source_id)%nat then false
  else all_of (λ c, is_alnum c || Ascii.eqb c "." || Ascii.eqb c "_" || Ascii.eqb c "-") source_id.

Definition ParseFixedSource (source : json) (path : string) (source_ids : list string) :
    expected FixedSourceConfig string :=
  if negb (is_object source) then ConfigError path "必须是对象"
  else
    match unknown_field ["source_id"; "source_kind"] source with
    | Some field => ConfigError (path +:+ "." +:+ field) "未知字段"
    | None =>
        let! source_id := ReadString source "source_id" (path +:+ ".source_id") in
        if negb (IsValidSourceId source_id) then
          ConfigError (path +:+ ".source_id") "必须匹配[A-Za-z0-9._-]+且长度不超过64" else
        if existsb (String.eqb source_id) source_ids then
          ConfigError (path +:+ ".source_id") "source_id不得重复" else
        let! kind := ReadString source "source_kind" (path +:+ ".source_kind") in
        if String.eqb kind "host_app" then
          Ok {| fs_source_id := source_id; fs_source_kind := kHostApp |}
        else if String.eqb kind "control_center" then
          Ok {| fs_source_id := source_id; fs_source_kind := kControlCenter |}
        else ConfigError (path +:+ ".source_kind") "只接受host_app或control_center"
    end.

(** The loop over the sources; [source_ids] holds the identifiers inserted so far. *)
Fixpoint parse_sources (index : nat) (source_ids : list string) (sources : list json) :
    expected (list FixedSourceConfig) string :=
  match sources with
  | [] => Ok []
  | source :: rest =>
      let path := "command.fixed_sources[" +:+ dec (Z.of_nat index) +:+ "]" in
      let! parsed := ParseFixedSource source path source_ids in
      let! others := parse_sources (S index) (fs_source_id parsed :: source_ids) rest in
      Ok (parsed :: others)
  end.

Definition command_fields : list string :=
  ["config_timeout_seconds"; "control_timeout_seconds"; "terminal_retention_days";
   "cleanup_interval_seconds"; "cleanup_batch_size"; "max_inflight_commands"; "fixed_sources"].

Definition ParseCommand (root : json) : expected CommandConfig string :=
  let! object := ReadObject root "command" "command" command_fields in
  let! timeout := ReadInteger object "config_timeout_seconds" "command.config_timeout_seconds" 1 300 in
  let! control_timeout := ReadInteger object "control_timeout_seconds"
                            "command.control_timeout_seconds" 1 300 in
  let! retention := ReadInteger object "terminal_retention_days"
                      "command.terminal_retention_days" 1 3650 in
  let! cleanup_interval := ReadInteger object "cleanup_interval_seconds"
                             "command.cleanup_interval_seconds" 60 86400 in
  let! cleanup_batch := ReadInteger object "cleanup_batch_size" "command.cleanup_batch_size" 1 1000 in
  let! max_inflight := ReadInteger object "max_inflight_commands"
                         "command.max_inflight_commands" 1 4096 in
  match jfind object "fixed_sources" with
  | None => ConfigError "command.fixed_sources" "缺少必填字段"
  | Some sources =>
      if negb (is_array sources) then ConfigError "command.fixed_sources" "必须是数组"
      else
        let! parsed_sources := parse_sources 0 [] (jelements sources) in
        Ok {| cc_config_timeout := timeout; cc_control_timeout := control_timeout;
              cc_terminal_retention := retention; cc_cleanup_interval := cleanup_interval;
              cc_cleanup_batch_size := cleanup_batch; cc_max_inflight_commands := max_inflight;
              cc_fixed_sources := parsed_sources |}
  end.

(** ** LoadAppConfig

    [None] is a file that cannot be opened. *)
Definition LoadAppConfig `{JL : JsonLib} (file : option string) : expected AppConfig string :=
  match file with
  | None => ConfigError "配置文件" "无法打开"
  | Some contents =>
      match json_parse contents with
      | None => ConfigError "配置文件" "JSON 格式错误"
      | Some root =>
          let! checked := CheckRoot root in
          let! database := ParseDatabase root in
          let! mqtt := ParseMqtt root in
          let! logging := ParseLogging root in
          let! queues := ParseQueues root in
          let! device_state := ParseDeviceState root (mq_keepalive mqtt) in
          let! command := ParseCommand root in
          Ok {| ac_database := database; ac_mqtt := mqtt; ac_logging := logging;
                ac_queues := queues; ac_device_state := device_state; ac_command := command |}
      end
  end.

(** ** What a configuration guarantees *)
Definition sources_ok (l : list FixedSourceConfig) : Prop :=
  Forall (λ f, IsValidSourceId (fs_source_id f) = true) l ∧ NoDup (fs_source_id <$> l).

Record database_ok (c : DatabaseConfig) : Prop := {
  db_port_ok : 1 <= db_port c <= 65535;
  db_password_ok : str_empty (db_password c) = false;
  db_timeout_ok : 1 <= db_connect_timeout c <= 60;
  db_reconnect_ok : 1 <= db_reconnect_interval c <= 300
}.
Record mqtt_ok (c : MqttConfig) : Prop := {
  mq_port_ok : 1 <= mq_port c <= 65535;
  mq_keepalive_ok : 1 <= mq_keepalive c <= 3600;
  mq_client_ok : str_empty (mq_client_id c) = false;
  mq_password_ok : str_empty (mq_username c) = true → str_empty (mq_password c) = true;
  mq_delay_ok : 1 <= mq_reconnect_delay c <= mq_reconnect_delay_max c;
  mq_delay_max_ok : mq_reconnect_delay_max c <= 3600;
  mq_namespace_ok : IsValidTopicNamespace (mq_topic_namespace c) = true;
  mq_payload_ok : 1024 <= mq_max_payload_bytes c <= 1048576
}.
Record command_ok (c : CommandConfig) : Prop := {
  cc_config_ok : 1 <= cc_config_timeout c <= 300;
  cc_control_ok : 1 <= cc_control_timeout c <= 300;
  cc_retention_ok : 1 <= cc_terminal_retention c <= 3650;
  cc_interval_ok : 60 <= cc_cleanup_interval c <= 86400;
  cc_batch_ok : 1 <= cc_cleanup_batch_size c <= 1000;
  cc_inflight_ok : 1 <= cc_max_inflight_commands c <= 4096;
  cc_sources_ok : sources_ok (cc_fixed_sources c)
}.
Record config_ok (c : AppConfig) : Prop := {
  ok_database : database_ok (ac_database c);
  ok_mqtt : mqtt_ok (ac_mqtt c);
  ok_capacity : 1 <= qu_mqtt_inbound_capacity (ac_queues c) <= 65536;
  ok_flush : 1 <= ds_telemetry_flush_interval (ac_device_state c) <= 60;
  ok_offline : 61 <= ds_offline_timeout (ac_device_state c) <= 86400;
  ok_keepalive : mq_keepalive (ac_mqtt c) < ds_offline_timeout (ac_device_state c);
  ok_command : command_ok (ac_command c)
}.

(** ** What the readers guarantee *)
Lemma config_integer_range object key path lo hi n :
  ReadInteger object key path lo hi = Ok n → lo <= n <= hi.
Proof.
  unfold ReadInteger. intros H. repeat step_match; try done. bool_prop. lia.
Qed.

(** One reader of a chain. *)
Lemma let_inv {T U E} (e : expected T E) (k : T → expected U E) (u : U) :
  (let! x := e in k x) = Ok u → ∃ x, e = Ok x ∧ k x = Ok u.
Proof. destruct e as [x|]; [by exists x|done]. Qed.

Ltac read_chain H :=
  repeat first
    [ apply let_inv in H; let x := fresh "x" in let E := fresh "E" in destruct H as (x & E & H)
    | match type of H with
      | (if ?b then _ else _) = Ok _ => let B := fresh "B" in destruct b eqn:B; [discriminate H|]
      end ].

Lemma ParseDatabase_ok root c : ParseDatabase root = Ok c → database_ok c.
Proof.
  unfold ParseDatabase. intros H. read_chain H. injection H as <-.
  split; cbn; done || by eapply config_integer_range.
Qed.

Lemma ParseMqtt_ok root c : ParseMqtt root = Ok c → mqtt_ok c.
Proof.
  unfold ParseMqtt. intros H. read_chain H. injection H as <-.
  repeat match goal with E : ReadInteger _ _ _ _ _ = Ok _ |- _ => apply config_integer_range in E end.
  bool_prop. split; cbn; try done; try lia.
  intros Hu. unfold str_empty in B0. destruct B0 as [B0|B0]; [congruence|].
  by apply negb_false_iff in B0.
Qed.

Lemma ParseDeviceState_ok root keepalive c :
  ParseDeviceState root keepalive = Ok c →
  1 <= ds_telemetry_flush_interval c <= 60 ∧ 61 <= ds_offline_timeout c <= 86400 ∧
  keepalive < ds_offline_timeout c.
Proof.
  unfold ParseDeviceState. intros H. read_chain H. injection H as <-. cbn.
  repeat match goal with E : ReadInteger _ _ _ _ _ = Ok _ |- _ => apply config_integer_range in E end.
  bool_prop. lia.
Qed.

Lemma ParseFixedSource_ok source path ids f :
  ParseFixedSource source path ids = Ok f →
  IsValidSourceId (fs_source_id f) = true ∧ fs_source_id f ∉ ids.
Proof.
  unfold ParseFixedSource. intros H. destruct (negb (is_object source)); [done|].
  destruct (unknown_field _ _); [done|]. read_chain H.
  assert (fs_source_id f = x) as -> by (repeat case_match; by simplify_eq).
  bool_prop. split; [done|]. intros Hin.
  assert (existsb (String.eqb x) ids = true) as Ht.
  { apply existsb_exists. exists x. split; [by apply list_elem_of_In|apply String.eqb_refl]. }
  congruence.
Qed.

Lemma parse_sources_ok index ids l ss :
  parse_sources index ids l = Ok ss →
  sources_ok ss ∧ Forall (λ f, fs_source_id f ∉ ids) ss.
Proof.
  revert index ids ss. induction l as [|v l IH]; intros index ids ss H; cbn in H.
  - injection H as <-. repeat split; constructor.
  - read_chain H. injection H as <-.
    match goal with E : ParseFixedSource _ _ _ = Ok _ |- _ =>
      apply ParseFixedSource_ok in E as [Hv Hn] end.
    match goal with E : parse_sources _ _ _ = Ok _ |- _ => apply IH in E as [[H1 H2] H3] end.
    split; [split; [by constructor|]|constructor; [done|]].
    + cbn. constructor; [|done]. intros (f & Hf & Hin)%list_elem_of_fmap.
      rewrite Forall_forall in H3. specialize (H3 f Hin). set_solver.
    + eapply Forall_impl; [exact H3|]. set_solver.
Qed.

Lemma ParseCommand_ok root c : ParseCommand root = Ok c → command_ok c.
Proof.
  unfold ParseCommand. intros H. read_chain H.
  destruct (jfind _ "fixed_sources") as [v|]; [|done]. read_chain H. injection H as <-.
  match goal with E : parse_sources _ _ _ = Ok _ |- _ => apply parse_sources_ok in E as [? _] end.
  split; cbn; done || by eapply config_integer_range.
Qed.

(** C38: Every configuration that loads is within the bounds the rest of the program is written for:
    ports, intervals, capacities, name spaces and the identifiers of the fixed sources. *)
Theorem LoadAppConfig_bounds `{JL : JsonLib} file c : LoadAppConfig file = Ok c → config_ok c.
Proof.
  unfold LoadAppConfig. intros H. destruct file as [contents|]; [|done].
  destruct (json_parse contents) as [root|]; [|done]. read_chain H. injection H as <-.
  repeat match goal with
  | E : ParseDatabase _ = Ok _ |- _ => apply ParseDatabase_ok in E
  | E : ParseMqtt _ = Ok _ |- _ => apply ParseMqtt_ok in E
  | E : ParseDeviceState _ _ = Ok _ |- _ => apply ParseDeviceState_ok in E as (? & ? & ?)
  | E : ParseCommand _ = Ok _ |- _ => apply ParseCommand_ok in E
  | E : ParseQueues _ = Ok _ |- _ =>
      unfold ParseQueues in E; read_chain E; injection E as <-
  end.
  split; cbn; done || by eapply config_integer_range.
Qed.

(** ** Writing a configuration *)
Definition database_json (c : DatabaseConfig) : json :=
  jobject [("host", JString (db_host c)); ("port", JUInt (db_port c));
           ("name", JString (db_name c)); ("user", JString (db_user c));
           ("password", JString (db_password c));
           ("connect_timeout_seconds", JUInt (db_connect_timeout c));
           ("reconnect_interval_seconds", JUInt (db_reconnect_interval c))].

Definition mqtt_json (c : MqttConfig) : json :=
  jobject [("host", JString (mq_host c)); ("port", JUInt (mq_port c));
           ("keepalive_seconds", JUInt (mq_keepalive c));
           ("client_id", JString (mq_client_id c)); ("username", JString (mq_username c));
           ("password", JString (mq_password c));
           ("reconnect_delay_seconds", JUInt (mq_reconnect_delay c));
           ("reconnect_delay_max_seconds", JUInt (mq_reconnect_delay_max c));
           ("topic_namespace", JString (mq_topic_namespace c));
           ("max_payload_bytes", JUInt (mq_max_payload_bytes c))].

Definition level_text (level : Level) : string :=
  match level with
  | kDebug => "debug" | kInfo => "info" | kWarn => "warn" | Logger.kError => "error"
  end.

Definition source_json (f : FixedSourceConfig) : json :=
  jobject [("source_id", JString (fs_source_id f));
           ("source_kind", JString (match fs_source_kind f with
                                    | kHostApp => "host_app"
                                    | kControlCenter => "control_center"
                                    end))].

Definition command_json (c : CommandConfig) : json :=
  jobject [("config_timeout_seconds", JUInt (cc_config_timeout c));
           ("control_timeout_seconds", JUInt (cc_control_timeout c));
           ("terminal_retention_days", JUInt (cc_terminal_retention c));
           ("cleanup_interval_seconds", JUInt (cc_cleanup_interval c));
           ("cleanup_batch_size", JUInt (cc_cleanup_batch_size c));
           ("max_inflight_commands", JUInt (cc_max_inflight_commands c));
           ("fixed_sources", JArray (source_json <$> cc_fixed_sources c))].

Definition config_json (c : AppConfig) : json :=
  jobject [("database", database_json (ac_database c)); ("mqtt", mqtt_json (ac_mqtt c));
           ("logging", jobject [("level", JString (level_text (lg_level (ac_logging c))))]);
           ("queues", jobject [("mqtt_inbound_capacity",
                                JUInt (qu_mqtt_inbound_capacity (ac_queues c)))]);
           ("device_state",
            jobject [("telemetry_flush_interval_seconds",
                      JUInt (ds_telemetry_flush_interval (ac_device_state c)));
                     ("offline_timeout_seconds",
                      JUInt (ds_offline_timeout (ac_device_state c)))]);
           ("command", command_json (ac_command c))].

(** ** What is written is read back *)
Lemma ReadInteger_uint object key path lo hi n :
  jfind object key = Some (JUInt n) → 0 <= lo → hi < 2 ^ 63 → lo <= n <= hi →
  ReadInteger object key path lo hi = Ok n.
Proof.
  intros Hf Hlo Hhi Hn. unfold ReadInteger. rewrite Hf. cbn.
  assert (i64 n = n) as -> by (unfold i64, two64; rewrite Z.mod_small; lia).
  destruct (Z.ltb_spec n 0); [lia|]. destruct (Z.ltb_spec n lo); [lia|].
  destruct (Z.ltb_spec hi n); [lia|done].
Qed.

Lemma ReadObject_found parent key path allowed object :
  jfind parent key = Some object → is_object object = true →
  unknown_field allowed object = None → ReadObject parent key path allowed = Ok object.
Proof. unfold ReadObject. by intros -> -> ->. Qed.

#[local] Ltac read_int := erewrite ReadInteger_uint; [|reflexivity|lia|lia|lia]; cbv beta iota.
#[local] Ltac read_text key value :=
  match goal with |- context [ReadString ?o key ?p] =>
    change (ReadString o key p) with (Ok (E := string) value) end;
  cbv beta iota.

Lemma ParseDatabase_written root c :
  database_ok c → jfind root "database" = Some (database_json c) → ParseDatabase root = Ok c.
Proof.
  intros [] H. unfold ParseDatabase. rewrite (ReadObject_found _ _ _ _ _ H) by reflexivity. cbv beta iota.
  read_text "host" (db_host c). read_int. read_text "name" (db_name c).
  read_text "user" (db_user c). read_text "password" (db_password c).
  rewrite db_password_ok0. do 2 read_int. by destruct c.
Qed.

Lemma ParseMqtt_written root c :
  mqtt_ok c → jfind root "mqtt" = Some (mqtt_json c) → ParseMqtt root = Ok c.
Proof.
  intros [] H. unfold ParseMqtt. rewrite (ReadObject_found _ _ _ _ _ H) by reflexivity. cbv beta iota.
  read_text "host" (mq_host c). do 2 read_int. read_text "client_id" (mq_client_id c).
  rewrite mq_client_ok0. read_text "username" (mq_username c).
  read_text "password" (mq_password c).
  replace (str_empty (mq_username c) && negb (str_empty (mq_password c))) with false
    by (destruct (str_empty (mq_username c)); [by rewrite mq_password_ok0|done]).
  do 2 read_int. destruct (Z.ltb_spec (mq_reconnect_delay_max c) (mq_reconnect_delay c)); [lia|].
  read_text "topic_namespace" (mq_topic_namespace c). rewrite mq_namespace_ok0. cbn [negb].
  read_int. by destruct c.
Qed.

Lemma ParseFixedSource_written f path ids :
  IsValidSourceId (fs_source_id f) = true → fs_source_id f ∉ ids →
  ParseFixedSource (source_json f) path ids = Ok f.
Proof.
  intros Hv Hn. unfold ParseFixedSource. change (is_object (source_json f)) with true. cbn [negb].
  change (unknown_field ["source_id"; "source_kind"] (source_json f)) with (@None string).
  read_text "source_id" (fs_source_id f). rewrite Hv. cbn [negb].
  replace (existsb (String.eqb (fs_source_id f)) ids) with false; cycle 1.
  { symmetry. apply not_true_iff_false. intros (x & Hin & <-%String.eqb_eq)%existsb_exists.
    by apply list_elem_of_In in Hin. }
  by destruct f as [id []].
Qed.

Lemma parse_sources_written index ids l :
  sources_ok l → Forall (λ f, fs_source_id f ∉ ids) l →
  parse_sources index ids (source_json <$> l) = Ok l.
Proof.
  revert index ids. induction l as [|f l IH]; intros index ids [Hv Hd] Hn; [done|].
  cbn [fmap list_fmap parse_sources]. apply Forall_cons in Hv as [Hf Hv].
  apply Forall_cons in Hn as [Hnf Hn]. cbn in Hd. apply NoDup_cons in Hd as [Hin Hd].
  rewrite ParseFixedSource_written by done. rewrite IH; [done|by split|].
  apply Forall_forall. intros g Hg [E|Hi]%elem_of_cons.
  - apply Hin. rewrite <- E. by apply list_elem_of_fmap_2.
  - rewrite Forall_forall in Hn. by apply (Hn g).
Qed.

Lemma ParseCommand_written root c :
  command_ok c → jfind root "command" = Some (command_json c) → ParseCommand root = Ok c.
Proof.
  intros [] H. unfold ParseCommand. rewrite (ReadObject_found _ _ _ _ _ H) by reflexivity. cbv beta iota.
  do 6 read_int.
  change (jfind (command_json c) "fixed_sources")
    with (Some (JArray (source_json <$> cc_fixed_sources c))). cbn [is_array negb jelements].
  rewrite parse_sources_written; [by destruct c|done|]. apply Forall_forall. set_solver.
Qed.

(** A configuration within the bounds, written as JSON, loads as it was. *)
Theorem LoadAppConfig_roundtrip `{JL : JsonLib} contents c :
  json_parse contents = Some (config_json c) → config_ok c →
  LoadAppConfig (Some contents) = Ok c.
Proof.
  intros Hp []. unfold LoadAppConfig. rewrite Hp.
  change (CheckRoot (config_json c)) with (Ok (E := string) tt).
  rewrite (ParseDatabase_written _ (ac_database c)) by done.
  rewrite (ParseMqtt_written _ (ac_mqtt c)) by done.
  assert (ParseLogging (config_json c) = Ok (ac_logging c)) as ->
    by (destruct c as [d m [[]] q s k]; reflexivity).
  assert (ParseQueues (config_json c) = Ok (ac_queues c)) as ->.
  { unfold ParseQueues. erewrite ReadObject_found; [|reflexivity..]. cbv beta iota. read_int.
    by destruct (ac_queues c). }
  assert (ParseDeviceState (config_json c) (mq_keepalive (ac_mqtt c)) = Ok (ac_device_state c)) as ->.
  { unfold ParseDeviceState. erewrite ReadObject_found; [|reflexivity..]. cbv beta iota.
    do 2 read_int.
    destruct (Z.leb_spec (ds_offline_timeout (ac_device_state c)) (mq_keepalive (ac_mqtt c))); [lia|].
    by destruct (ac_device_state c). }
  rewrite (ParseCommand_written _ (ac_command c)) by done. by destruct c.
Qed.

(** A configured source may send requests: its identifier is one the request topics take. *)
Lemma configured_source_addressable id :
  IsValidSourceId id = SourceRequest.IsValidSourceId id.
Proof.
  unfold IsValidSourceId, SourceRequest.IsValidSourceId. destruct (str_empty id); [done|].
  cbn [orb negb andb]. destruct (Nat.ltb_spec 64 (String.length id)), (Nat.leb_spec (String.length id) 64);
    try lia; done.
Qed.

(** ** A configuration *)
Definition sample_config : AppConfig :=
  {| ac_database := {| db_host := "127.0.0.1"; db_port := 5432; db_name := "cns";
                       db_user := "cns"; db_password := "secret"; db_connect_timeout := 5;
                       db_reconnect_interval := 5 |};
     ac_mqtt := {| mq_host := "127.0.0.1"; mq_port := 1883; mq_keepalive := 30;
                   mq_client_id := "route_service"; mq_username := ""; mq_password := "";
                   mq_reconnect_delay := 1; mq_reconnect_delay_max := 30;
                   mq_topic_namespace := "cns"; mq_max_payload_bytes := 262144 |};
     ac_logging := {| lg_level := kInfo |};
     ac_queues := {| qu_mqtt_inbound_capacity := 1024 |};
     ac_device_state := {| ds_telemetry_flush_interval := 5; ds_offline_timeout := 90 |};
     ac_command := {| cc_config_timeout := 15; cc_control_timeout := 30;
                      cc_terminal_retention := 30; cc_cleanup_interval := 3600;
                      cc_cleanup_batch_size := 100; cc_max_inflight_commands := 256;
                      cc_fixed_sources :=
                        [{| fs_source_id := "app"; fs_source_kind := kHostApp |};
                         {| fs_source_id := "center"; fs_source_kind := kControlCenter |}] |} |}.

Definition sample_file : string := codec_dump (config_json sample_config).

Lemma sample_config_ok : config_ok sample_config.
Proof.
  split; try (cbn; lia).
  - split; cbn; done || lia.
  - split; cbn; done || lia.
  - split; try (cbn; lia). split; [by repeat constructor|].
    apply (bool_decide_unpack _). vm_compute. exact I.
Qed.

Lemma LoadAppConfig_roundtrip_witness :
  LoadAppConfig (JL := codec_lib) (Some sample_file) = Ok sample_config.
Proof.
  apply (LoadAppConfig_roundtrip (JL := codec_lib) sample_file sample_config);
    [vm_compute; reflexivity|exact sample_config_ok].
Defined.

Lemma LoadAppConfig_bounds_witness :
  match LoadAppConfig (JL := codec_lib) (Some sample_file) with
  | Ok c => config_ok c
  | Unexpected _ => False
  end.
Proof.
  destruct (LoadAppConfig (JL := codec_lib) (Some sample_file)) as [c|] eqn:E.
  - exact (LoadAppConfig_bounds (JL := codec_lib) (Some sample_file) c E).
  - revert E. vm_compute. discriminate.
Defined.
