(* ===== verification/CommandPolicy.v ===== *)
(** * CommandPolicy: src/route_service/src/core/command/config_policy.cpp, control_policy.cpp

    The commands sent to devices and the strict parsers of their
    acknowledgements. *)

From Stdlib Require Import Ascii ZArith Lia.
From S2P Require Import Prelude Json CommandTypes SourceRequest.
From stdpp Require Import options.

(** ** Messages to devices *)
Definition set_optional (values : json) (key : string) (o : option Z) : json :=
  match o with Some z => jset values key (JUInt z) | None => values end.

Definition BuildDeviceConfigSet (command_id : string) (parameters : ConfigParameters) : json :=
  let values := JObject [] in
  let values := set_optional values "telemetry_publish_interval_ms"
                  (telemetry_publish_interval_ms parameters) in
  let values := set_optional values "heartbeat_interval_ms"
                  (heartbeat_interval_ms parameters) in
  let values := set_optional values "mqtt_reconnect_delay_s"
                  (mqtt_reconnect_delay_s parameters) in
  let values := set_optional values "mqtt_reconnect_delay_max_s"
                  (mqtt_reconnect_delay_max_s parameters) in
  jobject [("command_id", JString command_id); ("parameters", values)].

Definition BuildDeviceControlSet (command_id : string) (command : ControlCommand)
    (parameters : ControlParameters) : json :=
  let values := match pwm_us parameters with
                | Some pwm => jset (JObject []) "pwm_us" (JArray (JUInt <$> pwm))
                | None => JObject []
                end in
  jobject [("command_id", JString command_id); ("command", JString (CommandText command));
           ("parameters", values)].

Definition ExpectedMavlinkCommand (command : ControlCommand) : Z :=
  match command with
  | kSetMotorPwm => 31013
  | kEmergencyStop => 31090
  | kTakeoff => 31091
  | kLand => 31092
  end.

(** ** Reading acknowledgements *)
Definition ParseCommandText (text : string) : option ControlCommand :=
  if String.eqb text "set_motor_pwm" then Some kSetMotorPwm
  else if String.eqb text "emergency_stop" then Some kEmergencyStop
  else if String.eqb text "takeoff" then Some kTakeoff
  else if String.eqb text "land" then Some kLand
  else None.

(** [ReadInteger<Integer>]; [cast] is the conversion to [Integer].  The result is
    the reading and the new value of [valid]. *)
Definition ReadInteger (cast : Z → Z) (root : json) (field : string) (minimum maximum : Z)
    (valid : bool) : option Z * bool :=
  match jfind root field with
  | None => (None, valid)
  | Some value =>
      if negb (is_number_integer value) && negb (is_number_unsigned value) then (None, false)
      else if is_number_integer value then
        let number := get_i64 value in
        if (number <? minimum) || ((0 <=? number) && (maximum <? number)) then (None, false)
        else (Some (cast number), valid)
      else
        let number := get_u64 value in
        if (0 <? minimum) && (number <? minimum) then (None, false)
        else if maximum <? number then (None, false)
        else (Some (cast number), valid)
  end.

Definition u8 (z : Z) : Z := z mod 2 ^ 8.
Definition u16 (z : Z) : Z := z mod 2 ^ 16.
Definition i32 (z : Z) : Z := (z + 2 ^ 31) mod 2 ^ 32 - 2 ^ 31.

Definition ReadString (root : json) (field : string) (valid : bool) : option string * bool :=
  match jfind root field with
  | None => (None, valid)
  | Some (JString s) => (Some s, valid)
  | Some _ => (None, false)
  end.

Definition ResultCode (result : Z) : string :=
  if result =? 0 then "accepted"
  else if result =? 1 then "temporarily_rejected"
  else if result =? 2 then "denied"
  else if result =? 3 then "unsupported"
  else if result =? 4 then "failed"
  else if result =? 5 then "in_progress"
  else if result =? 6 then "cancelled"
  else "unknown_result".

(** [root.contains("message") && !root.at("message").is_string()] *)
Definition bad_message (root : json) : bool :=
  match jfind root "message" with Some v => negb (is_string v) | None => false end.

(** [command_id] of an acknowledgement. *)
Definition ack_command_id (root : json) : option string :=
  match string_field root "command_id" with
  | Some id => if IsUuidV4Shape id then Some id else None
  | None => None
  end.

Definition is_value {A} `{EqDecision A} (o : option A) (v : A) : bool := bool_decide (o = Some v).
Definition present {A} (o : option A) : bool := match o with Some _ => true | None => false end.

(** The combinations of fields each status admits; the error is the first check
    that fails. *)
Definition check_accepted (mavlink result progress param2 : option Z)
    (result_code error_code : option string) : option string :=
  if negb (present mavlink) || negb (is_value result 0) || negb (is_value result_code "accepted")
     || present progress || present param2 || present error_code
  then Some "accepted ACK字段组合非法" else None.

Definition check_in_progress (mavlink result progress param2 : option Z)
    (result_code error_code : option string) : option string :=
  if negb (present mavlink) || present error_code then Some "in_progress ACK字段组合非法"
  else if is_value result_code "pending" then
    if present result || present progress || present param2
    then Some "pending ACK字段组合非法" else None
  else if negb (is_value result 5) || negb (is_value result_code "in_progress")
          || negb (present progress) || negb (present param2)
          || match progress with Some p => (100 <? p) && negb (p =? 255) | None => false end
  then Some "MAVLink进度ACK字段组合非法" else None.

Definition check_rejected (mavlink result progress param2 : option Z)
    (result_code error_code : option string) : option string :=
  if present mavlink || present result || present result_code then
    match mavlink, result, result_code with
    | Some _, Some r, Some code =>
        if present error_code || present progress || present param2 || (r =? 0) || (r =? 5)
           || negb (String.eqb code (ResultCode r))
        then Some "MAVLink拒绝ACK字段组合非法" else None
    | _, _, _ => Some "MAVLink拒绝ACK字段组合非法"
    end
  else if negb (present error_code) then Some "本地拒绝ACK缺少error_code" else None.

Definition check_timeout (result progress param2 : option Z)
    (result_code error_code : option string) : option string :=
  if negb (present error_code) || present result || present result_code || present progress
     || present param2
  then Some "timeout ACK字段组合非法" else None.

Definition check_control_status (status : string) (mavlink result progress param2 : option Z)
    (result_code error_code : option string) : option string :=
  if String.eqb status "accepted" then
    check_accepted mavlink result progress param2 result_code error_code
  else if String.eqb status "in_progress" then
    check_in_progress mavlink result progress param2 result_code error_code
  else if String.eqb status "rejected" then
    check_rejected mavlink result progress param2 result_code error_code
  else check_timeout result progress param2 result_code error_code.

Section Acks.
Context `{JL : JsonLib}.

Definition ParseDeviceConfigAck (payload : string) : expected DeviceConfigAck ProtocolError :=
  match json_parse payload with
  | None => Unexpected (Error "invalid_json" "设备配置ACK不是合法JSON")
  | Some root =>
      if negb (is_object root) then
        Unexpected (Error "invalid_json" "设备配置ACK必须是JSON对象")
      else
        match ack_command_id root with
        | None => Unexpected (Error "invalid_command_id" "command_id缺失或非法")
        | Some command_id =>
            match string_field root "status" with
            | None => Unexpected (Error "invalid_ack" "status缺失或非法")
            | Some status =>
                guard! String.eqb status "applied" || String.eqb status "already_applied"
                       || String.eqb status "rejected"
                  else (Error "invalid_ack" "设备配置ACK状态非法") in
                match jfind root "restart_required" with
                | Some (JBool restart_required) =>
                    let! error_code :=
                      (if String.eqb status "rejected" then
                         match string_field root "error_code" with
                         | Some code =>
                             if IsValidErrorCode code then Ok (Some code)
                             else Unexpected (Error "invalid_ack" "rejected ACK缺少合法error_code")
                         | None => Unexpected (Error "invalid_ack" "rejected ACK缺少合法error_code")
                         end
                       else
                         match jfind root "error_code" with
                         | None | Some JNull => Ok None
                         | Some _ => Unexpected (Error "invalid_ack" "成功ACK不得包含error_code")
                         end) in
                    guard! negb (bad_message root)
                      else (Error "invalid_ack" "message类型非法") in
                    Ok {| fa_command_id := command_id; fa_business_status := status;
                          fa_restart_required := restart_required;
                          fa_error_code := error_code; fa_raw := root |}
                | _ => Unexpected (Error "invalid_ack" "restart_required缺失或非法")
                end
            end
        end
  end.

Definition ParseDeviceControlAck (payload : string) : expected DeviceControlAck ProtocolError :=
  match json_parse payload with
  | None => Unexpected (Error "invalid_json" "设备飞控ACK不是合法JSON")
  | Some root =>
      if negb (is_object root) then
        Unexpected (Error "invalid_json" "设备飞控ACK必须是JSON对象")
      else
        match ack_command_id root, string_field root "command" with
        | None, _ => Unexpected (Error "invalid_command_id" "command_id缺失或非法")
        | _, None => Unexpected (Error "invalid_ack" "command缺失或非法")
        | Some command_id, Some command_text =>
            match ParseCommandText command_text, string_field root "status" with
            | None, _ => Unexpected (Error "invalid_ack" "command不受支持")
            | _, None => Unexpected (Error "invalid_ack" "status缺失或非法")
            | Some command, Some status =>
                guard! String.eqb status "accepted" || String.eqb status "in_progress"
                       || String.eqb status "rejected" || String.eqb status "timeout"
                  else (Error "invalid_ack" "设备飞控ACK状态非法") in
                let (mavlink_command, valid) :=
                  ReadInteger u16 root "mavlink_command" 0 65535 true in
                let (result, valid) := ReadInteger u8 root "result" 0 255 valid in
                let (result_code, valid) := ReadString root "result_code" valid in
                let (progress, valid) := ReadInteger u8 root "progress" 0 255 valid in
                let (result_param2, valid) :=
                  ReadInteger i32 root "result_param2" (- 2 ^ 31) (2 ^ 31 - 1) valid in
                let (error_code, valid) := ReadString root "error_code" valid in
                guard! valid && negb (bad_message root)
                  else (Error "invalid_ack" "设备飞控ACK字段类型非法") in
                guard! match mavlink_command with
                       | Some m => m =? ExpectedMavlinkCommand command
                       | None => true
                       end
                  else (Error "invalid_ack" "mavlink_command与command不匹配") in
                guard! match error_code with Some c => IsValidErrorCode c | None => true end
                  else (Error "invalid_ack" "error_code非法") in
                match check_control_status status mavlink_command result progress result_param2
                        result_code error_code with
                | Some message => Unexpected (Error "invalid_ack" message)
                | None =>
                    Ok {| ca_command_id := command_id; ca_command := command;
                          ca_business_status := status; ca_mavlink_command := mavlink_command;
                          ca_result := result; ca_result_code := result_code;
                          ca_progress := progress; ca_result_param2 := result_param2;
                          ca_error_code := error_code; ca_raw := root |}
                end
            end
        end
  end.
End Acks.

(** ** What devices are told *)
Lemma config_values p :
  jfind (BuildDeviceConfigSet "" p) "parameters" = Some (parameters_json p).
Proof. by destruct p as [[a|] [b|] [c|] [d|]]. Qed.

Lemma control_values c p :
  jfind (BuildDeviceControlSet "" c p) "parameters" = Some (control_parameters_json p).
Proof. by destruct p as [[l|]]. Qed.

(** What is sent to a device for a valid request reads back, with the parsers of the protocol,
    as the same command identifier, command and parameters. *)
Theorem device_set_roundtrip id p c q :
  parameters_ok p → control_ok c q →
  jfind (BuildDeviceConfigSet id p) "command_id" = Some (JString id) ∧
  (v ← jfind (BuildDeviceConfigSet id p) "parameters"; Some (ParseParameters v)) = Some (Ok p) ∧
  jfind (BuildDeviceControlSet id c q) "command_id" = Some (JString id) ∧
  ParseControlCommand (BuildDeviceControlSet id c q) = Ok c ∧
  (v ← jfind (BuildDeviceControlSet id c q) "parameters"; Some (ParseControlParameters v c))
    = Some (Ok q).
Proof.
  intros Hp Hq. split; [done|].
  assert (jfind (BuildDeviceConfigSet id p) "parameters" = Some (parameters_json p)) as ->
    by apply config_values.
  assert (jfind (BuildDeviceControlSet id c q) "parameters" = Some (control_parameters_json q))
    as -> by apply (control_values c).
  cbn [mbind option_bind]. rewrite ParseParameters_json, ParseControlParameters_json by done.
  do 2 (split; [done|]). split; [|done]. by apply ParseControlCommand_text.
Qed.

(** ** What devices answer *)
Section AckTheorems.
Context `{JL : JsonLib}.

Lemma ack_command_id_Some root id :
  ack_command_id root = Some id ↔
  jfind root "command_id" = Some (JString id) ∧ IsUuidV4Shape id = true.
Proof.
  unfold ack_command_id. split.
  - destruct (string_field root "command_id") as [s|] eqn:E; [|done].
    apply string_field_Some in E. destruct (IsUuidV4Shape s) eqn:Ei; [|done]. by intros [= <-].
  - intros [E Hi]. apply string_field_Some in E. by rewrite E, Hi.
Qed.

(** The configuration acknowledgement [a] is the reading of its payload. *)
Definition config_ack_ok (a : DeviceConfigAck) : Prop :=
  let root := fa_raw a in
  is_object root = true ∧
  jfind root "command_id" = Some (JString (fa_command_id a)) ∧
  IsUuidV4Shape (fa_command_id a) = true ∧
  jfind root "status" = Some (JString (fa_business_status a)) ∧
  jfind root "restart_required" = Some (JBool (fa_restart_required a)) ∧
  bad_message root = false ∧
  ((fa_business_status a = "rejected" ∧
      ∃ code, fa_error_code a = Some code ∧ jfind root "error_code" = Some (JString code) ∧
              IsValidErrorCode code = true) ∨
   ((fa_business_status a = "applied" ∨ fa_business_status a = "already_applied") ∧
      fa_error_code a = None ∧
      (jfind root "error_code" = None ∨ jfind root "error_code" = Some JNull))).

(** C34: A payload parses to a configuration acknowledgement exactly when it is the JSON of that
    acknowledgement and meets the protocol: an object with a command identifier that is a UUID v4,
    a known status, the flag of a restart, an error code that is valid exactly with the status
    rejected and absent or null otherwise, and a message that is a text where there is one. *)
Theorem ParseDeviceConfigAck_spec payload a :
  ParseDeviceConfigAck payload = Ok a ↔ json_parse payload = Some (fa_raw a) ∧ config_ack_ok a.
Proof.
  unfold ParseDeviceConfigAck, config_ack_ok. split.
  - intros H. destruct (json_parse payload) as [root|]; [|done].
    destruct (is_object root) eqn:Eo; cbn [negb] in H; [|done].
    destruct (ack_command_id root) as [id|] eqn:Ei; [|done]. apply ack_command_id_Some in Ei as [Ei Hi].
    destruct (string_field root "status") as [st|] eqn:Es; [|done]. apply string_field_Some in Es.
    destruct (_ || _) eqn:Est; [|done].
    destruct (jfind root "restart_required") as [[|b| | | | | |]|] eqn:Er; try done.
    destruct (String.eqb st "rejected") eqn:Erj.
    + destruct (string_field root "error_code") as [code|] eqn:Ec; [|done].
      apply string_field_Some in Ec. destruct (IsValidErrorCode code) eqn:Ev; [|done].
      destruct (bad_message root) eqn:Em; [done|]. injection H as <-. cbn. bool_prop. subst.
      split; [done|]. repeat (split; [done|]). left. eauto.
    + rewrite orb_false_r in Est. destruct (jfind root "error_code") as [[]|] eqn:Ec; try done;
        destruct (bad_message root) eqn:Em; try done; injection H as <-; cbn;
        (split; [done|]); repeat (split; [done|]); right;
        apply orb_true_iff in Est as [E|E]; apply String.eqb_eq in E; subst; eauto.
  - intros (-> & Ho & Hid & Hi & Hs & Hr & Hm & Hc). rewrite Ho. cbn [negb].
    rewrite (proj2 (ack_command_id_Some _ _) (conj Hid Hi)).
    rewrite (proj2 (string_field_Some _ _ _) Hs), Hr, Hm. cbn [negb].
    destruct a as [id st b ec root]. cbn in *.
    destruct Hc as [(-> & code & -> & Hc & Hv)|(Hst & -> & Hc)].
    + cbn. by rewrite (proj2 (string_field_Some _ _ _) Hc), Hv.
    + destruct Hst as [-> | ->]; cbn; by destruct Hc as [-> | ->].
Qed.

(** The combinations of fields a control acknowledgement may have. *)
Inductive control_ack_shape (a : DeviceControlAck) : Prop :=
| ack_accepted :
    ca_business_status a = "accepted" →
    ca_mavlink_command a = Some (ExpectedMavlinkCommand (ca_command a)) →
    ca_result a = Some 0 → ca_result_code a = Some "accepted" →
    ca_progress a = None → ca_result_param2 a = None → ca_error_code a = None →
    control_ack_shape a
| ack_pending :
    ca_business_status a = "in_progress" →
    ca_mavlink_command a = Some (ExpectedMavlinkCommand (ca_command a)) →
    ca_result a = None → ca_result_code a = Some "pending" →
    ca_progress a = None → ca_result_param2 a = None → ca_error_code a = None →
    control_ack_shape a
| ack_progress p param2 :
    ca_business_status a = "in_progress" →
    ca_mavlink_command a = Some (ExpectedMavlinkCommand (ca_command a)) →
    ca_result a = Some 5 → ca_result_code a = Some "in_progress" →
    ca_progress a = Some p → (0 <= p <= 100 ∨ p = 255) →
    ca_result_param2 a = Some param2 → ca_error_code a = None →
    control_ack_shape a
| ack_vehicle_rejected r :
    ca_business_status a = "rejected" →
    ca_mavlink_command a = Some (ExpectedMavlinkCommand (ca_command a)) →
    ca_result a = Some r → r ≠ 0 → r ≠ 5 → 0 <= r <= 255 →
    ca_result_code a = Some (ResultCode r) →
    ca_progress a = None → ca_result_param2 a = None → ca_error_code a = None →
    control_ack_shape a
| ack_local_rejected code :
    ca_business_status a = "rejected" →
    ca_mavlink_command a = None → ca_result a = None → ca_result_code a = None →
    ca_error_code a = Some code → IsValidErrorCode code = true →
    control_ack_shape a
| ack_timeout code :
    ca_business_status a = "timeout" →
    ca_result a = None → ca_result_code a = None → ca_progress a = None →
    ca_result_param2 a = None →
    ca_error_code a = Some code → IsValidErrorCode code = true →
    control_ack_shape a.

Lemma ReadInteger_range cast root field lo hi valid o :
  0 <= lo → hi < 2 ^ 63 → (∀ z, lo <= z <= hi → cast z = z) →
  ReadInteger cast root field lo hi valid = (o, true) → valid = true ∧ within o lo hi.
Proof.
  unfold ReadInteger. intros Hlo Hhi Hc. destruct (jfind root field) as [v|]; [|by intros [= <- <-]].
  destruct (_ && _) eqn:E0; [done|]. destruct (is_number_integer v) eqn:Ei.
  - destruct (_ || _) eqn:E; [done|]. intros [= <- <-]. split; [done|]. cbn. 
    apply orb_false_iff in E as [E1 E2]. apply Z.ltb_ge in E1.
    apply andb_false_iff in E2 as [E2|E2]; [apply Z.leb_gt in E2; lia|].
    apply Z.ltb_ge in E2. rewrite Hc; lia.
  - exfalso. by destruct v.
Qed.

Lemma ReadString_valid root field valid o :
  ReadString root field valid = (o, true) → valid = true.
Proof. unfold ReadString. destruct (jfind root field) as [[]|]; by intros [= <- <-]. Qed.

Lemma ReadInteger_valid cast root field lo hi valid o :
  ReadInteger cast root field lo hi valid = (o, true) → valid = true.
Proof.
  unfold ReadInteger. destruct (jfind root field) as [v|]; [|by intros [= <- <-]].
  repeat case_match; by intros [= <- <-].
Qed.

Lemma ParseCommandText_Some text c : ParseCommandText text = Some c ↔ text = CommandText c.
Proof.
  unfold ParseCommandText. split; [|intros ->; by destruct c]. intros H.
  repeat (destruct (String.eqb text _) eqn:E;
    [apply String.eqb_eq in E; subst; by injection H as <-|clear E]). done.
Qed.

Lemma is_value_true {A} `{EqDecision A} (o : option A) v : is_value o v = true ↔ o = Some v.
Proof. unfold is_value. apply bool_decide_eq_true. Qed.
Lemma present_false {A} (o : option A) : present o = false ↔ o = None.
Proof. by destruct o. Qed.
Lemma present_true {A} (o : option A) : present o = true ↔ ∃ v, o = Some v.
Proof. destruct o; cbn; split; [eauto|done|done|by intros [? ?]]. Qed.

Ltac ack_bools :=
  repeat match goal with
  | H : _ || _ = false |- _ => apply orb_false_iff in H; destruct H
  | H : negb _ = false |- _ => apply negb_false_iff in H
  | H : negb _ = true |- _ => apply negb_true_iff in H
  | H : is_value _ _ = true |- _ => apply is_value_true in H; subst
  | H : present _ = false |- _ => apply present_false in H; subst
  | H : present _ = true |- _ => apply present_true in H as [? ?]; subst
  | H : String.eqb _ _ = true |- _ => apply String.eqb_eq in H; subst
  | H : (_ =? _) = false |- _ => apply Z.eqb_neq in H
  | H : (_ =? _) = true |- _ => apply Z.eqb_eq in H; subst
  end.

(** The check at the head of the goal did not fail. *)
Ltac guard_case E :=
  match goal with |- (if ?b then Some _ else _) = None → _ => destruct b eqn:E; [done|] end.

(** The checks admit only the listed combinations. *)
Lemma check_control_status_sound a :
  match ca_mavlink_command a with
  | Some m => m =? ExpectedMavlinkCommand (ca_command a) | None => true end = true →
  match ca_error_code a with Some c => IsValidErrorCode c | None => true end = true →
  within (ca_result a) 0 255 → within (ca_progress a) 0 255 →
  String.eqb (ca_business_status a) "accepted" || String.eqb (ca_business_status a) "in_progress"
    || String.eqb (ca_business_status a) "rejected"
    || String.eqb (ca_business_status a) "timeout" = true →
  check_control_status (ca_business_status a) (ca_mavlink_command a) (ca_result a) (ca_progress a)
    (ca_result_param2 a) (ca_result_code a) (ca_error_code a) = None →
  control_ack_shape a.
Proof.
  destruct a as [id c st m r rc pr p2 ec raw]. cbn. intros Hm Hec Hr Hp Hst.
  rewrite <- !orb_assoc in Hst.
  assert (st = "accepted" ∨ st = "in_progress" ∨ st = "rejected" ∨ st = "timeout") as Hst'
    by (rewrite !orb_true_iff, !String.eqb_eq in Hst; done).
  clear Hst.
  unfold check_control_status.
  destruct (String.eqb st "accepted") eqn:E1; [|destruct (String.eqb st "in_progress") eqn:E2;
    [|destruct (String.eqb st "rejected") eqn:E3]].
  - unfold check_accepted. guard_case E. intros _; ack_bools; cbn in *; ack_bools. by apply ack_accepted.
  - unfold check_in_progress. guard_case E.
    destruct (is_value rc "pending") eqn:Ep.
    + guard_case E'. intros _; ack_bools; cbn in *; ack_bools. by apply ack_pending.
    + guard_case E'. intros _; ack_bools; cbn in *; ack_bools.
      match goal with H : (100 <? ?p) && _ = false |-
          control_ack_shape (Build_DeviceControlAck _ _ _ _ _ _ _ (Some ?q) _ _) =>
        apply (ack_progress _ p q); try done; apply andb_false_iff in H as [H|H];
        [apply Z.ltb_ge in H; cbn in Hp; lia|apply negb_false_iff, Z.eqb_eq in H; lia] end.
  - unfold check_rejected. destruct (present m || _ || _) eqn:E.
    + destruct m as [m|], r as [r|], rc as [rc|]; try done.
      guard_case E'. intros _; ack_bools; cbn in *; ack_bools. by apply (ack_vehicle_rejected _ r).
    + guard_case E'. intros _; ack_bools; cbn in *; ack_bools. by eapply ack_local_rejected.
  - unfold check_timeout. guard_case E. intros _; ack_bools; cbn in *; ack_bools. destruct Hst' as [?|[?|[?|?]]]; subst; try done.
    by eapply ack_timeout.
Qed.

(** A control acknowledgement that parses states the command identifier, command and status of
    its payload, and its result fields are those the protocol ties to its status. *)
Theorem ParseDeviceControlAck_sound payload a :
  ParseDeviceControlAck payload = Ok a →
  json_parse payload = Some (ca_raw a) ∧
  jfind (ca_raw a) "command_id" = Some (JString (ca_command_id a)) ∧
  IsUuidV4Shape (ca_command_id a) = true ∧
  jfind (ca_raw a) "command" = Some (JString (CommandText (ca_command a))) ∧
  jfind (ca_raw a) "status" = Some (JString (ca_business_status a)) ∧
  control_ack_shape a.
Proof.
  unfold ParseDeviceControlAck. intros H.
  destruct (json_parse payload) as [root|]; [|done].
  destruct (is_object root); cbn [negb] in H; [|done].
  destruct (ack_command_id root) as [id|] eqn:Ei; [|done].
  apply ack_command_id_Some in Ei as [Ei Hi].
  destruct (string_field root "command") as [ct|] eqn:Ec; [|done]. apply string_field_Some in Ec.
  destruct (ParseCommandText ct) as [c|] eqn:Et; [|done]. apply ParseCommandText_Some in Et as ->.
  destruct (string_field root "status") as [st|] eqn:Es; [|done]. apply string_field_Some in Es.
  destruct (_ || _) eqn:Est; [|done].
  destruct (ReadInteger u16 root "mavlink_command" 0 65535 true) as [m v1] eqn:R1.
  destruct (ReadInteger u8 root "result" 0 255 v1) as [r v2] eqn:R2.
  destruct (ReadString root "result_code" v2) as [rc v3] eqn:R3.
  destruct (ReadInteger u8 root "progress" 0 255 v3) as [pr v4] eqn:R4.
  destruct (ReadInteger i32 root "result_param2" (- 2 ^ 31) (2 ^ 31 - 1) v4) as [p2 v5] eqn:R5.
  destruct (ReadString root "error_code" v5) as [ec v6] eqn:R6.
  destruct (v6 && negb (bad_message root)) eqn:Ev; [|done].
  apply andb_true_iff in Ev as [-> _].
  destruct (match m with Some _ => _ | None => true end) eqn:Em; [|done].
  destruct (match ec with Some _ => _ | None => true end) eqn:Eec; [|done].
  destruct (check_control_status _ _ _ _ _ _ _) eqn:Ek; [done|]. injection H as <-. cbn.
  apply ReadString_valid in R6 as ->. apply ReadInteger_valid in R5 as ->.
  apply ReadInteger_range in R4 as [-> W4]; [|lia|lia|intros z Hz; apply Z.mod_small; lia].
  apply ReadString_valid in R3 as ->.
  apply ReadInteger_range in R2 as [_ W2]; [|lia|lia|intros z Hz; apply Z.mod_small; lia].
  repeat (split; [done|]). by apply check_control_status_sound.
Qed.
End AckTheorems.

(** *** An unsigned number is read as a negative one

    [is_number_integer()] holds of unsigned numbers as well, so the signed branch
    of [ReadInteger] reads every number and the unsigned branch is never taken: a
    [result_param2] of 2^64 - 5 passes as -5. *)
Definition overflowing_ack : json :=
  jobject [("command_id", JString "00112233-4455-4677-8899-aabbccddeeff");
           ("command", JString "takeoff"); ("status", JString "in_progress");
           ("mavlink_command", JUInt 31091); ("result", JUInt 5);
           ("result_code", JString "in_progress"); ("progress", JUInt 40);
           ("result_param2", JUInt (2 ^ 64 - 5))].

Lemma result_param2_wraps :
  match ParseDeviceControlAck (JL := codec_lib) (codec_dump overflowing_ack) with
  | Ok a => ca_result_param2 a = Some (-5)
  | Unexpected _ => False
  end.
Proof. vm_compute. reflexivity. Qed.

Lemma device_set_roundtrip_witness :
  jfind (BuildDeviceConfigSet "id" one_parameter) "command_id" = Some (JString "id").
Proof.
  exact (proj1 (device_set_roundtrip "id" one_parameter kSetMotorPwm four_motors
    one_parameter_ok four_motors_ok)).
Defined.

Lemma ParseDeviceControlAck_sound_witness :
  match ParseDeviceControlAck (JL := codec_lib) (codec_dump overflowing_ack) with
  | Ok a => control_ack_shape a
  | Unexpected _ => False
  end.
Proof.
  destruct (ParseDeviceControlAck (JL := codec_lib) (codec_dump overflowing_ack)) as [a|e] eqn:E.
  - exact (proj2 (proj2 (proj2 (proj2 (proj2
      (ParseDeviceControlAck_sound (JL := codec_lib) _ a E)))))).
  - revert E. vm_compute. discriminate.
Defined.
