(* ===== verification/DeviceService.v ===== *)
(** * DeviceService: src/route_service/src/core/runtime/device_service.cpp

    The business thread of the devices: it consumes MQTT messages and database
    results, keeps the directory, and submits what must be persisted.  The ports
    ([provision_], [write_], the clock, the sinks) are an environment that answers
    the n-th call of each port; what the service sends out is a list of outputs. *)

From Stdlib Require Import ZArith Lia.
From S2P Require Import Prelude Json BoundedQueue.
From S2P Require Import DeviceTopic DeviceMessage DeviceRegistry DirtyState.
From stdpp Require Import options.

Record InboundMessage := {
  m_topic : string;
  m_payload : string;
  m_received_at : TimePoint
}.

Inductive ResultKind :=
| kProvisioned | kWriteCompleted | kUnavailable | kRecovered | kPermanentFailure.

Record DatabaseResult := {
  r_kind : ResultKind;
  r_device_id : string;
  r_revision : Z;
  r_provisioned : option DeviceRecord
}.

Record PublishedState := {
  ps_record : DeviceRecord;
  ps_reason : ChangeReason;
  ps_degraded : bool
}.

Record PendingRegistration := {
  p_registration : Registration;
  p_received_at : TimePoint;
  p_submitted : bool
}.

(** What a port answers: true, false, or an exception; [ThrewUnknown] is one that is no
    [std::exception]. *)
Inductive Reply := Accepted | Refused | Threw | ThrewUnknown.

Inductive Output :=
| Published (state : PublishedState)
| Snapshots (states : list PublishedState)
| Diagnosed (message : string)
| Informed (message : string)
| ProvisionCall (registration : Registration) (received_at : TimePoint)
| WriteCall (write : DesiredDeviceWrite).

Record Environment := {
  provision_reply : nat → Reply;
  write_reply : nat → Reply;
  events_reply : nat → Reply;       (* both event sinks; [Accepted] and [Refused] are a return *)
  steady_clock : nat → TimePoint
}.

Record Configuration := {
  topic_namespace : string;
  telemetry_interval : TimePoint;
  offline_timeout : TimePoint;
  has_snapshots : bool;
  queue_capacity : nat
}.

Record DeviceService := {
  registry_ : DeviceRegistry;
  mqtt_queue_ : BoundedQueue InboundMessage;
  results_ : list DatabaseResult;
  dirty_ : gmap string Entry;
  pending_ : gmap string PendingRegistration;
  degraded_ : gmap string Z;
  last_reason_ : gmap string ChangeReason;
  submitted_ : gmap string DesiredDeviceWrite;
  pending_status_logs_ : gmap string DesiredDeviceWrite;
  next_scan_ : TimePoint;
  scan_initialized_ : bool;
  database_unavailable_ : bool;
  closed_ : bool;
  input_drained_ : bool;
  cancel_database_work_requested_ : bool;
  external_snapshot_requested_ : bool;
  drain_dispatch_pending_ : bool;
  drain_submission_blocked_ : bool;
  processing_ready_ : bool;
  outstanding_database_work_ : Z;
  (* calls made so far on each port, and what went out *)
  provision_calls : nat;
  write_calls : nat;
  event_calls : nat;
  clock_reads : nat;
  outputs : list Output
}.

#[export] Instance DeviceService_members : Members DeviceService := λ s,
  {| registry_ := registry_ s; mqtt_queue_ := mqtt_queue_ s; results_ := results_ s; dirty_ :=
     dirty_ s; pending_ := pending_ s; degraded_ := degraded_ s; last_reason_ := last_reason_ s;
     submitted_ := submitted_ s; pending_status_logs_ := pending_status_logs_ s; next_scan_ :=
     next_scan_ s; scan_initialized_ := scan_initialized_ s; database_unavailable_ :=
     database_unavailable_ s; closed_ := closed_ s; input_drained_ := input_drained_ s;
     cancel_database_work_requested_ := cancel_database_work_requested_ s;
     external_snapshot_requested_ := external_snapshot_requested_ s; drain_dispatch_pending_ :=
     drain_dispatch_pending_ s; drain_submission_blocked_ := drain_submission_blocked_ s;
     processing_ready_ := processing_ready_ s; outstanding_database_work_ :=
     outstanding_database_work_ s; provision_calls := provision_calls s; write_calls :=
     write_calls s; event_calls := event_calls s; clock_reads := clock_reads s; outputs :=
     outputs s |}.

Definition kOfflineScan : TimePoint := seconds 1.

Section Service.
Context `{JL : JsonLib, MO : MapOrder} (env : Environment) (cfg : Configuration).

Definition MakeDeviceService (registry : DeviceRegistry) : DeviceService :=
  {| registry_ := registry;
     mqtt_queue_ := {| capacity_ := queue_capacity cfg; queue_ := [];
                       BoundedQueue.closed_ := false; waiting := 0; awake := 0 |};
     results_ := []; dirty_ := ∅; pending_ := ∅; degraded_ := ∅; last_reason_ := ∅;
     submitted_ := ∅; pending_status_logs_ := ∅;
     next_scan_ := steady_clock env 0 + kOfflineScan; scan_initialized_ := true;
     database_unavailable_ := false; closed_ := false; input_drained_ := false;
     cancel_database_work_requested_ := false; external_snapshot_requested_ := false;
     drain_dispatch_pending_ := false; drain_submission_blocked_ := false;
     processing_ready_ := false; outstanding_database_work_ := 0; provision_calls := 0;
     write_calls := 0; event_calls := 0; clock_reads := 1; outputs := [] |}.

(** ** Sinks and the clock *)
Definition emit (s : DeviceService) (o : Output) : DeviceService :=
  s <| outputs := outputs s ++ [o] |>.
Definition Diagnose (s : DeviceService) (message : string) : DeviceService :=
  emit s (Diagnosed message).
Definition Inform (s : DeviceService) (message : string) : DeviceService :=
  emit s (Informed message).

Definition steady_now (s : DeviceService) : TimePoint * DeviceService :=
  (steady_clock env (clock_reads s), s <| clock_reads := S (clock_reads s) |>).

Definition Publish (s : DeviceService) (state : PublishedState) : DeviceService :=
  let reply := events_reply env (event_calls s) in
  let s := s <| event_calls := S (event_calls s) |> in
  match reply with
  | Threw => Diagnose s "状态事件发布回调异常"
  | ThrewUnknown => Diagnose s "状态事件发布回调发生未知异常"
  | _ => emit s (Published state)
  end.

Definition IsDeviceDegraded (s : DeviceService) (device_id : string) : bool :=
  database_unavailable_ s || bool_decide (is_Some (degraded_ s !! device_id)).

Definition PublishCurrentSnapshot (s : DeviceService) : DeviceService :=
  if negb (has_snapshots cfg) then s
  else
    let states := (λ record, {| ps_record := record; ps_reason := kSnapshotReplay;
                                ps_degraded := IsDeviceDegraded s (dr_device_id record) |})
                    <$> ListDevices (registry_ s) in
    let reply := events_reply env (event_calls s) in
    let s := s <| event_calls := S (event_calls s) |> in
    match reply with
    | Threw => Diagnose s "设备全量快照发布回调异常"
    | ThrewUnknown => Diagnose s "设备全量快照发布回调发生未知异常"
    | _ => emit s (Snapshots states)
    end.

Definition DescribeDeviceForLog (record : DeviceRecord) : string :=
  dr_school_name record +:+ "/" +:+ default "未编号" (dr_dcdw_label record)
  +:+ " device_id=" +:+ dr_device_id record.

Definition WriteFor (mutation : Mutation) (urgency : Urgency) : DesiredDeviceWrite :=
  let telemetry := bool_decide (mut_reason mutation = kTelemetryReason) in
  {| w_record := mut_record mutation;
     w_revision := dr_revision (mut_record mutation);
     w_metadata := negb telemetry;
     w_status := negb telemetry || mut_status_changed mutation;
     w_telemetry := telemetry;
     w_urgency := urgency |}.

(** ** The counter of outstanding work, a [std::size_t] *)
Definition AdjustOutstandingDatabaseWork (s : DeviceService) (delta : Z) : DeviceService :=
  s <| outstanding_database_work_ := u64 (outstanding_database_work_ s + delta) |>.
Definition ResetOutstandingDatabaseWork (s : DeviceService) : DeviceService :=
  s <| outstanding_database_work_ := 0 |>.

(** The registrations handed to the database and not answered yet. *)
Definition submitted_count (pending : gmap string PendingRegistration) : Z :=
  Z.of_nat (size (filter (λ kv, p_submitted kv.2 = true) pending)).

(** ** What the service does with a mutation of the directory *)
Definition Mark (s : DeviceService) (mutation : Mutation) : DeviceService :=
  let reason := mut_reason mutation in
  let record := mut_record mutation in
  let id := dr_device_id record in
  let s := s <| last_reason_ := <[id := reason]> (last_reason_ s) |> in
  let s :=
    if mut_status_changed mutation then
      s <| pending_status_logs_ :=
             <[id := {| w_record := record; w_revision := dr_revision record;
                        w_metadata := false; w_status := true; w_telemetry := false;
                        w_urgency := kImmediate |}]> (pending_status_logs_ s) |>
    else s in
  let telemetry := bool_decide (reason = kTelemetryReason) in
  let write := WriteFor mutation (if telemetry then kTelemetryBatch else kImmediate) in
  let (now, s) := steady_now s in
  let s := s <| dirty_ := DirtyState.Mark (dirty_ s) write now |> in
  let s :=
    if IsDeviceDegraded s id then s <| degraded_ := <[id := dr_revision record]> (degraded_ s) |>
    else s in
  Publish s {| ps_record := record; ps_reason := reason; ps_degraded := IsDeviceDegraded s id |}.

Definition reason_of (s : DeviceService) (device_id : string) : ChangeReason :=
  default kTelemetryReason (last_reason_ s !! device_id).

(** The three failure branches of [SubmitWrite], which differ in the message. *)
Definition submit_failed (s : DeviceService) (write : DesiredDeviceWrite) (message : string) :
    DeviceService :=
  let id := w_device_id write in
  let (now, s) := steady_now s in
  let s := s <| dirty_ := Restore (dirty_ s) write now |> in
  let s :=
    match Find (registry_ s) id with
    | Some record =>
        let s := s <| degraded_ := <[id := dr_revision record]> (degraded_ s) |> in
        Publish s {| ps_record := record; ps_reason := reason_of s id; ps_degraded := true |}
    | None => s
    end in
  Diagnose s message.

Definition SubmitWrite (s : DeviceService) (write : DesiredDeviceWrite) :
    bool * DeviceService :=
  let id := w_device_id write in
  let reply := write_reply env (write_calls s) in
  let s := emit (s <| write_calls := S (write_calls s) |>) (WriteCall write) in
  match reply with
  | Refused => (false, submit_failed s write "数据库写入提交端口已关闭")
  | Threw => (false, submit_failed s write "数据库写入提交回调异常")
  | ThrewUnknown => (false, submit_failed s write "数据库写入提交回调发生未知异常")
  | Accepted =>
      let s := match submitted_ s !! id with
               | Some _ => s
               | None => AdjustOutstandingDatabaseWork s 1
               end in
      (true, s <| submitted_ := <[id := write]> (submitted_ s) |>)
  end.

(** [send] of [DispatchWrites]: every write is submitted, also after a failure. *)
Fixpoint send (s : DeviceService) (writes : list DesiredDeviceWrite) : bool * DeviceService :=
  match writes with
  | [] => (true, s)
  | item :: rest =>
      let r := SubmitWrite s item in
      let q := send r.2 rest in
      (r.1 && q.1, q.2)
  end.

Definition DispatchWrites (s : DeviceService) : DeviceService :=
  if database_unavailable_ s then s
  else if input_drained_ s then
    if drain_submission_blocked_ s then s
    else
      let t := TakeAllDirty (dirty_ s) in
      let r := send (s <| dirty_ := t.2 |>) t.1 in
      if r.1 then r.2 <| drain_dispatch_pending_ := false |>
      else r.2 <| drain_submission_blocked_ := true |>
  else
    let t := TakeImmediate (dirty_ s) in
    let s := (send (s <| dirty_ := t.2 |>) t.1).2 in
    let (now, s) := steady_now s in
    let t := TakeTelemetryDue (dirty_ s) now (telemetry_interval cfg) in
    (send (s <| dirty_ := t.2 |>) t.1).2.

(** ** Database results *)
Definition degrade (s : DeviceService) (result : DatabaseResult) : DeviceService :=
  let id := r_device_id result in
  match Find (registry_ s) id with
  | Some record =>
      let s := s <| degraded_ :=
                      <[id := Z.max (dr_revision record) (r_revision result)]> (degraded_ s) |> in
      Publish s {| ps_record := record; ps_reason := reason_of s id; ps_degraded := true |}
  | None => s
  end.

Definition handle_unavailable (s : DeviceService) (result : DatabaseResult) : DeviceService :=
  let s := degrade (s <| database_unavailable_ := true |>) result in
  let completed := submitted_count (pending_ s) in
  let s := s <| pending_ := ∅ |> in
  let s := if completed =? 0 then s else AdjustOutstandingDatabaseWork s (- completed) in
  Diagnose s "数据库暂不可用，设备状态进入降级模式".

Definition handle_permanent_failure (s : DeviceService) (result : DatabaseResult) :
    DeviceService :=
  let id := r_device_id result in
  let s :=
    match pending_ s !! id with
    | Some p =>
        let s' := if p_submitted p then AdjustOutstandingDatabaseWork s (-1) else s in
        s' <| pending_ := delete id (pending_ s) |>
    | None => s
    end in
  let s :=
    if str_empty id then
      let completed := submitted_count (pending_ s) + Z.of_nat (size (submitted_ s)) in
      let s := s <| pending_ := ∅ |> <| submitted_ := ∅ |> <| pending_status_logs_ := ∅ |> in
      if completed =? 0 then s else AdjustOutstandingDatabaseWork s (- completed)
    else
      let s' :=
        match submitted_ s !! id with
        | Some _ => AdjustOutstandingDatabaseWork (s <| submitted_ := delete id (submitted_ s) |>) (-1)
        | None => s
        end in
      s' <| pending_status_logs_ := delete id (pending_status_logs_ s) |> in
  Diagnose (degrade s result) "数据库操作永久失败，已拒绝相关待处理操作".

(** The full write [kRecovered] submits for every degraded device. *)
Definition recovery_write (record : DeviceRecord) : DesiredDeviceWrite :=
  {| w_record := record; w_revision := dr_revision record; w_metadata := true; w_status := true;
     w_telemetry := bool_decide (is_Some (dr_latest_telemetry record));
     w_urgency := kImmediate |}.

Definition resubmit (s : DeviceService) (device_id : string) : DeviceService :=
  match Find (registry_ s) device_id with
  | Some record => (SubmitWrite s (recovery_write record)).2
  | None => s
  end.

Definition handle_recovered (s : DeviceService) : DeviceService :=
  let s := s <| database_unavailable_ := false |> in
  foldl resubmit s (map_order (degraded_ s)).*1.

Definition handle_provisioned (s : DeviceService) (result : DatabaseResult)
    (provisioned : DeviceRecord) : DeviceService :=
  let id := r_device_id result in
  match pending_ s !! id with
  | None => s
  | Some candidate =>
      let settle s := if p_submitted candidate then AdjustOutstandingDatabaseWork s (-1) else s in
      match AddProvisioned (registry_ s) provisioned with
      | Unexpected _ => settle s
      | Ok reg =>
          let s := s <| registry_ := reg |> <| pending_ := delete id (pending_ s) |> in
          let s :=
            match ApplyRegistration reg (p_registration candidate) (p_received_at candidate) with
            | Ok (mutation, reg') => Mark (s <| registry_ := reg' |>) mutation
            | Unexpected _ => s
            end in
          settle s
      end
  end.

Definition handle_write_completed (s : DeviceService) (result : DatabaseResult) :
    DeviceService :=
  let id := r_device_id result in
  let s :=
    match submitted_ s !! id with
    | Some write =>
        if w_revision write <=? r_revision result then
          let s :=
            match pending_status_logs_ s !! id with
            | Some log =>
                if (w_revision log <=? r_revision result) && w_status write then
                  let record := w_record log in
                  let text := match dr_status record with
                              | kOnline => "设备上线："
                              | kOffline => "设备离线："
                              end in
                  (Inform s (text +:+ DescribeDeviceForLog record)) <| pending_status_logs_ := delete id (pending_status_logs_ s) |>
                else s
            | None => s
            end in
          AdjustOutstandingDatabaseWork
            (s <| dirty_ := Complete (dirty_ s) write |>
               <| submitted_ := delete id (submitted_ s) |>) (-1)
        else s
    | None => s
    end in
  match degraded_ s !! id with
  | Some revision =>
      if revision <=? r_revision result then
        let s := s <| degraded_ := delete id (degraded_ s) |> in
        match Find (registry_ s) id with
        | Some record =>
            Publish s {| ps_record := record; ps_reason := kDatabaseRecovered;
                         ps_degraded := false |}
        | None => s
        end
      else s
  | None => s
  end.

Definition HandleResult (s : DeviceService) (result : DatabaseResult) : DeviceService :=
  match r_kind result with
  | kUnavailable => handle_unavailable s result
  | kPermanentFailure => handle_permanent_failure s result
  | kRecovered => handle_recovered s
  | kProvisioned =>
      match r_provisioned result with
      | Some record => handle_provisioned s result record
      | None => s
      end
  | kWriteCompleted => handle_write_completed s result
  end.

(** ** Messages *)
Definition handle_registration (s : DeviceService) (registration : Registration)
    (device_id : string) (received_at : TimePoint) : DeviceService :=
  match Find (registry_ s) device_id with
  | None =>
      if database_unavailable_ s then s
      else
        let submitted := match pending_ s !! device_id with
                         | Some existing => p_submitted existing
                         | None => false
                         end in
        s <| pending_ := <[device_id := {| p_registration := registration;
                                           p_received_at := received_at;
                                           p_submitted := submitted |}]> (pending_ s) |>
  | Some _ =>
      match ApplyRegistration (registry_ s) registration received_at with
      | Ok (mutation, reg) => Mark (s <| registry_ := reg |>) mutation
      | Unexpected _ => s
      end
  end.

Definition HandleMessage (s : DeviceService) (message : InboundMessage) : DeviceService :=
  match ParseDeviceTopic (topic_namespace cfg) (m_topic message) with
  | Unexpected _ => s
  | Ok topic =>
      let id := DeviceTopic.device_id topic in
      match DeviceTopic.kind topic with
      | kRegistration =>
          match ParseRegistration (m_payload message) id with
          | Unexpected _ => s
          | Ok registration => handle_registration s registration id (m_received_at message)
          end
      | kTelemetry =>
          match ParseTelemetry (m_payload message) id with
          | Unexpected _ => s
          | Ok telemetry =>
              match ApplyTelemetry (registry_ s) id telemetry (m_received_at message) with
              | Ok (mutation, reg) => Mark (s <| registry_ := reg |>) mutation
              | Unexpected _ => s
              end
          end
      end
  end.

(** ** One cycle of the business thread *)
Definition drain_results (s : DeviceService) : DeviceService :=
  foldl HandleResult (s <| results_ := [] |>) (results_ s).

Definition cancel_work (s : DeviceService) : DeviceService :=
  if cancel_database_work_requested_ s then
    let s := s <| cancel_database_work_requested_ := false |>
               <| pending_ := (λ c, {| p_registration := p_registration c;
                                       p_received_at := p_received_at c;
                                       p_submitted := false |}) <$> pending_ s |>
               <| submitted_ := ∅ |>
               <| dirty_ := Clear (dirty_ s) |>
               <| drain_submission_blocked_ := false |> in
    ResetOutstandingDatabaseWork s
  else s.

(** [while (mqtt_queue_.Size() != 0) ...]; the queue is as long as the fuel and its
    only consumer is this thread. *)
Fixpoint drain_messages (fuel : nat) (s : DeviceService) : DeviceService :=
  match fuel with
  | O => s
  | S fuel' =>
      match WaitPop (mqtt_queue_ s) with
      | (Some (Some message), q) => drain_messages fuel' (HandleMessage (s <| mqtt_queue_ := q |>) message)
      | _ => s
      end
  end.

Definition set_submitted (s : DeviceService) (device_id : string) (candidate : PendingRegistration)
    (submitted : bool) : DeviceService :=
  s <| pending_ := <[device_id := {| p_registration := p_registration candidate;
                                     p_received_at := p_received_at candidate;
                                     p_submitted := submitted |}]> (pending_ s) |>.

Definition submit_candidate (s : DeviceService) (device_id : string) : DeviceService :=
  match pending_ s !! device_id with
  | None => s
  | Some candidate =>
      if p_submitted candidate then s
      else
        let reply := provision_reply env (provision_calls s) in
        let s := emit (s <| provision_calls := S (provision_calls s) |>)
                   (ProvisionCall (p_registration candidate) (p_received_at candidate)) in
        match reply with
        | Accepted => AdjustOutstandingDatabaseWork (set_submitted s device_id candidate true) 1
        | Refused => Diagnose (set_submitted s device_id candidate false) "数据库建档提交端口已关闭"
        | Threw => Diagnose (set_submitted s device_id candidate false) "数据库建档提交回调异常"
        | ThrewUnknown =>
            Diagnose (set_submitted s device_id candidate false) "数据库建档提交回调发生未知异常"
        end
  end.

Definition submit_candidates (s : DeviceService) : DeviceService :=
  if database_unavailable_ s then s
  else foldl submit_candidate s (map_order (pending_ s)).*1.

Definition scan_offline (s : DeviceService) (system_now : TimePoint) : DeviceService :=
  let (now, s) := steady_now s in
  let s := if scan_initialized_ s then s
           else s <| next_scan_ := now + kOfflineScan |> <| scan_initialized_ := true |> in
  if next_scan_ s <=? now then
    let (mutations, reg) := ExpireInactive (registry_ s) system_now (offline_timeout cfg) in
    (foldl Mark (s <| registry_ := reg |>) mutations) <| next_scan_ := now + kOfflineScan |>
  else s.

Definition ProcessReady (s : DeviceService) (system_now : TimePoint) : DeviceService :=
  let s := s <| processing_ready_ := true |> in
  let s := drain_results s in
  let s := cancel_work s in
  let s := drain_messages (BoundedQueue.Size (mqtt_queue_ s)) s in
  let s := submit_candidates s in
  let s := scan_offline s system_now in
  let s := DispatchWrites s in
  let s := if external_snapshot_requested_ s then
             PublishCurrentSnapshot (s <| external_snapshot_requested_ := false |>)
           else s in
  s <| processing_ready_ := false |>.

(** ** Calls of the other threads *)
Definition TryPush (s : DeviceService) (message : InboundMessage) : bool * DeviceService :=
  let r := BoundedQueue.TryPush (mqtt_queue_ s) message in
  (r.1, s <| mqtt_queue_ := r.2 |>).

Definition PushDatabaseResult (s : DeviceService) (result : DatabaseResult) : DeviceService :=
  s <| results_ := results_ s ++ [result] |>.

Definition Close (s : DeviceService) : DeviceService :=
  s <| closed_ := true |> <| external_snapshot_requested_ := false |>
    <| drain_dispatch_pending_ := true |> <| mqtt_queue_ := BoundedQueue.Close (mqtt_queue_ s) |>.

Definition CancelOutstandingDatabaseWork (s : DeviceService) : DeviceService :=
  s <| cancel_database_work_requested_ := true |> <| drain_dispatch_pending_ := false |>.

Definition RequestExternalSnapshot (s : DeviceService) : DeviceService :=
  if closed_ s then s else s <| external_snapshot_requested_ := true |>.

Definition HasOutstandingDatabaseWork (s : DeviceService) : bool :=
  negb (outstanding_database_work_ s =? 0) || drain_dispatch_pending_ s.

(** The condition [WaitForDatabaseIdle] waits for. *)
Definition database_idle (s : DeviceService) : bool :=
  (outstanding_database_work_ s =? 0) && negb (processing_ready_ s)
  && negb (drain_dispatch_pending_ s).

(** [Run] marks the input drained once it is closed and empty. *)
Definition SetInputDrained (s : DeviceService) : DeviceService :=
  if closed_ s && (BoundedQueue.Size (mqtt_queue_ s) =? 0)%nat then s <| input_drained_ := true |> else s.

(** One turn of the loop of [Run], and whether it leaves the loop. *)
Definition run_cycle (s : DeviceService) (now1 now2 : TimePoint) : bool * DeviceService :=
  let s := ProcessReady s now1 in
  let no_results := bool_decide (results_ s = []) in
  let s := if closed_ s && (BoundedQueue.Size (mqtt_queue_ s) =? 0)%nat
           then ProcessReady (SetInputDrained s) now2 else s in
  (input_drained_ s && no_results && negb (HasOutstandingDatabaseWork s), s).

(** The interleavings: each call of another thread takes effect between two steps
    of the business thread. *)
Inductive ServiceOp :=
| OpPushMessage (message : InboundMessage)
| OpPushResult (result : DatabaseResult)
| OpProcessReady (system_now : TimePoint)
| OpInputDrained
| OpCloseService
| OpCancel
| OpRequestSnapshot.

Definition service_step (s : DeviceService) (op : ServiceOp) : DeviceService :=
  match op with
  | OpPushMessage m => (TryPush s m).2
  | OpPushResult r => PushDatabaseResult s r
  | OpProcessReady now => ProcessReady s now
  | OpInputDrained => SetInputDrained s
  | OpCloseService => Close s
  | OpCancel => CancelOutstandingDatabaseWork s
  | OpRequestSnapshot => RequestExternalSnapshot s
  end.

Definition service_run (s : DeviceService) (ops : list ServiceOp) : DeviceService :=
  foldl service_step s ops.
End Service.
