(* ===== verification/DeviceServiceFacts.v ===== *)
(** * DeviceServiceFacts: the theorems about DeviceService.v

    The counter of outstanding database work, the directory the service keeps,
    what an accepted message leads to, and the flush on shutdown. *)

From Stdlib Require Import ZArith Lia.
From S2P Require Import Prelude Json BoundedQueue.
From S2P Require Import DeviceTopic DeviceMessage DeviceRegistry DirtyState DeviceService.
From stdpp Require Import options.

(** ** Counting submitted registrations *)
Definition b2z (b : bool) : Z := if b then 1 else 0.

Lemma submitted_count_empty : submitted_count ∅ = 0.
Proof. unfold submitted_count. by rewrite map_filter_empty, map_size_empty. Qed.

Lemma submitted_count_fresh m id p :
  m !! id = None → submitted_count (<[id := p]> m) = submitted_count m + b2z (p_submitted p).
Proof.
  intros Hm. unfold submitted_count. destruct (p_submitted p) eqn:E; cbn.
  - rewrite map_filter_insert_True by done. rewrite map_size_insert_None; [lia|].
    apply map_lookup_filter_None. by left.
  - rewrite map_filter_insert_not' by (cbn; congruence). lia.
Qed.

Lemma submitted_count_delete m id :
  submitted_count m =
    submitted_count (delete id m) + match m !! id with Some p => b2z (p_submitted p) | None => 0 end.
Proof.
  destruct (m !! id) as [p|] eqn:E.
  - rewrite <- (insert_delete_id m id p E) at 1. apply submitted_count_fresh, lookup_delete_eq.
  - rewrite delete_id by done. lia.
Qed.

Lemma submitted_count_insert m id p :
  submitted_count (<[id := p]> m) = submitted_count (delete id m) + b2z (p_submitted p).
Proof. rewrite <- insert_delete_eq. apply submitted_count_fresh, lookup_delete_eq. Qed.

Lemma submitted_count_cleared m :
  submitted_count ((λ c, {| p_registration := p_registration c; p_received_at := p_received_at c;
    p_submitted := false |}) <$> m) = 0.
Proof.
  unfold submitted_count. match goal with |- context [?g <$> m] => set (f := g) end.
  assert (filter (λ kv, p_submitted kv.2 = true) (f <$> m) = ∅) as ->; [|by rewrite map_size_empty].
  apply map_empty. intros i. apply map_lookup_filter_None. right. intros x Hx.
  rewrite lookup_fmap in Hx. destruct (m !! i); [|done]. by injection Hx as <-.
Qed.

Lemma size_delete_Some {A} (m : gmap string A) id x :
  m !! id = Some x → Z.of_nat (size (delete id m)) = Z.of_nat (size m) - 1.
Proof.
  intros E. rewrite <- (insert_delete_id m id x E) at 2.
  rewrite map_size_insert_None by apply lookup_delete_eq. lia.
Qed.

Lemma submitted_count_bound m : 0 <= submitted_count m <= Z.of_nat (size m).
Proof.
  unfold submitted_count. pose proof (map_size_filter (λ kv, p_submitted kv.2 = true) m). lia.
Qed.

Lemma submitted_count_zero m :
  submitted_count m = 0 ↔ ∀ id p, m !! id = Some p → p_submitted p = false.
Proof.
  unfold submitted_count. split.
  - intros H id p Hp. apply not_true_iff_false. intros Hs.
    assert (filter (λ kv, p_submitted kv.2 = true) m = ∅) as E by (apply map_size_empty_iff; lia).
    assert (filter (λ kv, p_submitted kv.2 = true) m !! id = Some p) as E' by by apply map_lookup_filter_Some.
    by rewrite E, lookup_empty in E'.
  - intros H. assert (filter (λ kv, p_submitted kv.2 = true) m = ∅) as ->; [|by rewrite map_size_empty].
    apply map_empty. intros id. apply map_lookup_filter_None. right. intros p Hp. cbn. by rewrite (H id p Hp).
Qed.

Section Facts.
Context `{JL : JsonLib, MO : MapOrder} (env : Environment) (cfg : Configuration).
Implicit Types s : DeviceService.

(** ** The books of the service

    The members the counter is checked against; most steps leave them alone. *)
Definition books s := (pending_ s, submitted_ s, outstanding_database_work_ s).

Lemma Publish_books s st : books (Publish env s st) = books s.
Proof. unfold Publish. by destruct (events_reply _ _). Qed.
Lemma Mark_books s m : books (Mark env s m) = books s.
Proof.
  unfold Mark. cbn. rewrite Publish_books. destruct (IsDeviceDegraded _ _), (mut_status_changed m); done.
Qed.
Lemma degrade_books s r : books (degrade env s r) = books s.
Proof. unfold degrade. destruct (Find _ _); [|done]. by rewrite Publish_books. Qed.
Lemma submit_failed_books s w msg : books (submit_failed env s w msg) = books s.
Proof.
  unfold submit_failed. cbn. destruct (Find _ _); [|done].
  match goal with |- books (Diagnose ?x _) = _ => change (books x = books s) end.
  by rewrite Publish_books.
Qed.

(** The counter agrees with the books. *)
Definition accounted s : Prop :=
  outstanding_database_work_ s = u64 (submitted_count (pending_ s) + Z.of_nat (size (submitted_ s))).

Lemma accounted_books s s' : books s' = books s → accounted s → accounted s'.
Proof. unfold accounted, books. by intros [= -> -> ->]. Qed.

Lemma u64_add a b : u64 (u64 a + b) = u64 (a + b).
Proof. unfold u64. apply Zplus_mod_idemp_l. Qed.

Lemma adjust_accounted s s' delta :
  accounted s →
  submitted_count (pending_ s') + Z.of_nat (size (submitted_ s'))
    = submitted_count (pending_ s) + Z.of_nat (size (submitted_ s)) + delta →
  outstanding_database_work_ s' = u64 (outstanding_database_work_ s + delta) →
  accounted s'.
Proof. unfold accounted. intros H E ->. by rewrite H, u64_add, E. Qed.

(** An update of the books that the counter does not have to follow. *)
Lemma keep_accounted s s' :
  accounted s →
  submitted_count (pending_ s') + Z.of_nat (size (submitted_ s'))
    = submitted_count (pending_ s) + Z.of_nat (size (submitted_ s)) →
  outstanding_database_work_ s' = outstanding_database_work_ s →
  accounted s'.
Proof. unfold accounted. by intros H -> ->. Qed.

Lemma SubmitWrite_accounted s w : accounted s → accounted (SubmitWrite env s w).2.
Proof.
  intros H. unfold SubmitWrite. destruct (write_reply _ _); cbn [snd];
    [|apply (accounted_books s); [by rewrite submit_failed_books|exact H]..].
  set (s1 := emit _ (WriteCall w)).
  assert (accounted s1) as H1 by exact H. clearbody s1.
  destruct (submitted_ s1 !! w_device_id w) as [x|] eqn:E.
  - apply (keep_accounted s1); [done| |done]. cbn.
    by rewrite map_size_insert_Some by (by eexists).
  - apply (adjust_accounted s1 _ 1); [done| |done]. cbn. rewrite map_size_insert_None by done. lia.
Qed.

Lemma send_accounted s ws : accounted s → accounted (send env s ws).2.
Proof.
  revert s. induction ws as [|w ws IH]; intros s H; [done|]. cbn. by apply IH, SubmitWrite_accounted.
Qed.

Lemma DispatchWrites_accounted s : accounted s → accounted (DispatchWrites env cfg s).
Proof.
  intros H. unfold DispatchWrites. destruct (database_unavailable_ s); [done|].
  destruct (input_drained_ s).
  - destruct (drain_submission_blocked_ s); [done|].
    destruct (TakeAllDirty (dirty_ s)) as [ws d]. cbn [fst snd].
    assert (accounted (send env (s <| dirty_ := d |>) ws).2) as H' by by apply send_accounted.
    destruct (send env _ ws) as [[] s']; exact H'.
  - destruct (TakeImmediate (dirty_ s)) as [ws d]. cbn [fst snd].
    assert (accounted (send env (s <| dirty_ := d |>) ws).2) as H' by by apply send_accounted.
    destruct (send env _ ws) as [b s']. cbn [fst snd steady_now] in *.
    destruct (TakeTelemetryDue _ _ _) as [ws' d']. cbn [fst snd]. apply send_accounted. exact H'.
Qed.

Lemma handle_unavailable_accounted s r :
  accounted s → accounted (handle_unavailable env s r).
Proof.
  intros H. unfold handle_unavailable.
  assert (Hb := degrade_books (s <| database_unavailable_ := true |>) r).
  set (s1 := degrade env (s <| database_unavailable_ := true |>) r) in *.
  assert (accounted s1) as H1 by (apply (accounted_books s); [done|exact H]).
  destruct (submitted_count (pending_ s1) =? 0) eqn:E; bool_prop.
  - apply (keep_accounted s1); [done| |done]. cbn. rewrite submitted_count_empty. lia.
  - apply (adjust_accounted s1 _ (- submitted_count (pending_ s1))); [done| |done].
    cbn. rewrite submitted_count_empty. lia.
Qed.

Lemma handle_permanent_failure_accounted s r :
  accounted s → accounted (handle_permanent_failure env s r).
Proof.
  intros H. unfold handle_permanent_failure. set (id := r_device_id r).
  match goal with |- context [match pending_ s !! id with Some p => _ | None => _ end] =>
    set (s1 := match pending_ s !! id with Some p => _ | None => _ end) end.
  assert (accounted s1) as H1.
  { subst s1. pose proof (submitted_count_delete (pending_ s) id) as Hd.
    destruct (pending_ s !! id) as [p|]; [|done]. destruct (p_submitted p); cbn in Hd.
    - apply (adjust_accounted s _ (-1)); [done| |done]. cbn. lia.
    - apply (keep_accounted s); [done| |done]. cbn. lia. }
  clearbody s1. clear H.
  match goal with |- context [degrade env ?x r] => set (s2 := x) end.
  assert (accounted s2) as H2.
  { subst s2. destruct (str_empty id).
    - set (completed := submitted_count (pending_ s1) + Z.of_nat (size (submitted_ s1))).
      destruct (completed =? 0) eqn:E; bool_prop.
      + apply (keep_accounted s1); [done| |done]. cbn.
        rewrite submitted_count_empty, map_size_empty. lia.
      + apply (adjust_accounted s1 _ (- completed)); [done| |done]. cbn.
        rewrite submitted_count_empty, map_size_empty. lia.
    - destruct (submitted_ s1 !! id) as [w|] eqn:E.
      + apply (adjust_accounted s1 _ (-1)); [done| |done]. cbn.
        rewrite (size_delete_Some _ _ _ E). lia.
      + apply (keep_accounted s1); [done|done|done]. }
  apply (accounted_books s2); [apply degrade_books|done].
Qed.

Lemma resubmit_accounted s id : accounted s → accounted (resubmit env s id).
Proof. intros H. unfold resubmit. destruct (Find _ _); [by apply SubmitWrite_accounted|done]. Qed.

Lemma foldl_accounted {A} (f : DeviceService → A → DeviceService) l s :
  (∀ s a, accounted s → accounted (f s a)) → accounted s → accounted (foldl f s l).
Proof. intros Hf. revert s. induction l as [|a l IH]; intros s H; [done|]. cbn. auto. Qed.

Lemma handle_recovered_accounted s : accounted s → accounted (handle_recovered env s).
Proof. intros H. apply foldl_accounted; [intros; by apply resubmit_accounted|exact H]. Qed.

(** The one result that spoils the books: a provisioned record the directory
    refuses stays pending, marked as submitted, but no longer counted. *)
Definition refused s (r : DatabaseResult) : bool :=
  match r_kind r, r_provisioned r, pending_ s !! r_device_id r with
  | kProvisioned, Some record, Some candidate =>
      p_submitted candidate && negb (is_ok (AddProvisioned (registry_ s) record))
  | _, _, _ => false
  end.

Lemma handle_provisioned_accounted s r record :
  r_kind r = kProvisioned → r_provisioned r = Some record → refused s r = false →
  accounted s → accounted (handle_provisioned env s r record).
Proof.
  intros Hk Hp Hr H. unfold handle_provisioned. unfold refused in Hr. rewrite Hk, Hp in Hr.
  pose proof (submitted_count_delete (pending_ s) (r_device_id r)) as Hd.
  destruct (pending_ s !! r_device_id r) as [c|] eqn:Ec; [|done].
  destruct (AddProvisioned (registry_ s) record) as [reg|e]; cbn in Hr.
  - match goal with |- context [match ApplyRegistration ?a ?b ?d with Ok x => _ | Unexpected _ => _ end] =>
      set (s1 := match ApplyRegistration a b d with Ok x => _ | Unexpected _ => _ end) end.
    assert (books s1 = (delete (r_device_id r) (pending_ s), submitted_ s,
      outstanding_database_work_ s)) as Hb.
    { subst s1. destruct (ApplyRegistration _ _ _) as [[m reg']|]; [|done]. by rewrite Mark_books. }
    clearbody s1. unfold books in Hb. injection Hb as Hb1 Hb2 Hb3.
    destruct (p_submitted c); cbn in Hd.
    + apply (adjust_accounted s _ (-1)); [done| |cbn; by rewrite Hb3]. cbn. rewrite Hb1, Hb2. lia.
    + apply (keep_accounted s); [done| |done]. rewrite Hb1, Hb2. lia.
  - destruct (p_submitted c); [done|exact H].
Qed.

Lemma handle_write_completed_accounted s r :
  accounted s → accounted (handle_write_completed env s r).
Proof.
  intros H. unfold handle_write_completed. set (id := r_device_id r).
  match goal with |- context [match submitted_ s !! id with Some p => _ | None => _ end] =>
    set (s1 := match submitted_ s !! id with Some p => _ | None => _ end) end.
  assert (accounted s1) as H1.
  { subst s1. destruct (submitted_ s !! id) as [w|] eqn:E; [|done].
    destruct (w_revision w <=? r_revision r); [|done].
    match goal with |- context [match pending_status_logs_ s !! id with Some p => _ | None => _ end] =>
      set (s2 := match pending_status_logs_ s !! id with Some p => _ | None => _ end) end.
    assert (books s2 = books s) as Hb.
    { subst s2. destruct (pending_status_logs_ s !! id) as [l|]; [|done]. by destruct (_ && _). }
    clearbody s2. injection Hb as Hb1 Hb2 Hb3.
    apply (adjust_accounted s _ (-1)); [done| |cbn; by rewrite Hb3]. cbn. rewrite Hb1, Hb2.
    rewrite (size_delete_Some _ _ _ E). lia. }
  clearbody s1. destruct (degraded_ s1 !! id) as [rev|]; [|done].
  destruct (rev <=? r_revision r); [|done].
  match goal with |- context [Find (registry_ ?x) id] => set (s3 := x) end.
  assert (accounted s3) as H3 by exact H1. clearbody s3.
  destruct (Find (registry_ s3) id); [|done].
  apply (accounted_books s3); [apply Publish_books|done].
Qed.

Lemma HandleResult_accounted s r :
  refused s r = false → accounted s → accounted (HandleResult env s r).
Proof.
  intros Hr H. unfold HandleResult. destruct (r_kind r) eqn:Ek.
  - destruct (r_provisioned r) as [record|] eqn:Ep; [|done]. by apply handle_provisioned_accounted.
  - by apply handle_write_completed_accounted.
  - by apply handle_unavailable_accounted.
  - by apply handle_recovered_accounted.
  - by apply handle_permanent_failure_accounted.
Qed.

Lemma Mark_accounted s m : accounted s → accounted (Mark env s m).
Proof. apply accounted_books, Mark_books. Qed.

Lemma handle_registration_accounted s r id t :
  accounted s → accounted (handle_registration env s r id t).
Proof.
  intros H. unfold handle_registration. destruct (Find (registry_ s) id).
  - destruct (ApplyRegistration _ _ _) as [[m reg]|]; [|done]. by apply Mark_accounted.
  - destruct (database_unavailable_ s); [done|]. apply (keep_accounted s); [done| |done]. cbn.
    rewrite submitted_count_insert, (submitted_count_delete (pending_ s) id). cbn.
    destruct (pending_ s !! id); cbn; lia.
Qed.

Lemma HandleMessage_accounted s m : accounted s → accounted (HandleMessage env cfg s m).
Proof.
  intros H. unfold HandleMessage. destruct (ParseDeviceTopic _ _) as [t|]; [|done].
  destruct (DeviceTopic.kind t).
  - destruct (ParseRegistration _ _); [by apply handle_registration_accounted|done].
  - destruct (ParseTelemetry _ _); [|done].
    destruct (ApplyTelemetry _ _ _ _) as [[mu reg]|]; [|done]. by apply Mark_accounted.
Qed.

Lemma drain_messages_accounted fuel s : accounted s → accounted (drain_messages env cfg fuel s).
Proof.
  revert s. induction fuel as [|fuel IH]; intros s H; [done|]. cbn [drain_messages].
  destruct (WaitPop (mqtt_queue_ s)) as [[[m|]|] q]; [|done..]. by apply IH, HandleMessage_accounted.
Qed.

Lemma cancel_work_accounted s : accounted s → accounted (cancel_work s).
Proof.
  intros H. unfold cancel_work. destruct (cancel_database_work_requested_ s); [|done].
  unfold accounted. cbn. by rewrite submitted_count_cleared, map_size_empty.
Qed.

Lemma submit_candidate_accounted s id : accounted s → accounted (submit_candidate env s id).
Proof.
  intros H. unfold submit_candidate. pose proof (submitted_count_delete (pending_ s) id) as Hd.
  destruct (pending_ s !! id) as [c|] eqn:Ec; [|done].
  destruct (p_submitted c) eqn:Es; [done|]. cbn in Hd.
  destruct (provision_reply _ _);
    [apply (adjust_accounted s _ 1); [done| |done]; cbn; rewrite submitted_count_insert; cbn; lia|..].
  all: apply (keep_accounted s); [done| |done]; cbn; rewrite submitted_count_insert; cbn; lia.
Qed.

Lemma submit_candidates_accounted s : accounted s → accounted (submit_candidates env s).
Proof.
  intros H. unfold submit_candidates. destruct (database_unavailable_ s); [done|].
  apply foldl_accounted; [intros; by apply submit_candidate_accounted|done].
Qed.

Lemma scan_offline_accounted s now : accounted s → accounted (scan_offline env cfg s now).
Proof.
  intros H. unfold scan_offline, steady_now.
  match goal with |- context [if scan_initialized_ ?x then _ else _] =>
    set (s1 := if scan_initialized_ x then _ else _) end.
  assert (accounted s1) as H1 by (subst s1; by destruct (scan_initialized_ _)). clearbody s1.
  destruct (_ <=? _); [|done]. destruct (ExpireInactive _ _ _) as [ms reg].
  assert (accounted (foldl (Mark env) (s1 <| registry_ := reg |>) ms)) as H2
    by (apply foldl_accounted; [intros; by apply Mark_accounted|exact H1]).
  exact H2.
Qed.

(** No result of the list is a refused provisioning when its turn comes. *)
Fixpoint clean_results s (rs : list DatabaseResult) : bool :=
  match rs with
  | [] => true
  | r :: rest => negb (refused s r) && clean_results (HandleResult env s r) rest
  end.

Lemma drain_results_accounted s rs :
  clean_results s rs = true → accounted s → accounted (foldl (HandleResult env) s rs).
Proof.
  revert s. induction rs as [|r rs IH]; intros s Hc H; [done|]. cbn in *. bool_prop.
  apply IH; [done|]. by apply HandleResult_accounted.
Qed.

Lemma ProcessReady_accounted s now :
  clean_results (s <| processing_ready_ := true |> <| results_ := [] |>) (results_ s) = true →
  accounted s → accounted (ProcessReady env cfg s now).
Proof.
  intros Hc H. unfold ProcessReady, drain_results.
  assert (accounted (foldl (HandleResult env)
    (s <| processing_ready_ := true |> <| results_ := [] |>) (results_ s))) as H1
    by (apply drain_results_accounted; [exact Hc|exact H]).
  change (results_ (s <| processing_ready_ := true |>)) with (results_ s).
  set (s1 := foldl _ _ (results_ s)) in *. clearbody s1.
  assert (H2 := DispatchWrites_accounted _ (scan_offline_accounted _ now
    (submit_candidates_accounted _ (drain_messages_accounted
      (BoundedQueue.Size (mqtt_queue_ (cancel_work s1))) _ (cancel_work_accounted _ H1))))).
  set (s2 := DispatchWrites _ _ _) in *. clearbody s2.
  destruct (external_snapshot_requested_ s2); [|exact H2].
  unfold PublishCurrentSnapshot. destruct (negb _); [exact H2|].
  destruct (events_reply _ _); exact H2.
Qed.

(** A run none of whose results is a refused provisioning. *)
Fixpoint clean_run s (ops : list ServiceOp) : bool :=
  match ops with
  | [] => true
  | op :: rest =>
      match op with
      | OpProcessReady _ =>
          clean_results (s <| processing_ready_ := true |> <| results_ := [] |>) (results_ s)
      | _ => true
      end && clean_run (service_step env cfg s op) rest
  end.

Lemma service_step_accounted s op :
  clean_run s [op] = true → accounted s → accounted (service_step env cfg s op).
Proof.
  intros Hc H. destruct op; cbn [service_step]; try exact H.
  - apply ProcessReady_accounted; [|done]. cbn in Hc. by rewrite andb_true_r in Hc.
  - unfold SetInputDrained. by destruct (_ && _).
  - unfold RequestExternalSnapshot. by destruct (closed_ s).
Qed.

Lemma service_run_accounted s ops :
  clean_run s ops = true → accounted s → accounted (service_run env cfg s ops).
Proof.
  revert s. induction ops as [|op ops IH]; intros s Hc H; [done|].
  cbn [clean_run] in Hc. apply andb_true_iff in Hc as [Hc1 Hc2]. apply IH; [done|].
  apply service_step_accounted; [|done]. cbn [clean_run]. by rewrite Hc1.
Qed.

Lemma MakeDeviceService_accounted reg : accounted (MakeDeviceService env cfg reg).
Proof. done. Qed.
End Facts.

(** ** Properties *)

(** C10: In every run that does not refuse a provisioning it submitted itself, the counter of
    outstanding database work, on 64 bits, is the number of candidates submitted plus the number
    of device writes submitted; so, within 64 bits, HasOutstandingDatabaseWork is false exactly
    when no candidate and no write is submitted and no dispatch of the drain is due, and the
    service is idle exactly when it is not processing besides. *)
Theorem outstanding_work_accounting `{JL : JsonLib, MO : MapOrder} env cfg reg ops :
  clean_run env cfg (MakeDeviceService env cfg reg) ops = true →
  let s := service_run env cfg (MakeDeviceService env cfg reg) ops in
  outstanding_database_work_ s
    = u64 (submitted_count (pending_ s) + Z.of_nat (size (submitted_ s))) ∧
  (Z.of_nat (size (pending_ s)) + Z.of_nat (size (submitted_ s)) <= max_u64 →
   (HasOutstandingDatabaseWork s = false ↔
      (∀ id p, pending_ s !! id = Some p → p_submitted p = false) ∧ submitted_ s = ∅ ∧
      drain_dispatch_pending_ s = false) ∧
   (database_idle s = true ↔ HasOutstandingDatabaseWork s = false ∧ processing_ready_ s = false)).
Proof.
  intros Hc s. assert (accounted s) as H by by apply service_run_accounted.
  split; [exact H|]. intros Hle.
  pose proof (submitted_count_bound (pending_ s)) as Hn.
  unfold accounted in H. rewrite u64_small in H by lia.
  assert (outstanding_database_work_ s = 0 ↔
    (∀ id p, pending_ s !! id = Some p → p_submitted p = false) ∧ submitted_ s = ∅) as Hz.
  { rewrite H, <- submitted_count_zero, <- map_size_empty_iff. lia. }
  unfold database_idle, HasOutstandingDatabaseWork. destruct (drain_dispatch_pending_ s), (processing_ready_ s);
    rewrite ?orb_true_r, ?orb_false_r, ?andb_true_r, ?andb_false_r, ?negb_false_iff, ?Z.eqb_eq;
    cbn; rewrite ?andb_true_r, ?andb_false_r, ?Z.eqb_eq; intuition congruence.
Qed.

(** ** The directory of the service *)
Section Directory.
Context `{JL : JsonLib, MO : MapOrder} (env : Environment) (cfg : Configuration).
Implicit Types s : DeviceService.

(** [reg'] is [reg] after some calls of the directory's operations. *)
Definition reaches (reg reg' : DeviceRegistry) : Prop := ∃ ops, reg' = run_ops reg ops.

#[export] Instance reaches_preorder : PreOrder reaches.
Proof.
  split; [by exists []|]. intros a b c [l1 ->] [l2 ->]. exists (l1 ++ l2).
  unfold run_ops. by rewrite foldl_app.
Qed.

Lemma reaches_step reg op : reaches reg (run_op reg op).
Proof. by exists [op]. Qed.

Lemma Publish_registry s st : registry_ (Publish env s st) = registry_ s.
Proof. unfold Publish. by destruct (events_reply _ _). Qed.
Lemma Mark_registry s m : registry_ (Mark env s m) = registry_ s.
Proof.
  unfold Mark. cbn. rewrite Publish_registry.
  destruct (IsDeviceDegraded _ _), (mut_status_changed m); done.
Qed.
Lemma degrade_registry s r : registry_ (degrade env s r) = registry_ s.
Proof. unfold degrade. destruct (Find _ _); [|done]. by rewrite Publish_registry. Qed.
Lemma submit_failed_registry s w msg : registry_ (submit_failed env s w msg) = registry_ s.
Proof.
  unfold submit_failed, steady_now. cbv zeta beta.
  destruct (Find _ _); [|done]. cbn [Diagnose emit]. 
  match goal with |- registry_ (Diagnose ?x _) = _ => change (registry_ x = registry_ s) end.
  by rewrite Publish_registry.
Qed.
Lemma SubmitWrite_registry s w : registry_ (SubmitWrite env s w).2 = registry_ s.
Proof.
  unfold SubmitWrite. destruct (write_reply _ _); cbn [snd]; [|by rewrite submit_failed_registry..].
  set (s1 := emit _ _). assert (registry_ s1 = registry_ s) as E by done. clearbody s1.
  by destruct (submitted_ s1 !! _).
Qed.
Lemma send_registry s ws : registry_ (send env s ws).2 = registry_ s.
Proof.
  revert s. induction ws as [|w ws IH]; intros s; [done|]. cbn [send snd].
  by rewrite IH, SubmitWrite_registry.
Qed.

Lemma DispatchWrites_registry s : registry_ (DispatchWrites env cfg s) = registry_ s.
Proof.
  unfold DispatchWrites. destruct (database_unavailable_ s); [done|].
  destruct (input_drained_ s).
  - destruct (drain_submission_blocked_ s); [done|].
    destruct (TakeAllDirty (dirty_ s)) as [ws d]. cbn [fst snd].
    pose proof (send_registry (s <| dirty_ := d |>) ws) as H.
    destruct (send env _ ws) as [[] s']; exact H.
  - destruct (TakeImmediate (dirty_ s)) as [ws d]. cbn [fst snd].
    pose proof (send_registry (s <| dirty_ := d |>) ws) as H.
    destruct (send env _ ws) as [b s']. cbn [fst snd steady_now] in *.
    destruct (TakeTelemetryDue _ _ _) as [ws' d']. cbn [fst snd]. by rewrite send_registry.
Qed.

Lemma HandleResult_reaches s r : reaches (registry_ s) (registry_ (HandleResult env s r)).
Proof.
  unfold HandleResult. destruct (r_kind r).
  - destruct (r_provisioned r) as [record|]; [|done]. unfold handle_provisioned.
    destruct (pending_ s !! r_device_id r) as [c|]; [|done].
    pose proof (reaches_step (registry_ s) (OpProvision record)) as H1. cbn in H1.
    destruct (AddProvisioned (registry_ s) record) as [reg|]; [|by destruct (p_submitted c)].
    pose proof (reaches_step reg (OpRegistration (p_registration c) (p_received_at c))) as H2.
    cbn in H2. destruct (ApplyRegistration _ _ _) as [[m reg']|].
    + etransitivity; [exact H1|]. etransitivity; [exact H2|].
      destruct (p_submitted c); cbn [registry_ AdjustOutstandingDatabaseWork update];
        by rewrite Mark_registry.
    + by destruct (p_submitted c).
  - unfold handle_write_completed. set (id := r_device_id r).
    match goal with |- context [match submitted_ s !! id with Some p => _ | None => _ end] =>
      set (s1 := match submitted_ s !! id with Some p => _ | None => _ end) end.
    assert (registry_ s1 = registry_ s) as E1.
    { subst s1. destruct (submitted_ s !! id) as [w|]; [|done].
      destruct (_ <=? _); [|done]. destruct (pending_status_logs_ s !! id); [|done].
      by destruct (_ && _). }
    clearbody s1. rewrite <- E1. destruct (degraded_ s1 !! id); [|done].
    destruct (_ <=? _); [|done]. cbn. destruct (Find _ _); [|done]. by rewrite Publish_registry.
  - unfold handle_unavailable.
    pose proof (degrade_registry (s <| database_unavailable_ := true |>) r) as E.
    destruct (_ =? 0); cbn [registry_ Diagnose emit AdjustOutstandingDatabaseWork update];
      by rewrite E.
  - unfold handle_recovered. cbn [degraded_ update].
    assert (∀ l s0, registry_ (foldl (resubmit env) s0 l) = registry_ s0) as H.
    { induction l as [|id l IH]; intros s0; [done|]. cbn. rewrite IH. unfold resubmit.
      destruct (Find _ _); [apply SubmitWrite_registry|done]. }
    by rewrite H.
  - unfold handle_permanent_failure. cbn [registry_ Diagnose emit update]. rewrite degrade_registry.
    destruct (pending_ s !! r_device_id r) as [[? ? []]|], (str_empty (r_device_id r)); cbn;
      repeat case_match; done.
Qed.

Lemma HandleMessage_reaches s m : reaches (registry_ s) (registry_ (HandleMessage env cfg s m)).
Proof.
  unfold HandleMessage. destruct (ParseDeviceTopic _ _) as [t|]; [|done].
  destruct (DeviceTopic.kind t).
  - destruct (ParseRegistration _ _) as [r|]; [|done]. unfold handle_registration.
    destruct (Find _ _); [|by destruct (database_unavailable_ s)].
    pose proof (reaches_step (registry_ s) (OpRegistration r (m_received_at m))) as H. cbn in H.
    destruct (ApplyRegistration _ _ _) as [[mu reg]|]; [|done]. by rewrite Mark_registry.
  - destruct (ParseTelemetry _ _) as [te|]; [|done].
    pose proof (reaches_step (registry_ s)
      (OpTelemetry (DeviceTopic.device_id t) te (m_received_at m))) as H. cbn in H.
    destruct (ApplyTelemetry _ _ _ _) as [[mu reg]|]; [|done]. by rewrite Mark_registry.
Qed.

Lemma foldl_reaches {A} (f : DeviceService → A → DeviceService) l s :
  (∀ s a, reaches (registry_ s) (registry_ (f s a))) →
  reaches (registry_ s) (registry_ (foldl f s l)).
Proof.
  intros Hf. revert s. induction l as [|a l IH]; intros s; [done|]. cbn.
  etransitivity; [apply Hf|apply IH].
Qed.

Lemma drain_messages_reaches fuel s :
  reaches (registry_ s) (registry_ (drain_messages env cfg fuel s)).
Proof.
  revert s. induction fuel as [|fuel IH]; intros s; [done|]. cbn [drain_messages].
  destruct (WaitPop (mqtt_queue_ s)) as [[[m|]|] q]; [|done..].
  etransitivity; [|apply IH].
  pose proof (HandleMessage_reaches (s <| mqtt_queue_ := q |>) m) as H. exact H.
Qed.

Lemma submit_candidates_registry s : registry_ (submit_candidates env s) = registry_ s.
Proof.
  unfold submit_candidates. destruct (database_unavailable_ s); [done|].
  generalize (map_order (pending_ s)).*1. intros l. revert s.
  induction l as [|id l IH]; intros s; [done|]. cbn. rewrite IH. unfold submit_candidate.
  destruct (pending_ s !! id) as [c|]; [|done]. destruct (p_submitted c); [done|].
  by destruct (provision_reply _ _).
Qed.

Lemma scan_offline_reaches s now : reaches (registry_ s) (registry_ (scan_offline env cfg s now)).
Proof.
  unfold scan_offline, steady_now.
  match goal with |- context [if scan_initialized_ ?x then _ else _] =>
    set (s1 := if scan_initialized_ x then _ else _) end.
  assert (registry_ s1 = registry_ s) as E by (subst s1; by destruct (scan_initialized_ _)).
  clearbody s1. rewrite <- E. destruct (_ <=? _); [|done].
  pose proof (reaches_step (registry_ s1) (OpExpire now (offline_timeout cfg))) as H.
  cbn [run_op] in H.
  destruct (ExpireInactive _ _ _) as [ms reg]. cbn [snd] in H.
  etransitivity; [exact H|].
  pose proof (foldl_reaches (Mark env) ms (s1 <| registry_ := reg |>)) as H2.
  apply H2. intros. by rewrite Mark_registry.
Qed.

Lemma ProcessReady_reaches s now : reaches (registry_ s) (registry_ (ProcessReady env cfg s now)).
Proof.
  unfold ProcessReady, drain_results.
  change (results_ (s <| processing_ready_ := true |>)) with (results_ s).
  pose proof (foldl_reaches (HandleResult env) (results_ s)
    (s <| processing_ready_ := true |> <| results_ := [] |>) HandleResult_reaches) as H1.
  set (s1 := foldl _ _ (results_ s)) in *. clearbody s1.
  assert (registry_ (cancel_work s1) = registry_ s1) as E2
    by (unfold cancel_work; by destruct (cancel_database_work_requested_ s1)).
  pose proof (drain_messages_reaches (BoundedQueue.Size (mqtt_queue_ (cancel_work s1)))
    (cancel_work s1)) as H3. rewrite E2 in H3.
  set (s3 := drain_messages _ _ _ _) in *. clearbody s3.
  pose proof (scan_offline_reaches (submit_candidates env s3) now) as H4.
  rewrite submit_candidates_registry in H4.
  set (s4 := scan_offline _ _ _ _) in *. clearbody s4.
  assert (registry_ (DispatchWrites env cfg s4) = registry_ s4) as E5 by apply DispatchWrites_registry.
  set (s5 := DispatchWrites _ _ _) in *. clearbody s5.
  assert (reaches (registry_ s) (registry_ s5)) as H6.
  { rewrite E5. etransitivity; [exact H1|]. by etransitivity. }
  destruct (external_snapshot_requested_ s5); [|exact H6].
  unfold PublishCurrentSnapshot. destruct (negb _); [exact H6|].
  destruct (events_reply _ _); exact H6.
Qed.

Lemma service_run_reaches s ops : reaches (registry_ s) (registry_ (service_run env cfg s ops)).
Proof.
  apply foldl_reaches. clear s ops. intros s op. destruct op; cbn [service_step]; try done.
  - apply ProcessReady_reaches.
  - unfold SetInputDrained. by destruct (_ && _).
  - unfold RequestExternalSnapshot. by destruct (closed_ s).
Qed.
End Directory.

(** Whatever events the device service handles, its registry is one that the operations of the
    registry alone reach from the empty registry, so all the invariants of the registry hold of
    it. *)
Theorem service_directory_refines `{JL : JsonLib, MO : MapOrder} env cfg loads ops :
  let reg := run_ops empty_registry loads in
  let s := service_run env cfg (MakeDeviceService env cfg reg) ops in
  (∃ calls, registry_ s = run_ops empty_registry calls) ∧ registry_ok (registry_ s).
Proof.
  intros reg s.
  assert (reaches empty_registry (registry_ s)) as [calls E].
  { transitivity reg; [by exists loads|]. apply service_run_reaches. }
  split; [by exists calls|]. rewrite E. apply run_ops_ok, empty_registry_ok.
Qed.

(** ** A cycle empties what it was given *)
Section Cycle.
Context `{JL : JsonLib, MO : MapOrder} (env : Environment) (cfg : Configuration).
Implicit Types s : DeviceService.

(** The two queues other threads push on. *)
Definition inputs s := (mqtt_queue_ s, results_ s).

Lemma Publish_inputs s st : inputs (Publish env s st) = inputs s.
Proof. unfold Publish. by destruct (events_reply _ _). Qed.
Lemma Mark_inputs s m : inputs (Mark env s m) = inputs s.
Proof.
  unfold Mark. cbn. rewrite Publish_inputs.
  destruct (IsDeviceDegraded _ _), (mut_status_changed m); done.
Qed.

Lemma submit_failed_inputs s w msg : inputs (submit_failed env s w msg) = inputs s.
Proof.
  unfold submit_failed, steady_now. cbv zeta beta. destruct (Find _ _); [|done].
  match goal with |- inputs (Diagnose ?x _) = _ => change (inputs x = inputs s) end.
  by rewrite Publish_inputs.
Qed.
Lemma SubmitWrite_inputs s w : inputs (SubmitWrite env s w).2 = inputs s.
Proof.
  unfold SubmitWrite. destruct (write_reply _ _); cbn [snd]; [|by rewrite submit_failed_inputs..].
  set (s1 := emit _ _). assert (inputs s1 = inputs s) as E by done. clearbody s1.
  by destruct (submitted_ s1 !! _).
Qed.
Lemma send_inputs s ws : inputs (send env s ws).2 = inputs s.
Proof.
  revert s. induction ws as [|w ws IH]; intros s; [done|]. cbn [send snd].
  by rewrite IH, SubmitWrite_inputs.
Qed.

Lemma DispatchWrites_inputs s : inputs (DispatchWrites env cfg s) = inputs s.
Proof.
  unfold DispatchWrites. destruct (database_unavailable_ s); [done|].
  destruct (input_drained_ s).
  - destruct (drain_submission_blocked_ s); [done|].
    destruct (TakeAllDirty (dirty_ s)) as [ws d]. cbn [fst snd].
    pose proof (send_inputs (s <| dirty_ := d |>) ws) as H.
    destruct (send env _ ws) as [[] s']; exact H.
  - destruct (TakeImmediate (dirty_ s)) as [ws d]. cbn [fst snd].
    pose proof (send_inputs (s <| dirty_ := d |>) ws) as H.
    destruct (send env _ ws) as [b s']. cbn [fst snd steady_now] in *.
    destruct (TakeTelemetryDue _ _ _) as [ws' d']. cbn [fst snd]. by rewrite send_inputs.
Qed.

Lemma foldl_inputs {A} (f : DeviceService → A → DeviceService) l s :
  (∀ s a, inputs (f s a) = inputs s) → inputs (foldl f s l) = inputs s.
Proof. intros Hf. revert s. induction l as [|a l IH]; intros s; [done|]. cbn. by rewrite IH. Qed.

Lemma degrade_inputs s r : inputs (degrade env s r) = inputs s.
Proof. unfold degrade. destruct (Find _ _); [|done]. by rewrite Publish_inputs. Qed.

Lemma HandleResult_inputs s r : inputs (HandleResult env s r) = inputs s.
Proof.
  unfold HandleResult. destruct (r_kind r).
  - destruct (r_provisioned r) as [record|]; [|done]. unfold handle_provisioned.
    destruct (pending_ s !! r_device_id r) as [c|]; [|done].
    destruct (AddProvisioned (registry_ s) record) as [reg|]; [|by destruct (p_submitted c)].
    destruct (ApplyRegistration _ _ _) as [[m reg']|]; [|by destruct (p_submitted c)].
    cbn zeta. match goal with |- context [Mark env ?x m] => pose proof (Mark_inputs x m) as H end.
    change (inputs s) with (inputs (s <| registry_ := reg |>)).
    destruct (p_submitted c); exact H.
  - unfold handle_write_completed. set (id := r_device_id r).
    match goal with |- context [match submitted_ s !! id with Some p => _ | None => _ end] =>
      set (s1 := match submitted_ s !! id with Some p => _ | None => _ end) end.
    assert (inputs s1 = inputs s) as E1.
    { subst s1. destruct (submitted_ s !! id) as [w|]; [|done].
      destruct (_ <=? _); [|done]. destruct (pending_status_logs_ s !! id); [|done].
      by destruct (_ && _). }
    clearbody s1. rewrite <- E1. destruct (degraded_ s1 !! id); [|done].
    destruct (_ <=? _); [|done]. cbn. destruct (Find _ _); [|done]. by rewrite Publish_inputs.
  - unfold handle_unavailable. cbv zeta.
    pose proof (degrade_inputs (s <| database_unavailable_ := true |>) r) as H.
    destruct (_ =? 0); exact H.
  - unfold handle_recovered. cbv zeta. rewrite foldl_inputs; [done|]. intros s0 id. unfold resubmit.
    destruct (Find _ _); [apply SubmitWrite_inputs|done].
  - unfold handle_permanent_failure. cbv zeta.
    match goal with |- inputs (Diagnose ?x _) = _ => change (inputs x = inputs s) end.
    rewrite degrade_inputs.
    destruct (pending_ s !! r_device_id r) as [[? ? []]|], (str_empty (r_device_id r)); cbn;
      repeat case_match; done.
Qed.

Lemma HandleMessage_inputs s m : inputs (HandleMessage env cfg s m) = inputs s.
Proof.
  unfold HandleMessage. destruct (ParseDeviceTopic _ _) as [t|]; [|done].
  destruct (DeviceTopic.kind t).
  - destruct (ParseRegistration _ _) as [r|]; [|done]. unfold handle_registration.
    destruct (Find _ _); [|by destruct (database_unavailable_ s)].
    destruct (ApplyRegistration _ _ _) as [[mu reg]|]; [|done]. by rewrite Mark_inputs.
  - destruct (ParseTelemetry _ _) as [te|]; [|done].
    destruct (ApplyTelemetry _ _ _ _) as [[mu reg]|]; [|done]. by rewrite Mark_inputs.
Qed.

(** The fuel of [drain_messages] is enough: it takes every message. *)
Lemma drain_messages_empties s :
  let s' := drain_messages env cfg (BoundedQueue.Size (mqtt_queue_ s)) s in
  queue_ (mqtt_queue_ s') = [] ∧ results_ s' = results_ s.
Proof.
  unfold BoundedQueue.Size. cbv zeta.
  remember (length (queue_ (mqtt_queue_ s))) as n eqn:E. revert s E.
  induction n as [|n IH]; intros s E; cbn [drain_messages].
  - split; [by apply nil_length_inv|done].
  - unfold WaitPop, ready, take_front.
    destruct (queue_ (mqtt_queue_ s)) as [|m rest] eqn:Eq; [done|]. cbn [length Nat.eqb negb].
    rewrite orb_true_r. cbn [fst snd].
    set (s0 := update _ _). pose proof (HandleMessage_inputs s0 m) as H.
    unfold inputs in H. injection H as Hq Hr.
    destruct (IH (HandleMessage env cfg s0 m)) as [H1 H2]; [rewrite Hq; cbn in E |- *; congruence|].
    split; [exact H1|]. rewrite H2, Hr. done.
Qed.

Lemma submit_candidates_inputs s : inputs (submit_candidates env s) = inputs s.
Proof.
  unfold submit_candidates. destruct (database_unavailable_ s); [done|].
  apply foldl_inputs. intros s0 id. unfold submit_candidate.
  destruct (pending_ s0 !! id) as [c|]; [|done]. destruct (p_submitted c); [done|].
  by destruct (provision_reply _ _).
Qed.

Lemma scan_offline_inputs s now : inputs (scan_offline env cfg s now) = inputs s.
Proof.
  unfold scan_offline, steady_now.
  match goal with |- context [if scan_initialized_ ?x then _ else _] =>
    set (s1 := if scan_initialized_ x then _ else _) end.
  assert (inputs s1 = inputs s) as E by (subst s1; by destruct (scan_initialized_ _)).
  clearbody s1. rewrite <- E. destruct (_ <=? _); [|done].
  destruct (ExpireInactive _ _ _) as [ms reg].
  exact (foldl_inputs (Mark env) ms (s1 <| registry_ := reg |>) Mark_inputs).
Qed.

(** ProcessReady ends with both queues empty. *)
Theorem service_cycle_drains s now :
  let s' := ProcessReady env cfg s now in
  queue_ (mqtt_queue_ s') = [] ∧ results_ s' = [].
Proof.
  unfold ProcessReady, drain_results. cbv zeta.
  set (s1 := foldl _ _ _). assert (results_ s1 = []) as E1.
  { pose proof (foldl_inputs (HandleResult env) (results_ (s <| processing_ready_ := true |>))
      (s <| processing_ready_ := true |> <| results_ := [] |>) HandleResult_inputs) as H.
    injection H as _ H. exact H. }
  clearbody s1.
  assert (results_ (cancel_work s1) = []) as E2
    by (unfold cancel_work; by destruct (cancel_database_work_requested_ s1)).
  set (s2 := cancel_work s1) in *. clearbody s2.
  destruct (drain_messages_empties s2) as [Hq Hr]. set (s3 := drain_messages _ _ _ _) in *.
  clearbody s3. rewrite E2 in Hr.
  assert (inputs (DispatchWrites env cfg (scan_offline env cfg (submit_candidates env s3) now))
    = inputs s3) as H
    by by rewrite DispatchWrites_inputs, scan_offline_inputs, submit_candidates_inputs.
  set (s5 := DispatchWrites _ _ _) in *. clearbody s5. injection H as Hq5 Hr5.
  rewrite <- Hq5 in Hq. rewrite <- Hr5 in Hr.
  destruct (external_snapshot_requested_ s5); [|done].
  unfold PublishCurrentSnapshot. destruct (negb _); [done|]. by destruct (events_reply _ _).
Qed.
End Cycle.

(** ** What an accepted message leads to *)
Lemma Mark_dirty st w t id c :
  dirty (DirtyState.Mark st w t) id c =
    if decide (id = w_device_id w) then
      if selects w c then Z.max (dirty st id c) (w_revision w) else dirty st id c
    else dirty st id c.
Proof.
  unfold dirty, DirtyState.Mark. case_decide as E; [subst|by rewrite lookup_insert_ne by done].
  rewrite lookup_insert_eq, field_of_mark. unfold MarkField.
  destruct (st !! w_device_id w) as [e|]; cbn; [by destruct (selects w c)|].
  rewrite field_of_fresh. by destruct (selects w c).
Qed.

Section Messages.
Context `{JL : JsonLib, MO : MapOrder} (env : Environment) (cfg : Configuration).
Implicit Types s : DeviceService.

(** What a registration makes of the record of a device. *)
Record registered (r : Registration) (received_at : TimePoint) (old new : DeviceRecord) : Prop := {
  rg_id : dr_device_id new = reg_device_id r;
  rg_school : dr_school_id new = dr_school_id old ∧ dr_school_name new = dr_school_name old;
  rg_label : dr_dcdw_label new = dr_dcdw_label old ∨
    (is_Some (reg_dcdw_label r) ∧ dr_dcdw_label new = reg_dcdw_label r);
  rg_status : dr_status new = match reg_status r with kRegOnline => kOnline | _ => kOffline end;
  rg_seen : dr_last_seen_at new =
    match reg_status r with kRegOnline => Some received_at | _ => dr_last_seen_at old end;
  rg_telemetry : dr_latest_telemetry new = dr_latest_telemetry old ∧
    dr_telemetry_received_at new = dr_telemetry_received_at old;
  rg_revision : dr_revision new = u64 (dr_revision old + 1);
  rg_type : dr_device_type new = dr_device_type old ∧ dr_model_version new = dr_model_version old;
  rg_capabilities : dr_capabilities new = match reg_capabilities r with None => dr_capabilities old | c => c end;
  rg_product : dr_product new = match reg_product r with None => dr_product old | p => p end;
  rg_version : dr_version new = match reg_version r with None => dr_version old | v => v end
}.

(** What telemetry makes of it. *)
Record measured (te : Telemetry) (received_at : TimePoint) (old new : DeviceRecord) : Prop := {
  ms_id : dr_device_id new = dr_device_id old;
  ms_school : dr_school_id new = dr_school_id old ∧ dr_school_name new = dr_school_name old;
  ms_label : dr_dcdw_label new = dr_dcdw_label old ∨
    (dr_dcdw_label old = None ∧ dr_dcdw_label new = tel_dcdw_label te);
  ms_status : dr_status new = kOnline ∧ dr_last_seen_at new = Some received_at;
  ms_telemetry : dr_latest_telemetry new = Some (tel_payload te) ∧
    dr_telemetry_received_at new = Some received_at;
  ms_revision : dr_revision new = u64 (dr_revision old + 1);
  ms_type : dr_device_type new = dr_device_type old ∧ dr_model_version new = dr_model_version old;
  ms_others : dr_capabilities new = dr_capabilities old ∧ dr_product new = dr_product old ∧
    dr_version new = dr_version old
}.

(** The new record of a device is in the directory, owed to the database in [columns], and
    published; nothing changes for the other devices. *)
Record delivered s s' (new : DeviceRecord) (reason : ChangeReason) (columns : Column → bool) : Prop := {
  dl_directory : ∀ id, Find (registry_ s') id = if decide (id = dr_device_id new) then Some new else Find (registry_ s) id;
  dl_columns : ∀ c, dirty (dirty_ s') (dr_device_id new) c =
    if columns c then Z.max (dirty (dirty_ s) (dr_device_id new) c) (dr_revision new)
    else dirty (dirty_ s) (dr_device_id new) c;
  dl_record : ∃ entry, dirty_ s' !! dr_device_id new = Some entry ∧
    (default 0 (e_revision <$> dirty_ s !! dr_device_id new) <= dr_revision new →
     e_record entry = new ∧ e_revision entry = dr_revision new);
  dl_others : ∀ id, id ≠ dr_device_id new → dirty_ s' !! id = dirty_ s !! id;
  dl_event : outputs s' = outputs s ++
    [match events_reply env (event_calls s) with
     | Threw => Diagnosed "状态事件发布回调异常"
     | ThrewUnknown => Diagnosed "状态事件发布回调发生未知异常"
     | _ => Published {| ps_record := new; ps_reason := reason;
                         ps_degraded := IsDeviceDegraded s (dr_device_id new) |}
     end]
}.

(** The first registration of a device waits to be provisioned. *)
Definition awaits_provisioning s s' (r : Registration) (received_at : TimePoint) : Prop :=
  registry_ s' = registry_ s ∧ dirty_ s' = dirty_ s ∧ outputs s' = outputs s ∧
  (∃ submitted, pending_ s' !! reg_device_id r =
     Some {| p_registration := r; p_received_at := received_at; p_submitted := submitted |} ∧
     (submitted = true ↔ ∃ p, pending_ s !! reg_device_id r = Some p ∧ p_submitted p = true)) ∧
  ∀ id, id ≠ reg_device_id r → pending_ s' !! id = pending_ s !! id.

Lemma Publish_outputs s st :
  outputs (Publish env s st) = outputs s ++
    [match events_reply env (event_calls s) with
     | Threw => Diagnosed "状态事件发布回调异常"
     | ThrewUnknown => Diagnosed "状态事件发布回调发生未知异常" | _ => Published st end] ∧
  dirty_ (Publish env s st) = dirty_ s ∧ registry_ (Publish env s st) = registry_ s.
Proof. unfold Publish. by destruct (events_reply _ _). Qed.

(** [Mark]: what is marked, and the event. *)
Lemma Mark_effect s m :
  let id := dr_device_id (mut_record m) in
  registry_ (Mark env s m) = registry_ s ∧
  (∃ urgency marked_at, dirty_ (Mark env s m) = DirtyState.Mark (dirty_ s) (WriteFor m urgency) marked_at) ∧
  outputs (Mark env s m) = outputs s ++
    [match events_reply env (event_calls s) with
     | Threw => Diagnosed "状态事件发布回调异常"
     | ThrewUnknown => Diagnosed "状态事件发布回调发生未知异常"
     | _ => Published {| ps_record := mut_record m; ps_reason := mut_reason m;
                         ps_degraded := IsDeviceDegraded s id |}
     end].
Proof.
  cbv zeta. unfold Mark. cbv zeta. set (id := dr_device_id (mut_record m)).
  match goal with |- context [if mut_status_changed m then ?a else ?b] =>
    set (s1 := if mut_status_changed m then a else b) end.
  assert (dirty_ s1 = dirty_ s ∧ degraded_ s1 = degraded_ s ∧ registry_ s1 = registry_ s ∧
    outputs s1 = outputs s ∧ event_calls s1 = event_calls s ∧
    database_unavailable_ s1 = database_unavailable_ s) as (E1 & E2 & E3 & E4 & E5 & E6)
    by (subst s1; by destruct (mut_status_changed m)).
  clearbody s1. unfold steady_now.
  set (u := if bool_decide _ then kTelemetryBatch else kImmediate). clearbody u.
  set (s2 := update _ _).
  assert (dirty_ s2 = DirtyState.Mark (dirty_ s) (WriteFor m u) (steady_clock env (clock_reads s1)) ∧
    degraded_ s2 = degraded_ s ∧ registry_ s2 = registry_ s ∧ outputs s2 = outputs s ∧
    event_calls s2 = event_calls s ∧ database_unavailable_ s2 = database_unavailable_ s)
    as (F1 & F2 & F3 & F4 & F5 & F6) by (subst s2; cbn; by rewrite E1).
  clearbody s2. clear E1 E2 E3 E4 E5 E6.
  assert (IsDeviceDegraded s2 id = IsDeviceDegraded s id) as Hd
    by (unfold IsDeviceDegraded; by rewrite F2, F6).
  match goal with |- context [if IsDeviceDegraded s2 id then ?a else ?b] =>
    set (s3 := if IsDeviceDegraded s2 id then a else b) end.
  assert (dirty_ s3 = dirty_ s2 ∧ registry_ s3 = registry_ s2 ∧ outputs s3 = outputs s2 ∧
    event_calls s3 = event_calls s2 ∧ IsDeviceDegraded s3 id = IsDeviceDegraded s2 id)
    as (G1 & G2 & G3 & G4 & G5).
  { subst s3. destruct (IsDeviceDegraded s2 id) eqn:E; [|by rewrite E].
    repeat (split; [done|]). unfold IsDeviceDegraded. cbn. rewrite lookup_insert_eq.
    rewrite bool_decide_eq_true_2 by (by eexists). by rewrite orb_true_r. }
  clearbody s3. destruct (Publish_outputs s3 {| ps_record := mut_record m;
    ps_reason := mut_reason m; ps_degraded := IsDeviceDegraded s3 id |}) as (H1 & H2 & H3).
  rewrite H1, H2, H3, G1, G2, G3, G4, G5, F1, F3, F4, F5, Hd. split; [done|]. split; [|done].
  by exists u, (steady_clock env (clock_reads s1)).
Qed.

Lemma Mark_delivered s m reg :
  (∀ id, Find reg id = if decide (id = dr_device_id (mut_record m)) then Some (mut_record m)
                       else Find (registry_ s) id) →
  delivered s (Mark env (s <| registry_ := reg |>) m) (mut_record m) (mut_reason m)
    (selects (WriteFor m kImmediate)).
Proof.
  intros Hr. destruct (Mark_effect (s <| registry_ := reg |>) m) as (E1 & (u & t & E2) & E3).
  set (s' := Mark env _ m) in *. clearbody s'. cbn [registry_ dirty_ update] in E1, E2.
  split; rewrite ?E1, ?E2.
  - exact Hr.
  - intros c. rewrite Mark_dirty. rewrite decide_True by done. by destruct c.
  - eexists. split; [apply lookup_insert_eq|]. cbn. unfold newest.
    change (w_device_id (WriteFor m u)) with (dr_device_id (mut_record m)). cbn [w_revision WriteFor w_record].
    destruct (dirty_ s !! _) as [e|]; cbn; [|by rewrite Z.leb_refl].
    intros Hle. apply Z.leb_le in Hle. by rewrite Hle.
  - intros id Hne. apply lookup_insert_ne. by apply not_eq_sym.
  - exact E3.
Qed.

(** What the directory makes of a message. *)
Lemma ApplyRegistration_new reg r t :
  registry_ok reg →
  match records reg !! reg_device_id r with
  | Some old =>
      if bool_decide (dr_device_type old = reg_device_type r) then
        ∃ m reg', ApplyRegistration reg r t = Ok (m, reg') ∧ registered r t old (mut_record m) ∧
          mut_reason m = match reg_status r with kRegOnline => kRegistrationOnline | _ => kRegistrationOffline end ∧
          ∀ id, Find reg' id = if decide (id = dr_device_id (mut_record m)) then Some (mut_record m) else Find reg id
      else ∃ e, ApplyRegistration reg r t = Unexpected e
  | None => True
  end.
Proof.
  intros Hok. unfold ApplyRegistration. destruct (records reg !! reg_device_id r) as [old|] eqn:Hr; [|done].
  assert (dr_device_id old = reg_device_id r) as Hid by by apply Hok.
  case_bool_decide; cbn [negb]; [|by eexists].
  destruct (registration_role _ _ _ _) as [[[d old_role] new_role] lab] eqn:Erole.
  eexists _, _. split; [reflexivity|]. split; [|split].
  - split; cbn; try done; try (by destruct (reg_status r)).
    unfold registration_role in Erole. destruct (reg_dcdw_label r) as [l|]; [|left; by simplify_eq].
    repeat case_match; simplify_eq; eauto.
  - cbn. by destruct (reg_status r).
  - intros id. unfold Find. cbn. case_decide as E; [subst; apply lookup_insert_eq|by apply lookup_insert_ne, not_eq_sym].
Qed.

Lemma ApplyTelemetry_new reg id te t :
  registry_ok reg →
  match records reg !! id with
  | Some old =>
      if match tel_device_type te with Some ty => bool_decide (ty = dr_device_type old) | None => true end then
        ∃ m reg', ApplyTelemetry reg id te t = Ok (m, reg') ∧ measured te t old (mut_record m) ∧
          dr_device_id (mut_record m) = id ∧ mut_reason m = kTelemetryReason ∧
          mut_status_changed m = negb (bool_decide (dr_status old = kOnline)) ∧
          ∀ i, Find reg' i = if decide (i = id) then Some (mut_record m) else Find reg i
      else ∃ e, ApplyTelemetry reg id te t = Unexpected e
  | None => ∃ e, ApplyTelemetry reg id te t = Unexpected e
  end.
Proof.
  intros Hok. unfold ApplyTelemetry. destruct (records reg !! id) as [old|] eqn:Hr; [|by eexists].
  assert (dr_device_id old = id) as Hid by by apply Hok.
  assert ((match tel_device_type te with Some ty => negb (bool_decide (ty = dr_device_type old)) | None => false end)
    = negb (match tel_device_type te with Some ty => bool_decide (ty = dr_device_type old) | None => true end)) as ->
    by by destruct (tel_device_type te).
  destruct (match tel_device_type te with Some ty => _ | None => true end); cbn [negb]; [|by eexists].
  destruct (telemetry_role _ _ _) as [[d new_role] lab] eqn:Erole.
  eexists _, _. split; [reflexivity|]. split; [|split_and!; try done].
  - split; cbn; try done. unfold telemetry_role in Erole. repeat case_match; simplify_eq; eauto.
  - intros i. unfold Find. cbn. rewrite Hid. case_decide as E; [subst; apply lookup_insert_eq|by apply lookup_insert_ne, not_eq_sym].
Qed.
End Messages.

(** C32: What a device message does, by cases.  A registration that parses, of a device that is known
    with this type, replaces its record by the one with the reported status, product, version
    and capabilities, one revision later; telemetry that parses, of a known device of this type,
    by the one with the payload and the time of reception, online; in both cases the columns it
    touches are owed at the new revision and no others, and exactly one event with the new record
    and its reason is published (or the failure of the sink is diagnosed).  A registration of an
    unknown device, with the database available, waits to be provisioned, and changes nothing
    else.  Everything else changes nothing at all. *)
Theorem accepted_message_carried_out `{JL : JsonLib, MO : MapOrder} env cfg loads ops m :
  let s := service_run env cfg (MakeDeviceService env cfg (run_ops empty_registry loads)) ops in
  let s' := HandleMessage env cfg s m in
  match ParseDeviceTopic (topic_namespace cfg) (m_topic m) with
  | Ok {| DeviceTopic.device_id := id; DeviceTopic.kind := kRegistration |} =>
      match ParseRegistration (m_payload m) id with
      | Ok r =>
          match Find (registry_ s) id with
          | Some old =>
              if bool_decide (dr_device_type old = reg_device_type r) then
                ∃ new, registered r (m_received_at m) old new ∧
                  delivered env s s' new
                    match reg_status r with kRegOnline => kRegistrationOnline | _ => kRegistrationOffline end
                    (λ c, match c with TelemetryColumns => false | _ => true end)
              else s' = s
          | None =>
              if database_unavailable_ s then s' = s
              else awaits_provisioning s s' r (m_received_at m)
          end
      | Unexpected _ => s' = s
      end
  | Ok {| DeviceTopic.device_id := id; DeviceTopic.kind := kTelemetry |} =>
      match ParseTelemetry (m_payload m) id with
      | Ok te =>
          match Find (registry_ s) id with
          | Some old =>
              if match tel_device_type te with Some ty => bool_decide (ty = dr_device_type old) | None => true end then
                ∃ new, measured te (m_received_at m) old new ∧
                  delivered env s s' new kTelemetryReason
                    (λ c, match c with
                          | TelemetryColumns => true
                          | StatusColumns => negb (bool_decide (dr_status old = kOnline))
                          | Metadata => false
                          end)
              else s' = s
          | None => s' = s
          end
      | Unexpected _ => s' = s
      end
  | Unexpected _ => s' = s
  end.
Proof.
  intros s. assert (registry_ok (registry_ s)) as Hok.
  { destruct (service_run_reaches env cfg (MakeDeviceService env cfg (run_ops empty_registry loads)) ops) as [calls E].
    fold s in E. rewrite E. cbn. apply run_ops_ok, run_ops_ok, empty_registry_ok. }
  clearbody s. cbv zeta. unfold HandleMessage.
  destruct (ParseDeviceTopic _ _) as [[id []]|]; [| |done]; cbn [DeviceTopic.kind DeviceTopic.device_id].
  - destruct (ParseRegistration _ _) as [r|] eqn:Er; [|done].
    destruct (ParseRegistration_valid _ _ _ Er) as [Hid _]. subst id. unfold handle_registration.
    pose proof (ApplyRegistration_new (registry_ s) r (m_received_at m) Hok) as Ha. unfold Find.
    destruct (records (registry_ s) !! reg_device_id r) as [old|]; cycle 1.
    { destruct (database_unavailable_ s); [done|]. split_and!; try done.
      - eexists. split; [apply lookup_insert_eq|]. destruct (pending_ s !! _) as [p|]; [|naive_solver].
        split; [by exists p|]. by intros (q & [= <-] & ?).
      - intros id Hne. by apply lookup_insert_ne, not_eq_sym. }
    case_bool_decide; [|by destruct Ha as [e ->]].
    destruct Ha as (mu & reg & -> & Hreg & Hreason & Hf). exists (mut_record mu). split; [done|].
    pose proof (Mark_delivered env s mu reg Hf) as H'.
    assert (∀ c, selects (WriteFor mu kImmediate) c = match c with TelemetryColumns => false | _ => true end) as Hc.
    { intros c. unfold WriteFor. rewrite Hreason. by destruct c, (reg_status r). }
    rewrite Hreason in H'. destruct H'. split; try done. intros c. by rewrite <- Hc.
  - destruct (ParseTelemetry _ _) as [te|]; [|done].
    pose proof (ApplyTelemetry_new (registry_ s) id te (m_received_at m) Hok) as Ha. unfold Find.
    destruct (records (registry_ s) !! id) as [old|]; [|by destruct Ha as [e ->]].
    destruct (match tel_device_type te with Some ty => _ | None => true end); [|by destruct Ha as [e ->]].
    destruct Ha as (mu & reg & -> & Hm & Hid & Hreason & Hst & Hf). exists (mut_record mu). split; [done|].
    subst id. pose proof (Mark_delivered env s mu reg Hf) as H'.
    assert (∀ c, selects (WriteFor mu kImmediate) c =
      match c with TelemetryColumns => true | StatusColumns => negb (bool_decide (dr_status old = kOnline)) | Metadata => false end) as Hc.
    { intros c. unfold WriteFor. rewrite Hreason, Hst. by destruct c. }
    rewrite Hreason in H'. destruct H'. split; try done. intros c. by rewrite <- Hc.
Qed.

(** ** The flush on shutdown *)
Section Flush.
Context `{JL : JsonLib, MO : MapOrder} (env : Environment) (cfg : Configuration).
Implicit Types s : DeviceService.
Lemma SubmitWrite_accepted s w :
  (SubmitWrite env s w).1 = true →
  let s' := (SubmitWrite env s w).2 in
  dirty_ s' = dirty_ s ∧ outputs s' = outputs s ++ [WriteCall w] ∧
  submitted_ s' = <[w_device_id w := w]> (submitted_ s).
Proof.
  unfold SubmitWrite. destruct (write_reply _ _); [|done..]. intros _. cbn [snd].
  set (s1 := emit _ _). assert (dirty_ s1 = dirty_ s ∧ outputs s1 = outputs s ++ [WriteCall w] ∧
    submitted_ s1 = submitted_ s) as (E1 & E2 & E3) by done. clearbody s1.
  rewrite <- E1, <- E2, <- E3. by destruct (submitted_ s1 !! _).
Qed.

Lemma send_accepted s ws :
  (send env s ws).1 = true → NoDup (w_device_id <$> ws) →
  let s' := (send env s ws).2 in
  dirty_ s' = dirty_ s ∧ outputs s' = outputs s ++ (WriteCall <$> ws) ∧
  (∀ w, w ∈ ws → submitted_ s' !! w_device_id w = Some w) ∧
  (∀ id, id ∉ (w_device_id <$> ws) → submitted_ s' !! id = submitted_ s !! id).
Proof.
  revert s. induction ws as [|w ws IH]; intros s Hs Hnd; cbn zeta.
  { cbn. rewrite app_nil_r. do 2 (split; [done|]). split; [|done]. intros w Hw. by apply elem_of_nil in Hw. }
  cbn [send fst snd] in *. apply andb_true_iff in Hs as [H1 H2].
  rewrite fmap_cons, NoDup_cons in Hnd. destruct Hnd as [Hw Hnd].
  destruct (SubmitWrite_accepted s w H1) as (A1 & A2 & A3).
  destruct (IH _ H2 Hnd) as (B1 & B2 & B3 & B4).
  split; [congruence|]. split; [rewrite B2, A2, <- app_assoc; done|]. split.
  - intros w' [->|Hw']%elem_of_cons; [|by apply B3].
    rewrite B4 by done. rewrite A3. apply lookup_insert_eq.
  - intros id Hid. rewrite fmap_cons, not_elem_of_cons in Hid. destruct Hid as [Hne Hid].
    rewrite B4 by done. rewrite A3. by rewrite lookup_insert_ne.
Qed.
End Flush.

(** C13: On shutdown with the database available, the dispatch that succeeds hands every device with
    something dirty, and no other, to the database, in one write per device that carries the
    record and revision of the buffer and selects exactly its dirty columns, at least one; the
    writes are all that comes out, each is then waited for, and nothing is left dirty:
    everything that was owed is in flight. *)
Theorem shutdown_flush `{JL : JsonLib, MO : MapOrder} env cfg s :
  dirty_ok (dirty_ s) → input_drained_ s = true → database_unavailable_ s = false →
  drain_submission_blocked_ s = false → drain_dispatch_pending_ s = true →
  let s' := DispatchWrites env cfg s in
  drain_dispatch_pending_ s' = false →
  (∀ id c, dirty (dirty_ s') id c = 0 ∧ in_flight (dirty_ s') id c = owed (dirty_ s) id c) ∧
  ∃ writes, outputs s' = outputs s ++ (WriteCall <$> writes) ∧
    NoDup (w_device_id <$> writes) ∧
    (∀ id, id ∈ (w_device_id <$> writes) ↔ ∃ c, dirty (dirty_ s) id c ≠ 0) ∧
    ∀ w, w ∈ writes →
      submitted_ s' !! w_device_id w = Some w ∧
      (∃ entry, dirty_ s !! w_device_id w = Some entry ∧
         w_record w = e_record entry ∧ w_revision w = e_revision entry) ∧
      (∃ c, selects w c = true) ∧
      (∀ c, selects w c = true ↔ dirty (dirty_ s) (w_device_id w) c ≠ 0) ∧
      (∀ c, dirty (dirty_ s) (w_device_id w) c <= w_revision w).
Proof.
  intros Hok Hd Hu Hb Hp s'. subst s'. unfold DispatchWrites. rewrite Hu, Hd, Hb.
  set (s1 := s <| dirty_ := (TakeAllDirty (dirty_ s)).2 |>).
  assert (drain_dispatch_pending_ (send env s1 (TakeAllDirty (dirty_ s)).1).2 = true) as Hpend.
  { assert (∀ ws s0, drain_dispatch_pending_ (send env s0 ws).2 = drain_dispatch_pending_ s0) as H.
    { induction ws as [|w ws IH]; intros s0; [done|]. cbn [send snd]. rewrite IH.
      unfold SubmitWrite, submit_failed, Publish. destruct (write_reply _ _); cbn;
        repeat case_match; done. }
    by rewrite H. }
  destruct (send env s1 (TakeAllDirty (dirty_ s)).1).1 eqn:Es; intros Hdone; cycle 1.
  { change (drain_dispatch_pending_ (send env s1 (TakeAllDirty (dirty_ s)).1).2 = false) in Hdone.
    congruence. }
  destruct (send_accepted env s1 _ Es (DirtyState.Take_NoDup _ _ _ _ _ Hok))
    as (A1 & A2 & A3 & _). cbn [dirty_ outputs submitted_ update] in *.
  assert (Hok' := DirtyState.dirty_step_ok (dirty_ s) (OpTake false 0 0 true) Hok I).
  cbn [dirty_step] in Hok'. fold (TakeAllDirty (dirty_ s)) in Hok'.
  split.
  { intros id c. rewrite A1. change (dirty_ s1) with (TakeAllDirty (dirty_ s)).2.
    split; [apply DirtyState.Take_all_clean|].
    rewrite <- (DirtyState.Take_owed (dirty_ s) false 0 0 true) by done.
    fold (TakeAllDirty (dirty_ s)). rewrite DirtyState.owed_split, DirtyState.Take_all_clean.
    pose proof (DirtyState.in_flight_nonneg _ id c Hok'). lia. }
  exists (TakeAllDirty (dirty_ s)).1. split; [exact A2|]. split; [by apply DirtyState.Take_NoDup|].
  split; [intros id; by apply DirtyState.Take_all_ids|]. intros w Hw. split; [by apply A3|].
  apply Take_writes in Hw as (e & He & Hm & E); [|done]. rewrite matching_force in Hm.
  apply HasDirty_field in Hm as [c0 Hc0]. destruct (Hok _ _ He) as (_ & _ & _ & Hf).
  assert (w_record w = e_record e ∧ w_revision w = e_revision e ∧
    ∀ c, selects w c = negb (dirty_revision (field_of e c) =? 0)) as (E1 & E2 & E3)
    by (rewrite E; split_and!; [done..|apply write_of_selects]).
  unfold dirty. rewrite He, E2. split; [by exists e|]. split_and!.
  - exists c0. rewrite E3. by apply negb_true_iff, Z.eqb_neq.
  - intros c. by rewrite E3, negb_true_iff, Z.eqb_neq.
  - intros c. apply Hf.
Qed.

(** ** Concrete runs *)
Definition sample_env : Environment :=
  {| provision_reply := λ _, Accepted; write_reply := λ _, Accepted;
     events_reply := λ _, Accepted; steady_clock := λ n, Z.of_nat n * 1000000 |}.
Definition sample_cfg : Configuration :=
  {| topic_namespace := "cns"; telemetry_interval := seconds 5; offline_timeout := seconds 60;
     has_snapshots := true; queue_capacity := 1024 |}.
Definition sample_registration (id : string) : Registration :=
  {| reg_device_id := id; reg_status := kRegOnline; reg_school_name := Some "S";
     reg_dcdw_label := Some "A"; reg_device_type := kCnsBox; reg_capabilities := None;
     reg_product := None; reg_version := None |}.
Definition registration_message (id : string) : InboundMessage :=
  {| m_topic := "cns/" +:+ id +:+ "/registration";
     m_payload := codec_dump (registration_json (sample_registration id));
     m_received_at := 5 |}.
Definition provisioned (record : DeviceRecord) : DatabaseResult :=
  {| r_kind := kProvisioned; r_device_id := dr_device_id record; r_revision := dr_revision record;
     r_provisioned := Some record |}.
Definition unavailable (id : string) : DatabaseResult :=
  {| r_kind := kUnavailable; r_device_id := id; r_revision := 0; r_provisioned := None |}.

Definition sample_start (reg : DeviceRegistry) : DeviceService :=
  MakeDeviceService sample_env sample_cfg reg.
Definition sample_run (reg : DeviceRegistry) (ops : list ServiceOp) : DeviceService :=
  service_run (JL := codec_lib) (MO := key_order) sample_env sample_cfg (sample_start reg) ops.

(** A device is seen, provisioned and written: the books are empty again. *)
Definition sample_ops : list ServiceOp :=
  [OpPushMessage (registration_message "d1"); OpProcessReady 10;
   OpPushResult (provisioned (sample_record "d1" 1)); OpProcessReady 20].

Lemma outstanding_work_accounting_witness :
  clean_run (JL := codec_lib) (MO := key_order) sample_env sample_cfg
    (sample_start empty_registry) sample_ops = true ∧
  outstanding_database_work_ (sample_run empty_registry sample_ops)
    = u64 (submitted_count (pending_ (sample_run empty_registry sample_ops))
           + Z.of_nat (size (submitted_ (sample_run empty_registry sample_ops)))) ∧
  outstanding_database_work_ (sample_run empty_registry sample_ops) = 1.
Proof.
  assert (clean_run (JL := codec_lib) (MO := key_order) sample_env sample_cfg
    (sample_start empty_registry) sample_ops = true) as H by (vm_compute; reflexivity).
  split; [exact H|]. split; [|vm_compute; reflexivity].
  apply (outstanding_work_accounting (JL := codec_lib) (MO := key_order) sample_env sample_cfg
    empty_registry sample_ops H).
Defined.

(** *** The counter underflows after a refused provisioning

    Device d0 of school S holds role A.  The database provisions d1 with the same
    role; the directory refuses it.  The handler gives the unit of work back but
    leaves the candidate pending and marked as submitted, so the next outage gives
    it back once more, and the counter wraps to 2^64 - 1: the service never becomes
    idle again. *)
Definition role_holder : DeviceRegistry :=
  match Load [sample_record "d0" 1] with Ok reg => reg | Unexpected _ => empty_registry end.
Definition underflow_ops : list ServiceOp :=
  [OpPushMessage (registration_message "d1"); OpProcessReady 10;
   OpPushResult (provisioned (sample_record "d1" 1)); OpProcessReady 20;
   OpPushResult (unavailable "d1"); OpProcessReady 30].

Lemma refused_provisioning_underflows :
  outstanding_database_work_ (sample_run role_holder underflow_ops) = max_u64 ∧
  pending_ (sample_run role_holder underflow_ops) = ∅ ∧
  submitted_ (sample_run role_holder underflow_ops) = ∅ ∧
  database_idle (sample_run role_holder underflow_ops) = false.
Proof. vm_compute. done. Qed.

Definition drained_start : DeviceService :=
  (sample_start empty_registry)
    <| dirty_ := DirtyState.Mark ∅ (sample_write "d1" 3 true) 10 |>
    <| closed_ := true |> <| input_drained_ := true |> <| drain_dispatch_pending_ := true |>.

Lemma shutdown_flush_witness :
  ∃ w, w_device_id w = "d1" ∧ selects w TelemetryColumns = true ∧ 3 <= w_revision w ∧
    submitted_ (DispatchWrites (MO := key_order) sample_env sample_cfg drained_start) !! "d1"
      = Some w.
Proof.
  assert (dirty_ok (dirty_ drained_start)) as Hok.
  { apply (dirty_steps_ok (H := key_order) ∅ [OpMark (sample_write "d1" 3 true) 10]).
    - apply dirty_ok_empty.
    - apply Forall_cons; split; [vm_compute; intuition discriminate|apply Forall_nil_2]. }
  destruct (shutdown_flush (JL := codec_lib) (MO := key_order) sample_env sample_cfg drained_start
    Hok eq_refl eq_refl eq_refl eq_refl) as (_ & writes & _ & _ & Hids & H); [vm_compute; reflexivity|].
  assert (dirty (dirty_ drained_start) "d1" TelemetryColumns = 3) as Hd by (vm_compute; reflexivity).
  assert ("d1" ∈ (w_device_id <$> writes)) as Hin by (apply Hids; exists TelemetryColumns; by rewrite Hd).
  apply list_elem_of_fmap in Hin as (w & Hid & Hw). destruct (H w Hw) as (Hs & _ & _ & Hc & Hr).
  specialize (Hc TelemetryColumns). specialize (Hr TelemetryColumns). rewrite <- Hid, Hd in Hc, Hr.
  exists w. rewrite <- Hid in Hs. split; [by rewrite Hid|]. split; [by apply Hc|]. by split.
Defined.
