(* ===== verification/PostgresWorker.v ===== *)
(** * PostgresWorker: src/route_service/src/core/runtime/postgres_worker.cpp

    The thread that owns the database connection.  A turn of its loop takes a job
    under the mutex, runs it on the store without the mutex, and records the
    outcome under the mutex again; the other threads submit work in between.  The
    store is not part of this component: its answer to a job is an argument of the
    step that records it. *)

From Stdlib Require Import ZArith Lia.
From S2P Require Import Prelude Json CommandTypes CommandState.
From S2P Require Import DeviceMessage DeviceRegistry DirtyState DeviceService.
From stdpp Require Import options.

Inductive ErrorKind := kErrUnavailable | kErrPermanent.
Record DatabaseError := { err_kind : ErrorKind; err_message : string }.

(** [std::variant] of the command tasks and of their values. *)
Inductive CommandDatabaseTask :=
| FindCommandTask (source_id request_id : string)
| FindCommandByIdTask (command_id : string)
| InsertCommandTask (command : CommandRecord)
| TransitionCommandTask (command_id : string) (expected_ desired : CommandStatus)
    (upd : CommandUpdate)
| RecoverControlCommandsTask (recovered_at : TimePoint) (limit : Z)
| CleanupCommandsTask (before : TimePoint) (batch_size : Z).

Inductive CommandDatabaseValue :=
| NoValue
| OptionalCommand (command : option CommandRecord)
| OneCommand (command : CommandRecord)
| Commands (commands : list CommandRecord)
| Count (n : Z).

Record CommandDatabaseResult := {
  cd_operation_id : Z;
  cd_value : expected CommandDatabaseValue DatabaseError
}.

Record ProvisionTask := { pt_registration : Registration; pt_received_at : TimePoint }.

(** A job on the store; or what is left of one when the thread has let go of the mutex
    before it takes it once more: [GiveUp] after a permanent failure to reconnect was
    reported, [LoseProvision] when a provisioning met a lost connection. *)
Inductive Job :=
| Reconnect
| GiveUp
| CommandJob (operation_id : Z) (task : CommandDatabaseTask)
| ProvisionJob (task : ProvisionTask)
| LoseProvision (device_id : string)
| WriteJob (write : DesiredDeviceWrite).

Record PostgresWorker := {
  provisions_ : gmap string ProvisionTask;
  writes_ : gmap string DesiredDeviceWrite;
  provisioning_ : gset string;
  commands_ : list (Z * CommandDatabaseTask);
  command_operations_ : gset Z;
  unavailable_ : bool;
  accepting_ : bool;
  drain_requested_ : bool;
  worker_stopped_ : bool;
  reconnect_at_ : TimePoint;
  (* the job the thread is running on the store *)
  running : option Job
}.

#[export] Instance PostgresWorker_members : Members PostgresWorker := λ s,
  {| provisions_ := provisions_ s; writes_ := writes_ s; provisioning_ := provisioning_ s;
     commands_ := commands_ s; command_operations_ := command_operations_ s;
     unavailable_ := unavailable_ s; accepting_ := accepting_ s;
     drain_requested_ := drain_requested_ s; worker_stopped_ := worker_stopped_ s;
     reconnect_at_ := reconnect_at_ s; running := running s |}.

Definition MakePostgresWorker : PostgresWorker :=
  {| provisions_ := ∅; writes_ := ∅; provisioning_ := ∅; commands_ := [];
     command_operations_ := ∅; unavailable_ := false; accepting_ := true;
     drain_requested_ := false; worker_stopped_ := false; reconnect_at_ := 0;
     running := None |}.

(** What the worker sends out. *)
Inductive WorkerOutput :=
| Emitted (result : DatabaseResult)
| EmittedCommand (result : CommandDatabaseResult)
| Replayed
| WorkerDiagnosed (message : string).

Definition MergeWrite (writes : gmap string DesiredDeviceWrite) (write : DesiredDeviceWrite) :
    gmap string DesiredDeviceWrite :=
  let id := w_device_id write in
  match writes !! id with
  | None => <[id := write]> writes
  | Some current =>
      let newer := w_revision current <=? w_revision write in
      <[id := {| w_record := if newer then w_record write else w_record current;
                 w_revision := if newer then w_revision write else w_revision current;
                 w_metadata := w_metadata current || w_metadata write;
                 w_status := w_status current || w_status write;
                 w_telemetry := w_telemetry current || w_telemetry write;
                 w_urgency := raise_urgency (w_urgency current) (w_urgency write) |}]> writes
  end.

Definition HasWork (s : PostgresWorker) : bool :=
  negb (bool_decide (commands_ s = [])) || negb (bool_decide (provisions_ s = ∅))
  || negb (bool_decide (writes_ s = ∅)).

(** ** Submissions *)
Definition SubmitProvision (s : PostgresWorker) (registration : Registration)
    (at_ : TimePoint) : bool * PostgresWorker :=
  if negb (accepting_ s) || unavailable_ s then (false, s)
  else if bool_decide (reg_device_id registration ∈ provisioning_ s) then (false, s)
  else (true, s <| provisions_ := <[reg_device_id registration :=
                     {| pt_registration := registration; pt_received_at := at_ |}]>
                       (provisions_ s) |>).

Definition SubmitWrite (s : PostgresWorker) (write : DesiredDeviceWrite) :
    bool * PostgresWorker :=
  if negb (accepting_ s) then (false, s)
  else (true, s <| writes_ := MergeWrite (writes_ s) write |>).

Definition SubmitCommand (max_inflight : nat) (s : PostgresWorker) (operation_id : Z)
    (task : CommandDatabaseTask) : bool * PostgresWorker :=
  if negb (accepting_ s) || bool_decide (operation_id ∈ command_operations_ s)
     || (max_inflight <=? size (command_operations_ s))%nat
  then (false, s)
  else (true, s <| command_operations_ := {[operation_id]} ∪ command_operations_ s |>
                <| commands_ := commands_ s ++ [(operation_id, task)] |>).

Definition RequestDrain (s : PostgresWorker) : PostgresWorker :=
  s <| accepting_ := false |> <| drain_requested_ := true |>.

Definition Finish (s : PostgresWorker) : PostgresWorker :=
  s <| worker_stopped_ := true |> <| accepting_ := false |>.

Definition IsDatabaseAvailable (s : PostgresWorker) : bool :=
  accepting_ s && negb (unavailable_ s).

Definition PendingDeviceCount (s : PostgresWorker) : nat :=
  size (dom (provisions_ s) ∪ dom (writes_ s) ∪ provisioning_ s).

(** ** Taking a job

    [provisions_.begin()] and [writes_.begin()] are the first entry in the order
    of the hash map. *)
Definition pick `{MapOrder} (s : PostgresWorker) (stop : bool) (now : TimePoint) :
    PostgresWorker :=
  if stop then Finish s
  else if unavailable_ s then
    if now <? reconnect_at_ s then s else s <| running := Some Reconnect |>
  else
    match commands_ s with
    | (operation_id, task) :: rest =>
        s <| commands_ := rest |> <| running := Some (CommandJob operation_id task) |>
    | [] =>
        match map_order (provisions_ s) with
        | (id, task) :: _ =>
            s <| provisions_ := delete id (provisions_ s) |>
              <| provisioning_ := {[id]} ∪ provisioning_ s |>
              <| running := Some (ProvisionJob task) |>
        | [] =>
            match map_order (writes_ s) with
            | (id, write) :: _ =>
                s <| writes_ := delete id (writes_ s) |> <| running := Some (WriteJob write) |>
            | [] => if drain_requested_ s then Finish s else s
            end
        end
    end.

(** ** Recording the outcome

    What the store answered; an exception is the permanent error the handler makes
    of it, with another message when it is no [std::exception]. *)
Inductive StoreReply (T : Type) :=
| Returned (value : expected T DatabaseError)
| Thrown
| ThrownUnknown.
Arguments Returned {T} value.
Arguments Thrown {T}.
Arguments ThrownUnknown {T}.

Definition outcome {T} (reply : StoreReply T) (message unknown : string) :
    expected T DatabaseError :=
  match reply with
  | Returned value => value
  | Thrown => Unexpected {| err_kind := kErrPermanent; err_message := message |}
  | ThrownUnknown => Unexpected {| err_kind := kErrPermanent; err_message := unknown |}
  end.

Definition is_unavailable (e : DatabaseError) : bool :=
  match err_kind e with kErrUnavailable => true | kErrPermanent => false end.

Definition device_result (kind : ResultKind) (device_id : string) (revision : Z)
    (provisioned : option DeviceRecord) : WorkerOutput :=
  Emitted {| r_kind := kind; r_device_id := device_id; r_revision := revision;
             r_provisioned := provisioned |}.

Section Outcomes.
Context (reconnect_interval : TimePoint).

Definition lose_connection (s : PostgresWorker) (now : TimePoint) : PostgresWorker :=
  s <| unavailable_ := true |> <| reconnect_at_ := now + reconnect_interval |>
    <| provisions_ := ∅ |>.

Definition finish_reconnect (s : PostgresWorker) (reply : StoreReply unit) (now : TimePoint) :
    list WorkerOutput * PostgresWorker :=
  match outcome reply "数据库重连校验端口异常" "数据库重连校验发生未知异常" with
  | Ok _ =>
      ([device_result kRecovered "" 0 None; Replayed], s <| unavailable_ := false |>)
  | Unexpected e =>
      if is_unavailable e then
        ([WorkerDiagnosed "数据库重连暂不可用"],
         s <| reconnect_at_ := now + reconnect_interval |>)
      else
        ([device_result kPermanentFailure "" 0 None;
          WorkerDiagnosed "数据库迁移版本校验永久失败"],
         s <| running := Some GiveUp |>)
  end.

(** What follows the report, under the mutex again. *)
Definition abandon_queues (s : PostgresWorker) : PostgresWorker :=
  Finish (s <| accepting_ := false |> <| provisions_ := ∅ |> <| writes_ := ∅ |>
            <| commands_ := [] |> <| command_operations_ := ∅ |>).

Definition finish_command (s : PostgresWorker) (operation_id : Z) (task : CommandDatabaseTask)
    (reply : StoreReply CommandDatabaseValue) (now : TimePoint) :
    list WorkerOutput * PostgresWorker :=
  let result := outcome reply "数据库命令端口异常" "数据库命令端口发生未知异常" in
  match result with
  | Unexpected e =>
      if is_unavailable e then
        ([WorkerDiagnosed "数据库命令操作暂不可用"],
         (lose_connection s now) <| commands_ := (operation_id, task) :: commands_ s |>)
      else
        ([EmittedCommand {| cd_operation_id := operation_id; cd_value := result |}],
         s <| command_operations_ := command_operations_ s ∖ {[operation_id]} |>)
  | Ok _ =>
      ([EmittedCommand {| cd_operation_id := operation_id; cd_value := result |}],
       s <| command_operations_ := command_operations_ s ∖ {[operation_id]} |>)
  end.

Definition finish_provision (s : PostgresWorker) (task : ProvisionTask)
    (reply : StoreReply DeviceRecord) : list WorkerOutput * PostgresWorker :=
  let id := reg_device_id (pt_registration task) in
  let s := s <| provisioning_ := provisioning_ s ∖ {[id]} |>
             <| provisions_ := delete id (provisions_ s) |> in
  match outcome reply "数据库建档端口异常" "数据库建档发生未知异常" with
  | Ok record => ([device_result kProvisioned id (dr_revision record) (Some record)], s)
  | Unexpected e =>
      if is_unavailable e then ([], s <| running := Some (LoseProvision id) |>)
      else
        ([device_result kPermanentFailure id 0 None; WorkerDiagnosed "数据库建档永久失败"], s)
  end.

(** The second critical section, and the report. *)
Definition lose_provision (s : PostgresWorker) (device_id : string) (now : TimePoint) :
    list WorkerOutput * PostgresWorker :=
  ([device_result kUnavailable device_id 0 None; WorkerDiagnosed "数据库建档暂不可用"],
   lose_connection s now).

Definition finish_write (s : PostgresWorker) (write : DesiredDeviceWrite)
    (reply : StoreReply unit) (now : TimePoint) : list WorkerOutput * PostgresWorker :=
  let id := w_device_id write in
  match outcome reply "数据库写入端口异常" "数据库写入发生未知异常" with
  | Ok _ => ([device_result kWriteCompleted id (w_revision write) None], s)
  | Unexpected e =>
      if is_unavailable e then
        ([device_result kUnavailable id (w_revision write) None;
          WorkerDiagnosed "数据库写入暂不可用"],
         (lose_connection s now) <| writes_ := MergeWrite (writes_ s) write |>)
      else
        ([device_result kPermanentFailure id (w_revision write) None;
          WorkerDiagnosed "数据库写入永久失败"], s)
  end.

(** The answers of the store to the four kinds of jobs. *)
Record StoreReplies := {
  reply_reconnect : StoreReply unit;
  reply_command : StoreReply CommandDatabaseValue;
  reply_provision : StoreReply DeviceRecord;
  reply_write : StoreReply unit
}.

Definition finish_job (s : PostgresWorker) (replies : StoreReplies) (now : TimePoint) :
    list WorkerOutput * PostgresWorker :=
  let idle := s <| running := None |> in
  match running s with
  | None => ([], s)
  | Some Reconnect => finish_reconnect idle (reply_reconnect replies) now
  | Some GiveUp => ([], abandon_queues idle)
  | Some (CommandJob id task) => finish_command idle id task (reply_command replies) now
  | Some (ProvisionJob task) => finish_provision idle task (reply_provision replies)
  | Some (LoseProvision id) => lose_provision idle id now
  | Some (WriteJob write) => finish_write idle write (reply_write replies) now
  end.

(** ** Interleavings of the threads *)
Inductive WorkerOp :=
| OpSubmitProvision (registration : Registration) (at_ : TimePoint)
| OpSubmitWrite (write : DesiredDeviceWrite)
| OpSubmitCommand (operation_id : Z) (task : CommandDatabaseTask)
| OpDrain
| OpPick (stop : bool) (now : TimePoint)
| OpFinishJob (replies : StoreReplies) (now : TimePoint).

Definition worker_step `{MapOrder} (max_inflight : nat) (s : PostgresWorker) (op : WorkerOp) :
    list WorkerOutput * PostgresWorker :=
  match op with
  | OpSubmitProvision r at_ => ([], (SubmitProvision s r at_).2)
  | OpSubmitWrite w => ([], (SubmitWrite s w).2)
  | OpSubmitCommand id task => ([], (SubmitCommand max_inflight s id task).2)
  | OpDrain => ([], RequestDrain s)
  | OpPick stop now =>
      if worker_stopped_ s || bool_decide (is_Some (running s)) then ([], s)
      else ([], pick s stop now)
  | OpFinishJob replies now => finish_job s replies now
  end.

Fixpoint worker_run `{MapOrder} (max_inflight : nat) (s : PostgresWorker)
    (ops : list WorkerOp) : list WorkerOutput * PostgresWorker :=
  match ops with
  | [] => ([], s)
  | op :: rest =>
      let r := worker_step max_inflight s op in
      let q := worker_run max_inflight r.2 rest in
      (r.1 ++ q.1, q.2)
  end.
End Outcomes.

(** ** Command operations *)

(** The operations accepted and not answered yet, in order. *)
Definition command_ids (s : PostgresWorker) : list Z :=
  (match running s with Some (CommandJob id _) => [id] | _ => [] end) ++ (commands_ s).*1.

Definition emitted_ids (outs : list WorkerOutput) : list Z :=
  omap (λ o, match o with EmittedCommand r => Some (cd_operation_id r) | _ => None end) outs.

Definition accepted_id (max_inflight : nat) (s : PostgresWorker) (op : WorkerOp) : list Z :=
  match op with
  | OpSubmitCommand id task => if (SubmitCommand max_inflight s id task).1 then [id] else []
  | _ => []
  end.

Fixpoint accepted_ids `{MapOrder} (itv : TimePoint) (max_inflight : nat) (s : PostgresWorker)
    (ops : list WorkerOp) : list Z :=
  match ops with
  | [] => []
  | op :: rest =>
      accepted_id max_inflight s op
      ++ accepted_ids itv max_inflight (worker_step itv max_inflight s op).2 rest
  end.

(** The invariant: the set of operations in flight is exactly the queue, bounded;
    writes are stored under their device; a stopped worker runs and accepts nothing. *)
Record worker_ok (max_inflight : nat) (s : PostgresWorker) : Prop := {
  ok_operations : command_operations_ s = list_to_set (command_ids s);
  ok_nodup : NoDup (command_ids s);
  ok_bound : (length (command_ids s) <= max_inflight)%nat;
  ok_writes : map_Forall (λ id w, w_device_id w = id) (writes_ s);
  ok_stopped : worker_stopped_ s = true → running s = None ∧ accepting_ s = false
}.

Lemma size_command_ids m s : worker_ok m s → size (command_operations_ s) = length (command_ids s).
Proof. intros H. rewrite (ok_operations _ _ H). apply size_list_to_set, (ok_nodup _ _ H). Qed.

(** Steps that touch neither the commands nor the running job. *)
Lemma worker_ok_frame m s s' :
  worker_ok m s → command_operations_ s' = command_operations_ s →
  command_ids s' = command_ids s → running s' = running s →
  map_Forall (λ id w, w_device_id w = id) (writes_ s') →
  (worker_stopped_ s' = true → running s' = None ∧ accepting_ s' = false) → worker_ok m s'.
Proof. intros [H1 H2 H3 H4 H5] E1 E2 E3 E4 E5. split; rewrite ?E1, ?E2; done. Qed.

Lemma MergeWrite_keys ws w :
  map_Forall (λ id w, w_device_id w = id) ws →
  map_Forall (λ id w, w_device_id w = id) (MergeWrite ws w).
Proof.
  intros H. unfold MergeWrite. destruct (ws !! w_device_id w) as [c|] eqn:E.
  - apply map_Forall_insert_2; [|done]. unfold w_device_id in *. cbn.
    destruct (w_revision c <=? w_revision w); cbn; [done|]. apply (H _ _ E).
  - by apply map_Forall_insert_2.
Qed.

Section WorkerFacts.
Context `{MO : MapOrder} (itv : TimePoint) (m : nat).
Implicit Types s : PostgresWorker.

Lemma SubmitCommand_ok s id task :
  worker_ok m s → worker_ok m (SubmitCommand m s id task).2 ∧
  command_ids (SubmitCommand m s id task).2 =
    command_ids s ++ accepted_id m s (OpSubmitCommand id task).
Proof.
  intros H. cbn. unfold SubmitCommand.
  destruct (negb (accepting_ s) || _ || _) eqn:E; cbn [fst snd]; [by rewrite app_nil_r|].
  apply orb_false_iff in E as [[Ea%negb_false_iff Ei]%orb_false_iff Em].
  apply bool_decide_eq_false in Ei. apply Nat.leb_gt in Em.
  rewrite (size_command_ids m s H) in Em. rewrite (ok_operations _ _ H) in Ei.
  rewrite elem_of_list_to_set in Ei.
  set (s' := s <| command_operations_ := _ |> <| commands_ := _ |>).
  assert (command_ids s' = command_ids s ++ [id]) as E.
  { unfold command_ids. cbn. by rewrite fmap_app, app_assoc. }
  split; [|done]. destruct H as [H1 H2 H3 H4 H5]. split; rewrite ?E.
  - cbn. rewrite H1, list_to_set_app_L. cbn. set_solver.
  - rewrite NoDup_app. split; [done|]. split; [set_solver|apply NoDup_singleton].
  - rewrite length_app. cbn. lia.
  - exact H4.
  - exact H5.
Qed.

Lemma Finish_ok s : worker_ok m s → running s = None → worker_ok m (Finish s).
Proof. intros H Hr. apply (worker_ok_frame m s); try done. apply H. Qed.

(** A job that is no command is taken. *)
Lemma take_job_ok s s' j :
  worker_ok m s → running s = None → worker_stopped_ s = false →
  (match j with CommandJob _ _ => False | _ => True end) →
  running s' = Some j → commands_ s' = commands_ s →
  command_operations_ s' = command_operations_ s → worker_stopped_ s' = false →
  map_Forall (λ id w, w_device_id w = id) (writes_ s') →
  worker_ok m s' ∧ command_ids s' = command_ids s.
Proof.
  intros H Hr Hst Hj E1 E2 E3 E4 Hw.
  assert (command_ids s' = command_ids s) as E.
  { unfold command_ids. rewrite E1, E2, Hr. by destruct j. }
  split; [|done]. destruct H as [H1 H2 H3 H4 H5]. split; rewrite ?E, ?E3, ?E4; done.
Qed.

Lemma pick_ok s stop now :
  worker_ok m s → running s = None → worker_stopped_ s = false →
  worker_ok m (pick s stop now) ∧ command_ids (pick s stop now) = command_ids s.
Proof.
  intros H Hr Hst. unfold pick. destruct stop; [split; [by apply Finish_ok|done]|].
  destruct (unavailable_ s).
  { destruct (now <? _); [done|]. apply (take_job_ok s _ Reconnect); try done; apply (ok_writes _ _ H). }
  destruct (commands_ s) as [|[id task] rest] eqn:Ec.
  - destruct (map_order (provisions_ s)) as [|[id task] ps]; [|].
    + destruct (map_order (writes_ s)) as [|[id w] ws].
      * destruct (drain_requested_ s); [|done]. split; [by apply Finish_ok|done].
      * apply (take_job_ok s _ (WriteJob w)); try done. cbn.
        apply map_Forall_delete, H.
    + apply (take_job_ok s _ (ProvisionJob task)); try done; apply (ok_writes _ _ H).
  - set (s' := s <| commands_ := _ |> <| running := _ |>).
    assert (command_ids s' = command_ids s) as E by (unfold command_ids; cbn; by rewrite Hr, Ec).
    split; [|done]. destruct H as [H1 H2 H3 H4 H5]. split; rewrite ?E; try done.
    subst s'. cbn. congruence.
Qed.

(** A job that is no command ends. *)
Lemma end_job_ok s s' j :
  worker_ok m s → running s = Some j →
  (match j with CommandJob _ _ => False | _ => True end) →
  (match running s' with Some (CommandJob _ _) => False | _ => True end) → commands_ s' = commands_ s →
  command_operations_ s' = command_operations_ s → worker_stopped_ s' = worker_stopped_ s →
  map_Forall (λ id w, w_device_id w = id) (writes_ s') →
  worker_ok m s' ∧ command_ids s' = command_ids s.
Proof.
  intros H Hr Hj E1 E2 E3 E4 Hw.
  assert (command_ids s' = command_ids s) as E.
  { unfold command_ids. rewrite E2, Hr. destruct (running s') as [[]|], j; done. }
  assert (worker_stopped_ s = false) as Hst.
  { destruct (worker_stopped_ s) eqn:Hst; [|done].
    destruct (ok_stopped _ _ H Hst) as [Hn _]. congruence. }
  split; [|done]. destruct H as [H1 H2 H3 H4 H5].
  split; rewrite ?E, ?E3, ?E4; try done. by rewrite Hst.
Qed.

(** The worker gave up on the database for good. *)
Definition gave_up s : Prop :=
  command_ids s = [] ∧ accepting_ s = false ∧ worker_stopped_ s = true.

Lemma finish_job_ok s replies now :
  worker_ok m s →
  let r := finish_job itv s replies now in
  worker_ok m r.2 ∧
  (command_ids s = emitted_ids r.1 ++ command_ids r.2 ∨
   (emitted_ids r.1 = [] ∧ gave_up r.2)).
Proof.
  intros H. unfold finish_job. destruct (running s) as [j|] eqn:Hr; [|split; [done|by left]].
  destruct j as [| |id task|task|id|w].
  - unfold finish_reconnect. destruct (outcome _ _ _) as [?|e]; [|destruct (is_unavailable e)];
      (edestruct (end_job_ok s) as [H1 H2]; [exact H|exact Hr|exact I|..|split;
        [exact H1|left; symmetry; exact H2]]); try done; apply H.
  - split; [|by right]. split; cbn; try done; [constructor|lia].
  - assert (command_ids s = id :: (commands_ s).*1) as Ec by (unfold command_ids; by rewrite Hr).
    assert (worker_stopped_ s = false) as Hst.
    { destruct (worker_stopped_ s) eqn:Hst; [|done].
      destruct (ok_stopped _ _ H Hst) as [Hn _]. congruence. }
    assert (worker_ok m (s <| running := None |>
      <| command_operations_ := command_operations_ s ∖ {[id]} |>)) as Hdone.
    { destruct H as [H1 H2 H3 H4 H5]. rewrite Ec in *. apply NoDup_cons in H2 as [Hid H2].
      split; unfold command_ids; cbn in *; try done; [|lia|by rewrite Hst].
      rewrite H1. rewrite <- (elem_of_list_to_set (C := gset Z)) in Hid. set_solver. }
    unfold finish_command. destruct (outcome _ _ _) as [v|e].
    { split; [exact Hdone|]. left. by rewrite Ec. }
    destruct (is_unavailable e); [|split; [exact Hdone|left; by rewrite Ec]].
    split; [|left; by rewrite Ec]. destruct H as [H1 H2 H3 H4 H5]. rewrite Ec in *.
    split; unfold command_ids; cbn in *; try done. by rewrite Hst.
  - unfold finish_provision. destruct (outcome _ _ _) as [v|e]; [|destruct (is_unavailable e)];
      (edestruct (end_job_ok s) as [H1 H2]; [exact H|exact Hr|exact I|..|split;
        [exact H1|left; symmetry; exact H2]]); try done; apply H.
  - edestruct (end_job_ok s) as [H1 H2]; [exact H|exact Hr|exact I|..|split;
        [exact H1|left; symmetry; exact H2]]; try done; apply H.
  - unfold finish_write. destruct (outcome _ _ _) as [v|e]; [|destruct (is_unavailable e)];
      (edestruct (end_job_ok s) as [H1 H2]; [exact H|exact Hr|exact I|..|split;
        [exact H1|left; symmetry; exact H2]]); try done; try apply H.
    apply MergeWrite_keys, H.
Qed.

Lemma worker_step_ok s op :
  worker_ok m s →
  let r := worker_step itv m s op in
  worker_ok m r.2 ∧
  (command_ids s ++ accepted_id m s op = emitted_ids r.1 ++ command_ids r.2 ∨
   (accepted_id m s op = [] ∧ emitted_ids r.1 = [] ∧ gave_up r.2)).
Proof.
  intros H. destruct op as [r t|w|id task| |stop now|replies now]; cbn [worker_step accepted_id fst snd].
  - rewrite app_nil_r. unfold SubmitProvision.
    destruct (_ || _); [split; [done|by left]|]. case_bool_decide; [split; [done|by left]|].
    split; [|by left]. apply (worker_ok_frame m s); try done; apply H.
  - rewrite app_nil_r. unfold SubmitWrite. destruct (negb _); [split; [done|by left]|].
    split; [|by left]. apply (worker_ok_frame m s); try done; [|apply H].
    apply MergeWrite_keys, H.
  - destruct (SubmitCommand_ok s id task H) as [H1 H2]. split; [done|]. left.
    rewrite H2. done.
  - rewrite app_nil_r. split; [|by left].
    apply (worker_ok_frame m s); try done; [apply H|]. cbn. intros Hs.
    by destruct (ok_stopped _ _ H Hs).
  - rewrite app_nil_r. destruct (worker_stopped_ s) eqn:Es; [split; [done|by left]|].
    case_bool_decide as Hr; [split; [done|by left]|]. cbn [orb fst snd].
    destruct (pick_ok s stop now H) as [H1 H2]; [|done|].
    + destruct (running s); [|done]. by destruct Hr.
    + split; [done|]. left. by rewrite H2.
  - rewrite app_nil_r. destruct (finish_job_ok s replies now H) as [H1 H2]. split; [done|].
    destruct H2 as [H2|[H2 H3]]; [by left|by right].
Qed.

Lemma gave_up_step s op :
  worker_ok m s → gave_up s →
  gave_up (worker_step itv m s op).2 ∧ accepted_id m s op = [] ∧
  emitted_ids (worker_step itv m s op).1 = [].
Proof.
  intros H (Hc & Ha & Hs). destruct (ok_stopped _ _ H Hs) as [Hr _].
  destruct op as [r t|w|id task| |stop now|replies now]; cbn [worker_step accepted_id].
  - unfold SubmitProvision. by rewrite Ha.
  - unfold SubmitWrite. by rewrite Ha.
  - unfold SubmitCommand. by rewrite Ha.
  - done.
  - by rewrite Hs.
  - unfold finish_job. by rewrite Hr.
Qed.

Lemma emitted_ids_app a b : emitted_ids (a ++ b) = emitted_ids a ++ emitted_ids b.
Proof. unfold emitted_ids. apply omap_app. Qed.

Lemma gave_up_run s ops :
  worker_ok m s → gave_up s →
  gave_up (worker_run itv m s ops).2 ∧ accepted_ids itv m s ops = [] ∧
  emitted_ids (worker_run itv m s ops).1 = [].
Proof.
  revert s. induction ops as [|op ops IH]; intros s H Hg; [done|].
  cbn [worker_run accepted_ids fst snd]. destruct (gave_up_step s op H Hg) as (G1 & G2 & G3).
  destruct (worker_step_ok s op H) as [H' _]. destruct (IH _ H' G1) as (I1 & I2 & I3).
  rewrite emitted_ids_app, G2, G3, I2, I3. done.
Qed.

Lemma worker_run_fifo s ops :
  worker_ok m s →
  let r := worker_run itv m s ops in
  worker_ok m r.2 ∧
  ∃ lost, command_ids s ++ accepted_ids itv m s ops
            = emitted_ids r.1 ++ command_ids r.2 ++ lost ∧ (lost = [] ∨ gave_up r.2).
Proof.
  revert s. induction ops as [|op ops IH]; intros s H; cbn zeta.
  { split; [done|]. exists []. cbn. rewrite !app_nil_r. auto. }
  cbn [worker_run accepted_ids fst snd]. destruct (worker_step_ok s op H) as [H' Hs].
  destruct (IH _ H') as [Hok (lost & E & Hl)]. split; [done|].
  destruct Hs as [Hs|(Ha & He & Hg)].
  - exists lost. split; [|done]. by rewrite emitted_ids_app, app_assoc, Hs, <- !app_assoc, E.
  - destruct (gave_up_run _ ops H' Hg) as (Hg' & Ha' & He').
    exists (command_ids s). split; [|by right]. rewrite emitted_ids_app, Ha, He, Ha', He'.
    destruct Hg' as [-> _]. by rewrite app_nil_r.
Qed.
End WorkerFacts.

Lemma MakePostgresWorker_ok m : worker_ok m MakePostgresWorker.
Proof. split; cbn; try done; [constructor|lia]. Qed.

(** C11: The database worker answers the command operations it accepted in the order of their
    submission, each once: the operations accepted are those answered, followed by those still
    queued; the queue holds no identifier twice, stays within its bound and is the set used to
    refuse duplicates; operations are lost only when the worker gives up for good. *)
Theorem command_operations_fifo `{MapOrder} itv max_inflight ops :
  let r := worker_run itv max_inflight MakePostgresWorker ops in
  NoDup (command_ids r.2) ∧ (length (command_ids r.2) <= max_inflight)%nat ∧
  command_operations_ r.2 = list_to_set (command_ids r.2) ∧
  ∃ lost, accepted_ids itv max_inflight MakePostgresWorker ops
            = emitted_ids r.1 ++ command_ids r.2 ++ lost ∧ (lost = [] ∨ gave_up r.2).
Proof.
  intros r. destruct (worker_run_fifo itv max_inflight MakePostgresWorker ops
    (MakePostgresWorker_ok _)) as [[H1 H2 H3 _ _] Hl]. done.
Qed.

(** ** Device writes *)

(** The worker still has to write column group [c] of device [id] at a revision of
    at least [r]. *)
Definition holds (s : PostgresWorker) (id : string) (c : Column) (r : Z) : Prop :=
  (∃ w, writes_ s !! id = Some w ∧ selects w c = true ∧ r <= w_revision w) ∨
  (∃ w, running s = Some (WriteJob w) ∧ w_device_id w = id ∧ selects w c = true ∧
        r <= w_revision w).

(** A result that tells the device service what became of the write. *)
Definition answers (outs : list WorkerOutput) (id : string) (r : Z) : Prop :=
  ∃ res, Emitted res ∈ outs ∧
    ((r_kind res = kWriteCompleted ∧ r_device_id res = id ∧ r <= r_revision res) ∨
     (r_kind res = kPermanentFailure ∧
        (r_device_id res = "" ∨ (r_device_id res = id ∧ r <= r_revision res)))).

Lemma MergeWrite_spec ws w id c r :
  (∃ x, ws !! id = Some x ∧ selects x c = true ∧ r <= w_revision x) ∨
  (w_device_id w = id ∧ selects w c = true ∧ r <= w_revision w) →
  ∃ x, MergeWrite ws w !! id = Some x ∧ selects x c = true ∧ r <= w_revision x.
Proof.
  unfold MergeWrite. intros H. destruct (decide (w_device_id w = id)) as [Hid|Hid]; cycle 1.
  { destruct H as [(x & Hx & Hs & Hr)|[? _]]; [|done].
    exists x. destruct (ws !! w_device_id w); by rewrite lookup_insert_ne. }
  rewrite Hid. destruct (ws !! id) as [y|] eqn:E; rewrite lookup_insert_eq; eexists;
    (split; [done|]).
  - destruct H as [(x & [= <-] & Hs & Hr)|(_ & Hs & Hr)].
    + split; [destruct c; cbn in *; by rewrite Hs|]. cbn.
      destruct (w_revision y <=? w_revision w) eqn:El; bool_prop; lia.
    + split; [destruct c; cbn in *; by rewrite Hs, orb_true_r|]. cbn.
      destruct (w_revision y <=? w_revision w) eqn:El; bool_prop; lia.
  - destruct H as [(x & ? & _)|(_ & Hs & Hr)]; done.
Qed.

Section WriteFacts.
Context `{MO : MapOrder} (itv : TimePoint) (m : nat) (id : string) (c : Column) (r : Z).
Implicit Types s : PostgresWorker.

Lemma holds_frame s s' :
  writes_ s' = writes_ s → running s' = running s → holds s id c r → holds s' id c r.
Proof. unfold holds. by intros -> ->. Qed.

Lemma pick_holds s stop now :
  worker_ok m s → running s = None → holds s id c r → holds (pick s stop now) id c r.
Proof.
  intros Hok Hr H. destruct H as [(w & Hw & Hs & Hrev)|(w & Hw & _)]; [|congruence].
  assert (∀ s', writes_ s' = writes_ s → holds s' id c r) as Keep.
  { intros s' E. left. exists w. by rewrite E. }
  unfold pick. destruct stop; [by apply Keep|].
  destruct (unavailable_ s); [destruct (now <? _); by apply Keep|].
  destruct (commands_ s) as [|[oid task] rest]; [|by apply Keep].
  destruct (map_order (provisions_ s)) as [|[pid task] ps]; [|by apply Keep].
  destruct (map_order (writes_ s)) as [|[wid x] ws] eqn:Eo;
    [destruct (drain_requested_ s); by apply Keep|].
  assert (writes_ s !! wid = Some x) as Hx by (apply map_order_lookup; rewrite Eo; left).
  destruct (decide (wid = id)) as [->|Hne].
  - simplify_eq. right. exists w. split; [done|]. split; [by apply (ok_writes _ _ Hok)|done].
  - left. exists w. cbn. by rewrite lookup_delete_ne.
Qed.

Lemma finish_holds s replies now :
  holds s id c r →
  let q := finish_job itv s replies now in
  holds q.2 id c r ∨ answers q.1 id r ∨ (running s = Some GiveUp ∧ gave_up q.2).
Proof.
  intros H. unfold finish_job. destruct (running s) as [j|] eqn:Hr; [|by left].
  assert ((∃ w, j = WriteJob w ∧ w_device_id w = id ∧ selects w c = true ∧ r <= w_revision w) ∨
    ∃ w, writes_ s !! id = Some w ∧ selects w c = true ∧ r <= w_revision w) as Hc.
  { destruct H as [H|(w & Hw & H)]; [by right|left; exists w; split; [congruence|done]]. }
  destruct j as [| |oid task|task|pid|w].
  - destruct Hc as [(? & ? & _)|Hc]; [done|]. unfold finish_reconnect.
    destruct (outcome _ _ _) as [?|e]; [|destruct (is_unavailable e)]; by left; left.
  - right. by right.
  - destruct Hc as [(? & ? & _)|Hc]; [done|]. unfold finish_command.
    destruct (outcome _ _ _) as [?|e]; [by left; left|]. destruct (is_unavailable e); by left; left.
  - destruct Hc as [(? & ? & _)|Hc]; [done|]. unfold finish_provision.
    destruct (outcome _ _ _) as [?|e]; [by left; left|]. destruct (is_unavailable e); by left; left.
  - destruct Hc as [(? & ? & _)|Hc]; [done|]. by left; left.
  - unfold finish_write. destruct (outcome _ _ _) as [?|e]; [|destruct (is_unavailable e)].
    + destruct Hc as [(w' & [= <-] & Hid & Hs & Hrev)|Hc]; [|by left; left].
      right. left. eexists. split; [left|]. left. by cbn.
    + left. left. cbn. apply MergeWrite_spec.
      destruct Hc as [(w' & [= <-] & Hid & Hs & Hrev)|Hc]; [by right|by left].
    + destruct Hc as [(w' & [= <-] & Hid & Hs & Hrev)|Hc]; [|by left; left].
      right. left. eexists. split; [left|]. right. split; [done|]. by right.
Qed.

Lemma worker_step_holds s op :
  worker_ok m s → holds s id c r →
  let q := worker_step itv m s op in
  holds q.2 id c r ∨ answers q.1 id r ∨ (running s = Some GiveUp ∧ gave_up q.2).
Proof.
  intros Hok H. destruct op as [reg t|w|oid task| |stop now|replies now]; cbn [worker_step fst snd].
  - left. unfold SubmitProvision. destruct (_ || _); [done|]. by case_bool_decide.
  - left. unfold SubmitWrite. destruct (negb _); [done|].
    destruct H as [H|H]; [left|by right]. cbn. apply MergeWrite_spec. by left.
  - left. unfold SubmitCommand. by destruct (_ || _).
  - by left.
  - left. destruct (worker_stopped_ s); [done|]. case_bool_decide as Hr; [done|].
    apply pick_holds; [done| |done]. destruct (running s); [by destruct Hr|done].
  - by apply finish_holds.
Qed.

(** The worker is about to give up only after it reported the failure. *)
Lemma giving_up_answers s op :
  let q := worker_step itv m s op in
  running q.2 = Some GiveUp → running s = Some GiveUp ∨ answers q.1 id r.
Proof.
  destruct op as [reg t|w|oid task| |stop now|replies now]; cbn [worker_step fst snd].
  - left. revert H. unfold SubmitProvision. by repeat case_match.
  - left. revert H. unfold SubmitWrite. by destruct (negb _).
  - left. revert H. unfold SubmitCommand. by destruct (_ || _).
  - by left.
  - intros H. destruct (_ || _); [by left|]. revert H. cbn. unfold pick. repeat case_match; cbn; auto; done.
  - unfold finish_job. destruct (running s) as [[| |oid task|task|pid|w]|] eqn:Hr.
    + unfold finish_reconnect. destruct (outcome _ _ _) as [?|e]; [done|]. destruct (is_unavailable e); [done|].
      intros _. right. eexists. split; [left|]. right. auto.
    + done.
    + unfold finish_command. destruct (outcome _ _ _) as [?|e]; [done|]. by destruct (is_unavailable e).
    + unfold finish_provision. destruct (outcome _ _ _) as [?|e]; [done|]. by destruct (is_unavailable e).
    + done.
    + unfold finish_write. destruct (outcome _ _ _) as [?|e]; [done|]. by destruct (is_unavailable e).
    + cbn. congruence.
Qed.

Lemma answers_app a b : answers a id r ∨ answers b id r → answers (a ++ b) id r.
Proof.
  intros [(res & Hin & H)|(res & Hin & H)]; exists res; (split; [|done]); apply elem_of_app; auto.
Qed.

Lemma run_giving_up_answers s ops :
  let q := worker_run itv m s ops in
  running q.2 = Some GiveUp → running s = Some GiveUp ∨ answers q.1 id r.
Proof.
  revert s. induction ops as [|op ops IH]; intros s q H; [by left|]. subst q. cbn [worker_run fst snd] in *.
  destruct (IH _ H) as [Hs|Ha]; [|right; apply answers_app; by right].
  destruct (giving_up_answers s op Hs); [by left|right; apply answers_app; by left].
Qed.

Lemma worker_run_holds s ops :
  worker_ok m s → holds s id c r →
  let q := worker_run itv m s ops in
  holds q.2 id c r ∨ answers q.1 id r ∨ (running s = Some GiveUp ∧ gave_up q.2).
Proof.
  revert s. induction ops as [|op ops IH]; intros s Hok H; [by left|]. cbn [worker_run fst snd].
  destruct (worker_step_ok itv m s op Hok) as [Hok' _].
  destruct (worker_step_holds s op Hok H) as [H'|[H'|[Hr Hg]]].
  - destruct (IH _ Hok' H') as [?|[?|[Hr Hg]]]; [by left|right; left; apply answers_app; by right|].
    right. destruct (giving_up_answers s op Hr) as [?|?]; [by right|left; apply answers_app; by left].
  - right. left. apply answers_app. by left.
  - right. right. split; [done|]. by apply gave_up_run.
Qed.
End WriteFacts.

(** C12: A device write the worker has accepted is not dropped silently: after any further sequence of
    events each of its column groups is still queued or running at that revision or a newer one,
    or a result that concerns the device (completed, or a permanent failure) has been emitted
    since - except for a write accepted between the report that the reconnection failed for good
    and the lock under which the worker then clears its queues: that one was accepted after the
    report, and is dropped when the worker gives up. *)
Theorem device_write_answered `{MapOrder} itv max_inflight before w c after :
  let b := worker_run itv max_inflight MakePostgresWorker before in
  let q := worker_run itv max_inflight (SubmitWrite b.2 w).2 after in
  let id := w_device_id w in let revision := w_revision w in
  (SubmitWrite b.2 w).1 = true → selects w c = true →
  holds q.2 id c revision ∨ answers q.1 id revision ∨
  (running b.2 = Some GiveUp ∧ answers b.1 id revision ∧ gave_up q.2).
Proof.
  intros b q id revision Ha Hc. destruct (worker_run_fifo itv max_inflight MakePostgresWorker before
    (MakePostgresWorker_ok _)) as [Hok _]. fold b in Hok.
  destruct (worker_step_ok itv max_inflight b.2 (OpSubmitWrite w) Hok) as [Hok' _].
  cbn [worker_step snd] in Hok'.
  assert (running (SubmitWrite b.2 w).2 = running b.2 ∧ holds (SubmitWrite b.2 w).2 id c revision) as [Er Hh].
  { unfold SubmitWrite in *. destruct (negb (accepting_ b.2)); [done|]. split; [done|]. left. cbn.
    apply MergeWrite_spec. right. done. }
  destruct (worker_run_holds itv max_inflight id c revision _ after Hok' Hh) as [?|[?|[Hr Hg]]]; [by left|auto|].
  right. right. rewrite Er in Hr. split_and!; [done| |exact Hg].
  by destruct (run_giving_up_answers itv max_inflight id revision MakePostgresWorker before Hr).
Qed.

(** ** Concrete runs *)
Definition write_reply_of (reply : StoreReply unit) : StoreReplies :=
  {| reply_reconnect := Returned (Ok tt); reply_command := Thrown; reply_provision := Thrown;
     reply_write := reply |}.
Definition connection_lost : DatabaseError :=
  {| err_kind := kErrUnavailable; err_message := "connection lost" |}.

(** The connection is lost and made again, with the migrations of another program. *)
Definition rejected_replies : StoreReplies :=
  {| reply_reconnect := Returned (Unexpected {| err_kind := kErrPermanent; err_message := "migrations" |});
     reply_command := Thrown; reply_provision := Thrown;
     reply_write := Returned (Unexpected connection_lost) |}.
Definition rejected_ops : list WorkerOp :=
  [OpSubmitWrite (sample_write "d1" 3 true); OpPick false 0; OpFinishJob rejected_replies 0;
   OpPick false (seconds 6); OpFinishJob rejected_replies (seconds 6)].

Lemma device_write_answered_witness :
  let b := worker_run (H := key_order) (seconds 5) 4 MakePostgresWorker rejected_ops in
  let q := worker_run (H := key_order) (seconds 5) 4 (SubmitWrite b.2 (sample_write "d2" 3 true)).2
             [OpFinishJob rejected_replies (seconds 6)] in
  (SubmitWrite b.2 (sample_write "d2" 3 true)).1 = true ∧
  (holds q.2 "d2" TelemetryColumns 3 ∨ answers q.1 "d2" 3 ∨
   (running b.2 = Some GiveUp ∧ answers b.1 "d2" 3 ∧ gave_up q.2)).
Proof.
  split; [vm_compute; reflexivity|].
  apply (device_write_answered (H := key_order) (seconds 5) 4 rejected_ops (sample_write "d2" 3 true)
    TelemetryColumns [OpFinishJob rejected_replies (seconds 6)]); reflexivity.
Defined.

(** The worker accepts a write after it reported that it gives up, and drops it in silence. *)
Example accepted_write_dropped :
  let b := worker_run (H := key_order) (seconds 5) 4 MakePostgresWorker rejected_ops in
  let q := worker_run (H := key_order) (seconds 5) 4 (SubmitWrite b.2 (sample_write "d2" 3 true)).2
             [OpFinishJob rejected_replies (seconds 6)] in
  (SubmitWrite b.2 (sample_write "d2" 3 true)).1 = true ∧ q.1 = [] ∧
  writes_ q.2 = ∅ ∧ running q.2 = None.
Proof. vm_compute. by split_and!. Qed.
