(* ===== verification/CommandService.v ===== *)
(** * CommandService: src/route_service/src/core/runtime/command_service.cpp

    The business thread of the commands: it admits the requests of the sources,
    keeps each command's life cycle in step with the database, sends the commands
    to the devices and the acknowledgements to the sources.  The ports
    ([database_submitter_], [device_publisher_], [source_ack_publisher_], the
    random device) are an environment; what the service sends out is a list of
    outputs.  The catalogue and the directory the service refers to are members of
    the state, which their owners change between two calls. *)

From Stdlib Require Import Ascii ZArith Lia.
From S2P Require Import Prelude Json DeviceMessage DeviceRegistry.
From S2P Require Import CommandTypes CommandState CommandRouter SourceRequest CommandPolicy.
From S2P Require Import DirtyState DeviceService PostgresWorker.
From stdpp Require Import options.

Record PublishCompletion := { pc_token : Z; pc_result : bool }.

(** [source] is the entry of the catalogue the pointer of the code refers to. *)
Record RequestContext := {
  x_source_id : string;
  x_source : option CommandSource;
  x_parsed : ParsedSourceRequest;
  x_command_type : CommandType;
  x_received_at : TimePoint;
  x_deadline : TimePoint;
  x_target : option ResolvedTarget;
  x_record : option CommandRecord;
  x_device_ack_business_status : option string
}.

Inductive OperationKind :=
| kFind | kFindByIdForConvergence | kInsert | kTransition | kCleanup.
#[export] Instance OperationKind_eq_dec : EqDecision OperationKind.
Proof. solve_decision. Defined.

Record Operation := { o_kind : OperationKind; o_context : RequestContext }.

(** The fields of a [TransitionCommandTask]. *)
Record Transition := {
  t_command_id : string;
  t_expected : CommandStatus;
  t_desired : CommandStatus;
  t_update : CommandUpdate
}.
Definition transition_task (t : Transition) : CommandDatabaseTask :=
  TransitionCommandTask (t_command_id t) (t_expected t) (t_desired t) (t_update t).

Record DeferredTransition := { d_context : RequestContext; d_task : Transition }.
Record CompletedCommand := { k_context : RequestContext; k_remembered_at : TimePoint }.
Record EarlyDeviceAck := { e_device_id : string; e_payload : string; e_received_at : TimePoint }.

Inductive Output :=
| TaskSubmitted (operation_id : Z) (task : CommandDatabaseTask) (accepted : bool)
| DevicePublish (token : Z) (topic payload : string) (accepted : bool)
| SourceAck (topic payload : string)
| Diagnosed (message : string)
| Informed (message : string).

Record Environment := {
  submit_reply : Z → bool;        (* by operation id *)
  publish_reply : Z → bool;       (* by token *)
  ack_reply : nat → Reply;        (* by call; [Accepted] and [Refused] are a return *)
  random : nat → nat → Z          (* by identifier, the readings of the random device *)
}.

Record Configuration := {
  topic_namespace_ : string;
  max_inflight_commands_ : nat;
  config_timeout_ : TimePoint;
  control_timeout_ : TimePoint;
  terminal_retention_ : TimePoint;
  cleanup_interval_ : TimePoint;
  cleanup_batch_size_ : Z
}.

Record CommandService := {
  sources_ : SourceCatalog;
  devices_ : DeviceRegistry;
  messages_ : list InboundMessage;
  database_results_ : list CommandDatabaseResult;
  publish_completions_ : list PublishCompletion;
  operations_ : gmap Z Operation;
  publications_ : gmap Z RequestContext;
  active_commands_ : gmap string RequestContext;
  completed_commands_ : gmap string CompletedCommand;
  recovery_started_ : gset string;
  deferred_transitions_ : gmap string DeferredTransition;
  early_device_acks_ : gmap string EarlyDeviceAck;
  next_operation_id_ : Z;
  next_publish_token_ : Z;
  next_cleanup_at_ : option TimePoint;
  outstanding_operations_ : Z;
  database_available_ : bool;
  mqtt_available_ : bool;
  closed_ : bool;
  (* calls made so far on the ports that are not numbered by the code *)
  uuid_calls : nat;
  ack_calls : nat;
  outputs : list Output
}.

#[export] Instance CommandService_members : Members CommandService := λ s,
  {| sources_ := sources_ s; devices_ := devices_ s; messages_ := messages_ s;
     database_results_ := database_results_ s; publish_completions_ := publish_completions_ s;
     operations_ := operations_ s; publications_ := publications_ s;
     active_commands_ := active_commands_ s; completed_commands_ := completed_commands_ s;
     recovery_started_ := recovery_started_ s; deferred_transitions_ := deferred_transitions_ s;
     early_device_acks_ := early_device_acks_ s; next_operation_id_ := next_operation_id_ s;
     next_publish_token_ := next_publish_token_ s; next_cleanup_at_ := next_cleanup_at_ s;
     outstanding_operations_ := outstanding_operations_ s;
     database_available_ := database_available_ s; mqtt_available_ := mqtt_available_ s;
     closed_ := closed_ s; uuid_calls := uuid_calls s; ack_calls := ack_calls s;
     outputs := outputs s |}.

#[export] Instance RequestContext_members : Members RequestContext := λ x,
  {| x_source_id := x_source_id x; x_source := x_source x; x_parsed := x_parsed x;
     x_command_type := x_command_type x; x_received_at := x_received_at x;
     x_deadline := x_deadline x; x_target := x_target x; x_record := x_record x;
     x_device_ack_business_status := x_device_ack_business_status x |}.

#[export] Instance CommandRecord_members : Members CommandRecord := λ c,
  {| c_command_id := c_command_id c; c_command_type := c_command_type c;
     c_source_id := c_source_id c; c_request_id := c_request_id c;
     c_target_device_id := c_target_device_id c; c_request_payload := c_request_payload c;
     c_status := c_status c; c_error_code := c_error_code c;
     c_error_message := c_error_message c; c_device_ack := c_device_ack c;
     c_created_at := c_created_at c; c_dispatched_at := c_dispatched_at c;
     c_updated_at := c_updated_at c; c_completed_at := c_completed_at c |}.

(** ** Helpers *)
Definition is_control (type : CommandType) : bool := bool_decide (type = kControl).

Definition SourceAckTopic (topic_namespace source_id : string) (type : CommandType) : string :=
  topic_namespace +:+ "/sources/" +:+ source_id
  +:+ (if is_control type then "/control/ack" else "/config/ack").

Definition DeviceSetTopic (topic_namespace device_id : string) (type : CommandType) : string :=
  topic_namespace +:+ "/" +:+ device_id
  +:+ (if is_control type then "/control/set" else "/config/set").

Definition RequestId (parsed : ParsedSourceRequest) : option string :=
  match parsed with
  | ParsedConfig r => Some (cr_request_id r)
  | ParsedControl r => Some (tr_request_id r)
  | ParsedRejected r => rj_request_id r
  end.

Definition ComparisonPayload (parsed : ParsedSourceRequest) : option json :=
  match parsed with
  | ParsedConfig r => Some (cr_comparison_payload r)
  | ParsedControl r => Some (tr_comparison_payload r)
  | ParsedRejected r => rj_comparison_payload r
  end.

Definition DescribeTarget (target : ResolvedTarget) : string :=
  let school := if str_empty (rt_school_name target) then "未知学校" else rt_school_name target in
  let label := match rt_dcdw_label target with
               | Some label => if str_empty label then "未登记编号" else label
               | None => "未登记编号"
               end in
  school +:+ " / " +:+ label +:+ "（" +:+ rt_device_id target +:+ "）".

(** The stream and the flag [first] are threaded. *)
Definition AppendConfigField (output : string * bool) (name : string) (value : option Z) :
    string * bool :=
  match value with
  | None => output
  | Some v => (output.1 +:+ (if output.2 then "" else "，") +:+ name +:+ "=" +:+ dec v, false)
  end.

Definition DescribeConfigCommand (parameters : ConfigParameters) : string :=
  let output := ("", true) in
  let output := AppendConfigField output "telemetry_publish_interval_ms"
                  (telemetry_publish_interval_ms parameters) in
  let output := AppendConfigField output "heartbeat_interval_ms"
                  (heartbeat_interval_ms parameters) in
  let output := AppendConfigField output "mqtt_reconnect_delay_s"
                  (mqtt_reconnect_delay_s parameters) in
  let output := AppendConfigField output "mqtt_reconnect_delay_max_s"
                  (mqtt_reconnect_delay_max_s parameters) in
  output.1.

Definition ControlCommandName (command : ControlCommand) : string :=
  match command with
  | kSetMotorPwm => "set_motor_pwm"
  | kEmergencyStop => "emergency_stop"
  | kTakeoff => "takeoff"
  | kLand => "land"
  end.

Definition DescribeControlCommand (request : SourceControlRequest) : string :=
  ControlCommandName (tr_command request) +:+
  match tr_command request, pwm_us (tr_parameters request) with
  | kSetMotorPwm, Some pwm =>
      let at_ i := dec (nth i pwm 0) in
      " pwm_us=[" +:+ at_ 0%nat +:+ "," +:+ at_ 1%nat +:+ "," +:+ at_ 2%nat +:+ ","
      +:+ at_ 3%nat +:+ "]"
  | _, _ => ""
  end.

Definition DescribeCommand (parsed : ParsedSourceRequest) : string :=
  match parsed with
  | ParsedConfig r => "配置命令 " +:+ DescribeConfigCommand (cr_parameters r)
  | ParsedControl r => "飞控命令 " +:+ DescribeControlCommand r
  | ParsedRejected _ => "未知命令"
  end.

Definition CommandStatusName (status : CommandStatus) : string :=
  match status with
  | kPending => "pending"
  | kDispatched => "dispatched"
  | kInProgress => "in_progress"
  | kSucceeded => "succeeded"
  | kFailed => "failed"
  | kTimeout => "timeout"
  | kDeliveryUncertain => "delivery_uncertain"
  end.

(** [text.find(sub) != npos] *)
Fixpoint str_contains (sub text : string) : bool :=
  starts_with sub text ||
  match text with EmptyString => false | String _ text' => str_contains sub text' end.

Definition IsStateChangedError (error : DatabaseError) : bool :=
  str_contains "状态已变化" (err_message error).

(** [emplace] of a hash map: an existing entry stays. *)
Definition emplace {K V} `{Countable K} (k : K) (v : V) (m : gmap K V) : gmap K V :=
  match m !! k with Some _ => m | None => <[k := v]> m end.

(** The entry of [completed_commands_] remembered first: the scan keeps the first of
    equal ones in the order of the hash map. *)
Definition older (oldest current : string * CompletedCommand) : string * CompletedCommand :=
  if k_remembered_at current.2 <? k_remembered_at oldest.2 then current else oldest.
Definition oldest_completed `{MapOrder} (completed : gmap string CompletedCommand) :
    option string :=
  match map_order completed with
  | [] => None
  | begin :: rest => Some (foldl older begin rest).1
  end.

(** [while (completed_commands_.size() > max) erase(oldest)]; each turn erases one. *)
Fixpoint evict `{MapOrder} (fuel max : nat) (completed : gmap string CompletedCommand) :
    gmap string CompletedCommand :=
  match fuel with
  | O => completed
  | S fuel' =>
      if (max <? size completed)%nat then
        match oldest_completed completed with
        | Some oldest => evict fuel' max (delete oldest completed)
        | None => completed
        end
      else completed
  end.

Section Service.
Context `{JL : JsonLib, MO : MapOrder} (env : Environment) (cfg : Configuration).

Definition MakeCommandService (sources : SourceCatalog) (devices : DeviceRegistry) :
    CommandService :=
  {| sources_ := sources; devices_ := devices; messages_ := []; database_results_ := [];
     publish_completions_ := []; operations_ := ∅; publications_ := ∅; active_commands_ := ∅;
     completed_commands_ := ∅; recovery_started_ := ∅; deferred_transitions_ := ∅;
     early_device_acks_ := ∅; next_operation_id_ := 1; next_publish_token_ := 1;
     next_cleanup_at_ := None; outstanding_operations_ := 0; database_available_ := true;
     mqtt_available_ := true; closed_ := false; uuid_calls := 0; ack_calls := 0;
     outputs := [] |}.

(** ** Sinks

    [Diagnose] and [Inform] swallow what the sinks throw. *)
Definition emit (s : CommandService) (o : Output) : CommandService :=
  s <| outputs := outputs s ++ [o] |>.
Definition Diagnose (s : CommandService) (message : string) : CommandService :=
  emit s (Diagnosed message).
Definition Inform (s : CommandService) (message : string) : CommandService :=
  emit s (Informed message).

Definition TargetFor (s : CommandService) (record : CommandRecord) : option ResolvedTarget :=
  id ← c_target_device_id record;
  target ← Find (devices_ s) id;
  Some (Resolve target).

(** The [try] of [Reject] and [PublishAck]; [payload] is [None] when building it throws. *)
Definition publish_source_ack (s : CommandService) (topic : string) (payload : option string) :
    CommandService :=
  match payload with
  | None => Diagnose s "来源配置ACK发布回调异常"
  | Some text =>
      let reply := ack_reply env (ack_calls s) in
      let s := s <| ack_calls := S (ack_calls s) |> in
      match reply with
      | Threw | ThrewUnknown => Diagnose s "来源配置ACK发布回调异常"
      | _ => emit s (SourceAck topic text)
      end
  end.

Definition Reject (s : CommandService) (source_id : string) (request_id : option string)
    (error : ProtocolError) (now : TimePoint) (command_type : CommandType) : CommandService :=
  publish_source_ack s (SourceAckTopic (topic_namespace_ cfg) source_id command_type)
    (Some (json_dump (BuildPrePersistenceRejection request_id error now command_type))).

Definition PublishAck (s : CommandService) (context : RequestContext) (now : TimePoint) :
    CommandService :=
  match x_record context with
  | None => s
  | Some record =>
      publish_source_ack s
        (SourceAckTopic (topic_namespace_ cfg) (x_source_id context) (x_command_type context))
        (json_dump <$> BuildSourceAck record (x_target context) now)
  end.

(** ** Database operations *)
Definition Submit (s : CommandService) (kind : OperationKind) (context : RequestContext)
    (task : CommandDatabaseTask) : bool * CommandService :=
  let operation_id := next_operation_id_ s in
  let s := s <| next_operation_id_ := u64 (operation_id + 1) |> in
  let accepted := submit_reply env operation_id in
  let s := emit s (TaskSubmitted operation_id task accepted) in
  if accepted then
    (true,
     s <| operations_ := emplace operation_id {| o_kind := kind; o_context := context |}
                           (operations_ s) |>
       <| outstanding_operations_ := u64 (outstanding_operations_ s + 1) |>)
  else (false, s).

Definition defer (s : CommandService) (context : RequestContext) (task : Transition) :
    CommandService :=
  s <| database_available_ := false |>
    <| deferred_transitions_ :=
         <[t_command_id task := {| d_context := context; d_task := task |}]>
           (deferred_transitions_ s) |>.

Definition SubmitTransitionOrDefer (s : CommandService) (context : RequestContext)
    (task : Transition) : CommandService :=
  let r := Submit s kTransition context (transition_task task) in
  if r.1 then
    r.2 <| deferred_transitions_ := delete (t_command_id task) (deferred_transitions_ r.2) |>
  else defer r.2 context task.

Definition RetryDeferredTransitions (s : CommandService) : CommandService :=
  if negb (database_available_ s) then s
  else
    match map_order (deferred_transitions_ s) with
    | [] => s
    | (command_id, deferred) :: _ =>
        let s := s <| deferred_transitions_ := delete command_id (deferred_transitions_ s) |> in
        let r := Submit s kTransition (d_context deferred) (transition_task (d_task deferred)) in
        if r.1 then r.2 else defer r.2 (d_context deferred) (d_task deferred)
    end.

(** ** Publishing a command to its device *)
Definition command_payload (parsed : ParsedSourceRequest) (command_id : string) : option json :=
  match parsed with
  | ParsedConfig r => Some (BuildDeviceConfigSet command_id (cr_parameters r))
  | ParsedControl r => Some (BuildDeviceControlSet command_id (tr_command r) (tr_parameters r))
  | ParsedRejected _ => None
  end.

Definition publish_failed (s : CommandService) (context : RequestContext)
    (record : CommandRecord) (now : TimePoint) : CommandService :=
  let failed :=
    record <| c_status := kFailed |> <| c_error_code := Some "mqtt_publish_failed" |>
      <| c_error_message :=
           Some (if is_control (x_command_type context) then "设备飞控命令发布失败"
                 else "设备配置命令发布失败") |>
      <| c_updated_at := now |> <| c_completed_at := Some now |> in
  let update :=
    {| u_error_code := c_error_code failed; u_error_message := c_error_message failed;
       u_device_ack := None; u_dispatched_at := None; u_completed_at := Some now;
       u_updated_at := now |} in
  SubmitTransitionOrDefer s (context <| x_record := Some failed |>)
    {| t_command_id := c_command_id failed; t_expected := c_status record;
       t_desired := kFailed; t_update := update |}.

Definition PublishRecord (s : CommandService) (context : RequestContext) (now : TimePoint) :
    CommandService :=
  match x_record context with
  | None => s
  | Some record =>
      match c_target_device_id record with
      | None => s
      | Some target_device_id =>
          if negb (mqtt_available_ s) then s
          else
            match command_payload (x_parsed context) (c_command_id record) with
            | None => s
            | Some payload =>
                let s := s <| recovery_started_ := {[c_command_id record]} ∪ recovery_started_ s |> in
                let token := next_publish_token_ s in
                let s := s <| next_publish_token_ := u64 (token + 1) |>
                           <| publications_ := emplace token context (publications_ s) |> in
                let published := publish_reply env token in
                let s := emit s (DevicePublish token
                                   (DeviceSetTopic (topic_namespace_ cfg) target_device_id
                                      (x_command_type context))
                                   (json_dump payload) published) in
                if published then s
                else publish_failed (s <| publications_ := delete token (publications_ s) |>)
                       context record now
            end
      end
  end.

(** ** Late acknowledgements and completed commands *)
Definition RememberCompletedCommand (s : CommandService) (context : RequestContext)
    (now : TimePoint) : CommandService :=
  match x_record context with
  | None => s
  | Some record =>
      if negb (IsTerminal (c_status record)) then s
      else
        let completed := <[c_command_id record :=
                             {| k_context := context; k_remembered_at := now |}]>
                           (completed_commands_ s) in
        s <| completed_commands_ :=
               evict (size completed) (max_inflight_commands_ cfg) completed |>
  end.

(** [record->target_device_id == device_id] *)
Definition targets (record : CommandRecord) (device_id : string) : bool :=
  bool_decide (c_target_device_id record = Some device_id).

Definition TryHandleLateDeviceAck (s : CommandService) (device_id : string)
    (command_type : CommandType) (command_id business_status : string) : option CommandService :=
  match completed_commands_ s !! command_id with
  | None => None
  | Some completed =>
      let context := k_context completed in
      match x_record context, x_target context with
      | Some record, Some target =>
          if negb (targets record device_id)
             || negb (bool_decide (x_command_type context = command_type)) then None
          else Some (Inform s ("收到来自设备 " +:+ DescribeTarget target +:+ "的迟到应答 "
                               +:+ business_status +:+ "，命令已是 "
                               +:+ CommandStatusName (c_status record) +:+ "，未反转结果"))
      | _, _ => None
      end
  end.

(** ** Acknowledgements of devices *)
Record AckReading := {
  ar_command_id : string;
  ar_business_status : string;
  ar_raw : json;
  ar_control_command : option ControlCommand
}.

(** The error is the diagnostic. *)
Definition read_device_ack (payload : string) (command_type : CommandType) :
    expected AckReading string :=
  if is_control command_type then
    match ParseDeviceControlAck payload with
    | Unexpected _ => Unexpected "设备飞控ACK格式非法"
    | Ok a => Ok {| ar_command_id := ca_command_id a;
                    ar_business_status := ca_business_status a; ar_raw := ca_raw a;
                    ar_control_command := Some (ca_command a) |}
    end
  else
    match ParseDeviceConfigAck payload with
    | Unexpected _ => Unexpected "设备配置ACK格式非法"
    | Ok a => Ok {| ar_command_id := fa_command_id a;
                    ar_business_status := fa_business_status a; ar_raw := fa_raw a;
                    ar_control_command := None |}
    end.

Definition unmatched_ack (s : CommandService) (device_id business_status : string) :
    CommandService :=
  match Find (devices_ s) device_id with
  | Some target =>
      Inform s ("收到来自设备 " +:+ DescribeTarget (Resolve target) +:+ "的迟到或无法关联应答 "
                +:+ business_status +:+ "，未反转结果")
  | None =>
      Inform s ("收到来自未知设备 " +:+ device_id +:+ "的迟到或无法关联应答 "
                +:+ business_status +:+ "，未反转结果")
  end.

(** The active command an acknowledgement answers. *)
Definition matching_command (s : CommandService) (device_id : string)
    (command_type : CommandType) (command_id : string) :
    option (RequestContext * CommandRecord) :=
  match active_commands_ s !! command_id with
  | None => None
  | Some context =>
      match x_record context with
      | None => None
      | Some record =>
          if negb (targets record device_id)
             || negb (bool_decide (x_command_type context = command_type)) then None
          else Some (context, record)
      end
  end.

(** [command] of a control acknowledgement is that of the request. *)
Definition same_command (parsed : ParsedSourceRequest) (command : ControlCommand) : bool :=
  match parsed with
  | ParsedControl request => bool_decide (tr_command request = command)
  | _ => false
  end.

(** An acknowledgement that overtakes the confirmation of the publication. *)
Definition keep_early_ack (s : CommandService) (device_id payload : string)
    (command_type : CommandType) (command_id business_status : string) (now : TimePoint) :
    CommandService :=
  let ack := {| e_device_id := device_id; e_payload := payload; e_received_at := now |} in
  match early_device_acks_ s !! command_id with
  | None => s <| early_device_acks_ := <[command_id := ack]> (early_device_acks_ s) |>
  | Some early =>
      if String.eqb (e_payload early) payload then s
      else
        let incoming_terminal := negb (String.eqb business_status "in_progress") in
        let old_terminal :=
          is_control command_type &&
          match ParseDeviceControlAck (e_payload early) with
          | Ok old => negb (String.eqb (ca_business_status old) "in_progress")
          | Unexpected _ => false
          end in
        if negb old_terminal || negb incoming_terminal then
          if incoming_terminal || negb old_terminal then
            s <| early_device_acks_ := <[command_id := ack]> (early_device_acks_ s) |>
          else s
        else Diagnose s "设备飞控ACK在发布确认前发生冲突"
  end.

Definition ack_status (business_status : string) : CommandStatus :=
  if String.eqb business_status "timeout" then kTimeout
  else if String.eqb business_status "rejected" then kFailed
  else if String.eqb business_status "in_progress" then kInProgress
  else kSucceeded.

Definition acknowledged (record : CommandRecord) (raw : json) (desired : CommandStatus)
    (command_type : CommandType) (now : TimePoint) : CommandRecord :=
  let record :=
    record <| c_status := desired |> <| c_device_ack := Some raw |> <| c_updated_at := now |>
      <| c_completed_at := if IsTerminal desired then Some now else None |> in
  if is_status desired kFailed then
    record <| c_error_code := Some "device_rejected" |>
      <| c_error_message :=
           Some (if is_control command_type then "设备拒绝飞控命令" else "设备拒绝配置命令") |>
  else if is_status desired kTimeout then
    record <| c_error_code := Some "device_timeout" |>
      <| c_error_message := Some "设备报告飞控命令超时" |>
  else record.

Definition apply_device_ack (s : CommandService) (context : RequestContext)
    (current : CommandRecord) (ack : AckReading) (command_type : CommandType)
    (now : TimePoint) : CommandService :=
  let desired := ack_status (ar_business_status ack) in
  let record := acknowledged current (ar_raw ack) desired command_type now in
  let context :=
    if is_status desired kInProgress
    then context <| x_deadline := now + control_timeout_ cfg |> else context in
  let context :=
    context <| x_record := Some record |>
      <| x_device_ack_business_status := Some (ar_business_status ack) |> in
  let update :=
    {| u_error_code := c_error_code record; u_error_message := c_error_message record;
       u_device_ack := c_device_ack record; u_dispatched_at := None;
       u_completed_at := c_completed_at record; u_updated_at := now |} in
  SubmitTransitionOrDefer s context
    {| t_command_id := c_command_id record; t_expected := c_status current;
       t_desired := desired; t_update := update |}.

Definition HandleDeviceAck (s : CommandService) (device_id payload : string)
    (command_type : CommandType) (now : TimePoint) : CommandService :=
  match read_device_ack payload command_type with
  | Unexpected message => Diagnose s message
  | Ok ack =>
      match matching_command s device_id command_type (ar_command_id ack) with
      | None =>
          match TryHandleLateDeviceAck s device_id command_type (ar_command_id ack)
                  (ar_business_status ack) with
          | Some s' => s'
          | None => unmatched_ack s device_id (ar_business_status ack)
          end
      | Some (context, record) =>
          if negb (match ar_control_command ack with
                   | Some command => same_command (x_parsed context) command
                   | None => true
                   end) then
            Diagnose s "设备飞控ACK的command与活动命令不匹配"
          else if is_status (c_status record) kPending then
            keep_early_ack s device_id payload command_type (ar_command_id ack)
              (ar_business_status ack) now
          else if negb (is_status (c_status record) kDispatched)
                  && negb (is_status (c_status record) kInProgress) then s
          else apply_device_ack s context record ack command_type now
      end
  end.

(** ** Requests *)
Definition timeout_of (command_type : CommandType) : TimePoint :=
  if is_control command_type then control_timeout_ cfg else config_timeout_ cfg.

Definition ParseRequest (payload : string) (kind : SourceKind) (command_type : CommandType) :
    ParsedSourceRequest :=
  if is_control command_type then ParseSourceControlRequest payload kind
  else ParseSourceConfigRequest payload kind.

(** [status == device::Status::kOnline] of a device of the directory. *)
Definition is_online (devices : DeviceRegistry) (device_id : string) : bool :=
  match Find devices device_id with
  | Some device => bool_decide (dr_status device = kOnline)
  | None => false
  end.

Definition source_online (s : CommandService) (source : CommandSource) : bool :=
  if bool_decide (s_kind source = kDevice) then
    match s_device_id source with
    | Some id => is_online (devices_ s) id
    | None => false
    end
  else true.

(** The commands in flight. *)
Definition in_flight (s : CommandService) : nat :=
  (size (active_commands_ s) + size (operations_ s) + size (publications_ s))%nat.

Definition request_context (source : CommandSource) (source_id : string)
    (parsed : ParsedSourceRequest) (command_type : CommandType) (received_at : TimePoint) :
    RequestContext :=
  {| x_source_id := source_id; x_source := Some source; x_parsed := parsed;
     x_command_type := command_type; x_received_at := received_at;
     x_deadline := received_at + timeout_of command_type; x_target := None;
     x_record := None; x_device_ack_business_status := None |}.

Definition HandleRequest (s : CommandService) (source_id : string)
    (command_type : CommandType) (message : InboundMessage) (now : TimePoint) :
    CommandService :=
  let reject request_id code text :=
    Reject s source_id request_id (Error code text) now command_type in
  match CatalogFind (sources_ s) source_id with
  | None => reject None "source_not_registered" "命令来源未登记"
  | Some source =>
      if negb (s_enabled source) then reject None "source_disabled" "命令来源已禁用"
      else if negb (source_online s source) then
        reject None "source_device_offline" "来源设备当前离线"
      else
        let parsed := ParseRequest (m_payload message) (s_kind source) command_type in
        match RequestId parsed, parsed with
        | None, ParsedRejected rejected => Reject s source_id None (rj_error rejected) now command_type
        | None, _ => s
        | Some request_id, _ =>
            if negb (mqtt_available_ s) then
              reject (Some request_id) "mqtt_unavailable" "MQTT当前不可用"
            else if negb (database_available_ s) then
              reject (Some request_id) "database_unavailable" "数据库当前不可用"
            else if (max_inflight_commands_ cfg <=? in_flight s)%nat then
              reject (Some request_id) "server_busy" "服务器命令容量已满"
            else
              let context :=
                request_context source source_id parsed command_type (m_received_at message) in
              let r := Submit s kFind context (FindCommandTask source_id request_id) in
              if r.1 then r.2
              else Reject r.2 source_id (Some request_id)
                     (Error "database_unavailable" "数据库当前不可用") now command_type
        end
  end.

(** [Handle(mqtt::InboundMessage)] *)
Definition HandleMessage (s : CommandService) (message : InboundMessage) (now : TimePoint) :
    CommandService :=
  let ns := topic_namespace_ cfg in
  match ParseDeviceConfigAckTopic ns (m_topic message) with
  | Ok device_id => HandleDeviceAck s device_id (m_payload message) kConfig now
  | Unexpected _ =>
      match ParseDeviceControlAckTopic ns (m_topic message) with
      | Ok device_id => HandleDeviceAck s device_id (m_payload message) kControl now
      | Unexpected _ =>
          match ParseSourceRequestTopic ns (m_topic message) with
          | Ok source_id => HandleRequest s source_id kConfig message now
          | Unexpected _ =>
              match ParseSourceControlRequestTopic ns (m_topic message) with
              | Ok source_id => HandleRequest s source_id kControl message now
              | Unexpected _ => s
              end
          end
      end
  end.

(** ** Database results *)

(** The record a new request starts with. *)
Definition new_record (context : RequestContext) (command_id : string) : CommandRecord :=
  {| c_command_id := command_id; c_command_type := x_command_type context;
     c_source_id := x_source_id context;
     (* engaged: only a request with an identifier is looked up *)
     c_request_id := default "" (RequestId (x_parsed context));
     c_target_device_id := None;
     c_request_payload := default JNull (ComparisonPayload (x_parsed context));
     c_status := kPending; c_error_code := None; c_error_message := None;
     c_device_ack := None; c_created_at := x_received_at context; c_dispatched_at := None;
     c_updated_at := x_received_at context; c_completed_at := None |}.

Definition fail_record (record : CommandRecord) (error : ProtocolError) (at_ : TimePoint) :
    CommandRecord :=
  record <| c_status := kFailed |> <| c_error_code := Some (pe_code error) |>
    <| c_error_message := Some (pe_message error) |> <| c_completed_at := Some at_ |>.

Definition resolve_request (s : CommandService) (context : RequestContext) :
    expected ResolvedTarget ProtocolError :=
  match x_source context, x_parsed context with
  | Some source, ParsedConfig r => ResolveConfigTarget source (cr_target r) (devices_ s)
  | Some source, ParsedControl r => ResolveControlTarget source (tr_target r) (devices_ s)
  | _, _ => Unexpected (Error "invalid_request" "命令请求类型非法")
  end.

(** The record to insert and the target of the request. *)
Definition prepare_record (s : CommandService) (context : RequestContext)
    (record : CommandRecord) : CommandRecord * option ResolvedTarget :=
  let at_ := x_received_at context in
  match x_parsed context with
  | ParsedRejected rejected => (fail_record record (rj_error rejected) at_, x_target context)
  | _ =>
      match resolve_request s context with
      | Unexpected error => (fail_record record error at_, x_target context)
      | Ok target =>
          let record := record <| c_target_device_id := Some (rt_device_id target) |> in
          (if is_online (devices_ s) (rt_device_id target) then record
           else fail_record record (Error "target_offline" "目标设备当前离线") at_,
           Some target)
      end
  end.

Definition conflicts (existing : CommandRecord) (payload : option json) : bool :=
  match payload with
  | None => true
  | Some p => match CompareRequest existing p with kConflict => true | kSame => false end
  end.

(** The answer to a request that was seen before: the state of its command. *)
Definition answer_duplicate (s : CommandService) (context : RequestContext)
    (existing : CommandRecord) (now : TimePoint) : CommandService :=
  PublishAck s (context <| x_record := Some existing |> <| x_target := TargetFor s existing |>) now.

Definition handle_found (s : CommandService) (context : RequestContext)
    (existing : option CommandRecord) (now : TimePoint) : CommandService :=
  match existing with
  | Some existing =>
      if conflicts existing (ComparisonPayload (x_parsed context)) then
        Reject s (x_source_id context) (RequestId (x_parsed context))
          (Error "idempotency_conflict" "同一请求号的内容不一致") now (x_command_type context)
      else answer_duplicate s context existing now
  | None =>
      let command_id := GenerateUuidV4 (random env (uuid_calls s)) in
      let s := s <| uuid_calls := S (uuid_calls s) |> in
      let p := prepare_record s context (new_record context command_id) in
      let context := context <| x_target := p.2 |> <| x_record := Some p.1 |> in
      (Submit s kInsert context (InsertCommandTask p.1)).2
  end.

Definition HandleTransitionConflict (s : CommandService) (context : RequestContext)
    (record : CommandRecord) : CommandService :=
  let r := Submit s kFindByIdForConvergence context (FindCommandByIdTask (c_command_id record)) in
  if r.1 then r.2
  else Diagnose (r.2 <| database_available_ := false |>)
         "命令状态变化后查询当前状态失败：数据库当前不可用".

(** What a terminal record leaves behind. *)
Definition forget_command (s : CommandService) (command_id : string) : CommandService :=
  s <| active_commands_ := delete command_id (active_commands_ s) |>
    <| recovery_started_ := recovery_started_ s ∖ {[command_id]} |>
    <| early_device_acks_ := delete command_id (early_device_acks_ s) |>.

Definition set_active (s : CommandService) (command_id : string) (context : RequestContext) :
    CommandService :=
  s <| active_commands_ := <[command_id := context]> (active_commands_ s) |>.

Definition update_of (desired : CommandRecord) (dispatched_at : option TimePoint) : CommandUpdate :=
  {| u_error_code := c_error_code desired; u_error_message := c_error_message desired;
     u_device_ack := c_device_ack desired; u_dispatched_at := dispatched_at;
     u_completed_at := c_completed_at desired; u_updated_at := c_updated_at desired |}.

Definition ConvergeAfterConflict (s : CommandService) (context : RequestContext)
    (current : CommandRecord) (now : TimePoint) : CommandService :=
  match x_record context with
  | None => s
  | Some desired =>
      let context := context <| x_record := Some current |> <| x_target := TargetFor s current |> in
      let command_id := c_command_id current in
      let was_active := bool_decide (is_Some (active_commands_ s !! command_id)) in
      if IsTerminal (c_status current) then
        let s := forget_command (RememberCompletedCommand s context now) command_id in
        if was_active then PublishAck s context now else s
      else if is_status (c_status current) (c_status desired) then set_active s command_id context
      else if CanTransition (c_status current) (c_status desired) then
        SubmitTransitionOrDefer s (context <| x_record := Some desired |>)
          {| t_command_id := command_id; t_expected := c_status current;
             t_desired := c_status desired;
             t_update := update_of desired (c_dispatched_at desired) |}
      else set_active s command_id context
  end.

(** The status the acknowledgement of the device asked for is the one persisted. *)
Definition ack_persisted (status : CommandStatus) (business_status : string) : bool :=
  (is_status status kInProgress && String.eqb business_status "in_progress")
  || (is_status status kFailed && String.eqb business_status "rejected")
  || (is_status status kTimeout && String.eqb business_status "timeout")
  || (is_status status kSucceeded && negb (String.eqb business_status "in_progress")
      && negb (String.eqb business_status "rejected")
      && negb (String.eqb business_status "timeout")).

(** [dispatched_persisted] *)
Definition dispatch_persisted (kind : OperationKind) (requested : option CommandStatus)
    (status : CommandStatus) : bool :=
  bool_decide (kind = kTransition) && bool_decide (requested = Some kDispatched)
  && is_status status kDispatched.

Definition replay_early_ack (s : CommandService) (record : CommandRecord)
    (command_type : CommandType) : CommandService :=
  match early_device_acks_ s !! c_command_id record with
  | None => s
  | Some early =>
      HandleDeviceAck
        (s <| early_device_acks_ := delete (c_command_id record) (early_device_acks_ s) |>)
        (e_device_id early) (e_payload early) command_type (e_received_at early)
  end.

(** The record is persisted and the command is published already, or it is over. *)
Definition settle_written (s : CommandService) (kind : OperationKind)
    (context : RequestContext) (requested : option CommandStatus) (record : CommandRecord)
    (now : TimePoint) : CommandService :=
  let business_status := x_device_ack_business_status context in
  let s := PublishAck s context now in
  let s :=
    match x_target context with
    | Some target =>
        if dispatch_persisted kind requested (c_status record) then
          Inform s ("收到来自 " +:+ x_source_id context +:+ " 的"
                    +:+ DescribeCommand (x_parsed context) +:+ "，已路由至设备 "
                    +:+ DescribeTarget target)
        else s
    | None => s
    end in
  let '(s, context) :=
    match x_target context, business_status with
    | Some target, Some text =>
        if ack_persisted (c_status record) text then
          (Inform s ("收到来自设备 " +:+ DescribeTarget target +:+ "的应答 " +:+ text
                     +:+ "，已转发至 " +:+ x_source_id context),
           context <| x_device_ack_business_status := None |>)
        else (s, context)
    | _, _ => (s, context)
    end in
  if IsTerminal (c_status record) then
    forget_command (RememberCompletedCommand s context now) (c_command_id record)
  else
    let s := set_active s (c_command_id record) context in
    if is_status (c_status record) kDispatched
    then replay_early_ack s record (x_command_type context) else s.

(** The insertion found the command of another record of the same request. *)
Definition other_command (kind : OperationKind) (inserted : option CommandRecord)
    (record : CommandRecord) : option CommandRecord :=
  match kind, inserted with
  | kInsert, Some r => if String.eqb (c_command_id r) (c_command_id record) then None else Some r
  | _, _ => None
  end.

(** The database moved to a status the terminal one can still follow. *)
Definition terminal_behind (kind : OperationKind) (requested : option CommandRecord)
    (record : CommandRecord) : option CommandRecord :=
  match kind, requested with
  | kTransition, Some desired =>
      if IsTerminal (c_status desired) && negb (IsTerminal (c_status record))
         && CanTransition (c_status record) (c_status desired)
      then Some desired else None
  | _, _ => None
  end.

Definition handle_written (s : CommandService) (kind : OperationKind) (context : RequestContext)
    (record : CommandRecord) (now : TimePoint) : CommandService :=
  match other_command kind (x_record context) record with
  | Some inserted =>
      if conflicts record (Some (c_request_payload inserted)) then
        Reject s (x_source_id context) (Some (c_request_id inserted))
          (Error "idempotency_conflict" "同一请求号的内容不一致") now (x_command_type context)
      else answer_duplicate s context record now
  | None =>
      match terminal_behind kind (x_record context) record with
      | Some desired =>
          SubmitTransitionOrDefer s context
            {| t_command_id := c_command_id desired; t_expected := c_status record;
               t_desired := c_status desired; t_update := update_of desired None |}
      | None =>
          let requested := c_status <$> x_record context in
          let context := context <| x_record := Some record |> in
          if bool_decide (kind = kTransition) || IsTerminal (c_status record) then
            settle_written s kind context requested record now
          else PublishRecord (set_active s (c_command_id record) context) context now
      end
  end.

Definition handle_operation_error (s : CommandService) (operation : Operation)
    (error : DatabaseError) : CommandService :=
  let context := o_context operation in
  let otherwise :=
    let s := match err_kind error with
             | kErrUnavailable => s <| database_available_ := false |>
             | kErrPermanent => s
             end in
    Diagnose s ("命令数据库操作失败：" +:+ err_message error) in
  match x_record context with
  | Some record =>
      if bool_decide (o_kind operation = kTransition) && IsStateChangedError error
      then HandleTransitionConflict s context record else otherwise
  | None => otherwise
  end.

Definition handle_operation_value (s : CommandService) (operation : Operation)
    (value : CommandDatabaseValue) (now : TimePoint) : CommandService :=
  let context := o_context operation in
  match o_kind operation, value with
  | kCleanup, Count _ => s
  | kCleanup, _ => Diagnose s "命令清理返回类型异常"
  | kFindByIdForConvergence, OptionalCommand (Some current) =>
      ConvergeAfterConflict s context current now
  | kFindByIdForConvergence, OptionalCommand None =>
      Diagnose s "命令状态变化后未找到当前命令记录"
  | kFindByIdForConvergence, _ => Diagnose s "命令按ID查询返回类型异常"
  | kFind, OptionalCommand existing => handle_found s context existing now
  | kFind, _ => Diagnose s "命令查询返回类型异常"
  | kInsert, OneCommand record | kTransition, OneCommand record =>
      handle_written s (o_kind operation) context record now
  | kInsert, _ | kTransition, _ => Diagnose s "命令写入返回类型异常"
  end.

(** [Handle(CommandDatabaseResult)] *)
Definition HandleDatabaseResult (s : CommandService) (result : CommandDatabaseResult)
    (now : TimePoint) : CommandService :=
  match operations_ s !! cd_operation_id result with
  | None => s
  | Some operation =>
      let s := s <| operations_ := delete (cd_operation_id result) (operations_ s) |>
                 <| outstanding_operations_ := u64 (outstanding_operations_ s - 1) |> in
      match cd_value result with
      | Unexpected error => handle_operation_error s operation error
      | Ok value => handle_operation_value s operation value now
      end
  end.

(** ** Confirmations of publications *)
Definition completed_record (context : RequestContext) (record : CommandRecord) (delivered : bool)
    (now : TimePoint) : CommandRecord :=
  if delivered then
    record <| c_status := kDispatched |> <| c_updated_at := now |> <| c_dispatched_at := Some now |>
  else
    let control := is_control (x_command_type context) in
    record <| c_status := if control then kDeliveryUncertain else kFailed |>
      <| c_updated_at := now |>
      <| c_error_code := Some (if control then "control_delivery_uncertain"
                               else "mqtt_publish_failed") |>
      <| c_error_message := Some (if control then "飞控命令发布后无法确认是否送达"
                                  else "设备配置命令发布失败") |>
      <| c_completed_at := Some now |>.

Definition completion_update (record : CommandRecord) (delivered : bool) (now : TimePoint) :
    CommandUpdate :=
  {| u_error_code := if delivered then None else c_error_code record;
     u_error_message := if delivered then None else c_error_message record;
     u_device_ack := None;
     u_dispatched_at := if delivered then Some now else None;
     u_completed_at := if delivered then None else Some now;
     u_updated_at := now |}.

(** [Handle(mqtt::PublishCompletion)]; a publication always holds a record. *)
Definition HandleCompletion (s : CommandService) (completion : PublishCompletion)
    (now : TimePoint) : CommandService :=
  match publications_ s !! pc_token completion with
  | None => s
  | Some context =>
      let s := s <| publications_ := delete (pc_token completion) (publications_ s) |> in
      match x_record context with
      | None => s
      | Some previous =>
          if pc_result completion && is_status (c_status previous) kDispatched then s
          else
            let record := completed_record context previous (pc_result completion) now in
            SubmitTransitionOrDefer s (context <| x_record := Some record |>)
              {| t_command_id := c_command_id record; t_expected := c_status previous;
                 t_desired := c_status record;
                 t_update := completion_update record (pc_result completion) now |}
      end
  end.

(** ** Time-outs and recovery *)
Definition cleanup_context (now : TimePoint) : RequestContext :=
  {| x_source_id := ""; x_source := None;
     x_parsed := ParsedRejected {| rj_request_id := None; rj_comparison_payload := None;
                                   rj_error := Error "cleanup" "终态清理" |};
     x_command_type := kConfig; x_received_at := now; x_deadline := now; x_target := None;
     x_record := None; x_device_ack_business_status := None |}.

Definition cleanup_pending (s : CommandService) : bool :=
  existsb (λ item, bool_decide (o_kind item.2 = kCleanup)) (map_to_list (operations_ s)).

Definition schedule_cleanup (s : CommandService) (now : TimePoint) : CommandService :=
  let next := Some (now + cleanup_interval_ cfg) in
  match next_cleanup_at_ s with
  | None => s <| next_cleanup_at_ := next |>
  | Some at_ =>
      if at_ <=? now then
        let s :=
          if negb (cleanup_pending s) && database_available_ s then
            (Submit s kCleanup (cleanup_context now)
               (CleanupCommandsTask (now - terminal_retention_ cfg) (cleanup_batch_size_ cfg))).2
          else s in
        s <| next_cleanup_at_ := next |>
      else s
  end.

Definition time_out (s : CommandService) (command_id : string) (context : RequestContext)
    (record : CommandRecord) (now : TimePoint) : CommandService :=
  let control := is_control (x_command_type context) in
  let timed_out :=
    record <| c_status := kTimeout |>
      <| c_error_code := Some (if control then "control_timeout" else "command_timeout") |>
      <| c_error_message := Some (if control then "设备飞控命令超时" else "设备配置命令超时") |>
      <| c_updated_at := now |> <| c_completed_at := Some now |> in
  let update :=
    {| u_error_code := c_error_code timed_out; u_error_message := c_error_message timed_out;
       u_device_ack := None; u_dispatched_at := c_dispatched_at timed_out;
       u_completed_at := Some now; u_updated_at := now |} in
  SubmitTransitionOrDefer s (context <| x_record := Some timed_out |>)
    {| t_command_id := command_id; t_expected := c_status record; t_desired := kTimeout;
       t_update := update |}.

(** [recovery_started_.contains(id)] *)
Definition recovering (s : CommandService) (command_id : string) : bool :=
  bool_decide (command_id ∈ recovery_started_ s).
Definition start_recovery (s : CommandService) (command_id : string) : CommandService :=
  s <| recovery_started_ := {[command_id]} ∪ recovery_started_ s |>.

(** One turn of the loop over the active commands. *)
Definition check_command (now : TimePoint) (s : CommandService) (id : string) : CommandService :=
  match active_commands_ s !! id with
  | None => s
  | Some context =>
      match x_record context with
      | None => s
      | Some record =>
          if x_deadline context <=? now then
            if recovering s id then s
            else time_out (start_recovery s id) id context record now
          else if is_control (x_command_type context) || negb (mqtt_available_ s)
                  || recovering s id then s
          else
            match c_target_device_id record with
            | None => s
            | Some target_device_id =>
                if is_online (devices_ s) target_device_id
                then PublishRecord (start_recovery s id) context now else s
            end
      end
  end.

Definition ProcessTimeoutsAndRecovery (s : CommandService) (now : TimePoint) : CommandService :=
  let s := schedule_cleanup s now in
  foldl (check_command now) s (map_order (active_commands_ s)).*1.

(** ** The business thread *)

(** One turn of the loop of [ProcessReady]: [None] leaves the loop. *)
Definition process_one (s : CommandService) (now : TimePoint) : option CommandService :=
  match database_results_ s with
  | result :: rest => Some (HandleDatabaseResult (s <| database_results_ := rest |>) result now)
  | [] =>
      match publish_completions_ s with
      | completion :: rest =>
          Some (HandleCompletion (s <| publish_completions_ := rest |>) completion now)
      | [] =>
          match messages_ s with
          | message :: rest => Some (HandleMessage (s <| messages_ := rest |>) message now)
          | [] => None
          end
      end
  end.

Fixpoint process_queues (fuel : nat) (s : CommandService) (now : TimePoint) : CommandService :=
  match fuel with
  | O => s
  | S fuel' =>
      match process_one s now with Some s' => process_queues fuel' s' now | None => s end
  end.

(** The items of the three queues. *)
Definition queued (s : CommandService) : nat :=
  (length (database_results_ s) + length (publish_completions_ s) + length (messages_ s))%nat.

Definition housekeeping (s : CommandService) (now : TimePoint) : CommandService :=
  ProcessTimeoutsAndRecovery (RetryDeferredTransitions s) now.

Definition ProcessReady (s : CommandService) (now : TimePoint) : CommandService :=
  housekeeping (process_queues (queued s) s now) now.

Definition OnTargetOnline (s : CommandService) (device_id : string) (now : TimePoint) :
    CommandService :=
  let erase s '(command_id, context) :=
    match x_record context with
    | Some record =>
        if targets record device_id
        then s <| recovery_started_ := recovery_started_ s ∖ {[command_id]} |> else s
    | None => s
    end in
  ProcessTimeoutsAndRecovery (foldl erase s (map_order (active_commands_ s))) now.

(** *** Start-up *)
Definition load_command (s : CommandService) (record : CommandRecord) : CommandService :=
  match CatalogFind (sources_ s) (c_source_id record) with
  | None => s
  | Some source =>
      if IsTerminal (c_status record) then s
      else
        let base := if is_status (c_status record) kInProgress
                    then c_updated_at record else c_created_at record in
        set_active s (c_command_id record)
          {| x_source_id := c_source_id record; x_source := Some source;
             x_parsed := ParseRequest (json_dump (c_request_payload record)) (s_kind source)
                           (c_command_type record);
             x_command_type := c_command_type record; x_received_at := c_created_at record;
             x_deadline := base + timeout_of (c_command_type record);
             x_target := TargetFor s record; x_record := Some record;
             x_device_ack_business_status := None |}
  end.

Definition LoadActive (s : CommandService) (commands : list CommandRecord) : CommandService :=
  if (max_inflight_commands_ cfg <? length commands)%nat
  then Diagnose s "活动命令数量超过配置上限"
  else foldl load_command s commands.

(** ** Calls of the other threads *)
Definition TryPush (s : CommandService) (message : InboundMessage) : bool * CommandService :=
  if closed_ s || (max_inflight_commands_ cfg <=? length (messages_ s))%nat then (false, s)
  else (true, s <| messages_ := messages_ s ++ [message] |>).

Definition PushDatabaseResult (s : CommandService) (result : CommandDatabaseResult) :
    CommandService :=
  if closed_ s then s else s <| database_results_ := database_results_ s ++ [result] |>.

Definition PushPublishCompletion (s : CommandService) (completion : PublishCompletion) :
    CommandService :=
  if closed_ s then s else s <| publish_completions_ := publish_completions_ s ++ [completion] |>.

Definition Close (s : CommandService) : CommandService := s <| closed_ := true |>.

Definition CancelOutstandingWork (s : CommandService) : CommandService :=
  s <| messages_ := [] |> <| database_results_ := [] |> <| publish_completions_ := [] |>
    <| operations_ := ∅ |> <| outstanding_operations_ := 0 |> <| publications_ := ∅ |>
    <| deferred_transitions_ := ∅ |> <| early_device_acks_ := ∅ |> <| completed_commands_ := ∅ |>.

Definition SetDatabaseAvailable (s : CommandService) (available : bool) : CommandService :=
  s <| database_available_ := available |>.

Definition SetMqttAvailable (s : CommandService) (available : bool) : CommandService :=
  let was_available := mqtt_available_ s in
  let s := s <| mqtt_available_ := available |> in
  if available && negb was_available then s <| recovery_started_ := ∅ |> else s.

(** The condition [WaitForDatabaseIdle] waits for. *)
Definition DatabaseIdle (s : CommandService) : bool := outstanding_operations_ s =? 0.

Definition ActiveCommandCount (s : CommandService) : nat := size (active_commands_ s).

(** The interleavings: the calls of the other threads take effect between two turns
    of the loop of [ProcessReady], which is [OpProcessOne] repeated, then [OpHousekeeping]. *)
Inductive CommandOp :=
| OpTryPush (message : InboundMessage)
| OpPushDatabaseResult (result : CommandDatabaseResult)
| OpPushPublishCompletion (completion : PublishCompletion)
| OpProcessOne (now : TimePoint)
| OpHousekeeping (now : TimePoint)
| OpTargetOnline (device_id : string) (now : TimePoint)
| OpLoadActive (commands : list CommandRecord)
| OpSetDatabaseAvailable (available : bool)
| OpSetMqttAvailable (available : bool)
| OpCloseCommands
| OpCancelOutstandingWork
| OpDirectory (devices : DeviceRegistry).

Definition command_step (s : CommandService) (op : CommandOp) : CommandService :=
  match op with
  | OpTryPush m => (TryPush s m).2
  | OpPushDatabaseResult r => PushDatabaseResult s r
  | OpPushPublishCompletion c => PushPublishCompletion s c
  | OpProcessOne now => default s (process_one s now)
  | OpHousekeeping now => housekeeping s now
  | OpTargetOnline id now => OnTargetOnline s id now
  | OpLoadActive commands => LoadActive s commands
  | OpSetDatabaseAvailable b => SetDatabaseAvailable s b
  | OpSetMqttAvailable b => SetMqttAvailable s b
  | OpCloseCommands => Close s
  | OpCancelOutstandingWork => CancelOutstandingWork s
  | OpDirectory devices => s <| devices_ := devices |>
  end.

Definition command_run (s : CommandService) (ops : list CommandOp) : CommandService :=
  foldl command_step s ops.
End Service.
