(* ===== verification/CommandServiceFacts.v ===== *)
(** * CommandServiceFacts: what the business thread of the commands keeps

    The frame of every handler, the invariant of the states a sequence of calls
    reaches, and the theorems on [CommandService]. *)

From Stdlib Require Import Ascii ZArith Lia.
From S2P Require Import Prelude Json DeviceMessage DeviceRegistry.
From S2P Require Import CommandTypes CommandState CommandRouter SourceRequest CommandPolicy.
From S2P Require Import DirtyState DeviceService PostgresWorker CommandService.
From stdpp Require Import options.

Create HintDb command.

(** ** The frame: what no handler of the business thread touches *)
Record frame (s s' : CommandService) : Prop := {
  frame_results : database_results_ s' = database_results_ s;
  frame_completions : publish_completions_ s' = publish_completions_ s;
  frame_messages : messages_ s' = messages_ s;
  frame_sources : sources_ s' = sources_ s;
  frame_devices : devices_ s' = devices_ s;
  frame_closed : closed_ s' = closed_ s;
  frame_mqtt : mqtt_available_ s' = mqtt_available_ s;
  frame_outputs : outputs s `prefix_of` outputs s'
}.

#[export] Instance frame_preorder : PreOrder frame.
Proof.
  split.
  - intros s. by split.
  - intros s t u [] []. split; try congruence. by etrans.
Qed.

Section Frame.
Context `{JL : JsonLib, MO : MapOrder} (env : Environment) (cfg : Configuration).

(** An update of a member the frame does not mention is in the frame. *)
Lemma frame_step s t u : frame s t → frame t u → frame s u.
Proof. intros. by etrans. Qed.

Ltac frame_update :=
  match goal with
  | |- frame _ (update _ ?t) =>
      apply (frame_step _ t); [|split; (reflexivity || (exists []; symmetry; apply app_nil_r))]
  end.
#[local] Hint Extern 0 (frame _ _) => reflexivity : command.
#[local] Hint Extern 2 (frame _ _) => frame_update : command.
Ltac frame_cases :=
  cbv zeta; repeat case_match; eauto 12 with command.

Lemma frame_emit s t o : frame s t → frame s (emit t o).
Proof. intros. apply (frame_step _ t); [done|]. split; try done. by exists [o]. Qed.
#[local] Hint Resolve frame_emit : command.
Lemma frame_Diagnose s t o : frame s t → frame s (Diagnose t o).
Proof. apply frame_emit. Qed.
Lemma frame_Inform s t o : frame s t → frame s (Inform t o).
Proof. apply frame_emit. Qed.
#[local] Hint Resolve frame_Diagnose frame_Inform : command.

Lemma frame_ack s t topic payload : frame s t → frame s (publish_source_ack env t topic payload).
Proof. intros. unfold publish_source_ack. frame_cases. Qed.
#[local] Hint Resolve frame_ack : command.
Lemma frame_Reject s t id rid e now type : frame s t → frame s (Reject env cfg t id rid e now type).
Proof. apply frame_ack. Qed.
Lemma frame_PublishAck s t ctx now : frame s t → frame s (PublishAck env cfg t ctx now).
Proof. intros. unfold PublishAck. frame_cases. Qed.
#[local] Hint Resolve frame_Reject frame_PublishAck : command.

Lemma frame_Submit s t kind ctx task : frame s t → frame s (Submit env t kind ctx task).2.
Proof. intros. unfold Submit. frame_cases; cbn [snd]; eauto 12 with command. Qed.
#[local] Hint Resolve frame_Submit : command.
Lemma frame_transition s t ctx task :
  frame s t → frame s (SubmitTransitionOrDefer env t ctx task).
Proof. intros. unfold SubmitTransitionOrDefer, defer. frame_cases. Qed.
#[local] Hint Resolve frame_transition : command.
Lemma frame_retry s t : frame s t → frame s (RetryDeferredTransitions env t).
Proof. intros. unfold RetryDeferredTransitions, defer. frame_cases. Qed.
Lemma frame_PublishRecord s t ctx now : frame s t → frame s (PublishRecord env cfg t ctx now).
Proof. intros. unfold PublishRecord, publish_failed. frame_cases. Qed.
Lemma frame_remember s t ctx now : frame s t → frame s (RememberCompletedCommand cfg t ctx now).
Proof. intros. unfold RememberCompletedCommand. frame_cases. Qed.
Lemma frame_forget s t id : frame s t → frame s (forget_command t id).
Proof. intros. unfold forget_command. frame_cases. Qed.
Lemma frame_set_active s t id ctx : frame s t → frame s (set_active t id ctx).
Proof. intros. unfold set_active. frame_cases. Qed.
#[local] Hint Resolve frame_retry frame_PublishRecord frame_remember frame_forget
  frame_set_active : command.
Lemma frame_device_ack s t id payload type now :
  frame s t → frame s (HandleDeviceAck env cfg t id payload type now).
Proof.
  intros. unfold HandleDeviceAck, TryHandleLateDeviceAck, unmatched_ack, keep_early_ack,
    apply_device_ack. frame_cases; simplify_eq; eauto with command.
Qed.
#[local] Hint Resolve frame_device_ack : command.
Lemma frame_message s m now : frame s (HandleMessage env cfg s m now).
Proof. unfold HandleMessage, HandleRequest. frame_cases. Qed.
Lemma frame_found s t ctx e now : frame s t → frame s (handle_found env cfg t ctx e now).
Proof. intros. unfold handle_found, answer_duplicate. frame_cases. Qed.
Lemma frame_converge s t ctx r now : frame s t → frame s (ConvergeAfterConflict env cfg t ctx r now).
Proof. intros. unfold ConvergeAfterConflict. frame_cases. Qed.
Lemma frame_settle s t k ctx q r now :
  frame s t → frame s (settle_written env cfg t k ctx q r now).
Proof. intros. unfold settle_written, replay_early_ack. frame_cases; simplify_eq; eauto 12 with command. Qed.
#[local] Hint Resolve frame_found frame_converge frame_settle : command.
Lemma frame_written s t k ctx r now : frame s t → frame s (handle_written env cfg t k ctx r now).
Proof. intros. unfold handle_written, answer_duplicate. frame_cases. Qed.
#[local] Hint Resolve frame_written : command.
Lemma frame_result s r now : frame s (HandleDatabaseResult env cfg s r now).
Proof.
  unfold HandleDatabaseResult, handle_operation_error, handle_operation_value,
    HandleTransitionConflict. frame_cases.
Qed.
Lemma frame_completion s c now : frame s (HandleCompletion env s c now).
Proof. unfold HandleCompletion. frame_cases. Qed.
Lemma frame_cleanup s t now : frame s t → frame s (schedule_cleanup env cfg t now).
Proof. intros. unfold schedule_cleanup. frame_cases. Qed.
Lemma frame_check s t now id : frame s t → frame s (check_command env cfg now t id).
Proof. intros. unfold check_command, time_out, start_recovery. frame_cases. Qed.
#[local] Hint Resolve frame_cleanup : command.
Lemma frame_timeouts s t now : frame s t → frame s (ProcessTimeoutsAndRecovery env cfg t now).
Proof.
  intros H. unfold ProcessTimeoutsAndRecovery. generalize (map_order (active_commands_
    (schedule_cleanup env cfg t now))).*1. intros ids.
  induction ids as [|id ids IH] using rev_ind; [by apply frame_cleanup|].
  rewrite foldl_snoc. by apply frame_check.
Qed.
Lemma frame_housekeeping s now : frame s (housekeeping env cfg s now).
Proof. apply frame_timeouts, frame_retry. reflexivity. Qed.
End Frame.

(** ** The loop of ProcessReady ends with empty queues *)
Section Queues.
Context `{JL : JsonLib, MO : MapOrder} (env : Environment) (cfg : Configuration).

Lemma frame_queued s s' : frame s s' → queued s' = queued s.
Proof. intros []. unfold queued. congruence. Qed.

Lemma process_one_queued s now :
  match process_one env cfg s now with
  | Some s' => queued s = S (queued s')
  | None => queued s = 0%nat
  end.
Proof.
  unfold process_one. destruct (database_results_ s) as [|r rest] eqn:Er; cycle 1.
  { rewrite (frame_queued _ _ (frame_result env cfg _ r now)). unfold queued at 1. by rewrite Er. }
  destruct (publish_completions_ s) as [|c rest] eqn:Ec; cycle 1.
  { rewrite (frame_queued _ _ (frame_completion env _ c now)).
    change (queued (update _ _))
      with (length (database_results_ s) + length rest + length (messages_ s))%nat.
    unfold queued. rewrite Er, Ec. cbn [length]. lia. }
  destruct (messages_ s) as [|m rest] eqn:Em; cycle 1.
  { rewrite (frame_queued _ _ (frame_message env cfg _ m now)).
    change (queued (update _ _))
      with (length (database_results_ s) + length (publish_completions_ s) + length rest)%nat.
    unfold queued. rewrite Er, Ec, Em. cbn [length]. lia. }
  unfold queued. by rewrite Er, Ec, Em.
Qed.

Lemma process_queues_drained fuel s now :
  (queued s <= fuel)%nat → queued (process_queues env cfg fuel s now) = 0%nat.
Proof.
  revert s. induction fuel as [|fuel IH]; intros s Hf; cbn [process_queues]; [lia|].
  pose proof (process_one_queued s now) as H. destruct (process_one env cfg s now); [|done].
  apply IH. lia.
Qed.

(** C30: ProcessReady ends with its three queues empty: the loop over what its own steps enqueue
    terminates. *)
Theorem process_ready_drains s now :
  let s' := ProcessReady env cfg s now in
  database_results_ s' = [] ∧ publish_completions_ s' = [] ∧ messages_ s' = [].
Proof.
  intros s'. set (q := process_queues env cfg (queued s) s now).
  assert (queued q = 0%nat) as Hq by by apply process_queues_drained.
  assert (frame q s') as Hs by apply frame_housekeeping.
  apply frame_queued in Hs. rewrite Hq in Hs. unfold queued in Hs.
  destruct (database_results_ s'), (publish_completions_ s'), (messages_ s'); cbn in Hs; lia || done.
Qed.
End Queues.

(** ** The invariant *)
Section Invariant.
Context `{JL : JsonLib, MO : MapOrder} (env : Environment) (cfg : Configuration).

(** A request that was parsed: what it asks for is in range, and one that names
    itself can be compared with another. *)
Definition parsed_ok (type : CommandType) (parsed : ParsedSourceRequest) : Prop :=
  match parsed with
  | ParsedConfig r => type = kConfig ∧ parameters_ok (cr_parameters r)
  | ParsedControl r => type = kControl ∧ control_ok (tr_command r) (tr_parameters r)
  | ParsedRejected r => is_Some (rj_request_id r) → is_Some (rj_comparison_payload r)
  end.

Definition context_ok (context : RequestContext) : Prop :=
  parsed_ok (x_command_type context) (x_parsed context).

(** The context of a command that is not over. *)
Definition live (context : RequestContext) (record : CommandRecord) : Prop :=
  x_record context = Some record ∧ IsTerminal (c_status record) = false.

Definition active_ok (id : string) (context : RequestContext) : Prop :=
  context_ok context ∧ ∃ record, live context record ∧ c_command_id record = id.

Definition publication_ok (context : RequestContext) : Prop :=
  context_ok context ∧ ∃ record, live context record.

(** The transitions the service asks for.  The one that is not of the life cycle is
    the confirmation of a publication of a command that is in progress. *)
Definition transition_ok (expected_ desired : CommandStatus) : Prop :=
  CanTransition expected_ desired = true ∨ (expected_ = kInProgress ∧ desired = kDispatched).

Definition recorded (context : RequestContext) : Prop :=
  context_ok context ∧ is_Some (x_record context).

Definition deferred_ok (id : string) (d : DeferredTransition) : Prop :=
  t_command_id (d_task d) = id ∧ recorded (d_context d) ∧
  transition_ok (t_expected (d_task d)) (t_desired (d_task d)).

Definition operation_ok (o : Operation) : Prop :=
  match o_kind o with
  | kCleanup => True
  | kFind => context_ok (o_context o) ∧ is_Some (RequestId (x_parsed (o_context o)))
  | _ => recorded (o_context o)
  end.

Definition completed_ok (k : CompletedCommand) : Prop :=
  ∃ record, x_record (k_context k) = Some record ∧ IsTerminal (c_status record) = true.

(** A command is inserted pending with a target, or failed with its error. *)
Definition insert_ok (r : CommandRecord) : Prop :=
  IsUuidV4Shape (c_command_id r) = true ∧ c_device_ack r = None ∧
  ((c_status r = kPending ∧ is_Some (c_target_device_id r) ∧ c_error_code r = None ∧
    c_completed_at r = None) ∨
   (c_status r = kFailed ∧ is_Some (c_error_code r) ∧ c_completed_at r = Some (c_created_at r))).

Definition task_ok (task : CommandDatabaseTask) : Prop :=
  match task with
  | InsertCommandTask r => insert_ok r
  | TransitionCommandTask _ e d _ => transition_ok e d
  | _ => True
  end.

(** What a device is sent: the parameters of a request, in range, on the topic of its kind. *)
Definition device_message_ok (topic payload : string) : Prop :=
  ∃ device_id command_id type parsed p,
    parsed_ok type parsed ∧ command_payload parsed command_id = Some p ∧
    topic = DeviceSetTopic (topic_namespace_ cfg) device_id type ∧ payload = json_dump p.

(** What a source is sent: a rejection, or the state of a command. *)
Definition source_message_ok (topic payload : string) : Prop :=
  ∃ source_id type,
    topic = SourceAckTopic (topic_namespace_ cfg) source_id type ∧
    ((∃ id e now, payload = json_dump (BuildPrePersistenceRejection id e now type)) ∨
     (∃ r t now ack, BuildSourceAck r t now = Some ack ∧ payload = json_dump ack)).

Definition output_ok (o : Output) : Prop :=
  match o with
  | TaskSubmitted _ task _ => task_ok task
  | DevicePublish _ topic payload _ => device_message_ok topic payload
  | SourceAck topic payload => source_message_ok topic payload
  | _ => True
  end.

(** The calls made to the database submitter. *)
Definition submission (o : Output) : bool :=
  match o with TaskSubmitted _ _ _ => true | _ => false end.
Definition submissions (os : list Output) : Z := Z.of_nat (length (List.filter submission os)).

(** Until the operation identifier wraps around, the counter of outstanding operations
    is their number and every identifier in use is older than the next. *)
Definition counts (os : list Output) (next outstanding : Z) (ops : gmap Z Operation) : Prop :=
  submissions os < max_u64 →
  next = 1 + submissions os ∧ outstanding = Z.of_nat (size ops) ∧
  Z.of_nat (size ops) <= submissions os ∧ ∀ id, is_Some (ops !! id) → id < next.
Definition counted (s : CommandService) : Prop :=
  counts (outputs s) (next_operation_id_ s) (outstanding_operations_ s) (operations_ s).

Record command_ok (s : CommandService) : Prop := {
  ok_active : map_Forall active_ok (active_commands_ s);
  ok_publications : map_Forall (λ _, publication_ok) (publications_ s);
  ok_deferred : map_Forall deferred_ok (deferred_transitions_ s);
  ok_operations : map_Forall (λ _, operation_ok) (operations_ s);
  ok_completed : map_Forall (λ _, completed_ok) (completed_commands_ s);
  ok_completed_size : (size (completed_commands_ s) <= max_inflight_commands_ cfg)%nat;
  ok_messages : (length (messages_ s) <= max_inflight_commands_ cfg)%nat;
  ok_outputs : Forall output_ok (outputs s);
  ok_counted : counted s
}.

(** An update of the other members. *)
Ltac ok_update H := destruct H; split; assumption.

Lemma ParseRequest_ok text kind type : parsed_ok type (ParseRequest text kind type).
Proof.
  unfold ParseRequest, is_control. destruct type; cbn [bool_decide decide_rel].
  - destruct (ParseSourceConfigRequest text kind) as [r|r|r] eqn:E.
    + apply config_request_inv in E as (_ & _ & _ & _ & _ & (p & _ & Hp)).
      split; [done|]. by eapply ParseParameters_ok.
    + exfalso. unfold ParseSourceConfigRequest, SourceRequest.Reject in E. repeat step_match.
    + apply config_rejection in E as (H1 & H2 & _). cbn. intros H. rewrite H2 by done.
      rewrite H1 in H. destruct (json_parse text); [done|]. by destruct H.
  - destruct (ParseSourceControlRequest text kind) as [r|r|r] eqn:E.
    + exfalso. unfold ParseSourceControlRequest, SourceRequest.Reject in E. repeat step_match.
    + apply control_request_inv in E as (_ & _ & _ & _ & _ & _ & (p & _ & Hp)).
      split; [done|]. by eapply ParseControlParameters_ok.
    + apply control_rejection in E as (H1 & H2 & _). cbn. intros H. rewrite H2 by done.
      rewrite H1 in H. destruct (json_parse text); [done|]. by destruct H.
Qed.

Lemma submissions_snoc os o :
  submissions (os ++ [o]) = submissions os + (if submission o then 1 else 0).
Proof.
  unfold submissions. rewrite List.filter_app, length_app. cbn [List.filter].
  destruct (submission o); cbn; lia.
Qed.

Lemma ok_emit s o :
  command_ok s → output_ok o → submission o = false → command_ok (emit s o).
Proof.
  intros [] Ho Hn. split; try assumption.
  - apply Forall_app. split; [done|]. by apply Forall_singleton.
  - unfold counted, counts. change (outputs (emit s o)) with (outputs s ++ [o]).
    rewrite submissions_snoc, Hn, Z.add_0_r. assumption.
Qed.
Lemma ok_Diagnose s m : command_ok s → command_ok (Diagnose s m).
Proof. intros. by apply ok_emit. Qed.
Lemma ok_Inform s m : command_ok s → command_ok (Inform s m).
Proof. intros. by apply ok_emit. Qed.
#[local] Hint Resolve ok_Diagnose ok_Inform : command.

Lemma ok_ack s topic payload :
  command_ok s → (∀ text, payload = Some text → source_message_ok topic text) →
  command_ok (publish_source_ack env s topic payload).
Proof.
  intros H Hp. unfold publish_source_ack. destruct payload as [text|]; [|by apply ok_Diagnose].
  assert (command_ok (s <| ack_calls := S (ack_calls s) |>)) as H' by ok_update H.
  cbv zeta. destruct (ack_reply env (ack_calls s)); try (by apply ok_Diagnose);
    (apply ok_emit; [done|by apply Hp|done]).
Qed.

Lemma ok_Reject s id rid e now type : command_ok s → command_ok (Reject env cfg s id rid e now type).
Proof.
  intros H. apply ok_ack; [done|]. intros text [= <-]. exists id, type. split; [done|]. left.
  by exists rid, e, now.
Qed.

Lemma ok_PublishAck s ctx now : command_ok s → command_ok (PublishAck env cfg s ctx now).
Proof.
  intros H. unfold PublishAck. destruct (x_record ctx) as [r|]; [|done]. apply ok_ack; [done|].
  intros text. destruct (BuildSourceAck r (x_target ctx) now) as [a|] eqn:E; [|done]. cbn.
  intros [= <-]. exists (x_source_id ctx), (x_command_type ctx). split; [done|]. right.
  by exists r, (x_target ctx), now, a.
Qed.
#[local] Hint Resolve ok_Reject ok_PublishAck : command.

Lemma map_Forall_emplace {K V} `{Countable K} (P : K → V → Prop) (m : gmap K V) k v :
  P k v → map_Forall P m → map_Forall P (emplace k v m).
Proof.
  intros Hk Hm. unfold emplace. destruct (m !! k); [done|]. by apply map_Forall_insert_2.
Qed.

Lemma submissions_nonneg os : 0 <= submissions os.
Proof. unfold submissions. lia. Qed.

Lemma counts_refused os next out ops o :
  submission o = true → counts os next out ops → counts (os ++ [o]) (u64 (next + 1)) out ops.
Proof.
  intros Ho H Hlt. rewrite submissions_snoc, Ho in *. pose proof (submissions_nonneg os).
  destruct H as (-> & -> & Hsz & Hids); [lia|].
  rewrite u64_small by (unfold max_u64 in *; lia). repeat split; try lia.
  intros i Hi. specialize (Hids i Hi). lia.
Qed.

Lemma counts_accepted os next out ops o op :
  submission o = true → counts os next out ops →
  counts (os ++ [o]) (u64 (next + 1)) (u64 (out + 1)) (emplace next op ops).
Proof.
  intros Ho H Hlt. rewrite submissions_snoc, Ho in *. pose proof (submissions_nonneg os).
  destruct H as (-> & -> & Hsz & Hids); [lia|]. set (id := 1 + submissions os) in *.
  assert (ops !! id = None) as Hfresh.
  { destruct (ops !! id) eqn:E; [|done]. exfalso. apply (Z.lt_irrefl id), Hids. by eexists. }
  unfold emplace. rewrite Hfresh, map_size_insert_None by done.
  rewrite !u64_small by (unfold max_u64 in *; lia). repeat split; try lia.
  intros i [o' Hi]. rewrite lookup_insert_Some in Hi. destruct Hi as [[<- _]|[_ Hi]]; [lia|].
  specialize (Hids i (mk_is_Some _ _ Hi)). lia.
Qed.

Lemma counts_answered os next out ops id op :
  ops !! id = Some op → counts os next out ops → counts os next (u64 (out - 1)) (delete id ops).
Proof.
  intros Hid H Hlt. pose proof (submissions_nonneg os).
  destruct H as (-> & -> & Hsz & Hids); [done|].
  assert (size ops ≠ 0%nat) as Hne by (apply (map_size_ne_0_lookup_2 _ id); by eexists).
  rewrite map_size_delete_Some by by eexists. rewrite u64_small by (unfold max_u64 in *; lia).
  repeat split; try lia. intros i [o' Hi]. apply lookup_delete_Some in Hi as [_ Hi].
  apply Hids. by eexists.
Qed.

Lemma ok_Submit s kind ctx task :
  command_ok s → operation_ok {| o_kind := kind; o_context := ctx |} → task_ok task →
  command_ok (Submit env s kind ctx task).2.
Proof.
  intros H Ho Ht. pose proof (ok_counted s H) as Hc. pose proof (ok_operations s H) as Hops.
  unfold Submit. set (id := next_operation_id_ s).
  set (o := TaskSubmitted id task (submit_reply env id)).
  assert (Forall output_ok (outputs s ++ [o])) as Hout.
  { apply Forall_app. split; [apply H|]. by apply Forall_singleton. }
  destruct (submit_reply env id); cbn [snd]; destruct H; split; try assumption.
  - by apply (map_Forall_emplace (λ _, operation_ok)).
  - by apply (counts_accepted _ _ _ _ o).
  - by apply (counts_refused _ _ _ _ o).
Qed.
#[local] Hint Resolve ok_Submit : command.

Lemma ok_transition s ctx t :
  command_ok s → recorded ctx → transition_ok (t_expected t) (t_desired t) →
  command_ok (SubmitTransitionOrDefer env s ctx t).
Proof.
  intros H Hc Ht. unfold SubmitTransitionOrDefer. cbv zeta.
  pose proof (ok_Submit s kTransition ctx (transition_task t) H Hc Ht) as H'.
  destruct (Submit env s kTransition ctx (transition_task t)) as [[] s']; cbn [fst snd] in *.
  - destruct H'. split; try assumption. by apply map_Forall_delete.
  - destruct H'. split; try assumption. by apply map_Forall_insert_2.
Qed.

Lemma ok_retry s : command_ok s → command_ok (RetryDeferredTransitions env s).
Proof.
  intros H. unfold RetryDeferredTransitions. destruct (negb _); [done|].
  destruct (map_order (deferred_transitions_ s)) as [|[id d] rest] eqn:E; [done|]. cbv zeta.
  assert (deferred_transitions_ s !! id = Some d) as Hd.
  { apply map_order_lookup. rewrite E. left. }
  destruct (ok_deferred s H _ _ Hd) as (Hid & Hc & Ht).
  set (s1 := update _ s). assert (command_ok s1) as H1.
  { destruct H. split; try assumption. by apply map_Forall_delete. }
  pose proof (ok_Submit s1 kTransition (d_context d) (transition_task (d_task d)) H1 Hc Ht) as H'.
  destruct (Submit env s1 _ _ _) as [[] s']; cbn [fst snd] in *; [done|].
  destruct H'. split; try assumption. by apply map_Forall_insert_2.
Qed.

Lemma live_can_end from to :
  IsTerminal from = false → to = kFailed ∨ to = kTimeout ∨ to = kDeliveryUncertain →
  CanTransition from to = true.
Proof. intros H [-> |[-> | ->]]; by destruct from. Qed.

Lemma ok_publish s ctx now :
  command_ok s → publication_ok ctx → command_ok (PublishRecord env cfg s ctx now).
Proof.
  intros H Hp. assert (Hp' := Hp). destruct Hp' as (Hc & r & Hr & Hl). unfold PublishRecord.
  rewrite Hr. destruct (c_target_device_id r) as [device|]; [|done].
  destruct (negb _); [done|]. destruct (command_payload _ _) as [p|] eqn:Ep; [|done]. cbv zeta.
  match goal with |- context [emit ?s1 (DevicePublish ?t ?topic ?text ?r)] =>
    assert (command_ok (emit s1 (DevicePublish t topic text r))) as H' end.
  { apply ok_emit; [|by exists device, (c_command_id r), (x_command_type ctx), (x_parsed ctx), p|done].
    destruct H. split; try assumption. by apply (map_Forall_emplace (λ _, publication_ok)). }
  destruct (publish_reply _ _); [exact H'|]. apply ok_transition.
  - destruct H'. split; try assumption. by apply map_Forall_delete.
  - split; [exact Hc|]. by eexists.
  - left. apply live_can_end; [exact Hl|by left].
Qed.

Lemma evict_size fuel max (m : gmap string CompletedCommand) :
  (size m <= max + fuel)%nat → (size (evict fuel max m) <= max)%nat.
Proof.
  revert m. induction fuel as [|fuel IH]; intros m Hm; cbn [evict]; [lia|].
  destruct (max <? size m)%nat eqn:E; [|apply Nat.ltb_ge in E; lia]. apply Nat.ltb_lt in E.
  unfold oldest_completed. destruct (map_order m) as [|b rest] eqn:Eo.
  { apply (f_equal length) in Eo. rewrite map_order_length in Eo. cbn in Eo. lia. }
  apply IH. assert (∃ v, m !! (foldl older b rest).1 = Some v) as [v Hv].
  { assert (foldl older b rest ∈ b :: rest) as Hin.
    { clear. revert b. induction rest as [|c rest IH]; intros b; [left|]. cbn [foldl].
      specialize (IH (older b c)).
      apply elem_of_cons in IH as [IH|IH]; [|right; by right].
      rewrite IH. unfold older. case_match; [right; left|left]. }
    rewrite <- Eo in Hin. destruct (foldl older b rest) as [k v]. exists v. by apply map_order_lookup. }
  rewrite map_size_delete_Some by by eexists. lia.
Qed.

Lemma evict_Forall P fuel max (m : gmap string CompletedCommand) :
  map_Forall P m → map_Forall P (evict fuel max m).
Proof.
  revert m. induction fuel as [|fuel IH]; intros m Hm; cbn [evict]; [done|].
  destruct (_ <? _)%nat; [|done]. destruct (oldest_completed m); [|done].
  by apply IH, map_Forall_delete.
Qed.

Lemma ok_remember s ctx now :
  command_ok s → command_ok (RememberCompletedCommand cfg s ctx now).
Proof.
  intros H. unfold RememberCompletedCommand. destruct (x_record ctx) as [r|] eqn:Er; [|done].
  destruct (IsTerminal (c_status r)) eqn:Et; [|done]. cbn [negb]. cbv zeta.
  destruct H. split; try assumption.
  - apply evict_Forall, map_Forall_insert_2; [|done]. by exists r.
  - apply evict_size. lia.
Qed.

Lemma ok_forget s id : command_ok s → command_ok (forget_command s id).
Proof. intros []. split; try assumption. by apply map_Forall_delete. Qed.

Lemma ok_set_active s id ctx :
  command_ok s → active_ok id ctx → command_ok (set_active s id ctx).
Proof. intros [] Ha. split; try assumption. by apply map_Forall_insert_2. Qed.

Lemma active_publication id ctx : active_ok id ctx → publication_ok ctx.
Proof. intros (Hc & r & Hl & _). split; [done|]. by exists r. Qed.

#[local] Hint Resolve ok_transition ok_publish ok_remember ok_forget ok_set_active : command.

Lemma matching_active s device_id type id ctx r :
  matching_command s device_id type id = Some (ctx, r) →
  active_commands_ s !! id = Some ctx ∧ x_record ctx = Some r ∧ targets r device_id = true ∧
  x_command_type ctx = type.
Proof.
  unfold matching_command. intros H. repeat step_match. bool_prop. done.
Qed.

Lemma ack_status_follows from text :
  from = kDispatched ∨ from = kInProgress → CanTransition from (ack_status text) = true.
Proof. intros [-> | ->]; unfold ack_status; repeat case_match; done. Qed.

Lemma ok_early_ack s device payload type id text now :
  command_ok s → command_ok (keep_early_ack s device payload type id text now).
Proof.
  intros H. assert (∀ m, command_ok (s <| early_device_acks_ := m |>)) as Hm by (intros; ok_update H).
  unfold keep_early_ack. cbv zeta. repeat case_match; eauto with command.
Qed.

Lemma ok_apply_ack s ctx r ack type now :
  command_ok s → context_ok ctx → c_status r = kDispatched ∨ c_status r = kInProgress →
  command_ok (apply_device_ack env cfg s ctx r ack type now).
Proof.
  intros H Hc Hr. unfold apply_device_ack. cbv zeta. apply ok_transition; [done| |].
  - split; [|by eexists]. by destruct (is_status _ _).
  - left. by apply ack_status_follows.
Qed.

Lemma ok_device_ack s device payload type now :
  command_ok s → command_ok (HandleDeviceAck env cfg s device payload type now).
Proof.
  intros H. unfold HandleDeviceAck. destruct (read_device_ack payload type) as [ack|m]; [|by apply ok_Diagnose].
  destruct (matching_command _ _ _ _) as [[ctx r]|] eqn:Em; cycle 1.
  { unfold TryHandleLateDeviceAck, unmatched_ack. cbv zeta. repeat case_match; simplify_eq; eauto with command. }
  apply matching_active in Em as (Ha & _). apply (ok_active s H) in Ha as [Hc _].
  destruct (negb _); [by apply ok_Diagnose|].
  destruct (is_status (c_status r) kPending); [by apply ok_early_ack|].
  destruct (negb (is_status (c_status r) kDispatched) && negb _) eqn:Es; [done|].
  apply ok_apply_ack; [done|done|]. unfold is_status in Es. bool_prop.
  destruct Es; bool_prop; auto.
Qed.
#[local] Hint Resolve ok_device_ack : command.

Lemma ok_request s id type m now :
  command_ok s → command_ok (HandleRequest env cfg s id type m now).
Proof.
  intros H. unfold HandleRequest. cbv zeta.
  destruct (CatalogFind _ _) as [source|]; [|by apply ok_Reject].
  destruct (negb _); [by apply ok_Reject|]. destruct (negb (source_online s source)); [by apply ok_Reject|].
  set (parsed := ParseRequest _ _ _). destruct (RequestId parsed) as [rid|] eqn:Ei; cycle 1.
  { destruct parsed; [done..|by apply ok_Reject]. }
  destruct (negb _); [by apply ok_Reject|]. destruct (negb (database_available_ s)); [by apply ok_Reject|].
  destruct (_ <=? _)%nat; [by apply ok_Reject|].
  match goal with |- context [Submit env s ?k ?c ?t] =>
    assert (command_ok (Submit env s k c t).2) as H' end.
  { apply ok_Submit; [done| |done]. split; [apply ParseRequest_ok|].
    change (is_Some (RequestId parsed)). by eexists. }
  destruct (Submit env s _ _ _) as [[] s']; [done|by apply ok_Reject].
Qed.

Lemma ok_message s m now : command_ok s → command_ok (HandleMessage env cfg s m now).
Proof.
  intros H. unfold HandleMessage. cbv zeta.
  repeat case_match; try done; by (apply ok_device_ack || apply ok_request).
Qed.

Lemma uuid_generated f : IsUuidV4Shape (GenerateUuidV4 f) = true.
Proof.
  unfold GenerateUuidV4. apply uuid_shape; [by rewrite length_fmap, length_seq|].
  apply Forall_fmap, Forall_true. intros i. unfold is_byte. cbn. apply Z.mod_pos_bound. lia.
Qed.

Lemma prepare_ok s ctx id r t :
  IsUuidV4Shape id = true → prepare_record s ctx (new_record ctx id) = (r, t) → insert_ok r.
Proof.
  intros Hid. unfold prepare_record. cbv zeta.
  assert (∀ r0 e, c_command_id r0 = id → c_device_ack r0 = None →
    c_created_at r0 = x_received_at ctx → insert_ok (fail_record r0 e (x_received_at ctx))) as Hf.
  { intros r0 e H1 H2 H3. split; [by rewrite <- Hid, <- H1|]. split; [exact H2|]. right.
    split; [done|]. split; [by eexists|]. by rewrite <- H3. }
  intros E. repeat case_match; simplify_eq; try by apply Hf.
  all: split; [exact Hid|]; split; [done|]; left; split; [done|]; split; [by eexists|done].
Qed.

Lemma ok_found s ctx existing now :
  command_ok s → context_ok ctx → command_ok (handle_found env cfg s ctx existing now).
Proof.
  intros H Hc. unfold handle_found, answer_duplicate. destruct existing as [r|].
  { destruct (conflicts _ _); [by apply ok_Reject|by apply ok_PublishAck]. }
  cbv zeta. set (s1 := update _ s). assert (command_ok s1) as H1 by ok_update H.
  destruct (prepare_record s1 _ _) as [r t] eqn:Ep. cbn [fst snd].
  apply ok_Submit; [done| |eapply prepare_ok; [apply uuid_generated|exact Ep]].
  split; [exact Hc|]. by eexists.
Qed.

Lemma ok_converge s ctx current now :
  command_ok s → context_ok ctx → command_ok (ConvergeAfterConflict env cfg s ctx current now).
Proof.
  intros H Hc. unfold ConvergeAfterConflict. destruct (x_record ctx) as [desired|]; [|done]. cbv zeta.
  destruct (IsTerminal (c_status current)) eqn:Et.
  { destruct (bool_decide _); eauto with command. }
  assert (active_ok (c_command_id current)
    (ctx <| x_record := Some current |> <| x_target := TargetFor s current |>)) as Ha.
  { split; [exact Hc|]. by exists current. }
  destruct (is_status _ _); [by apply ok_set_active|].
  destruct (CanTransition _ _) eqn:Ec; [|by apply ok_set_active].
  apply ok_transition; [done| |by left]. split; [exact Hc|]. by eexists.
Qed.

Lemma ok_settle s kind ctx requested r now :
  command_ok s → context_ok ctx → x_record ctx = Some r →
  command_ok (settle_written env cfg s kind ctx requested r now).
Proof.
  intros H Hc Hr. unfold settle_written. cbv zeta.
  set (s1 := PublishAck env cfg s ctx now). assert (command_ok s1) as H1 by by apply ok_PublishAck.
  set (s2 := match x_target ctx with Some _ => _ | None => s1 end).
  assert (command_ok s2) as H2.
  { unfold s2. destruct (x_target ctx); [|done]. destruct (dispatch_persisted _ _ _); [|done].
    by apply ok_Inform. }
  match goal with |- command_ok (let '(_, _) := ?p in _) =>
    assert (command_ok p.1 ∧ context_ok p.2 ∧ x_record p.2 = Some r) as (H3 & Hc3 & Hr3) end.
  { destruct (x_target ctx), (x_device_ack_business_status ctx) as [text|]; try done.
    destruct (ack_persisted _ _); [|done]. split; [by apply ok_Inform|]. by split. }
  match goal with |- command_ok (let '(_, _) := ?p in _) => destruct p as [s3 ctx3] end.
  cbn [fst snd] in *. destruct (IsTerminal (c_status r)) eqn:Et; [eauto with command|].
  assert (command_ok (set_active s3 (c_command_id r) ctx3)) as H4.
  { apply ok_set_active; [done|]. split; [done|]. by exists r. }
  destruct (is_status _ _); [|done]. unfold replay_early_ack.
  destruct (early_device_acks_ _ !! _); [|done]. apply ok_device_ack. ok_update H4.
Qed.

Lemma ok_written s kind ctx r now :
  command_ok s → recorded ctx → command_ok (handle_written env cfg s kind ctx r now).
Proof.
  intros H [Hc Hr]. unfold handle_written. destruct (other_command _ _ _) as [ins|].
  { destruct (conflicts _ _); [by apply ok_Reject|by apply ok_PublishAck]. }
  destruct (terminal_behind kind (x_record ctx) r) as [desired|] eqn:Et.
  { unfold terminal_behind in Et. repeat step_match. bool_prop.
    apply ok_transition; [done|by split; [|eexists]|by left]. }
  cbv zeta. destruct (_ || _) eqn:Ek; [by apply ok_settle|]. bool_prop.
  assert (active_ok (c_command_id r) (ctx <| x_record := Some r |>)) as Ha.
  { split; [exact Hc|]. by exists r. }
  apply ok_publish; [by apply ok_set_active|]. by eapply active_publication.
Qed.

Lemma ok_error s o e :
  command_ok s → operation_ok o → command_ok (handle_operation_error env s o e).
Proof.
  intros H Ho. unfold handle_operation_error, HandleTransitionConflict. cbv zeta.
  assert (command_ok (s <| database_available_ := false |>)) as H' by ok_update H.
  destruct (x_record (o_context o)) as [r|] eqn:Er; [|destruct (err_kind e); by apply ok_Diagnose].
  destruct (bool_decide (o_kind o = kTransition) && _) eqn:Ek;
    [|destruct (err_kind e); by apply ok_Diagnose].
  apply andb_true_iff in Ek as [Ek _]. apply bool_decide_eq_true in Ek.
  unfold operation_ok in Ho. rewrite Ek in Ho.
  match goal with |- context [Submit env s ?k ?c ?t] =>
    pose proof (ok_Submit s k c t H Ho I) as H2; destruct (Submit env s k c t) as [[] s2] end.
  - exact H2.
  - apply ok_Diagnose. ok_update H2.
Qed.

Lemma ok_value s o v now :
  command_ok s → operation_ok o → command_ok (handle_operation_value env cfg s o v now).
Proof.
  intros H Ho. unfold handle_operation_value, operation_ok in *. cbv zeta.
  destruct (o_kind o), v as [|[r|]|r| |]; try (by apply ok_Diagnose); try done;
    try (by apply ok_found, Ho); try (by apply ok_written); try (by apply ok_converge, Ho).
Qed.

Lemma ok_result s r now : command_ok s → command_ok (HandleDatabaseResult env cfg s r now).
Proof.
  intros H. unfold HandleDatabaseResult. destruct (operations_ s !! _) as [o|] eqn:Eo; [|done].
  cbv zeta. assert (operation_ok o) as Ho by exact (ok_operations s H _ _ Eo).
  set (s1 := update _ _). assert (command_ok s1) as H1.
  { pose proof (counts_answered _ _ _ _ _ _ Eo (ok_counted s H)). destruct H. split; try assumption.
    by apply map_Forall_delete. }
  destruct (cd_value r); [by apply ok_value|by apply ok_error].
Qed.

Lemma ok_completion s c now : command_ok s → command_ok (HandleCompletion env s c now).
Proof.
  intros H. unfold HandleCompletion. destruct (publications_ s !! _) as [ctx|] eqn:Ep; [|done].
  destruct (ok_publications s H _ _ Ep) as (Hc & r & Hr & Hl). cbv zeta. rewrite Hr.
  set (s1 := update _ _). assert (command_ok s1) as H1.
  { destruct H. split; try assumption. by apply map_Forall_delete. }
  destruct (pc_result c && _) eqn:Ed; [done|]. apply ok_transition; [done|by split; [|eexists]|].
  change (transition_ok (c_status r) (c_status (completed_record ctx r (pc_result c) now))).
  unfold completed_record. destruct (pc_result c).
  - change (transition_ok (c_status r) kDispatched). unfold transition_ok.
    cbn [andb] in Ed. unfold is_status in Ed. bool_prop. destruct (c_status r); auto.
  - left. apply live_can_end; [exact Hl|]. cbv zeta.
    change (c_status _) with (if is_control (x_command_type ctx) then kDeliveryUncertain else kFailed).
    destruct (is_control _); auto.
Qed.

Lemma ok_cleanup s now : command_ok s → command_ok (schedule_cleanup env cfg s now).
Proof.
  intros H. assert (∀ t n, command_ok t → command_ok (t <| next_cleanup_at_ := n |>)) as Hn
    by (intros t n Ht; ok_update Ht).
  unfold schedule_cleanup. cbv zeta. destruct (next_cleanup_at_ s); [|by apply Hn].
  destruct (_ <=? _); [|done]. apply Hn. destruct (negb _ && _); [|done]. by apply ok_Submit.
Qed.

Lemma ok_check s now id : command_ok s → command_ok (check_command env cfg now s id).
Proof.
  intros H. unfold check_command. destruct (active_commands_ s !! id) as [ctx|] eqn:Ea; [|done].
  assert (active_ok id ctx) as Ha by exact (ok_active s H _ _ Ea).
  destruct Ha as (Hc & r & (Hr & Hl) & Hid). rewrite Hr.
  assert (command_ok (start_recovery s id)) as Hs by ok_update H.
  destruct (_ <=? _).
  - destruct (recovering s id); [done|]. unfold time_out. cbv zeta.
    apply ok_transition; [done|by split; [|eexists]|]. left. apply live_can_end; [exact Hl|auto].
  - destruct (_ || _ || _); [done|]. destruct (c_target_device_id r); [|done].
    destruct (is_online _ _); [|done]. apply ok_publish; [done|]. split; [done|]. by exists r.
Qed.

Lemma ok_fold {A} (f : CommandService → A → CommandService) s l :
  (∀ s x, command_ok s → command_ok (f s x)) → command_ok s → command_ok (foldl f s l).
Proof. intros Hf. revert s. induction l as [|x l IH]; intros s H; [done|]. by apply IH, Hf. Qed.

Lemma ok_timeouts s now : command_ok s → command_ok (ProcessTimeoutsAndRecovery env cfg s now).
Proof.
  intros H. unfold ProcessTimeoutsAndRecovery. apply ok_fold; [|by apply ok_cleanup].
  intros. by apply ok_check.
Qed.

Lemma ok_load s r : command_ok s → command_ok (load_command cfg s r).
Proof.
  intros H. unfold load_command. destruct (CatalogFind _ _) as [source|]; [|done].
  destruct (IsTerminal (c_status r)) eqn:Et; [done|]. cbv zeta. apply ok_set_active; [done|].
  split; [apply ParseRequest_ok|]. by exists r.
Qed.

Lemma ok_one s now : command_ok s → command_ok (default s (process_one env cfg s now)).
Proof.
  intros H. unfold process_one. destruct (database_results_ s) as [|r rest].
  - destruct (publish_completions_ s) as [|c rest].
    + destruct (messages_ s) as [|m rest] eqn:Em; [done|]. apply ok_message.
      pose proof (ok_messages s H) as Hl. rewrite Em in Hl. destruct H. split; try assumption.
      cbn in Hl. change (messages_ _) with rest. lia.
    + apply ok_completion. ok_update H.
  - apply ok_result. ok_update H.
Qed.

Ltac ok_initial :=
  try match goal with
  | |- (_ <= _)%nat => exact (Nat.le_0_l _)
  | |- map_Forall _ ∅ => apply map_Forall_empty
  | |- map_Forall ?P (_ _) => solve [exact (map_Forall_empty P)]
  end.

Lemma ok_step s op : command_ok s → command_ok (command_step env cfg s op).
Proof.
  intros H. destruct op; cbn [command_step].
  - unfold TryPush. destruct (_ || _) eqn:E; [done|]. bool_prop. cbn [snd].
    destruct H. split; try assumption. change (messages_ _) with (messages_ s ++ [message]).
    rewrite length_app. cbn.
    match goal with H : (_ <=? _)%nat = false |- _ => apply Nat.leb_gt in H; lia end.
  - unfold PushDatabaseResult. destruct (closed_ s); [done|]. ok_update H.
  - unfold PushPublishCompletion. destruct (closed_ s); [done|]. ok_update H.
  - by apply ok_one.
  - apply ok_timeouts. by apply ok_retry.
  - unfold OnTargetOnline. cbv zeta. apply ok_timeouts, ok_fold; [|done].
    intros t [id ctx] Ht. repeat case_match; try done. ok_update Ht.
  - unfold LoadActive. destruct (_ <? _)%nat; [by apply ok_Diagnose|]. apply ok_fold; [|done].
    intros. by apply ok_load.
  - ok_update H.
  - unfold SetMqttAvailable. cbv zeta. destruct (_ && _); ok_update H.
  - ok_update H.
  - pose proof (ok_counted s H) as Hc. pose proof (ok_outputs s H) as Ho.
    split; [exact (ok_active s H)|ok_initial..|exact Ho|].
    intros Hlt. destruct (Hc Hlt) as (Hn & _). split; [exact Hn|]. split; [done|].
    split; [apply submissions_nonneg|]. intros id [o Hi]. done.
  - ok_update H.
Qed.

Lemma ok_make sources devices : command_ok (MakeCommandService sources devices).
Proof.
  split; ok_initial; try by constructor.
  intros _. do 3 (split; [done|]). intros id [o Hi]. done.
Qed.

Lemma ok_run sources devices ops :
  command_ok (command_run env cfg (MakeCommandService sources devices) ops).
Proof. apply ok_fold; [apply ok_step|apply ok_make]. Qed.

(** C1: Over any sequence of events the command service only submits status transitions of the life
    cycle of commands, with one exception, the confirmation of a publication of a command that is
    in progress, which the store refuses; and every command it keeps as active is filed under the
    identifier of its record, in a status that is not terminal. *)
Theorem commands_follow_lifecycle sources devices ops :
  let s := command_run env cfg (MakeCommandService sources devices) ops in
  Forall (λ o, match o with
               | TaskSubmitted _ (TransitionCommandTask _ from to _) _ =>
                   CanTransition from to = true ∨ (from = kInProgress ∧ to = kDispatched)
               | _ => True
               end) (outputs s) ∧
  (∀ id context, active_commands_ s !! id = Some context →
     ∃ record, x_record context = Some record ∧ c_command_id record = id ∧
               IsTerminal (c_status record) = false).
Proof.
  intros s. assert (command_ok s) as H by apply ok_run. split.
  - eapply Forall_impl; [apply (ok_outputs s H)|]. intros [op task acc| | | |]; try done.
    by destruct task.
  - intros id ctx Hc. apply (ok_active s H) in Hc as (_ & r & (? & ?) & ?). by exists r.
Qed.

(** C5: Whatever happens, every command the service inserts carries a UUID v4 and is pending
    with a target or failed with an error and a completion time; everything sent to a device is
    the payload of valid parameters on the topic of its kind; everything sent to a source is a
    rejection or the state of a command on the acknowledgement topic of that source. *)
Theorem command_messages_well_formed sources devices ops :
  let s := command_run env cfg (MakeCommandService sources devices) ops in
  Forall (λ o, match o with
               | TaskSubmitted _ (InsertCommandTask r) _ => insert_ok r
               | DevicePublish _ topic payload _ => device_message_ok topic payload
               | SourceAck topic payload => source_message_ok topic payload
               | _ => True
               end) (outputs s).
Proof.
  intros s. assert (command_ok s) as H by apply ok_run.
  eapply Forall_impl; [apply (ok_outputs s H)|]. intros [op task acc| | | |]; try done.
  by destruct task.
Qed.

(** The bounds of the queues of the service. *)
Theorem command_service_bounds sources devices ops :
  let s := command_run env cfg (MakeCommandService sources devices) ops in
  (length (messages_ s) <= max_inflight_commands_ cfg)%nat ∧
  (size (completed_commands_ s) <= max_inflight_commands_ cfg)%nat ∧
  (∀ id o, operations_ s !! id = Some o → o_kind o = kFind →
     is_Some (RequestId (x_parsed (o_context o))) ∧
     is_Some (ComparisonPayload (x_parsed (o_context o)))) ∧
  (∀ token context, publications_ s !! token = Some context → is_Some (x_record context)).
Proof.
  intros s. assert (command_ok s) as H by apply ok_run.
  split; [apply H|]. split; [apply H|]. split.
  - intros id o Ho Hk. apply (ok_operations s H) in Ho. unfold operation_ok in Ho. rewrite Hk in Ho.
    destruct Ho as [Hc Hi]. split; [done|]. unfold context_ok, parsed_ok in Hc.
    destruct (x_parsed (o_context o)); cbn in *; [by eexists|by eexists|by apply Hc].
  - intros token ctx Hc. apply (ok_publications s H) in Hc as (_ & r & Hr & _). by eexists.
Qed.

(** As long as fewer than 2^64 - 1 operations have been submitted, the counter of outstanding
    operations is the number of operations waiting for an answer, so DatabaseIdle says exactly
    that none is. *)
Theorem outstanding_operations_counted sources devices ops :
  let s := command_run env cfg (MakeCommandService sources devices) ops in
  submissions (outputs s) < max_u64 →
  outstanding_operations_ s = Z.of_nat (size (operations_ s)) ∧
  (DatabaseIdle s = true ↔ operations_ s = ∅).
Proof.
  intros s Hlt. assert (command_ok s) as H by apply ok_run.
  destruct (ok_counted s H Hlt) as (_ & Hout & _). split; [done|]. unfold DatabaseIdle.
  rewrite Hout, Z.eqb_eq. rewrite <- map_size_empty_iff. lia.
Qed.
End Invariant.

(** ** Where publications come from *)
Definition emits (P : Output → Prop) (s s' : CommandService) : Prop :=
  ∃ new, outputs s' = outputs s ++ new ∧ Forall P new.

Definition no_publish (o : Output) : Prop :=
  match o with DevicePublish _ _ _ _ => False | _ => True end.

Lemma emits_refl P s t : outputs t = outputs s → emits P s t.
Proof. intros E. exists []. by rewrite app_nil_r. Qed.

Lemma emits_trans P s t u : emits P s t → emits P t u → emits P s u.
Proof.
  intros (l1 & E1 & H1) (l2 & E2 & H2). exists (l1 ++ l2).
  rewrite E2, E1, app_assoc. split; [done|]. by apply Forall_app.
Qed.

Lemma emits_impl (P Q : Output → Prop) s t : (∀ o, P o → Q o) → emits P s t → emits Q s t.
Proof. intros HPQ (l & E & H). exists l. split; [done|]. by eapply Forall_impl. Qed.

Lemma emits_emit (P : Output → Prop) s t o : P o → emits P s t → emits P s (emit t o).
Proof.
  intros Ho H. eapply emits_trans; [done|]. exists [o]. split; [done|]. by apply Forall_singleton.
Qed.

Ltac emits_update :=
  match goal with
  | |- emits _ _ (update _ ?t) =>
      apply (emits_trans _ _ t); [|apply emits_refl; reflexivity]
  end.
#[local] Hint Extern 0 (emits _ _ _) => (apply emits_refl; reflexivity) : command.
#[local] Hint Extern 2 (emits _ _ _) => emits_update : command.
#[local] Hint Extern 1 (no_publish _) => exact I : command.
#[local] Hint Resolve emits_emit : command.

Section Origin.
Context `{JL : JsonLib, MO : MapOrder} (env : Environment) (cfg : Configuration).
Implicit Types s t : CommandService.
Abbreviation quiet := (emits no_publish) (only parsing).

Lemma quiet_Diagnose s t m : quiet s t → quiet s (Diagnose t m).
Proof. unfold Diagnose. eauto with command. Qed.
Lemma quiet_Inform s t m : quiet s t → quiet s (Inform t m).
Proof. unfold Inform. eauto with command. Qed.
#[local] Hint Resolve quiet_Diagnose quiet_Inform : command.
Ltac quiet_cases := cbv zeta; repeat case_match; simplify_eq; eauto 12 with command.

Lemma quiet_ack s t topic payload : quiet s t → quiet s (publish_source_ack env t topic payload).
Proof. intros. unfold publish_source_ack. quiet_cases. Qed.
#[local] Hint Resolve quiet_ack : command.
Lemma quiet_Reject s t id rid e now type : quiet s t → quiet s (Reject env cfg t id rid e now type).
Proof. apply quiet_ack. Qed.
Lemma quiet_PublishAck s t ctx now : quiet s t → quiet s (PublishAck env cfg t ctx now).
Proof. intros. unfold PublishAck. quiet_cases. Qed.
Lemma quiet_Submit s t kind ctx task : quiet s t → quiet s (Submit env t kind ctx task).2.
Proof. intros. unfold Submit. quiet_cases; cbn [snd]; eauto 12 with command. Qed.
#[local] Hint Resolve quiet_Reject quiet_PublishAck quiet_Submit : command.
Lemma quiet_transition s t ctx task : quiet s t → quiet s (SubmitTransitionOrDefer env t ctx task).
Proof. intros. unfold SubmitTransitionOrDefer, defer. quiet_cases. Qed.
Lemma quiet_retry s t : quiet s t → quiet s (RetryDeferredTransitions env t).
Proof. intros. unfold RetryDeferredTransitions, defer. quiet_cases. Qed.
Lemma quiet_remember s t ctx now : quiet s t → quiet s (RememberCompletedCommand cfg t ctx now).
Proof. intros. unfold RememberCompletedCommand. quiet_cases. Qed.
Lemma quiet_forget s t id : quiet s t → quiet s (forget_command t id).
Proof. intros. unfold forget_command. quiet_cases. Qed.
Lemma quiet_set_active s t id ctx : quiet s t → quiet s (set_active t id ctx).
Proof. intros. unfold set_active. quiet_cases. Qed.
#[local] Hint Resolve quiet_transition quiet_retry quiet_remember quiet_forget quiet_set_active
  : command.
Lemma quiet_device_ack s t id payload type now :
  quiet s t → quiet s (HandleDeviceAck env cfg t id payload type now).
Proof.
  intros. unfold HandleDeviceAck, TryHandleLateDeviceAck, unmatched_ack, keep_early_ack,
    apply_device_ack. quiet_cases.
Qed.
#[local] Hint Resolve quiet_device_ack : command.
Lemma quiet_message s t m now : quiet s t → quiet s (HandleMessage env cfg t m now).
Proof. intros. unfold HandleMessage, HandleRequest. quiet_cases. Qed.
Lemma quiet_settle s t k ctx q r now :
  quiet s t → quiet s (settle_written env cfg t k ctx q r now).
Proof. intros. unfold settle_written, replay_early_ack. quiet_cases. Qed.
#[local] Hint Resolve quiet_settle : command.
Lemma quiet_error s t o e : quiet s t → quiet s (handle_operation_error env t o e).
Proof. intros. unfold handle_operation_error, HandleTransitionConflict. quiet_cases. Qed.
Lemma quiet_completion s t c now : quiet s t → quiet s (HandleCompletion env t c now).
Proof. intros. unfold HandleCompletion. quiet_cases. Qed.
Lemma quiet_cleanup s t now : quiet s t → quiet s (schedule_cleanup env cfg t now).
Proof. intros. unfold schedule_cleanup. quiet_cases. Qed.
Lemma quiet_value s t o v now :
  (∀ r, v = OneCommand r → o_kind o ≠ kInsert) →
  quiet s t → quiet s (handle_operation_value env cfg t o v now).
Proof.
  intros Hv H. unfold handle_operation_value, handle_found, answer_duplicate, ConvergeAfterConflict,
    handle_written, answer_duplicate. cbv zeta.
  destruct (o_kind o), v as [|[r|]|r| |]; try (by destruct (Hv r)); quiet_cases.
Qed.

(** [o] sends the command of [context] to its device. *)
Definition sends (context : RequestContext) (o : Output) : Prop :=
  ∃ record device_id p token accepted,
    x_record context = Some record ∧ c_target_device_id record = Some device_id ∧
    command_payload (x_parsed context) (c_command_id record) = Some p ∧
    o = DevicePublish token
          (DeviceSetTopic (topic_namespace_ cfg) device_id (x_command_type context))
          (json_dump p) accepted.

Lemma emits_publish s ctx now :
  emits (λ o, no_publish o ∨ sends ctx o) s (PublishRecord env cfg s ctx now).
Proof.
  unfold PublishRecord. destruct (x_record ctx) as [r|] eqn:Er; [|by apply emits_refl].
  destruct (c_target_device_id r) as [device|] eqn:Ed; [|by apply emits_refl].
  destruct (negb _); [by apply emits_refl|].
  destruct (command_payload _ _) as [p|] eqn:Ep; [|by apply emits_refl]. cbv zeta.
  match goal with |- context [emit ?s1 (DevicePublish ?t ?topic ?text ?a)] =>
    assert (emits (λ o, no_publish o ∨ sends ctx o) s (emit s1 (DevicePublish t topic text a))) as H end.
  { apply emits_emit; [|by apply emits_refl]. right. by eexists r, device, p, _, _. }
  destruct (publish_reply _ _); [exact H|]. eapply emits_trans; [exact H|].
  eapply emits_impl; [intros o Ho; left; exact Ho|]. unfold publish_failed. cbv zeta.
  apply quiet_transition. eauto with command.
Qed.

Lemma active_Submit s kind ctx task :
  active_commands_ (Submit env s kind ctx task).2 = active_commands_ s.
Proof. unfold Submit. cbv zeta. by destruct (submit_reply _ _). Qed.
Lemma active_transition s ctx task :
  active_commands_ (SubmitTransitionOrDefer env s ctx task) = active_commands_ s.
Proof.
  unfold SubmitTransitionOrDefer, defer. cbv zeta. pose proof (active_Submit s kTransition ctx
    (transition_task task)) as H. by destruct (Submit _ _ _ _ _) as [[] s'].
Qed.
Lemma active_retry s : active_commands_ (RetryDeferredTransitions env s) = active_commands_ s.
Proof.
  unfold RetryDeferredTransitions, defer. cbv zeta. destruct (negb _); [done|].
  destruct (map_order _) as [|[id d] rest]; [done|]. set (s1 := update _ s).
  pose proof (active_Submit s1 kTransition (d_context d) (transition_task (d_task d))) as H.
  by destruct (Submit _ _ _ _ _) as [[] s'].
Qed.
Lemma active_publish s ctx now : active_commands_ (PublishRecord env cfg s ctx now) = active_commands_ s.
Proof.
  unfold PublishRecord, publish_failed. cbv zeta. repeat case_match; try done; by rewrite active_transition.
Qed.
Lemma active_check s now id : active_commands_ (check_command env cfg now s id) = active_commands_ s.
Proof.
  unfold check_command, time_out. cbv zeta.
  repeat case_match; try done; rewrite ?active_transition, ?active_publish; done.
Qed.
Lemma active_cleanup s now : active_commands_ (schedule_cleanup env cfg s now) = active_commands_ s.
Proof.
  unfold schedule_cleanup. cbv zeta. repeat case_match; try done.
  exact (active_Submit _ _ _ _).
Qed.

(** [o] is no publication, or repeats a configuration command before its deadline to
    a target that is online. *)
Definition recovers (s : CommandService) (now : TimePoint) (o : Output) : Prop :=
  no_publish o ∨
  ∃ id context record device_id,
    active_commands_ s !! id = Some context ∧ x_command_type context = kConfig ∧
    now < x_deadline context ∧ x_record context = Some record ∧
    c_target_device_id record = Some device_id ∧ is_online (devices_ s) device_id = true ∧
    sends context o.

Lemma recovers_ext s t now o :
  active_commands_ t = active_commands_ s → devices_ t = devices_ s →
  recovers t now o → recovers s now o.
Proof. unfold recovers. by intros -> ->. Qed.

Lemma emits_check s now id : emits (recovers s now) s (check_command env cfg now s id).
Proof.
  unfold check_command. destruct (active_commands_ s !! id) as [ctx|] eqn:Ea; [|by apply emits_refl].
  destruct (x_record ctx) as [r|] eqn:Er; [|by apply emits_refl].
  destruct (x_deadline ctx <=? now) eqn:Ed.
  { eapply emits_impl; [intros o Ho; left; exact Ho|].
    destruct (recovering s id); [by apply emits_refl|]. unfold time_out. cbv zeta.
    apply quiet_transition. unfold start_recovery. eauto with command. }
  destruct (_ || _ || _) eqn:Ec; [by apply emits_refl|]. bool_prop.
  destruct (c_target_device_id r) as [device|] eqn:Et; [|by apply emits_refl].
  destruct (is_online _ _) eqn:Eo; [|by apply emits_refl].
  apply (emits_trans _ _ (start_recovery s id)); [by apply emits_refl|].
  eapply emits_impl; [|apply emits_publish]. intros o [Ho|Ho]; [by left|right].
  exists id, ctx, r, device. do 2 (split; [done || (unfold is_control in *; by destruct (x_command_type ctx))|]).
  done.
Qed.

Lemma emits_timeouts s now : emits (recovers s now) s (ProcessTimeoutsAndRecovery env cfg s now).
Proof.
  unfold ProcessTimeoutsAndRecovery. cbv zeta. set (t := schedule_cleanup env cfg s now).
  assert (frame s t) as Hf by (apply frame_cleanup; reflexivity).
  assert (active_commands_ t = active_commands_ s) as Ha by apply active_cleanup.
  apply (emits_trans _ _ t).
  { eapply emits_impl; [intros o Ho; left; exact Ho|]. apply quiet_cleanup. by apply emits_refl. }
  generalize (map_order (active_commands_ t)).*1. intros ids.
  assert (∀ u, frame s u → active_commands_ u = active_commands_ s →
    emits (recovers s now) u (foldl (check_command env cfg now) u ids)) as H; [|by apply H].
  induction ids as [|id ids IH]; intros u Hu Hau; [by apply emits_refl|]. cbn [foldl].
  apply (emits_trans _ _ (check_command env cfg now u id)).
  - eapply emits_impl; [|apply emits_check]. intros o. apply recovers_ext; [done|apply Hu].
  - apply IH; [by apply frame_check|]. by rewrite active_check.
Qed.

(** [o] is no publication, or sends the command whose insertion the next database
    result confirms. *)
Definition inserts (s : CommandService) (o : Output) : Prop :=
  no_publish o ∨
  ∃ result rest operation record,
    database_results_ s = result :: rest ∧
    operations_ s !! cd_operation_id result = Some operation ∧ o_kind operation = kInsert ∧
    cd_value result = Ok (OneCommand record) ∧ IsTerminal (c_status record) = false ∧
    other_command kInsert (x_record (o_context operation)) record = None ∧
    sends ((o_context operation) <| x_record := Some record |>) o.

Lemma emits_written s ctx r now :
  emits (λ o, no_publish o ∨
           (IsTerminal (c_status r) = false ∧ other_command kInsert (x_record ctx) r = None ∧
            sends (ctx <| x_record := Some r |>) o))
    s (handle_written env cfg s kInsert ctx r now).
Proof.
  assert (∀ t, quiet s t → emits (λ o, no_publish o ∨
    (IsTerminal (c_status r) = false ∧ other_command kInsert (x_record ctx) r = None ∧
     sends (ctx <| x_record := Some r |>) o)) s t) as Hq.
  { intros t. apply emits_impl. by left. }
  unfold handle_written, answer_duplicate. destruct (other_command _ _ _) as [ins|] eqn:Eother.
  { apply Hq. destruct (conflicts _ _); [apply quiet_Reject|apply quiet_PublishAck]; by apply emits_refl. }
  cbn [terminal_behind]. cbv zeta.
  destruct (bool_decide _ || IsTerminal _) eqn:Et.
  { apply Hq, quiet_settle. by apply emits_refl. }
  bool_prop. match goal with |- emits _ _ (PublishRecord _ _ ?u _ _) =>
    apply (emits_trans _ _ u); [by apply emits_refl|] end.
  eapply emits_impl; [|apply emits_publish]. intros o [Ho|Ho]; [by left|by right].
Qed.

Lemma emits_one s now : emits (inserts s) s (default s (process_one env cfg s now)).
Proof.
  assert (∀ t, quiet s t → emits (inserts s) s t) as Hq by (intros t; apply emits_impl; by left).
  unfold process_one. destruct (database_results_ s) as [|result rest] eqn:Er.
  { destruct (publish_completions_ s) as [|c cs].
    - destruct (messages_ s) as [|m ms]; [by apply emits_refl|]. apply Hq, quiet_message. by apply emits_refl.
    - apply Hq, quiet_completion. by apply emits_refl. }
  cbn [default]. set (s0 := update _ s). unfold HandleDatabaseResult.
  change (operations_ s0) with (operations_ s).
  destruct (operations_ s !! cd_operation_id result) as [op|] eqn:Eo; [|by apply emits_refl].
  cbv zeta. set (s1 := update _ _). destruct (cd_value result) as [v|e] eqn:Ev; cycle 1.
  { apply Hq, quiet_error. by apply emits_refl. }
  destruct v as [|r|r|rs|n]; try (apply Hq, quiet_value; [done|by apply emits_refl]).
  destruct (decide (o_kind op = kInsert)) as [Ek|Ek];
    [|apply Hq, quiet_value; [done|by apply emits_refl]].
  unfold handle_operation_value. rewrite Ek. cbv zeta.
  apply (emits_trans _ _ s1); [by apply emits_refl|]. eapply emits_impl; [|apply emits_written].
  intros o [Ho|(Ht & Hoc & Hs)]; [by left|right]. by exists result, rest, op, r.
Qed.

(** The operations that make the service send nothing. *)
Definition sends_nothing (op : CommandOp) : Prop :=
  match op with OpProcessOne _ | OpHousekeeping _ | OpTargetOnline _ _ => False | _ => True end.
#[export] Instance sends_nothing_dec op : Decision (sends_nothing op).
Proof. destruct op; solve_decision. Defined.

Lemma quiet_step s op : sends_nothing op → quiet s (command_step env cfg s op).
Proof.
  destruct op; cbn [command_step]; intros Hop; try done; try by apply emits_refl.
  - unfold TryPush. destruct (_ || _); by apply emits_refl.
  - unfold PushDatabaseResult. destruct (closed_ s); by apply emits_refl.
  - unfold PushPublishCompletion. destruct (closed_ s); by apply emits_refl.
  - unfold LoadActive. destruct (_ <? _)%nat; [apply quiet_Diagnose; by apply emits_refl|].
    induction commands as [|r rs IH] using rev_ind; [by apply emits_refl|]. rewrite foldl_snoc.
    unfold load_command. destruct (CatalogFind _ _); [destruct (IsTerminal _)|]; exact (IH I).
  - unfold SetMqttAvailable. destruct (_ && _); by apply emits_refl.
Qed.

Lemma emits_housekeeping s now : emits (recovers s now) s (housekeeping env cfg s now).
Proof.
  unfold housekeeping. set (t := RetryDeferredTransitions env s).
  assert (frame s t) as Hf by (apply frame_retry; reflexivity).
  apply (emits_trans _ _ t).
  { eapply emits_impl; [intros o Ho; left; exact Ho|]. apply quiet_retry. by apply emits_refl. }
  eapply emits_impl; [|apply emits_timeouts]. intros o. apply recovers_ext; [apply active_retry|apply Hf].
Qed.

Lemma emits_online s id now : emits (recovers s now) s (OnTargetOnline env cfg s id now).
Proof.
  unfold OnTargetOnline. cbv zeta. set (t := foldl _ s _).
  assert (active_commands_ t = active_commands_ s ∧ devices_ t = devices_ s ∧ outputs t = outputs s)
    as (Ha & Hd & Ho).
  { unfold t. generalize (map_order (active_commands_ s)). intros l.
    induction l as [|[i ctx] l IH] using rev_ind; [done|]. rewrite foldl_snoc.
    destruct (x_record ctx); [destruct (targets _ _)|]; exact IH. }
  apply (emits_trans _ _ t); [by apply emits_refl|].
  eapply emits_impl; [|apply emits_timeouts]. intros o. by apply recovers_ext.
Qed.

(** ** Requests seen before *)

(** The port returned. *)
Definition returns (reply : Reply) : Prop := reply = Accepted ∨ reply = Refused.
Lemma ack_output s topic text :
  ∃ o, outputs (publish_source_ack env s topic text) = outputs s ++ [o] ∧
    (∀ p, text = Some p → returns (ack_reply env (ack_calls s)) → o = SourceAck topic p).
Proof.
  unfold publish_source_ack. destruct text as [p|]; [|by eexists]. cbv zeta.
  destruct (ack_reply env (ack_calls s)); eexists; split; try reflexivity;
    intros q [= <-] Hr; by destruct Hr.
Qed.

Definition same_work (s s' : CommandService) : Prop :=
  active_commands_ s' = active_commands_ s ∧ publications_ s' = publications_ s ∧
  deferred_transitions_ s' = deferred_transitions_ s ∧ operations_ s' = operations_ s ∧
  next_operation_id_ s' = next_operation_id_ s.

Lemma ack_same_work s topic text : same_work s (publish_source_ack env s topic text).
Proof.
  unfold publish_source_ack. destruct text; [|done]. cbv zeta. by destruct (ack_reply _ _).
Qed.

(** C4: A request that the database already knows changes no work of the service: the source gets
    exactly one message, the conflict rejection when the contents differ and the stored state of
    the existing command otherwise, and nothing is inserted, published or scheduled. *)
Theorem repeated_request_not_executed s result operation existing now :
  operations_ s !! cd_operation_id result = Some operation → o_kind operation = kFind →
  cd_value result = Ok (OptionalCommand (Some existing)) →
  let context := o_context operation in
  let s' := HandleDatabaseResult env cfg s result now in
  let topic := SourceAckTopic (topic_namespace_ cfg) (x_source_id context) (x_command_type context) in
  same_work (s <| operations_ := delete (cd_operation_id result) (operations_ s) |>) s' ∧
  ∃ o, outputs s' = outputs s ++ [o] ∧
    (returns (ack_reply env (ack_calls s)) →
     if conflicts existing (ComparisonPayload (x_parsed context)) then
       o = SourceAck topic (json_dump (BuildPrePersistenceRejection (RequestId (x_parsed context))
             (Error "idempotency_conflict" "同一请求号的内容不一致") now (x_command_type context)))
     else ∀ ack, BuildSourceAck existing (TargetFor s existing) now = Some ack →
       o = SourceAck topic (json_dump ack)).
Proof.
  intros Ho Hk Hv context s' topic. unfold s', HandleDatabaseResult. rewrite Ho, Hv. cbv zeta.
  unfold handle_operation_value. rewrite Hk. cbv zeta. unfold handle_found, answer_duplicate.
  set (s1 := s <| operations_ := delete (cd_operation_id result) (operations_ s) |>
               <| outstanding_operations_ := u64 (outstanding_operations_ s - 1) |>).
  fold context. destruct (conflicts _ _).
  - split; [exact (ack_same_work s1 _ _)|].
    destruct (ack_output s1 topic (Some (json_dump (BuildPrePersistenceRejection
      (RequestId (x_parsed context)) (Error "idempotency_conflict" "同一请求号的内容不一致") now
      (x_command_type context))))) as (o & E & Hi).
    exists o. split; [exact E|]. intros Hr. by apply Hi.
  - split; [exact (ack_same_work s1 _ _)|].
    destruct (ack_output s1 topic (json_dump <$> BuildSourceAck existing (TargetFor s existing) now))
      as (o & E & Hi).
    exists o. split; [exact E|]. intros Hr ack Ha. apply Hi; [by rewrite Ha|done].
Qed.
End Origin.

(** ** Deferred transitions *)
Section Deferred.
Context `{JL : JsonLib, MO : MapOrder} (env : Environment) (cfg : Configuration).

(** The transitions the database accepted. *)
Definition submitted_transition (o : Output) (t : Transition) : Prop :=
  ∃ operation_id, o = TaskSubmitted operation_id (transition_task t) true.

(** What one retry does when the database takes it. *)
Lemma retry_step s :
  database_available_ s = true → (∀ id, submit_reply env id = true) →
  match map_order (deferred_transitions_ s) with
  | [] => RetryDeferredTransitions env s = s
  | (id, d) :: _ =>
      let s' := RetryDeferredTransitions env s in
      database_available_ s' = true ∧
      deferred_transitions_ s' = delete id (deferred_transitions_ s) ∧
      ∃ o, outputs s' = outputs s ++ [o] ∧ submitted_transition o (d_task d)
  end.
Proof.
  intros Ha Hr. unfold RetryDeferredTransitions. rewrite Ha. cbn [negb].
  destruct (map_order (deferred_transitions_ s)) as [|[id d] rest]; [done|].
  unfold Submit. cbv zeta. rewrite Hr. cbn [fst snd].
  split; [exact Ha|]. split; [done|]. eexists. split; [reflexivity|]. by eexists.
Qed.

(** C29: Once the database is available and takes what it is given, as many retries as there are
    deferred transitions empty the queue, and each of those transitions has been submitted. *)
Theorem deferred_transitions_retried s n :
  database_available_ s = true → (∀ id, submit_reply env id = true) →
  size (deferred_transitions_ s) = n →
  let s' := Nat.iter n (RetryDeferredTransitions env) s in
  deferred_transitions_ s' = ∅ ∧
  ∀ id d, deferred_transitions_ s !! id = Some d →
    ∃ o, o ∈ outputs s' ∧ submitted_transition o (d_task d).
Proof.
  intros Ha Hr. revert s Ha. induction n as [|n IH]; intros s Ha Hn.
  { apply map_size_empty_inv in Hn. cbn. rewrite Hn. split; [done|]. intros id d. by rewrite lookup_empty. }
  intros s'. unfold s'. rewrite Nat.iter_succ_r. pose proof (retry_step s Ha Hr) as H.
  destruct (map_order (deferred_transitions_ s)) as [|[id d] rest] eqn:E.
  { apply (f_equal length) in E. rewrite map_order_length, Hn in E. done. }
  cbv zeta in H. destruct H as (Ha' & Hd & o & Ho & Hs).
  assert (deferred_transitions_ s !! id = Some d) as Hid by (apply map_order_lookup; rewrite E; left).
  destruct (IH _ Ha') as [He Hall].
  { rewrite Hd, map_size_delete_Some by by eexists. rewrite Hn. done. }
  split; [exact He|]. intros i e Hi. destruct (decide (i = id)) as [->|Hne].
  - simplify_eq. exists o. split; [|done].
    assert (∀ m t, o ∈ outputs t → o ∈ outputs (Nat.iter m (RetryDeferredTransitions env) t)) as Hin.
    { intros m. induction m as [|m IHm]; intros t Ht; [done|]. rewrite Nat.iter_succ.
      destruct (frame_outputs _ _ (frame_retry env _ (Nat.iter m (RetryDeferredTransitions env) t)
        (reflexivity _))) as [l ->]. apply elem_of_app. left. by apply IHm. }
    apply Hin. rewrite Ho. apply elem_of_app. right. by left.
  - apply (Hall i e). by rewrite Hd, lookup_delete_ne by done.
Qed.

(** ** Time-outs of published commands

    [PublishRecord] puts the command in [recovery_started_], and the time-out of a
    command there is not submitted: until the member is erased (the MQTT session
    comes back, or the target reports itself online) the command stays active. *)
Definition no_transition_of (id : string) (o : Output) : Prop :=
  match o with TaskSubmitted _ (TransitionCommandTask i _ _ _) _ => i ≠ id | _ => True end.

Record silent (id : string) (context : RequestContext) (s : CommandService) : Prop := {
  silent_ok : command_ok cfg s;
  silent_active : active_commands_ s !! id = Some context;
  silent_recovering : id ∈ recovery_started_ s;
  silent_deferred : deferred_transitions_ s !! id = None
}.

Section Silent.
Context (id : string) (context : RequestContext).
Abbreviation no_transition := (emits (no_transition_of id)) (only parsing).

Lemma silent_Submit s kind ctx task :
  silent id context s → command_ok cfg (Submit env s kind ctx task).2 →
  no_transition_of id (TaskSubmitted 0 task true) →
  silent id context (Submit env s kind ctx task).2 ∧ no_transition s (Submit env s kind ctx task).2.
Proof.
  intros H Hok Hid. split.
  - destruct H. split; [exact Hok|..]; clear Hok; unfold Submit; cbv zeta; by destruct (submit_reply _ _).
  - unfold Submit. cbv zeta. destruct (submit_reply _ _); cbn [snd].
    + apply emits_trans with (emit (s <| next_operation_id_ := u64 (next_operation_id_ s + 1) |>)
        (TaskSubmitted (next_operation_id_ s) task true)); [|by apply emits_refl].
      apply emits_emit; [exact Hid|by apply emits_refl].
    + apply emits_emit; [exact Hid|by apply emits_refl].
Qed.

Lemma silent_transition s ctx task :
  silent id context s → recorded ctx → transition_ok (t_expected task) (t_desired task) →
  t_command_id task ≠ id →
  silent id context (SubmitTransitionOrDefer env s ctx task) ∧
  no_transition s (SubmitTransitionOrDefer env s ctx task).
Proof.
  intros H Hc Ht Hne. assert (command_ok cfg (SubmitTransitionOrDefer env s ctx task)) as Hok
    by (apply ok_transition; [apply H|done..]).
  destruct (silent_Submit s kTransition ctx (transition_task task) H) as [H' He];
    [by apply ok_Submit; [apply H|..]|done|].
  unfold SubmitTransitionOrDefer in *. cbv zeta in *.
  destruct (Submit env s kTransition ctx (transition_task task)) as [[] s']; cbn [fst snd] in *.
  - split; [|eapply emits_trans; [exact He|by apply emits_refl]].
    destruct H'. split; try assumption.
    exact (eq_trans (lookup_delete_ne _ _ _ Hne) silent_deferred0).
  - split; [|eapply emits_trans; [exact He|by apply emits_refl]].
    destruct H'. split; try assumption.
    exact (eq_trans (lookup_insert_ne _ _ _ _ Hne) silent_deferred0).
Qed.

(** A step that keeps the command waiting. *)
Definition stays_silent (s s' : CommandService) : Prop := silent id context s' ∧ no_transition s s'.

Lemma stays_trans s t u :
  stays_silent s t → (silent id context t → stays_silent t u) → stays_silent s u.
Proof. intros [H1 E1] H. destruct (H H1) as [H2 E2]. split; [done|]. by eapply emits_trans. Qed.

Lemma stays_update s s' :
  silent id context s → command_ok cfg s' → active_commands_ s' = active_commands_ s →
  recovery_started_ s ⊆ recovery_started_ s' →
  deferred_transitions_ s' !! id = deferred_transitions_ s !! id → outputs s' = outputs s →
  stays_silent s s'.
Proof.
  intros [] Hok Ha Hr Hd Ho. split; [|by apply emits_refl]. split; [done|by rewrite Ha|by apply Hr|].
  by rewrite Hd.
Qed.

Lemma stays_refl s : silent id context s → stays_silent s s.
Proof. intros H. split; [done|]. by apply emits_refl. Qed.

Lemma silent_retry s : silent id context s → stays_silent s (RetryDeferredTransitions env s).
Proof.
  intros H. unfold RetryDeferredTransitions. destruct (negb _); [by apply stays_refl|].
  destruct (map_order (deferred_transitions_ s)) as [|[i d] rest] eqn:E;
    [by apply stays_refl|].
  cbv zeta. assert (deferred_transitions_ s !! i = Some d) as Hd.
  { apply map_order_lookup. rewrite E. left. }
  assert (i ≠ id) as Hne by (intros ->; destruct H; congruence).
  destruct (ok_deferred _ s (silent_ok _ _ _ H) _ _ Hd) as (Hid & Hc & Ht).
  set (s1 := update _ s). assert (command_ok cfg s1) as H1.
  { destruct H as [[] _ _ _]. split; try assumption. by apply map_Forall_delete. }
  eapply (stays_trans _ s1).
  { apply stays_update; [done..|exact (lookup_delete_ne _ _ _ Hne)|done]. }
  intros Hs1. destruct (silent_Submit s1 kTransition (d_context d) (transition_task (d_task d)) Hs1)
    as [H' He]; [by apply ok_Submit|by cbn; rewrite Hid|].
  assert (command_ok cfg (Submit env s1 kTransition (d_context d) (transition_task (d_task d))).2)
    as Hok by apply H'.
  destruct (Submit env s1 _ _ _) as [[] s']; cbn [fst snd] in *; [by split|].
  apply (stays_trans _ s'); [by split|]. intros Hs'. apply stays_update; try done.
  - destruct Hok. split; try assumption. by apply map_Forall_insert_2.
  - apply lookup_insert_ne. by rewrite Hid.
Qed.

Lemma silent_cleanup s now : silent id context s → stays_silent s (schedule_cleanup env cfg s now).
Proof.
  intros H. assert (∀ t n, silent id context t → stays_silent t (t <| next_cleanup_at_ := n |>)) as Hn.
  { intros t n Ht. apply stays_update; try done. destruct Ht as [[] _ _ _]. split; assumption. }
  unfold schedule_cleanup. cbv zeta. destruct (next_cleanup_at_ s); [|by apply Hn].
  destruct (_ <=? _); [|by apply stays_refl].
  destruct (negb _ && _); [|by apply Hn].
  match goal with |- stays_silent _ (update _ ?u) => apply (stays_trans _ u) end.
  { apply silent_Submit; [done|by apply ok_Submit; [apply H|..]|done]. }
  intros. by apply Hn.
Qed.

Lemma silent_publish s ctx r now :
  silent id context s → publication_ok ctx → x_record ctx = Some r → c_command_id r ≠ id →
  stays_silent s (PublishRecord env cfg s ctx now).
Proof.
  intros H Hp Hr Hne. assert (command_ok cfg (PublishRecord env cfg s ctx now)) as Hok
    by (apply ok_publish; [apply H|done]).
  assert (stays_silent s s) as Hrefl by by apply stays_refl.
  revert Hok. unfold PublishRecord. rewrite Hr. destruct (c_target_device_id r) as [device|]; [|done].
  destruct (negb _); [done|]. destruct (command_payload _ _) as [p|] eqn:Ep; [|done]. cbv zeta.
  match goal with |- context [emit ?s1 (DevicePublish ?t ?topic ?text ?a)] =>
    set (s2 := emit s1 (DevicePublish t topic text a)) end.
  assert (command_ok cfg s2) as H2.
  { destruct Hp as (Hc & r' & Hr' & Hl). simplify_eq. apply ok_emit;
      [|by exists device, (c_command_id r'), (x_command_type ctx), (x_parsed ctx), p|done].
    destruct H as [[] _ _ _]. split; try assumption. apply (map_Forall_emplace (λ _, publication_ok)).
    - split; [done|]. by exists r'. - done. }
  assert (stays_silent s s2) as Hs2.
  { destruct H. split; [split; [exact H2|exact silent_active0|by apply elem_of_union_r|exact silent_deferred0]|].
    apply emits_emit; [done|]. by apply emits_refl. }
  destruct (publish_reply _ _); [done|]. intros _. apply (stays_trans _ s2); [done|]. intros Hs.
  match goal with |- stays_silent _ (publish_failed _ ?u _ _ _) => apply (stays_trans _ u) end.
  { apply stays_update; try done. destruct H2. split; try assumption. by apply map_Forall_delete. }
  intros Hu. destruct Hp as (Hc & r' & Hr' & Hl). simplify_eq.
  apply silent_transition; [done|split; [exact Hc|by eexists]| |exact Hne].
  left. apply live_can_end; [exact Hl|by left].
Qed.

Lemma silent_check s now i : silent id context s → stays_silent s (check_command env cfg now s i).
Proof.
  intros H. assert (stays_silent s s) as Hrefl by by apply stays_refl.
  unfold check_command. destruct (active_commands_ s !! i) as [ctx|] eqn:Ea; [|done].
  destruct (ok_active _ s (silent_ok _ _ _ H) _ _ Ea) as (Hc & r & (Hr & Hl) & Hi). rewrite Hr.
  destruct (decide (i = id)) as [E|Hne].
  { assert (recovering s i = true) as ->
      by (subst i; apply bool_decide_eq_true; rewrite E; apply H).
    rewrite orb_true_r. by destruct (_ <=? _). }
  assert (stays_silent s (start_recovery s i)) as Hs.
  { apply stays_update; try done; [|apply union_subseteq_r].
    destruct H as [[] _ _ _]. split; assumption. }
  destruct (_ <=? _).
  - destruct (recovering s i); [done|]. apply (stays_trans _ (start_recovery s i)); [done|]. intros H'.
    unfold time_out. cbv zeta. apply silent_transition; [done|split; [exact Hc|by eexists]| |exact Hne].
    left. apply live_can_end; [exact Hl|auto].
  - destruct (_ || _ || _); [done|]. destruct (c_target_device_id r) as [device|]; [|done].
    destruct (is_online _ _); [|done]. apply (stays_trans _ (start_recovery s i)); [done|]. intros H'.
    apply (silent_publish _ _ r); [done| |done|congruence]. split; [done|]. by exists r.
Qed.

(** C31: A published command whose device stays silent is never timed out: once the command is among
    those whose recovery has started, as publishing it makes it, the housekeeping of the service,
    run any number of times and however long after the deadline, keeps it active as it was and
    submits no transition of it. *)
Theorem silent_command_never_times_out s nows :
  silent id context s → stays_silent s (foldl (housekeeping env cfg) s nows).
Proof.
  revert s. induction nows as [|now nows IH]; intros s H; [by apply stays_refl|].
  cbn [foldl]. apply (stays_trans _ (housekeeping env cfg s now)); [|apply IH].
  unfold housekeeping. apply (stays_trans _ (RetryDeferredTransitions env s)); [by apply silent_retry|].
  intros H1. unfold ProcessTimeoutsAndRecovery. cbv zeta.
  set (u := schedule_cleanup _ _ _ _). apply (stays_trans _ u); [by apply silent_cleanup|].
  generalize (map_order (active_commands_ u)).*1. intros ids.
  clearbody u. clear H H1. revert u. induction ids as [|i ids IHi]; intros u Hu; [by apply stays_refl|].
  cbn [foldl]. apply (stays_trans _ (check_command env cfg now u i)); [by apply silent_check|apply IHi].
Qed.
End Silent.
End Deferred.

(** ** A run

    The source app asks device d1 for a heartbeat of one second; the database
    confirms the look-up, the insertion and the transitions; MQTT confirms the
    publication; the device applies the command. *)
Definition sample_command_env : Environment :=
  {| submit_reply := λ _, true; publish_reply := λ _, true; ack_reply := λ _, Accepted;
     random := λ n i, Z.of_nat (n * 16 + i) |}.
Definition sample_command_cfg : Configuration :=
  {| topic_namespace_ := "cns"; max_inflight_commands_ := 4; config_timeout_ := seconds 15;
     control_timeout_ := seconds 30; terminal_retention_ := days 30;
     cleanup_interval_ := seconds 36000; cleanup_batch_size_ := 100 |}.
Definition sample_sources : gmap string CommandSource :=
  {["app" := {| s_source_id := "app"; s_kind := kHostApp; s_device_id := None; s_enabled := true |}]}.
Definition sample_directory : DeviceRegistry :=
  match AddProvisioned empty_registry (sample_record "d1" 1) with
  | Ok reg => reg
  | Unexpected _ => empty_registry
  end.
Definition sample_parameters : ConfigParameters :=
  {| telemetry_publish_interval_ms := None; heartbeat_interval_ms := Some 1000;
     mqtt_reconnect_delay_s := None; mqtt_reconnect_delay_max_s := None |}.
Definition sample_request : json :=
  config_request_json "r1" (DeviceTarget "d1") sample_parameters.
Definition sample_command_id : string := GenerateUuidV4 (random sample_command_env 0).
Definition sample_command (status : CommandStatus) : CommandRecord :=
  {| c_command_id := sample_command_id; c_command_type := kConfig; c_source_id := "app";
     c_request_id := "r1"; c_target_device_id := Some "d1"; c_request_payload := sample_request;
     c_status := status; c_error_code := None; c_error_message := None; c_device_ack := None;
     c_created_at := 0; c_dispatched_at := None; c_updated_at := 0; c_completed_at := None |}.

Definition answered (operation_id : Z) (value : CommandDatabaseValue) : list CommandOp :=
  [OpPushDatabaseResult {| cd_operation_id := operation_id; cd_value := Ok value |}; OpProcessOne 0].
Definition sample_request_message : InboundMessage :=
  {| m_topic := "cns/sources/app/config/request"; m_payload := codec_dump sample_request;
     m_received_at := 0 |}.
Definition sample_ack_message : InboundMessage :=
  {| m_topic := "cns/d1/config/ack";
     m_payload := codec_dump (jobject [("command_id", JString sample_command_id);
                                       ("status", JString "applied");
                                       ("restart_required", JBool false)]);
     m_received_at := 0 |}.

Definition request_ops : list CommandOp :=
  [OpTryPush sample_request_message; OpProcessOne 0] ++ answered 1 (OptionalCommand None).
Definition dispatch_ops : list CommandOp :=
  request_ops ++ answered 2 (OneCommand (sample_command kPending))
  ++ [OpPushPublishCompletion {| pc_token := 1; pc_result := true |}; OpProcessOne 0]
  ++ answered 3 (OneCommand (sample_command kDispatched)).
Definition success_ops : list CommandOp :=
  dispatch_ops ++ [OpTryPush sample_ack_message; OpProcessOne 0]
  ++ answered 4 (OneCommand (sample_command kSucceeded)).

Definition sample_commands : CommandService := MakeCommandService sample_sources sample_directory.
Definition sample_command_run (ops : list CommandOp) : CommandService :=
  command_run (JL := codec_lib) (MO := key_order) sample_command_env sample_command_cfg
    sample_commands ops.

(** What went out, in short: tasks by their statuses, messages by their topics. *)
Definition summary (o : Output) : option (string + CommandStatus * CommandStatus) :=
  match o with
  | TaskSubmitted _ (FindCommandTask _ _) _ => Some (inl "find")
  | TaskSubmitted _ (InsertCommandTask _) _ => Some (inl "insert")
  | TaskSubmitted _ (TransitionCommandTask _ from to _) _ => Some (inr (from, to))
  | TaskSubmitted _ _ _ => Some (inl "other task")
  | DevicePublish _ topic _ _ | SourceAck topic _ => Some (inl topic)
  | _ => None
  end.

Example command_end_to_end :
  omap summary (outputs (sample_command_run success_ops)) =
    [inl "find"; inl "insert"; inl "cns/d1/config/set"; inr (kPending, kDispatched);
     inl "cns/sources/app/config/ack"; inr (kDispatched, kSucceeded);
     inl "cns/sources/app/config/ack"] ∧
  active_commands_ (sample_command_run success_ops) = ∅.
Proof. split; vm_compute; reflexivity. Qed.

(** The command of the run was published; when its device stays silent no time-out
    ends it, a day and a year after its deadline. *)
Lemma silent_command_never_times_out_witness :
  let s := sample_command_run dispatch_ops in
  ∃ context, active_commands_ s !! sample_command_id = Some context ∧
    x_deadline context < 86400 * 10 ^ 9 ∧
    active_commands_ (foldl (housekeeping (JL := codec_lib) (MO := key_order)
      sample_command_env sample_command_cfg) s [86400 * 10 ^ 9; 31536000 * 10 ^ 9])
      !! sample_command_id = Some context.
Proof.
  intros s. destruct (active_commands_ s !! sample_command_id) as [context|] eqn:E;
    [|exfalso; revert E; vm_compute; discriminate].
  assert (silent (JL := codec_lib) sample_command_cfg sample_command_id context s) as H.
  { split; [|exact E|vm_compute; reflexivity|vm_compute; reflexivity].
    apply (ok_run (JL := codec_lib) (MO := key_order)). }
  exists context. split; [done|]. split.
  - assert (match active_commands_ s !! sample_command_id with
            | Some c => x_deadline c <? 86400 * 10 ^ 9 | None => false end = true) as Hd
      by (vm_compute; reflexivity).
    rewrite E in Hd. by apply Z.ltb_lt.
  - apply (silent_command_never_times_out (JL := codec_lib) (MO := key_order) sample_command_env
      sample_command_cfg sample_command_id context s _ H).
Defined.

Lemma outstanding_operations_counted_witness :
  outstanding_operations_ (sample_command_run request_ops)
    = Z.of_nat (size (operations_ (sample_command_run request_ops))) ∧
  size (operations_ (sample_command_run request_ops)) = 1%nat.
Proof.
  split; [|vm_compute; reflexivity].
  refine (proj1 (outstanding_operations_counted (JL := codec_lib) (MO := key_order)
    sample_command_env sample_command_cfg sample_sources sample_directory request_ops _)).
  vm_compute. reflexivity.
Defined.

(** The request of the run arrives again after the command succeeded. *)
Definition repeated_ops : list CommandOp :=
  success_ops ++ [OpTryPush sample_request_message; OpProcessOne 0].
Definition repeated_result : CommandDatabaseResult :=
  {| cd_operation_id := 5; cd_value := Ok (OptionalCommand (Some (sample_command kSucceeded))) |}.

Lemma repeated_request_not_executed_witness :
  ∃ operation, operations_ (sample_command_run repeated_ops) !! 5 = Some operation ∧
  same_work ((sample_command_run repeated_ops) <| operations_ :=
      delete 5 (operations_ (sample_command_run repeated_ops)) |>)
    (HandleDatabaseResult (JL := codec_lib) (MO := key_order) sample_command_env sample_command_cfg
      (sample_command_run repeated_ops) repeated_result 0).
Proof.
  destruct (operations_ (sample_command_run repeated_ops) !! 5) as [operation|] eqn:E.
  - exists operation. split; [reflexivity|].
    refine (proj1 (repeated_request_not_executed (JL := codec_lib) (MO := key_order)
      sample_command_env sample_command_cfg (sample_command_run repeated_ops) repeated_result
      operation (sample_command kSucceeded) 0 E _ eq_refl)).
    assert (o_kind <$> operations_ (sample_command_run repeated_ops) !! 5 = Some kFind) as Hk
      by (vm_compute; reflexivity).
    rewrite E in Hk. by injection Hk.
  - exfalso. revert E. vm_compute. discriminate.
Defined.

(** The database refuses the transition after the publication, then comes back. *)
Definition refusing_env : Environment :=
  {| submit_reply := λ id, negb (id =? 3); publish_reply := λ _, true;
     ack_reply := λ _, Accepted; random := λ n i, Z.of_nat (n * 16 + i) |}.
Definition deferred_state : CommandService :=
  SetDatabaseAvailable
    (command_run (JL := codec_lib) (MO := key_order) refusing_env sample_command_cfg sample_commands
      (request_ops ++ answered 2 (OneCommand (sample_command kPending))
       ++ [OpPushPublishCompletion {| pc_token := 1; pc_result := true |}; OpProcessOne 0])) true.

Lemma deferred_transitions_retried_witness :
  size (deferred_transitions_ deferred_state) = 1%nat ∧
  deferred_transitions_ (Nat.iter 1 (RetryDeferredTransitions (MO := key_order) sample_command_env)
    deferred_state) = ∅.
Proof.
  assert (size (deferred_transitions_ deferred_state) = 1%nat) as E by (vm_compute; reflexivity).
  split; [exact E|].
  refine (proj1 (deferred_transitions_retried (MO := key_order) sample_command_env
    deferred_state 1 eq_refl (λ _, eq_refl) E)).
Defined.
