(* ===== verification/CommandIngress.v ===== *)
(** * CommandIngress: src/route_service/src/core/runtime/command_ingress.cpp

    The bridge that hands the MQTT messages of the command topics to the command
    service until it is disabled. *)

From Stdlib Require Import ZArith Lia.
From S2P Require Import Prelude Json Ingress SourceRequest.
From S2P Require Import DeviceService CommandService.
From stdpp Require Import options.

(** [service_] is a pointer that [Disable] sets to null; the service it points to is
    an argument.  [has_diagnostic] says whether the sink is set. *)
Record CommandIngress := {
  connected : bool;
  rejection_limiter_ : RateLimiter;
  topic_namespace_ : string;
  has_diagnostic : bool
}.

Definition MakeCommandIngress (topic_namespace : string) (diagnostic : bool) : CommandIngress :=
  {| connected := true; rejection_limiter_ := MakeRateLimiter (seconds 30);
     topic_namespace_ := topic_namespace; has_diagnostic := diagnostic |}.

Definition is_command_topic (ns topic : string) : bool :=
  is_ok (ParseSourceRequestTopic ns topic) || is_ok (ParseDeviceConfigAckTopic ns topic)
  || is_ok (ParseSourceControlRequestTopic ns topic)
  || is_ok (ParseDeviceControlAckTopic ns topic).

(** The result, the diagnostics emitted, the bridge and the service. *)
Definition TryPush (cfg : Configuration) (ingress : CommandIngress) (service : CommandService)
    (message : InboundMessage) (now : TimePoint) :
    bool * list string * CommandIngress * CommandService :=
  if negb (is_command_topic (topic_namespace_ ingress) (m_topic message)) then
    (false, [], ingress, service)
  else
    let r := if connected ingress then CommandService.TryPush cfg service message
             else (false, service) in
    if negb r.1 && has_diagnostic ingress then
      let e := ShouldEmit (rejection_limiter_ ingress) "command_ingress_rejected" now in
      (r.1, if e.1 then ["命令MQTT入站队列已关闭或容量已满"] else [],
       {| connected := connected ingress; rejection_limiter_ := e.2;
          topic_namespace_ := topic_namespace_ ingress;
          has_diagnostic := has_diagnostic ingress |}, r.2)
    else (r.1, [], ingress, r.2).

Definition Disable (ingress : CommandIngress) : CommandIngress :=
  {| connected := false; rejection_limiter_ := rejection_limiter_ ingress;
     topic_namespace_ := topic_namespace_ ingress; has_diagnostic := has_diagnostic ingress |}.

(** The bridge takes a message exactly when its topic is one of the protocol's, it is
    not disabled and the service has room; otherwise the service does not change. *)
Theorem ingress_accepts cfg ingress service message now :
  let '(pushed, _, ingress', service') := TryPush cfg ingress service message now in
  (pushed = true ↔
     (∃ t, accepts (topic_namespace_ ingress) (m_topic message) t) ∧ connected ingress = true ∧
     closed_ service = false ∧
     (length (messages_ service) < max_inflight_commands_ cfg)%nat) ∧
  messages_ service' = messages_ service ++ (if pushed then [message] else []) ∧
  connected ingress' = connected ingress.
Proof.
  assert (is_command_topic (topic_namespace_ ingress) (m_topic message) = true ↔
    ∃ t, accepts (topic_namespace_ ingress) (m_topic message) t) as Ht.
  { unfold is_command_topic. split.
    - intros H. repeat rewrite orb_true_iff in H. destruct H as [[[H|H]|H]|H].
      + destruct (ParseSourceRequestTopic _ _) as [id|] eqn:E; [by exists (ConfigRequestTopic id)|done].
      + destruct (ParseDeviceConfigAckTopic _ _) as [id|] eqn:E; [by exists (ConfigAckTopic id)|done].
      + destruct (ParseSourceControlRequestTopic _ _) as [id|] eqn:E;
          [by exists (ControlRequestTopic id)|done].
      + destruct (ParseDeviceControlAckTopic _ _) as [id|] eqn:E; [by exists (ControlAckTopic id)|done].
    - intros [[id|id|id|id] H]; cbn in H; rewrite H; cbn; by rewrite ?orb_true_r. }
  unfold TryPush, CommandService.TryPush.
  destruct (is_command_topic _ _); cbn [negb].
  - set (room := negb (closed_ service || (max_inflight_commands_ cfg <=? length (messages_ service))%nat)).
    assert (room = true ↔ closed_ service = false ∧
      (length (messages_ service) < max_inflight_commands_ cfg)%nat) as Hroom.
    { subst room. destruct (closed_ service); cbn; [by split; [|intros [? _]]|].
      destruct (Nat.leb_spec (max_inflight_commands_ cfg) (length (messages_ service))); cbn;
        split; [done|lia|done|done]. }
    replace (closed_ service || (max_inflight_commands_ cfg <=? length (messages_ service))%nat)
      with (negb room) by (subst room; apply negb_involutive). clearbody room.
    destruct (connected ingress) eqn:Ec, room, (has_diagnostic ingress); cbn.
    all: rewrite ?app_nil_r, ?Ec; naive_solver.
  - rewrite app_nil_r. split; [|done]. split; [done|]. intros [H _]. by apply Ht in H.
Qed.

