(* ===== verification/ServiceRunner.v ===== *)
(** * ServiceRunner: src/route_service/src/core/runtime/service_runner.cpp

    The life of the process: start-up in order, the loop that waits for a reason to
    stop, shutdown in order; the start of the device runtime as a transaction and its
    drain within one deadline.  The operations of the environment are calls whose
    replies are arguments; a call may throw. *)

From Stdlib Require Import ZArith Lia.
From S2P Require Import Prelude.
From stdpp Require Import options.

(** ** RunService *)
Inductive RunMode := kNormal | kMigrateOnly.
#[export] Instance RunMode_eq_dec : EqDecision RunMode.
Proof. solve_decision. Defined.

(** The member functions of [ServiceOperations]. *)
Inductive Call :=
| LoadConfig | InitializeLogger | DiscoverMigrations | ConnectPostgres | ReadAppliedMigrations
| PlanMigrations (apply : bool) | PendingMigrationCount | ApplyMigration (index : nat)
| LoadDeviceSnapshot | LoadCommandState | InstallSignalHandlers
| StartDeviceRuntime | StopAcceptingDeviceMessages | StopDeviceRuntime (timeout : Z)
| CreateMqtt | StartMqtt | MqttHasTerminalFailure | MqttCallbackStopRequested
| ShutdownRequested | WaitForNextCheck | StopMqtt
| InfoCall (message : string) | ErrorCall (message : string).

#[export] Instance Call_eq_dec : EqDecision Call.
Proof. solve_decision. Defined.

(** What the n-th call replies, by the type of its result; [None] and [false] of
    [completes] are exceptions. *)
Record ServiceOperations := {
  result : nat → Call → option (expected unit string);
  flag : nat → Call → option bool;
  count : nat → Call → option nat;
  completes : nat → Call → bool
}.

(** A computation appends its calls to those made before. *)
Inductive Outcome (A : Type) := Returned (a : A) | Thrown | OutOfFuel.
Arguments Returned {A} a. Arguments Thrown {A}. Arguments OutOfFuel {A}.

Definition Run (C A : Type) : Type := list C → Outcome A * list C.
Definition ret {C A} (a : A) : Run C A := λ tr, (Returned a, tr).
Definition bind {C A B} (m : Run C A) (k : A → Run C B) : Run C B := λ tr,
  match m tr with
  | (Returned a, tr') => k a tr'
  | (Thrown, tr') => (Thrown, tr')
  | (OutOfFuel, tr') => (OutOfFuel, tr')
  end.
Definition call {C A} (reply : nat → C → option A) (c : C) : Run C A := λ tr,
  match reply (length tr) c with
  | Some a => (Returned a, tr ++ [c])
  | None => (Thrown, tr ++ [c])
  end.

#[local] Notation "'run!' x ':=' e1 'in' e2" := (bind e1 (λ x, e2))
  (at level 10, x name, e1 at level 100, e2 at level 200).
#[local] Notation "'do!' e1 'in' e2" := (bind e1 (λ _, e2))
  (at level 10, e1 at level 100, e2 at level 200).

Section Runner.
Context (operations : ServiceOperations).

Definition perform (c : Call) : Run Call unit :=
  call (λ n c, if completes operations n c then Some tt else None) c.

(** [Failed(operations.X(), operations)] *)
Definition Failed (c : Call) : Run Call bool :=
  run! r := call (result operations) c in
  match r with
  | Ok _ => ret false
  | Unexpected error => do! perform (ErrorCall error) in ret true
  end.

(** [if (Failed(...)) return 1;] *)
Definition or_fail (c : Call) (rest : Run Call Z) : Run Call Z :=
  run! failed := Failed c in if failed : bool then ret 1 else rest.

Definition stop_runtime : Run Call unit :=
  do! perform StopAcceptingDeviceMessages in
  do! call (flag operations) (StopDeviceRuntime 5000) in
  ret tt.

(** The loop over the pending migrations. *)
Fixpoint apply_migrations (fuel : nat) (index : nat) : Run Call Z :=
  match fuel with
  | O => λ tr, (OutOfFuel, tr)
  | S fuel' =>
      run! n := call (count operations) PendingMigrationCount in
      if (index <? n)%nat then
        or_fail (ApplyMigration index) (apply_migrations fuel' (S index))
      else do! perform (InfoCall "数据库迁移完成") in ret 0
  end.

(** [while (true)] *)
Fixpoint serve (fuel : nat) : Run Call Z :=
  match fuel with
  | O => λ tr, (OutOfFuel, tr)
  | S fuel' =>
      run! mqtt_failure := call (flag operations) MqttHasTerminalFailure in
      run! callback_stop := call (flag operations) MqttCallbackStopRequested in
      do! (if mqtt_failure : bool then perform (ErrorCall "MQTT后台运行发生终止性失败")
            else ret tt) in
      run! stop := (if mqtt_failure || callback_stop then ret true
                    else call (flag operations) ShutdownRequested) in
      if stop : bool then
        do! stop_runtime in
        do! perform StopMqtt in
        if mqtt_failure then ret 1
        else do! perform (InfoCall "路由服务已停止") in ret 0
      else do! perform WaitForNextCheck in serve fuel'
  end.

Definition start_services (fuel : nat) : Run Call Z :=
  or_fail LoadDeviceSnapshot (
  or_fail LoadCommandState (
  or_fail InstallSignalHandlers (
  run! failed := Failed StartDeviceRuntime in
  if failed : bool then do! stop_runtime in ret 1 else
  run! failed := Failed CreateMqtt in
  if failed : bool then do! stop_runtime in ret 1 else
  run! failed := Failed StartMqtt in
  if failed : bool then
    do! stop_runtime in
    do! perform StopMqtt in
    ret 1
  else
    do! perform (InfoCall "路由服务已启动") in
    serve fuel))).

Definition RunService (fuel : nat) (mode : RunMode) : Run Call Z :=
  or_fail LoadConfig (
  do! perform InitializeLogger in
  or_fail DiscoverMigrations (
  or_fail ConnectPostgres (
  or_fail ReadAppliedMigrations (
  or_fail (PlanMigrations (bool_decide (mode = kMigrateOnly))) (
  if bool_decide (mode = kMigrateOnly) then apply_migrations fuel 0
  else start_services fuel))))).

(** ** Reasoning about runs *)
Definition ends {C A} (m : Run C A) (tr : list C) (Q : A → list C → Prop) : Prop :=
  match m tr with (Returned a, tr') => Q a tr' | _ => True end.

Lemma ends_bind {C A B} (m : Run C A) (k : A → Run C B) tr Q :
  ends m tr (λ a tr', ends (k a) tr' Q) → ends (bind m k) tr Q.
Proof. unfold ends, bind. by destruct (m tr) as [[a| |] tr']. Qed.

Lemma ends_call_reply {C A} (reply : nat → C → option A) c tr (Q : A → list C → Prop) :
  (∀ a, reply (length tr) c = Some a → Q a (tr ++ [c])) → ends (call reply c) tr Q.
Proof. unfold ends, call. destruct (reply _ _); auto. Qed.
Lemma ends_call {C A} (reply : nat → C → option A) c tr (Q : A → list C → Prop) :
  (∀ a, Q a (tr ++ [c])) → ends (call reply c) tr Q.
Proof. intros H. by apply ends_call_reply. Qed.

Lemma ends_Failed c tr (Q : bool → list Call → Prop) :
  (∀ u, result operations (length tr) c = Some (Ok u) → Q false (tr ++ [c])) →
  (∀ e, result operations (length tr) c = Some (Unexpected e) → Q true ((tr ++ [c]) ++ [ErrorCall e])) →
  ends (Failed c) tr Q.
Proof.
  intros H0 H1. apply ends_bind, ends_call_reply. intros [u|e] E; [by eapply H0|].
  apply ends_bind, ends_call. intros _. by apply H1.
Qed.

Lemma ends_or_fail c tr rest (Q : Z → list Call → Prop) :
  (∀ e, result operations (length tr) c = Some (Unexpected e) → Q 1 ((tr ++ [c]) ++ [ErrorCall e])) →
  (∀ u, result operations (length tr) c = Some (Ok u) → ends rest (tr ++ [c]) Q) →
  ends (or_fail c rest) tr Q.
Proof. intros H1 H0. apply ends_bind, ends_Failed; [exact H0|exact H1]. Qed.

Lemma ends_stop tr (Q : unit → list Call → Prop) :
  Q tt ((tr ++ [StopAcceptingDeviceMessages]) ++ [StopDeviceRuntime 5000]) →
  ends stop_runtime tr Q.
Proof.
  intros H. apply ends_bind, ends_call. intros _. apply ends_bind, ends_call. intros _. exact H.
Qed.

Lemma ends_mono {C A} (m : Run C A) tr (Q Q' : A → list C → Prop) :
  ends m tr Q → (∀ a t, Q a t → Q' a t) → ends m tr Q'.
Proof. unfold ends. destruct (m tr) as [[a| |] tr']; naive_solver. Qed.

(** ** How a run ends *)

(** Once the device runtime has been started, or a start was tried, the run stops the
    intake of messages and then the runtime; MQTT, if its start was tried, after that. *)
Definition stopped_in_order (tr : list Call) : Prop :=
  StartDeviceRuntime ∈ tr →
  ∃ a b, tr = a ++ StopAcceptingDeviceMessages :: StopDeviceRuntime 5000 :: b ∧
    StartDeviceRuntime ∈ a ∧ StopAcceptingDeviceMessages ∉ a ∧
    (StartMqtt ∈ tr → StartMqtt ∈ a ∧ StopMqtt ∈ b ∧ StopMqtt ∉ a).

(** The calls whose result says whether a step succeeded. *)
Definition is_step (c : Call) : bool :=
  match c with
  | LoadConfig | DiscoverMigrations | ConnectPostgres | ReadAppliedMigrations | PlanMigrations _
  | ApplyMigration _ | LoadDeviceSnapshot | LoadCommandState | InstallSignalHandlers
  | StartDeviceRuntime | CreateMqtt | StartMqtt => true
  | _ => false
  end.

(** The n-th call reported a failure: a step its error, or the client that it will not recover. *)
Definition failing (n : nat) (c : Call) : Prop :=
  (is_step c = true ∧ ∃ e, result operations n c = Some (Unexpected e)) ∨
  (c = MqttHasTerminalFailure ∧ flag operations n c = Some true).
Definition broken (tr : list Call) : Prop := ∃ n c, tr !! n = Some c ∧ failing n c.

(** Why a run that did not fail ended: it was asked to, or the migrations that the last count
    told of were applied. *)
Definition reason (mode : RunMode) (tr : list Call) : Prop :=
  match mode with
  | kNormal => ∃ n c, tr !! n = Some c ∧ (c = MqttCallbackStopRequested ∨ c = ShutdownRequested) ∧
      flag operations n c = Some true
  | kMigrateOnly => ∃ n k, tr !! n = Some PendingMigrationCount ∧
      count operations n PendingMigrationCount = Some k ∧ ∀ i, (i < k)%nat → ApplyMigration i ∈ tr
  end.

(** The exit code tells how the run ended, and a run that did not fail announces it last. *)
Definition announced (mode : RunMode) (code : Z) (tr : list Call) : Prop :=
  (code = 0 ∧ ¬ broken tr ∧ reason mode tr ∧
   last tr = Some (InfoCall (if decide (mode = kMigrateOnly) then "数据库迁移完成" else "路由服务已停止"))) ∨
  (code = 1 ∧ broken tr ∧ ∀ message, last tr ≠ Some (InfoCall message)).

Lemma broken_at t c rest : failing (length t) c → broken (t ++ c :: rest).
Proof. intros H. exists (length t), c. by rewrite list_lookup_middle. Qed.
Lemma broken_last t c : failing (length t) c → broken (t ++ [c]).
Proof. apply broken_at. Qed.
Lemma broken_app t rest : broken t → broken (t ++ rest).
Proof. intros (n & c & H & Hf). exists n, c. by rewrite lookup_app_l by (by eapply lookup_lt_Some). Qed.
Lemma unbroken_snoc t c : ¬ broken t → ¬ failing (length t) c → ¬ broken (t ++ [c]).
Proof.
  intros Ht Hc (n & d & H & Hf). apply lookup_app_Some in H as [H|[Hle H]]; [apply Ht; by exists n, d|].
  destruct (n - length t)%nat eqn:E; [|done]. cbn in H. simplify_eq.
  replace n with (length t) in Hf by lia. done.
Qed.
Lemma step_succeeds n c u : result operations n c = Some (Ok u) → c ≠ MqttHasTerminalFailure → ¬ failing n c.
Proof. intros H Hc [[_ [e He]]|[? _]]; congruence. Qed.
Lemma step_fails n c e : is_step c = true → result operations n c = Some (Unexpected e) → failing n c.
Proof. intros Hc H. left. split; [done|by exists e]. Qed.
Lemma no_step n c : is_step c = false → c ≠ MqttHasTerminalFailure → ¬ failing n c.
Proof. intros H Hc [[? _]|[? _]]; congruence. Qed.
Lemma reason_app mode t rest : reason mode t → reason mode (t ++ rest).
Proof.
  assert (∀ n c, t !! n = Some c → (t ++ rest) !! n = Some c) as Hl.
  { intros n c H. by rewrite lookup_app_l by (by eapply lookup_lt_Some). }
  destruct mode; cbn; [intros (n & c & H & ?)|intros (n & k & H & ? & Hi)].
  - exists n, c. auto.
  - exists n, k. split; [auto|]. split; [done|]. intros i Hik. specialize (Hi i Hik). set_solver.
Qed.

(** The part of the trace before the main loop, or before an early stop. *)
Definition not_stopping (tr : list Call) : Prop :=
  StopAcceptingDeviceMessages ∉ tr ∧ StopMqtt ∉ tr ∧ ∀ i, ApplyMigration i ∉ tr.

Definition ended (mode : RunMode) (code : Z) (tr : list Call) : Prop :=
  announced mode code tr ∧ stopped_in_order tr ∧
  (∀ i, ApplyMigration i ∈ tr → mode = kMigrateOnly) ∧
  (StartDeviceRuntime ∈ tr → mode = kNormal).

(** What may follow the stop of the device runtime. *)
Definition tail_ok (b : list Call) : Prop :=
  b = [] ∨ b = [StopMqtt] ∨ b = [StopMqtt; InfoCall "路由服务已停止"].

Lemma ended_stopped code t b :
  StartDeviceRuntime ∈ t → not_stopping t → tail_ok b → (StartMqtt ∈ t → StopMqtt ∈ b) →
  announced kNormal code (t ++ StopAcceptingDeviceMessages :: StopDeviceRuntime 5000 :: b) →
  ended kNormal code (t ++ StopAcceptingDeviceMessages :: StopDeviceRuntime 5000 :: b).
Proof.
  intros H1 (N1 & N2 & N3) Hb Hm Ha. split; [done|].
  assert (StartMqtt ∉ b ∧ ∀ i, ApplyMigration i ∉ b) as [B1 B2]
    by (destruct Hb as [->|[->| ->]]; set_solver).
  split; [|split; [set_solver|done]].
  intros _. exists t, b. do 3 (split; [done|]). intros Hin.
  assert (StartMqtt ∈ t) by set_solver. split; [done|]. by split; [apply Hm|].
Qed.

(** A run that ends before the device runtime was started. *)
Lemma ended_early mode code tr :
  announced mode code tr → StartDeviceRuntime ∉ tr →
  (∀ i, ApplyMigration i ∈ tr → mode = kMigrateOnly) → ended mode code tr.
Proof. intros. split; [done|]. split; [by intros ?|]. split; [done|]. by intros ?. Qed.

Lemma failed_announced mode t c e :
  is_step c = true → result operations (length t) c = Some (Unexpected e) →
  announced mode 1 ((t ++ [c]) ++ [ErrorCall e]).
Proof.
  intros Hc H. right. split; [done|]. split; [by eapply broken_app, broken_last, step_fails|].
  intros m. by rewrite last_snoc.
Qed.

Lemma not_stopping_snoc t c :
  not_stopping t → c ≠ StopAcceptingDeviceMessages → c ≠ StopMqtt →
  (∀ i, c ≠ ApplyMigration i) → not_stopping (t ++ [c]).
Proof. intros (H1 & H2 & H3) ???. split; [|split; [|intros i]]; set_solver. Qed.

#[local] Ltac grow := repeat (apply not_stopping_snoc; [|done..]).
#[local] Ltac unbroken :=
  repeat first [assumption | apply unbroken_snoc; [|first [by apply no_step | by eapply step_succeeds]]].

Lemma stop_all_ends failure t :
  StartDeviceRuntime ∈ t → not_stopping t →
  (if failure : bool then broken t else ¬ broken t ∧ reason kNormal t) →
  ends (do! stop_runtime in do! perform StopMqtt in
        if failure : bool then ret 1
        else do! perform (InfoCall "路由服务已停止") in ret 0) t (ended kNormal).
Proof.
  intros H1 H2 H3. apply ends_bind, ends_stop, ends_bind, ends_call. intros _. destruct failure.
  - rewrite <- !app_assoc. cbn [app].
    apply ended_stopped; [done..|by right; left|set_solver|]. right. split; [done|].
    split; [by apply broken_app|]. intros m. by rewrite last_app_cons.
  - destruct H3 as [H3 H4]. apply ends_bind, ends_call. intros _.
    assert (¬ broken ((((t ++ [StopAcceptingDeviceMessages]) ++ [StopDeviceRuntime 5000]) ++ [StopMqtt])
      ++ [InfoCall "路由服务已停止"])) as Hb by unbroken.
    rewrite <- !app_assoc in *. cbn [app] in *.
    apply ended_stopped; [done..|by right; right|set_solver|]. left. split; [done|]. split; [done|].
    split; [by apply reason_app|]. by rewrite last_app_cons.
Qed.

Lemma ends_ret {C A} (a : A) tr (Q : A → list C → Prop) : Q a tr → ends (ret a) tr Q.
Proof. done. Qed.

Lemma asked_reason t c rest :
  c = MqttCallbackStopRequested ∨ c = ShutdownRequested → flag operations (length t) c = Some true →
  reason kNormal (t ++ c :: rest).
Proof. intros Hc H. exists (length t), c. by rewrite list_lookup_middle. Qed.

Lemma serve_ends fuel tr :
  StartDeviceRuntime ∈ tr → not_stopping tr → ¬ broken tr → ends (serve fuel) tr (ended kNormal).
Proof.
  revert tr. induction fuel as [|fuel IH]; intros tr H1 H2 H3; [done|]. cbn [serve].
  apply ends_bind, ends_call_reply. intros failure Hf. apply ends_bind, ends_call_reply. intros stop Hs.
  apply ends_bind. destruct failure; cbn [orb].
  { apply ends_call. intros _. apply ends_bind, ends_ret, (stop_all_ends true); [set_solver|by grow|].
    apply broken_app, broken_app, broken_last. by right. }
  assert (¬ broken ((tr ++ [MqttHasTerminalFailure]) ++ [MqttCallbackStopRequested])) as H4.
  { apply unbroken_snoc; [|by apply no_step]. apply unbroken_snoc; [done|].
    intros [[? _]|[_ E]]; [done|congruence]. }
  apply ends_ret, ends_bind. destruct stop.
  { apply ends_ret, (stop_all_ends false); [set_solver|by grow|]. split; [done|].
    apply asked_reason; [by left|exact Hs]. }
  apply ends_call_reply. intros [] Hq.
  { apply (stop_all_ends false); [set_solver|by grow|]. split; [unbroken|].
    apply asked_reason; [by right|exact Hq]. }
  apply ends_bind, ends_call. intros _. apply IH; [set_solver|by grow|unbroken].
Qed.

Lemma stop_failed_ends t c e :
  StartDeviceRuntime ∈ t ++ [c] → StartMqtt ∉ t ++ [c] → not_stopping (t ++ [c]) →
  is_step c = true → result operations (length t) c = Some (Unexpected e) →
  ends (do! stop_runtime in ret 1) ((t ++ [c]) ++ [ErrorCall e]) (ended kNormal).
Proof.
  intros H1 H2 H3 Hc He. apply ends_bind, ends_stop, ends_ret. rewrite <- (app_assoc (_ ++ _)). cbn [app].
  apply ended_stopped; [set_solver|by grow|by left|set_solver|]. right. split; [done|].
  split; [by eapply broken_app, broken_app, broken_last, step_fails|]. intros m. by rewrite last_app_cons.
Qed.

(** A step that fails before the device runtime was started. *)
Lemma early_failure mode t c e :
  StartDeviceRuntime ∉ t ++ [c] → (∀ i, ApplyMigration i ∈ t ++ [c] → mode = kMigrateOnly) → is_step c = true →
  result operations (length t) c = Some (Unexpected e) → ended mode 1 ((t ++ [c]) ++ [ErrorCall e]).
Proof.
  intros H1 H2 Hc He. apply ended_early; [by apply failed_announced|set_solver|].
  intros i Hi. apply (H2 i). set_solver.
Qed.

Lemma start_services_ends fuel tr :
  (∀ c, c ∈ tr → c ≠ StartDeviceRuntime ∧ c ≠ StartMqtt) → not_stopping tr → ¬ broken tr →
  ends (start_services fuel) tr (ended kNormal).
Proof.
  intros H N B. pose proof N as (_ & _ & N3).
  unfold start_services.
  do 3 (apply ends_or_fail; [intros e He; apply early_failure; [set_solver|set_solver|done|exact He]|intros ? ?]).
  apply ends_bind, ends_Failed; [intros ? ?|intros e He; apply stop_failed_ends; [set_solver|set_solver|by grow|done|exact He]].
  apply ends_bind, ends_Failed; [intros ? ?|intros e He; apply stop_failed_ends; [set_solver|set_solver|by grow|done|exact He]].
  apply ends_bind, ends_Failed.
  - intros ? ?. apply ends_bind, ends_call. intros _. apply serve_ends; [set_solver|by grow|unbroken].
  - intros e He. apply (stop_all_ends true); [set_solver|by grow|]. by eapply broken_app, broken_last, step_fails.
Qed.

Lemma apply_migrations_ends fuel index tr :
  StartDeviceRuntime ∉ tr → ¬ broken tr → (∀ i, (i < index)%nat → ApplyMigration i ∈ tr) →
  ends (apply_migrations fuel index) tr (ended kMigrateOnly).
Proof.
  revert index tr. induction fuel as [|fuel IH]; intros index tr H B Hi; [done|].
  cbn [apply_migrations]. apply ends_bind, ends_call_reply. intros n Hn. destruct (Nat.ltb_spec index n).
  - apply ends_or_fail; [intros e He; apply early_failure; [set_solver|done|done|exact He]|].
    intros ? ?. apply IH; [set_solver|unbroken|]. intros i Hlt.
    destruct (decide (i = index)) as [->|]; [set_solver|]. assert (i < index)%nat as Hi' by lia.
    specialize (Hi i Hi'). set_solver.
  - apply ends_bind, ends_call. intros _. apply ends_ret, ended_early; [|set_solver|done].
    left. split; [done|]. split; [unbroken|]. split; [|by rewrite last_snoc]. apply reason_app.
    exists (length tr), n. split; [by rewrite list_lookup_middle|]. split; [exact Hn|].
    intros i Hlt. assert (i < index)%nat as Hi' by lia. specialize (Hi i Hi'). set_solver.
Qed.

Lemma RunService_ends fuel mode : ends (RunService fuel mode) [] (ended mode).
Proof.
  assert (¬ broken []) as B by (intros (n & c & ? & _); done).
  unfold RunService.
  apply ends_or_fail; [intros e He; apply (early_failure mode []); [set_solver|set_solver|done|exact He]|intros ? ?].
  apply ends_bind, ends_call. intros _.
  do 4 (apply ends_or_fail; [intros e He; apply early_failure; [set_solver|set_solver|done|exact He]|intros ? ?]).
  match goal with |- ends _ ?t _ => assert (¬ broken t) as B' by unbroken end.
  case_bool_decide as Hm.
  - rewrite Hm in *. apply apply_migrations_ends; [set_solver|done|intros i Hi; lia].
  - replace mode with kNormal in * by by destruct mode.
    apply start_services_ends; [set_solver| |done]. split; [|split; [|intros i]]; set_solver.
Qed.
End Runner.


(** ** The run ends

    The environment of this section never throws, asks for a shutdown from some call
    on, and has a bounded number of pending migrations. *)
Section Terminates.
#[local] Set Default Proof Using "Type*".
Context (operations : ServiceOperations) (N K : nat).
Hypothesis result_total : ∀ n c, is_Some (result operations n c).
Hypothesis flag_total : ∀ n c, is_Some (flag operations n c).
Hypothesis count_bounded : ∀ n c, ∃ k, count operations n c = Some k ∧ (k <= K)%nat.
Hypothesis completes_total : ∀ n c, completes operations n c = true.
Hypothesis asked : ∀ n, (N <= n)%nat → flag operations n ShutdownRequested = Some true.

Definition returns {A} (m : Run Call A) (tr : list Call) (Q : A → list Call → Prop) : Prop :=
  ∃ a tr', m tr = (Returned a, tr') ∧ Q a tr'.

Lemma returns_bind {A B} (m : Run Call A) (k : A → Run Call B) tr Q :
  returns m tr (λ a tr', returns (k a) tr' Q) → returns (bind m k) tr Q.
Proof. intros (a & t & E & b & t' & E' & H). exists b, t'. unfold bind. by rewrite E. Qed.

Lemma returns_ret {A} (a : A) tr (Q : A → list Call → Prop) : Q a tr → returns (ret a) tr Q.
Proof. intros H. by exists a, tr. Qed.

Lemma returns_call {A} (reply : nat → Call → option A) c tr (Q : A → list Call → Prop) :
  is_Some (reply (length tr) c) →
  (∀ a, reply (length tr) c = Some a → Q a (tr ++ [c])) → returns (call reply c) tr Q.
Proof. intros [a E] H. exists a, (tr ++ [c]). unfold call. rewrite E. by split; [|apply H]. Qed.

Lemma returns_perform c tr (Q : unit → list Call → Prop) :
  Q tt (tr ++ [c]) → returns (perform operations c) tr Q.
Proof.
  intros H. apply returns_call; [by rewrite completes_total|]. by intros [] _.
Qed.

Lemma returns_Failed c tr (Q : bool → list Call → Prop) :
  (∀ b t, Q b t) → returns (Failed operations c) tr Q.
Proof.
  intros H. apply returns_bind, returns_call; [done|]. intros [u|e] _; [by apply returns_ret|].
  by apply returns_bind, returns_perform, returns_ret.
Qed.

Lemma returns_or_fail c rest tr (Q : Z → list Call → Prop) :
  (∀ a t, Q a t) → (∀ t, returns rest t Q) → returns (or_fail operations c rest) tr Q.
Proof.
  intros HQ H. apply returns_bind, returns_Failed. intros [] t; [by apply returns_ret|apply H].
Qed.

Lemma returns_stop tr (Q : unit → list Call → Prop) :
  (∀ t, Q tt t) → returns (stop_runtime operations) tr Q.
Proof.
  intros H. apply returns_bind, returns_perform, returns_bind, returns_call; [done|].
  intros b _. by apply returns_ret.
Qed.

Definition ended_somehow (code : Z) (tr : list Call) : Prop := True.

Lemma returns_stop_all failure tr :
  returns (do! stop_runtime operations in do! perform operations StopMqtt in
           if failure : bool then ret 1
           else do! perform operations (InfoCall "路由服务已停止") in ret 0) tr ended_somehow.
Proof.
  apply returns_bind, returns_stop. intros t. apply returns_bind, returns_perform.
  destruct failure; [by apply returns_ret|]. by apply returns_bind, returns_perform, returns_ret.
Qed.

Lemma serve_returns fuel tr :
  (1 <= fuel)%nat → (N < length tr + fuel)%nat →
  returns (serve operations fuel) tr ended_somehow.
Proof.
  revert tr. induction fuel as [|fuel IH]; intros tr H0 H1; [lia|]. cbn [serve].
  apply returns_bind, returns_call; [done|]. intros failure _.
  apply returns_bind, returns_call; [done|]. intros stop _.
  apply returns_bind. destruct failure; cbn [orb].
  { apply returns_perform, returns_bind, returns_ret. apply (returns_stop_all true). }
  apply returns_ret, returns_bind. destruct stop.
  { apply returns_ret. apply (returns_stop_all false). }
  apply returns_call; [done|]. intros [] Hf; [apply (returns_stop_all false)|].
  rewrite !length_app in Hf. cbn in Hf.
  assert (length tr + 2 < N)%nat as Hn.
  { destruct (le_lt_dec N (length tr + 2)); [|done].
    rewrite asked in Hf by lia. done. }
  apply returns_bind, returns_perform, IH; [lia|]. rewrite !length_app. cbn. lia.
Qed.

Lemma apply_migrations_returns fuel index tr :
  (K < index + fuel)%nat → (index <= K)%nat →
  returns (apply_migrations operations fuel index) tr ended_somehow.
Proof.
  revert index tr. induction fuel as [|fuel IH]; intros index tr H1 H2; [lia|].
  cbn [apply_migrations]. apply returns_bind, returns_call.
  { destruct (count_bounded (length tr) PendingMigrationCount) as (k & -> & _). done. }
  intros n Hn. destruct (count_bounded (length tr) PendingMigrationCount) as (k & Hk & Hle).
  destruct (Nat.ltb_spec index n).
  - apply returns_or_fail; [done|]. intros t. simplify_eq.
    destruct (decide (S index <= K)%nat); [apply IH; lia|].
    assert (index = K)%nat as -> by lia. lia.
  - by apply returns_bind, returns_perform, returns_ret.
Qed.

Lemma start_services_returns fuel tr :
  (1 <= fuel)%nat → (N < fuel)%nat → returns (start_services operations fuel) tr ended_somehow.
Proof.
  intros H0 H1. unfold start_services. do 3 (apply returns_or_fail; [done|]; intros ?).
  do 2 (apply returns_bind, returns_Failed; intros [] ?;
    [apply returns_bind, returns_stop; intros ?; by apply returns_ret|]).
  apply returns_bind, returns_Failed. intros [] u.
  - apply (returns_stop_all true).
  - apply returns_bind, returns_perform, serve_returns; lia.
Qed.

Lemma RunService_returns fuel mode :
  (N + K < fuel)%nat → returns (RunService operations fuel mode) [] ended_somehow.
Proof.
  intros H. unfold RunService. apply returns_or_fail; [done|]. intros t1.
  apply returns_bind, returns_perform. do 4 (apply returns_or_fail; [done|]; intros ?).
  case_bool_decide; [apply apply_migrations_returns; lia|apply start_services_returns; lia].
Qed.
End Terminates.

(** An environment that answers every call ends the run, once it asks for a shutdown for good and
    its migrations are finite in number. *)
Theorem run_service_terminates operations N K mode :
  (∀ n c, is_Some (result operations n c)) → (∀ n c, is_Some (flag operations n c)) →
  (∀ n c, ∃ k, count operations n c = Some k ∧ (k <= K)%nat) →
  (∀ n c, completes operations n c = true) →
  (∀ n, (N <= n)%nat → flag operations n ShutdownRequested = Some true) →
  ∃ code tr, RunService operations (S (N + K)) mode [] = (Returned code, tr).
Proof.
  intros H1 H2 H3 H4 H5.
  destruct (RunService_returns operations N K H1 H2 H3 H4 H5 (S (N + K)) mode) as (code & tr & E & _);
    [lia|]. by exists code, tr.
Qed.

(** ** StartDeviceRuntimeTransaction *)
Inductive StartOperation := ConfigureHandler | StartPostgresThread | StartDeviceThread.
Inductive StartReply :=
| StartReplied (result : expected unit string) | StartThrew | StartThrewUnknown.
Inductive StartEvent := Started (operation : StartOperation) | RolledBack.

(** One operation and what follows it; [rollback] swallows its own exceptions. *)
Definition start_step (reply : StartOperation → StartReply) (operation : StartOperation)
    (rest : list StartEvent * expected unit string) : list StartEvent * expected unit string :=
  let rollback e := ([Started operation; RolledBack], Unexpected e) in
  match reply operation with
  | StartReplied (Ok _) => (Started operation :: rest.1, rest.2)
  | StartReplied (Unexpected error) => rollback error
  | StartThrew => rollback "启动设备运行时失败"
  | StartThrewUnknown => rollback "启动设备运行时发生未知异常"
  end.

Definition StartDeviceRuntimeTransaction (reply : StartOperation → StartReply) :
    list StartEvent * expected unit string :=
  start_step reply ConfigureHandler (
  start_step reply StartPostgresThread (
  start_step reply StartDeviceThread ([], Ok tt))).

(** The start is a transaction: it succeeds exactly when every operation does, and
    otherwise stops at the first one that fails and rolls back, once and last. *)
Theorem start_transaction reply :
  let order := [ConfigureHandler; StartPostgresThread; StartDeviceThread] in
  let r := StartDeviceRuntimeTransaction reply in
  (is_ok r.2 = true ↔ ∀ o, reply o = StartReplied (Ok tt)) ∧
  if is_ok r.2 then r.1 = Started <$> order
  else ∃ k, (k < 3)%nat ∧ r.1 = (Started <$> take (S k) order) ++ [RolledBack] ∧
       ∀ o, o ∈ take k order → reply o = StartReplied (Ok tt).
Proof.
  cbv zeta. unfold StartDeviceRuntimeTransaction, start_step.
  destruct (reply ConfigureHandler) as [[[]|?]| |] eqn:E1;
    destruct (reply StartPostgresThread) as [[[]|?]| |] eqn:E2;
    destruct (reply StartDeviceThread) as [[[]|?]| |] eqn:E3; cbn.
  all: split; [split; [first [done | by intros _ []]|intros H; specialize (H ConfigureHandler) as H1;
    specialize (H StartPostgresThread) as H2; specialize (H StartDeviceThread) as H3; congruence]|].
  all: first [done | by exists 0%nat; repeat split; [lia|intros ? ?%elem_of_nil]
    | by exists 1%nat; repeat split; [lia|intros ? ->%list_elem_of_singleton]
    | exists 2%nat; repeat split; [lia|]; set_solver].
Qed.

(** ** DrainDeviceRuntime *)
Inductive DrainCall :=
| ReadClock
| WaitInputDrained (wait : Z) | WaitDatabaseIdle (wait : Z) | FlushDatabase (wait : Z)
| PendingDevices | ReportTimeout (pending : nat)
| DisableExternalBridge | RequestStop | JoinThreads | DetachThreads.

(** [None] and [false] of [drain_completes] are exceptions; reading the clock does
    not throw. *)
Record DrainOperations := {
  drain_wait : nat → DrainCall → option bool;
  drain_pending : nat → option nat;
  drain_completes : nat → DrainCall → bool;
  drain_clock : nat → TimePoint
}.

Definition catch {C A} (m handler : Run C A) : Run C A := λ tr,
  match m tr with (Thrown, tr') => handler tr' | r => r end.

Section Drain.
Context (ops : DrainOperations).

Definition drain_now : Run DrainCall TimePoint :=
  call (λ n _, Some (drain_clock ops n)) ReadClock.
Definition drain_do (c : DrainCall) : Run DrainCall unit :=
  call (λ n c, if drain_completes ops n c then Some tt else None) c.

(** [std::chrono::ceil<milliseconds>] of a count of nanoseconds. *)
Definition ceil_ms (duration : Z) : Z := - (- duration / 1000000).

Definition remaining (deadline : TimePoint) : Run DrainCall Z :=
  run! now := drain_now in ret (Z.max 0 (ceil_ms (deadline - now))).

(** A wait that is skipped once an earlier one failed. *)
Definition wait_if (so_far : bool) (deadline : TimePoint) (c : Z → DrainCall) :
    Run DrainCall bool :=
  if so_far then run! wait := remaining deadline in call (drain_wait ops) (c wait)
  else ret false.

Definition drain_body (deadline : TimePoint) : Run DrainCall bool :=
  run! input_drained := wait_if true deadline WaitInputDrained in
  run! database_idle := wait_if input_drained deadline WaitDatabaseIdle in
  run! flushed := wait_if database_idle deadline FlushDatabase in
  if input_drained && database_idle && flushed then
    do! drain_do JoinThreads in
    do! drain_do DisableExternalBridge in
    ret true
  else
    run! pending := call (λ n _, drain_pending ops n) PendingDevices in
    do! drain_do (ReportTimeout pending) in
    do! drain_do DisableExternalBridge in
    do! drain_do RequestStop in
    do! drain_do DetachThreads in
    ret false.

Definition drain_handler : Run DrainCall bool :=
  do! catch (drain_do DisableExternalBridge) (ret tt) in
  do! catch (drain_do RequestStop) (ret tt) in
  do! catch (drain_do DetachThreads) (ret tt) in
  ret false.

Definition DrainDeviceRuntime (timeout : Z) : Run DrainCall bool :=
  run! now := drain_now in
  catch (drain_body (now + timeout * 1000000)) drain_handler.
End Drain.

(** ** Reasoning about the drain, exceptions included *)
Definition runs {C A} (m : Run C A) (tr : list C) (Q : Outcome A → list C → Prop) : Prop :=
  Q (m tr).1 (m tr).2.

Lemma runs_bind {C A B} (m : Run C A) (k : A → Run C B) tr Q :
  runs m tr (λ o t, match o with
                    | Returned a => runs (k a) t Q
                    | Thrown => Q Thrown t
                    | OutOfFuel => Q OutOfFuel t
                    end) → runs (bind m k) tr Q.
Proof. unfold runs, bind. by destruct (m tr) as [[a| |] t]. Qed.

Lemma runs_call {C A} (reply : nat → C → option A) c tr (Q : Outcome A → list C → Prop) :
  (∀ a, reply (length tr) c = Some a → Q (Returned a) (tr ++ [c])) →
  (reply (length tr) c = None → Q Thrown (tr ++ [c])) → runs (call reply c) tr Q.
Proof. unfold runs, call. intros H1 H2. destruct (reply (length tr) c); cbn; auto. Qed.

Lemma runs_catch {C A} (m h : Run C A) tr (Q : Outcome A → list C → Prop) :
  runs m tr (λ o t, match o with Thrown => runs h t Q | o => Q o t end) → runs (catch m h) tr Q.
Proof. unfold runs, catch. by destruct (m tr) as [[a| |] t]. Qed.

Lemma runs_ret {C A} (a : A) tr (Q : Outcome A → list C → Prop) :
  Q (Returned a) tr → runs (ret a) tr Q.
Proof. done. Qed.

(** A wait is never longer than the whole timeout, nor negative. *)
Definition wait_ok (timeout : Z) (c : DrainCall) : Prop :=
  match c with
  | WaitInputDrained w | WaitDatabaseIdle w | FlushDatabase w => 0 <= w <= timeout
  | _ => True
  end.

Definition drained (timeout : Z) (o : Outcome bool) (tr : list DrainCall) : Prop :=
  Forall (wait_ok timeout) tr ∧
  match o with
  | Returned true => JoinThreads ∈ tr ∧ DisableExternalBridge ∈ tr ∧ DetachThreads ∉ tr
  | Returned false => DisableExternalBridge ∈ tr ∧ RequestStop ∈ tr ∧ DetachThreads ∈ tr
  | _ => False
  end.

Lemma ceil_ms_bound start timeout now :
  0 <= timeout → start <= now →
  0 <= Z.max 0 (ceil_ms (start + timeout * 1000000 - now)) <= timeout.
Proof. unfold ceil_ms. intros. Z.to_euclidean_division_equations. lia. Qed.

Lemma wait_ok_snoc timeout t c :
  Forall (wait_ok timeout) t → wait_ok timeout c → Forall (wait_ok timeout) (t ++ [c]).
Proof. intros. apply Forall_app. split; [done|]. by repeat constructor. Qed.
#[local] Ltac waits := repeat (apply wait_ok_snoc; [|done]); done.

Section Drained.
Context (ops : DrainOperations) (timeout : Z).
Hypothesis clock_monotone : ∀ n m, (n <= m)%nat → drain_clock ops n <= drain_clock ops m.
Hypothesis timeout_nonneg : 0 <= timeout.
#[local] Set Default Proof Using "Type*".
Let deadline : TimePoint := drain_clock ops 0 + timeout * 1000000.

Lemma wait_if_runs so_far c tr (Q : Outcome bool → list DrainCall → Prop) :
  (∀ w, 0 <= w <= timeout → wait_ok timeout (c w)) →
  (so_far = false → Q (Returned false) tr) →
  (∀ w o, wait_ok timeout (c w) → o ≠ OutOfFuel → Q o ((tr ++ [ReadClock]) ++ [c w])) →
  runs (wait_if ops so_far deadline c) tr Q.
Proof.
  intros Hc H0 H1. destruct so_far; [|by apply runs_ret, H0]. cbn [wait_if].
  apply runs_bind, runs_bind, runs_call; [|done]. intros now [= <-]. apply runs_ret.
  apply runs_call; intros; apply H1; try done;
    apply Hc, ceil_ms_bound; try done; apply clock_monotone; lia.
Qed.

Lemma handler_runs tr :
  Forall (wait_ok timeout) tr → runs (drain_handler ops) tr (drained timeout).
Proof.
  intros H. unfold drain_handler.
  apply runs_bind, runs_catch, runs_call; intros; [|apply runs_ret];
    (apply runs_bind, runs_catch, runs_call; intros; [|apply runs_ret];
      (apply runs_bind, runs_catch, runs_call; intros; [|apply runs_ret];
        apply runs_ret; (split; [waits|set_solver]))).
Qed.

Lemma body_runs tr :
  Forall (wait_ok timeout) tr → JoinThreads ∉ tr → DetachThreads ∉ tr →
  runs (drain_body ops deadline) tr (λ o t,
    match o with Thrown => Forall (wait_ok timeout) t | _ => drained timeout o t end).
Proof.
  intros H0 HJ HD. unfold drain_body.
  assert (∀ t w (c : Z → DrainCall), Forall (wait_ok timeout) t → wait_ok timeout (c w) →
    Forall (wait_ok timeout) ((t ++ [ReadClock]) ++ [c w])) as Hgrow.
  { intros t w c Ht Hw. by repeat apply wait_ok_snoc. }
  assert (∀ t (i d f : bool), i && d && f = false → Forall (wait_ok timeout) t →
    runs (if i && d && f then
            do! drain_do ops JoinThreads in do! drain_do ops DisableExternalBridge in ret true
          else
            run! pending := call (λ n _, drain_pending ops n) PendingDevices in
            do! drain_do ops (ReportTimeout pending) in
            do! drain_do ops DisableExternalBridge in
            do! drain_do ops RequestStop in
            do! drain_do ops DetachThreads in
            ret false) t
      (λ o t, match o with Thrown => Forall (wait_ok timeout) t | _ => drained timeout o t end))
    as Hfail.
  { intros t i d f -> Ht.
    do 5 (apply runs_bind, runs_call; [intros ? _|intros _; waits]).
    apply runs_ret. split; [waits|].
    set_solver. }
  apply runs_bind, wait_if_runs; [done|done|]. intros w1 [i| |] W1 N1; [|by apply Hgrow|done].
  pose proof (Hgrow tr w1 WaitInputDrained H0 W1) as G1.
  apply runs_bind, wait_if_runs; [done| |].
  { intros ->. apply runs_bind, runs_ret. by apply (Hfail _ false false false). }
  intros w2 o W2 N2. pose proof (Hgrow _ w2 WaitDatabaseIdle G1 W2) as G2.
  destruct o as [d| |]; [|exact G2|done].
  apply runs_bind, wait_if_runs; [done| |].
  { intros ->. apply (Hfail _ i false false); [by rewrite andb_false_r|done]. }
  intros w3 o W3 N3. pose proof (Hgrow _ w3 FlushDatabase G2 W3) as G3.
  destruct o as [f| |]; [|exact G3|done].
  destruct (i && d && f) eqn:E; [|pose proof (Hfail _ i d f E G3) as Hf; by rewrite E in Hf].
  do 2 (apply runs_bind, runs_call; [intros ? _|intros _; waits]).
  apply runs_ret. split; [waits|].
  split; [set_solver|]. split; [set_solver|]. set_solver.
Qed.

Lemma drain_runs : runs (DrainDeviceRuntime ops timeout) [] (drained timeout).
Proof.
  unfold DrainDeviceRuntime. apply runs_bind, runs_call; [|done]. intros now [= <-].
  apply runs_catch. pose proof (body_runs [ReadClock]) as H.
  specialize (H ltac:(by repeat constructor) ltac:(set_solver) ltac:(set_solver)).
  unfold runs in *. destruct (drain_body _ _ _) as [[b| |] t]; cbn in *; [done| |done].
  by apply handler_runs.
Qed.
End Drained.

(** C37: The drain always returns, whatever the operations do: with success only after the threads were
    joined, and otherwise only after the bridge was disabled, the stop requested and the threads
    detached; no wait is negative or exceeds the timeout. *)
Theorem drain_outcome ops timeout :
  (∀ n m, (n <= m)%nat → drain_clock ops n <= drain_clock ops m) → 0 <= timeout →
  ∃ b tr, DrainDeviceRuntime ops timeout [] = (Returned b, tr) ∧
    drained timeout (Returned b) tr.
Proof.
  intros H1 H2. pose proof (drain_runs ops timeout H1 H2) as H. unfold runs in H.
  destruct (DrainDeviceRuntime ops timeout []) as [[b| |] tr]; [|by destruct H..]. by exists b, tr.
Qed.

(** ** A run

    Everything works, one migration is pending, and the process is asked to stop once
    twenty calls were made. *)
Definition sample_operations : ServiceOperations :=
  {| result := λ _ _, Some (Ok tt);
     flag := λ n c, Some (match c with ShutdownRequested => 20 <=? n | _ => false end)%nat;
     count := λ _ _, Some 1%nat; completes := λ _ _, true |}.

Definition sample_trace : list Call := (RunService sample_operations 22 kNormal []).2.

Lemma sample_run : RunService sample_operations 22 kNormal [] = (Returned 0, sample_trace).
Proof. vm_compute. reflexivity. Qed.


Lemma run_service_terminates_witness :
  ∃ code tr, RunService sample_operations 22 kMigrateOnly [] = (Returned code, tr).
Proof.
  apply (run_service_terminates sample_operations 20 1 kMigrateOnly).
  - intros n c. by eexists.
  - intros n c. by eexists.
  - intros n c. by exists 1%nat.
  - done.
  - intros n Hn. unfold sample_operations, flag. f_equal. by apply Nat.leb_le.
Defined.

(** A drain whose second wait throws. *)
Definition sample_drain : DrainOperations :=
  {| drain_wait := λ _ c, match c with WaitDatabaseIdle _ => None | _ => Some true end;
     drain_pending := λ _, Some 0%nat; drain_completes := λ _ _, true;
     drain_clock := λ n, Z.of_nat n * 1000000 |}.

Lemma drain_outcome_witness :
  ∃ tr, DrainDeviceRuntime sample_drain 5000 [] = (Returned false, tr) ∧ DetachThreads ∈ tr.
Proof.
  destruct (drain_outcome sample_drain 5000) as (b & tr & E & _ & H).
  - intros n m ?. cbn. lia.
  - lia.
  - destruct b.
    + exfalso. revert E. vm_compute. discriminate.
    + exists tr. split; [exact E|]. apply H.
Defined.
