(* ===== verification/MqttClient.v ===== *)
(** * MqttClient: src/route_service/src/adapters/mqtt/mqtt_client.cpp

    The client of libmosquitto: the lease of the library, connection and retry,
    subscriptions per connection generation, publications and their completion.
    What the library replies is an environment; the members of [CallbackState] and of
    [MqttClient] are one record.  A method that takes its mutex is one step; those
    that release it in between are also given in pieces, so that callbacks can take
    effect in between. *)

From Stdlib Require Import Ascii ZArith Lia.
From S2P Require Import Prelude DeviceTopic Ingress AppConfig DeviceService CommandService.
From stdpp Require Import options.

(** ** The library *)
Inductive LibCall :=
| LibInit | LibCleanup | NewClient (id : string) | DestroyClient
| CredentialsSet (user password : string) | ReconnectDelaySet (delay delay_max : Z)
| ConnectAsync (host : string) (port keepalive : Z) | LoopStart | Disconnect | LoopStop
| SubscribeCall (filter : string) (qos : Z) | UnsubscribeCall (filter : string)
| PublishCall (topic payload : string) (qos : Z) (retain : bool).

(** Result codes of mosquitto.h. *)
Definition MOSQ_ERR_SUCCESS : Z := 0.
Definition MOSQ_ERR_NO_CONN : Z := 4.
Definition MOSQ_ERR_ERRNO : Z := 14.
Definition MOSQ_ERR_EAI : Z := 15.
Definition MOSQ_LOG_WARNING : Z := 4.
Definition MOSQ_LOG_ERR : Z := 8.

(** What the n-th library call returns, the message number the n-th call assigns,
    whether the n-th handler call throws, the n-th reading of the clock, and whether
    a thread can be created. *)
Record MqttEnvironment := {
  lib_reply : nat → LibCall → Z;
  lib_mid : nat → Z;
  handler_throws : nat → bool;
  warn_clock : nat → TimePoint;
  thread_error : nat → option string;
  strerror : Z → string
}.

Inductive Output :=
| Called (c : LibCall) (result : Z)
| LoggedInfo (text : string) | LoggedWarn (text : string) | LoggedError (text : string)
| Delivered (message : InboundMessage)
| Completed (completion : PublishCompletion).

(** The order in which the unordered map of tokens is walked. *)
Class TokenOrder := {
  token_order : gmap Z Z → list (Z * Z);
  token_order_perm : ∀ m, token_order m ≡ₚ map_to_list m
}.

(** ** State *)
Inductive RetryState := kIdle | kRunning | kFailed.
#[export] Instance RetryState_eq_dec : EqDecision RetryState.
Proof. solve_decision. Defined.

(** Where the retry thread is; a finished thread can still be joined. *)
Inductive RetryPhase :=
| RetryWaiting (delay : Z) | RetryConnecting (delay : Z) | RetryChecking | RetryStarting
| RetryFinished.

Inductive RuntimeStatus := kDisconnectedOrRetrying | kConnected | kTerminalFailure.
#[export] Instance RuntimeStatus_eq_dec : EqDecision RuntimeStatus.
Proof. solve_decision. Defined.

Record MqttClient := {
  (* CallbackState *)
  logger : bool;
  disconnect_warnings : RateLimiter;
  library_logs : RateLimiter;
  business_warnings : RateLimiter;
  connected : bool;
  handler : bool;
  publish_handler : bool;
  max_payload_bytes : Z;
  publish_capacity : nat;
  token_to_mid : gmap Z Z;
  mid_to_token : gmap Z Z;
  untracked_completion_mids : gset Z;
  device_topic_namespace : string;
  command_topic_namespace : string;
  connection_generation : Z;
  registration_generation : option Z;
  telemetry_generation : option Z;
  source_request_generation : option Z;
  device_ack_generation : option Z;
  (* MqttClient *)
  client_ : bool;
  library_acquired_ : bool;
  loop_started_ : bool;
  retry_stop_requested_ : bool;
  retry_state_ : RetryState;
  retry_error_ : string;
  retry_thread_ : option RetryPhase;
  callback_stop_requested_ : bool;
  (* calls made so far, and what went out *)
  lib_calls : nat;
  handler_calls : nat;
  clock_reads : nat;
  outputs : list Output
}.

#[export] Instance MqttClient_members : Members MqttClient := λ s,
  {| logger := logger s; disconnect_warnings := disconnect_warnings s;
     library_logs := library_logs s; business_warnings := business_warnings s;
     connected := connected s; handler := handler s; publish_handler := publish_handler s;
     max_payload_bytes := max_payload_bytes s; publish_capacity := publish_capacity s;
     token_to_mid := token_to_mid s; mid_to_token := mid_to_token s;
     untracked_completion_mids := untracked_completion_mids s;
     device_topic_namespace := device_topic_namespace s;
     command_topic_namespace := command_topic_namespace s;
     connection_generation := connection_generation s;
     registration_generation := registration_generation s;
     telemetry_generation := telemetry_generation s;
     source_request_generation := source_request_generation s;
     device_ack_generation := device_ack_generation s; client_ := client_ s;
     library_acquired_ := library_acquired_ s; loop_started_ := loop_started_ s;
     retry_stop_requested_ := retry_stop_requested_ s; retry_state_ := retry_state_ s;
     retry_error_ := retry_error_ s; retry_thread_ := retry_thread_ s;
     callback_stop_requested_ := callback_stop_requested_ s; lib_calls := lib_calls s;
     handler_calls := handler_calls s; clock_reads := clock_reads s; outputs := outputs s |}.

Definition integer_text (z : Z) : string :=
  if z <? 0 then "-" +:+ dec (- z) else dec z.

Section Client.
Context `{TO : TokenOrder} (env : MqttEnvironment) (config : MqttConfig).

Definition MakeMqttClient : MqttClient :=
  {| logger := true; disconnect_warnings := MakeRateLimiter (seconds 30);
     library_logs := MakeRateLimiter (seconds 30);
     business_warnings := MakeRateLimiter (seconds 30);
     connected := false; handler := false; publish_handler := false; max_payload_bytes := 0;
     publish_capacity := 0; token_to_mid := ∅; mid_to_token := ∅;
     untracked_completion_mids := ∅; device_topic_namespace := ""; command_topic_namespace := "";
     connection_generation := 0; registration_generation := None; telemetry_generation := None;
     source_request_generation := None; device_ack_generation := None; client_ := false;
     library_acquired_ := false; loop_started_ := false; retry_stop_requested_ := false;
     retry_state_ := kIdle; retry_error_ := ""; retry_thread_ := None;
     callback_stop_requested_ := false; lib_calls := 0; handler_calls := 0; clock_reads := 0;
     outputs := [] |}.

Definition emit (s : MqttClient) (o : Output) : MqttClient :=
  s <| outputs := outputs s ++ [o] |>.

Definition lib (s : MqttClient) (c : LibCall) : Z * MqttClient :=
  let result := lib_reply env (lib_calls s) c in
  (result, emit (s <| lib_calls := S (lib_calls s) |>) (Called c result)).

Definition MosquittoError (operation : string) (result : Z) : string :=
  operation +:+ "失败，错误码=" +:+ integer_text result +:+ "，原因=" +:+ strerror env result.

(** ** Warnings *)
Definition DisableLogger (s : MqttClient) : MqttClient := s <| logger := false |>.

Definition warn_now (s : MqttClient) : TimePoint * MqttClient :=
  (warn_clock env (clock_reads s), s <| clock_reads := S (clock_reads s) |>).

Definition WarnDisconnected (s : MqttClient) (result : Z) : MqttClient :=
  if negb (logger s) then s
  else
    let (now, s) := warn_now s in
    let e := ShouldEmit (disconnect_warnings s) "mqtt_disconnect" now in
    let s := s <| disconnect_warnings := e.2 |> in
    if e.1 then emit s (LoggedWarn ("MQTT连接中断，将自动重连，错误码=" +:+ integer_text result))
    else s.

Definition WarnLibraryEvent (s : MqttClient) (category text : string) : MqttClient :=
  if negb (logger s) then s
  else
    let (now, s) := warn_now s in
    let e := ShouldEmit (library_logs s) category now in
    let s := s <| library_logs := e.2 |> in
    if e.1 then emit s (LoggedWarn text) else s.

Definition Warn (s : MqttClient) (message : string) : MqttClient :=
  if logger s then emit s (LoggedWarn message) else s.

Definition WarnBusiness (s : MqttClient) (category text : string) : MqttClient :=
  if negb (logger s) then s
  else
    let (now, s) := warn_now s in
    let e := ShouldEmit (business_warnings s) category now in
    let s := s <| business_warnings := e.2 |> in
    if e.1 then emit s (LoggedError text) else s.

(** ** Connection generations *)
Definition Connected (s : MqttClient) : MqttClient :=
  let s := if connected s then s
           else s <| connected := true |>
                  <| connection_generation := u64 (connection_generation s + 1) |> in
  if logger s then emit s (LoggedInfo "MQTT连接已恢复") else s.

(** ** Subscriptions: the locals of [SubscribeConfigured] *)
Record SubscribeFrame := {
  sf_device_namespace : string; sf_command_namespace : string; sf_generation : Z;
  sf_devices : bool; sf_commands : bool
}.

Definition subscribe_snapshot (s : MqttClient) : SubscribeFrame :=
  {| sf_device_namespace := device_topic_namespace s;
     sf_command_namespace := command_topic_namespace s;
     sf_generation := connection_generation s;
     sf_devices :=
       negb (str_empty (device_topic_namespace s))
       && (negb (bool_decide (registration_generation s = Some (connection_generation s)))
           || negb (bool_decide (telemetry_generation s = Some (connection_generation s))));
     sf_commands :=
       negb (str_empty (command_topic_namespace s))
       && (negb (bool_decide (source_request_generation s = Some (connection_generation s)))
           || negb (bool_decide (device_ack_generation s = Some (connection_generation s)))) |}.

Definition device_filters (ns : string) : list (string * Z * string) :=
  [(RegistrationFilter ns, 2, "订阅registration消息"); (TelemetryFilter ns, 0, "订阅telemetry消息")].
Definition command_filters (ns : string) : list (string * Z * string) :=
  [(ns +:+ "/sources/+/config/request", 2, "订阅配置命令请求");
   (ns +:+ "/+/config/ack", 2, "订阅设备配置ACK");
   (ns +:+ "/sources/+/control/request", 2, "订阅飞控命令请求");
   (ns +:+ "/+/control/ack", 2, "订阅设备飞控ACK")].

Definition subscribe_filters (f : SubscribeFrame) : list (string * Z * string) :=
  (if sf_devices f then device_filters (sf_device_namespace f) else [])
  ++ (if sf_commands f then command_filters (sf_command_namespace f) else []).

Fixpoint subscribe_all (s : MqttClient) (filters : list (string * Z * string)) :
    expected unit string * MqttClient :=
  match filters with
  | [] => (Ok tt, s)
  | (topic, qos, operation) :: rest =>
      let (result, s) := lib s (SubscribeCall topic qos) in
      if result =? MOSQ_ERR_SUCCESS then subscribe_all s rest
      else (Unexpected (MosquittoError operation result), s)
  end.

(** The last critical section, once every filter is subscribed. *)
Definition subscribe_mark (s : MqttClient) (f : SubscribeFrame) : MqttClient :=
  if connected s && (connection_generation s =? sf_generation f) then
    let s :=
      if String.eqb (device_topic_namespace s) (sf_device_namespace f)
         && negb (str_empty (sf_device_namespace f))
      then s <| registration_generation := Some (sf_generation f) |>
             <| telemetry_generation := Some (sf_generation f) |>
      else s in
    let s :=
      if String.eqb (command_topic_namespace s) (sf_command_namespace f)
         && negb (str_empty (sf_command_namespace f))
      then s <| source_request_generation := Some (sf_generation f) |>
             <| device_ack_generation := Some (sf_generation f) |>
      else s in
    if logger s && (sf_devices f || sf_commands f)
    then emit s (LoggedInfo "MQTT业务订阅已恢复") else s
  else s.

Definition SubscribeConfigured (s : MqttClient) : expected unit string * MqttClient :=
  let f := subscribe_snapshot s in
  match subscribe_all s (subscribe_filters f) with
  | (Ok _, s) => (Ok tt, subscribe_mark s f)
  | (Unexpected e, s) => (Unexpected e, s)
  end.

Definition BusinessSubscriptionGeneration (s : MqttClient) : option Z :=
  if negb (connected s) then None
  else
    let has_device_subscriptions := negb (str_empty (device_topic_namespace s)) in
    let has_command_subscriptions := negb (str_empty (command_topic_namespace s)) in
    if negb has_device_subscriptions && negb has_command_subscriptions then None
    else if has_device_subscriptions
            && (negb (bool_decide (registration_generation s = Some (connection_generation s)))
                || negb (bool_decide (telemetry_generation s = Some (connection_generation s))))
    then None
    else if has_command_subscriptions
            && (negb (bool_decide (source_request_generation s = Some (connection_generation s)))
                || negb (bool_decide (device_ack_generation s = Some (connection_generation s))))
    then None
    else Some (connection_generation s).

(** ** Messages *)

(** A mosquitto_message; a null pointer is [None]. *)
Record RawMessage := {
  raw_topic : option string; raw_payload : option string; raw_payloadlen : Z
}.

Definition deliver (s : MqttClient) (message : InboundMessage) : MqttClient :=
  let throws := handler_throws env (handler_calls s) in
  let s := emit (s <| handler_calls := S (handler_calls s) |>) (Delivered message) in
  if throws then WarnBusiness s "mqtt_business_handler" "MQTT业务消息处理器异常" else s.

Definition Dispatch (s : MqttClient) (message : option RawMessage) (received_at : TimePoint) :
    MqttClient :=
  if negb (handler s) then s
  else
    match message with
    | None => s
    | Some m =>
        match raw_topic m with
        | None => s
        | Some topic =>
            if raw_payloadlen m <? 0 then s
            else if max_payload_bytes s <? raw_payloadlen m then
              WarnBusiness s "mqtt_payload_too_large" "MQTT消息payload超过大小限制，已拒绝"
            else
              match raw_payload m with
              | None =>
                  if raw_payloadlen m =? 0
                  then deliver s {| m_topic := topic; m_payload := ""; m_received_at := received_at |}
                  else s
              | Some payload =>
                  deliver s {| m_topic := topic;
                               m_payload := substr payload 0 (Z.to_nat (raw_payloadlen m));
                               m_received_at := received_at |}
              end
        end
    end.

Definition AbandonFromCallback (s : MqttClient) : MqttClient :=
  s <| logger := false |> <| handler := false |> <| publish_handler := false |>
    <| token_to_mid := ∅ |> <| mid_to_token := ∅ |> <| untracked_completion_mids := ∅ |>
    <| device_topic_namespace := "" |> <| command_topic_namespace := "" |>.

Definition ConfigureBusinessMessages (s : MqttClient) (new_handler : bool) (max_payload : Z) :
    expected unit string * MqttClient :=
  if max_payload =? 0 then (Unexpected "MQTT payload大小限制必须大于零", s)
  else (Ok tt, s <| handler := new_handler |> <| max_payload_bytes := max_payload |>).

(** ** Subscriptions of the two halves of the program *)
Definition set_device_namespace (s : MqttClient) (ns : string) : MqttClient :=
  let s := if String.eqb (device_topic_namespace s) ns then s
           else s <| registration_generation := None |> <| telemetry_generation := None |> in
  s <| device_topic_namespace := ns |>.

Definition set_command_namespace (s : MqttClient) (ns : string) : MqttClient :=
  let s := if String.eqb (command_topic_namespace s) ns then s
           else s <| source_request_generation := None |> <| device_ack_generation := None |> in
  s <| command_topic_namespace := ns |>.

Definition EnsureBusinessSubscriptions (s : MqttClient) : expected unit string * MqttClient :=
  if connected s then SubscribeConfigured s else (Ok tt, s).

Definition SubscribeDeviceMessages (s : MqttClient) (ns : string) :
    expected unit string * MqttClient :=
  if str_empty ns then (Unexpected "MQTT topic命名空间不能为空", s)
  else EnsureBusinessSubscriptions (set_device_namespace s ns).

Definition SubscribeCommandMessages (s : MqttClient) (ns : string) :
    expected unit string * MqttClient :=
  if str_empty ns then (Unexpected "MQTT topic命名空间不能为空", s)
  else EnsureBusinessSubscriptions (set_command_namespace s ns).

(** The last critical section of [ReplayRetainedRegistrations]. *)
Definition replay_mark (s : MqttClient) (ns : string) : MqttClient :=
  if connected s && String.eqb (device_topic_namespace s) ns
  then s <| registration_generation := Some (connection_generation s) |> else s.

Definition ReplayRetainedRegistrations (s : MqttClient) (ns : string) :
    expected unit string * MqttClient :=
  if str_empty ns then (Unexpected "MQTT topic命名空间不能为空", s)
  else
    let filter := RegistrationFilter ns in
    let (unsubscribe_result, s) := lib s (UnsubscribeCall filter) in
    if negb (unsubscribe_result =? MOSQ_ERR_SUCCESS) then
      (Unexpected (MosquittoError "取消registration订阅" unsubscribe_result), s)
    else
      let (subscribe_result, s) := lib s (SubscribeCall filter 2) in
      if negb (subscribe_result =? MOSQ_ERR_SUCCESS) then
        (Unexpected (MosquittoError "恢复registration订阅" subscribe_result), s)
      else (Ok tt, replay_mark s ns).

(** ** Publications *)
Definition ConfigureCommandPublishing (s : MqttClient) (new_handler : bool) (capacity : nat) :
    expected unit string * MqttClient :=
  if (capacity =? 0)%nat then (Unexpected "MQTT命令发布容量必须大于零", s)
  else
    (Ok tt, s <| publish_handler := new_handler |> <| publish_capacity := capacity |>
              <| token_to_mid := ∅ |> <| mid_to_token := ∅ |>
              <| untracked_completion_mids := ∅ |>).

(** [std::numeric_limits<int>::max()] *)
Definition max_int : Z := 2 ^ 31 - 1.
Definition too_large (payload : string) : bool := max_int <? Z.of_nat (String.length payload).

(** [mosquitto_publish]: the result and the message number. *)
Definition publish_lib (s : MqttClient) (topic payload : string) (qos : Z) (retain : bool) :
    Z * Z * MqttClient :=
  let mid := lib_mid env (lib_calls s) in
  let r := lib s (PublishCall topic payload qos retain) in
  (r.1, mid, r.2).

(** [emplace] keeps an entry that is there. *)
Definition emplace (m : gmap Z Z) (key value : Z) : gmap Z Z :=
  match m !! key with Some _ => m | None => <[key := value]> m end.

Definition PublishCommandSet (s : MqttClient) (token : Z) (topic payload : string) :
    expected unit string * MqttClient :=
  if str_empty topic then (Unexpected "MQTT发布topic不能为空", s)
  else if too_large payload then (Unexpected "MQTT发布payload过大", s)
  else if negb (publish_handler s) then (Unexpected "MQTT命令发布处理器未配置", s)
  else if bool_decide (is_Some (token_to_mid s !! token)) then
    (Unexpected "MQTT命令发布token已在途", s)
  else if (publish_capacity s <=? size (token_to_mid s))%nat then
    (Unexpected "MQTT命令发布容量已满", s)
  else
    let '(result, mid, s) := publish_lib s topic payload 2 false in
    if negb (result =? MOSQ_ERR_SUCCESS) then
      (Unexpected (MosquittoError "发布设备命令" result), s)
    else
      (Ok tt, s <| token_to_mid := emplace (token_to_mid s) token mid |>
                <| mid_to_token := emplace (mid_to_token s) mid token |>).

Definition PublishSourceCommandAck (s : MqttClient) (topic payload : string) :
    expected unit string * MqttClient :=
  if str_empty topic then (Unexpected "MQTT发布topic不能为空", s)
  else if too_large payload then (Unexpected "MQTT发布payload过大", s)
  else
    let '(result, mid, s) := publish_lib s topic payload 2 false in
    if negb (result =? MOSQ_ERR_SUCCESS) then
      (Unexpected (MosquittoError "发布来源命令ACK" result), s)
    else (Ok tt, s <| untracked_completion_mids := {[mid]} ∪ untracked_completion_mids s |>).

Definition PublishStateEvent (s : MqttClient) (topic payload : string) :
    expected unit string * MqttClient :=
  if str_empty topic then (Unexpected "MQTT发布topic不能为空", s)
  else if too_large payload then (Unexpected "MQTT发布payload过大", s)
  else
    let '(result, mid, s) := publish_lib s topic payload 1 true in
    if negb (result =? MOSQ_ERR_SUCCESS) then
      (Unexpected (MosquittoError "发布设备当前状态快照" result), s)
    else (Ok tt, s <| untracked_completion_mids := {[mid]} ∪ untracked_completion_mids s |>).

(** ** Callbacks of the library *)
Definition HandleConnect (s : MqttClient) (result : Z) : MqttClient :=
  if result =? 0 then
    match SubscribeConfigured (Connected s) with
    | (Ok _, s) => s
    | (Unexpected error, s) =>
        WarnBusiness s "mqtt_business_subscribe" ("MQTT业务订阅失败：" +:+ error)
    end
  else WarnDisconnected (s <| connected := false |>) result.

(** A call of the completion handler; [true] when it throws. *)
Definition complete (s : MqttClient) (token : Z) (result : bool) : bool * MqttClient :=
  (handler_throws env (handler_calls s),
   emit (s <| handler_calls := S (handler_calls s) |>)
     (Completed {| pc_token := token; pc_result := result |})).

(** The loop over the completions, left by an exception. *)
Fixpoint complete_all (s : MqttClient) (tokens : list Z) : bool * MqttClient :=
  match tokens with
  | [] => (false, s)
  | token :: rest =>
      let (throws, s) := complete s token false in
      if throws then (true, s) else complete_all s rest
  end.

Definition HandleDisconnect (s : MqttClient) (result : Z) : MqttClient :=
  let s := s <| connected := false |> in
  let tokens := (token_order (token_to_mid s)).*1 in
  let s := s <| token_to_mid := ∅ |> <| mid_to_token := ∅ |>
             <| untracked_completion_mids := ∅ |> in
  let (threw, s) := if publish_handler s then complete_all s tokens else (false, s) in
  if threw then s
  else if negb (result =? MOSQ_ERR_SUCCESS) then WarnDisconnected s result else s.

Definition HandlePublish (s : MqttClient) (mid : Z) : MqttClient :=
  match mid_to_token s !! mid with
  | None =>
      if bool_decide (mid ∈ untracked_completion_mids s)
      then s <| untracked_completion_mids := untracked_completion_mids s ∖ {[mid]} |>
      else WarnBusiness s "mqtt_unknown_publish_mid" "MQTT收到未知或重复的发布完成MID"
  | Some token =>
      let s := s <| token_to_mid := delete token (token_to_mid s) |>
                 <| mid_to_token := delete mid (mid_to_token s) |> in
      if publish_handler s then
        let (threw, s) := complete s token true in
        if threw then WarnBusiness s "mqtt_publish_callback" "MQTT发布完成回调异常" else s
      else s
  end.

Definition HandleLog (s : MqttClient) (level : Z) : MqttClient :=
  if negb (Z.land level MOSQ_LOG_ERR =? 0) then
    WarnLibraryEvent s "mqtt_library_error" "MQTT库报告错误事件"
  else if negb (Z.land level MOSQ_LOG_WARNING =? 0) then
    WarnLibraryEvent s "mqtt_library_warning" "MQTT库报告警告事件"
  else s.

Definition HandleMessage (s : MqttClient) (message : option RawMessage) (received_at : TimePoint) :
    MqttClient := Dispatch s message received_at.

(** ** The retry thread *)
Definition FinishRetry (s : MqttClient) (error : string) : MqttClient :=
  s <| retry_error_ := error |>
    <| retry_state_ := if str_empty error then kIdle else kFailed |>
    <| retry_thread_ := Some RetryFinished |>.

Definition connect_async (s : MqttClient) : Z * MqttClient :=
  lib s (ConnectAsync (mq_host config) (mq_port config) (mq_keepalive config)).

(** One step of [RetryConnection], between two points where it can be preempted: the
    wait (which ends because it is over or because a stop is requested), the
    connection, the look at the stop request, the start of the loop. *)
Definition retry_step (s : MqttClient) : MqttClient :=
  match retry_thread_ s with
  | Some (RetryWaiting delay) =>
      if retry_stop_requested_ s then FinishRetry s ""
      else s <| retry_thread_ := Some (RetryConnecting delay) |>
  | Some (RetryConnecting delay) =>
      let (connect_result, s) := connect_async s in
      if connect_result =? MOSQ_ERR_EAI then
        (WarnDisconnected s connect_result)
          <| retry_thread_ :=
               Some (RetryWaiting (Z.min (delay * 2) (mq_reconnect_delay_max config))) |>
      else if negb (connect_result =? MOSQ_ERR_SUCCESS)
              && negb (connect_result =? MOSQ_ERR_ERRNO) then
        let error := MosquittoError "重试MQTT异步连接" connect_result in
        FinishRetry (Warn s error) error
      else
        let s := if connect_result =? MOSQ_ERR_ERRNO then WarnDisconnected s connect_result
                 else s in
        s <| retry_thread_ := Some RetryChecking |>
  | Some RetryChecking =>
      if retry_stop_requested_ s then FinishRetry s ""
      else s <| retry_thread_ := Some RetryStarting |>
  | Some RetryStarting =>
      let (loop_result, s) := lib s LoopStart in
      if negb (loop_result =? MOSQ_ERR_SUCCESS) then
        let error := MosquittoError "启动MQTT网络线程" loop_result in
        let s := (lib (Warn s error) Disconnect).2 in
        FinishRetry s error
      else FinishRetry (s <| loop_started_ := true |>) ""
  | Some RetryFinished | None => s
  end.

(** [retry_thread_.join()]: a thread whose stop is requested ends within two steps, one
    that has finished in none ([join_retry_finishes]). *)
Definition join_retry (s : MqttClient) : MqttClient :=
  (retry_step (retry_step s)) <| retry_thread_ := None |>.

(** ** Life cycle *)
(** The second half of [Start]: no thread is running and no failure is pending. *)
Definition start_connection (s : MqttClient) : expected unit string * MqttClient :=
  let (connect_result, s) := connect_async s in
  let initial_network_failure :=
    (connect_result =? MOSQ_ERR_ERRNO) || (connect_result =? MOSQ_ERR_EAI) in
  if negb (connect_result =? MOSQ_ERR_SUCCESS) && negb initial_network_failure then
    (Unexpected (MosquittoError "启动MQTT异步连接" connect_result), s)
  else
    let s := if initial_network_failure then WarnDisconnected s connect_result else s in
    if connect_result =? MOSQ_ERR_EAI then
      let s := s <| retry_state_ := kRunning |> <| retry_error_ := "" |> in
      match thread_error env (lib_calls s) with
      | Some what =>
          (Unexpected ("启动MQTT连接重试线程失败：" +:+ what),
           s <| retry_error_ := "" |> <| retry_state_ := kIdle |>)
      | None =>
          (Ok tt, s <| retry_thread_ := Some (RetryWaiting (mq_reconnect_delay config)) |>)
      end
    else
      let (loop_result, s) := lib s LoopStart in
      if negb (loop_result =? MOSQ_ERR_SUCCESS) then
        (Unexpected (MosquittoError "启动MQTT网络线程" loop_result), (lib s Disconnect).2)
      else (Ok tt, s <| loop_started_ := true |>).

Definition Start (s : MqttClient) : expected unit string * MqttClient :=
  if callback_stop_requested_ s then
    (Unexpected "MQTT回调已请求停止，请先由外部线程调用Stop", s)
  else if loop_started_ s then (Ok tt, s)
  else
    match retry_state_ s with
    | kRunning => (Ok tt, s)
    | state =>
        let completed_error := match state with kFailed => retry_error_ s | _ => "" end in
        let s := match state with
                 | kFailed => s <| retry_error_ := "" |> <| retry_state_ := kIdle |>
                 | _ => s
                 end in
        let s := match retry_thread_ s with Some _ => join_retry s | None => s end in
        if negb (str_empty completed_error) then (Unexpected completed_error, s)
        else
          start_connection (s <| retry_stop_requested_ := false |>)
    end.

Definition StopNow (s : MqttClient) : MqttClient :=
  let s := s <| retry_stop_requested_ := true |> in
  let s := match retry_thread_ s with Some _ => join_retry s | None => s end in
  let s := s <| retry_state_ := kIdle |> <| retry_error_ := "" |> in
  if negb (loop_started_ s) then
    s <| connected := false |> <| callback_stop_requested_ := false |>
  else
    let (disconnect_result, s) := lib s Disconnect in
    let s := if negb (disconnect_result =? MOSQ_ERR_SUCCESS)
                && negb (disconnect_result =? MOSQ_ERR_NO_CONN)
             then Warn s (MosquittoError "请求MQTT断开" disconnect_result) else s in
    let (loop_stop_result, s) := lib s LoopStop in
    let s := if negb (loop_stop_result =? MOSQ_ERR_SUCCESS)
             then Warn s (MosquittoError "停止MQTT网络线程" loop_stop_result)
             else s <| loop_started_ := false |> in
    let s := s <| connected := false |> in
    if loop_started_ s then s else s <| callback_stop_requested_ := false |>.

(** [in_callback]: [IsCurrentCallback], the caller is inside a callback of this client. *)
Definition Stop (in_callback : bool) (s : MqttClient) : MqttClient :=
  if in_callback then s <| callback_stop_requested_ := true |> else StopNow s.

Definition CallbackStopRequested (s : MqttClient) : bool := callback_stop_requested_ s.
Definition IsConnected (s : MqttClient) : bool := connected s.

Definition GetRuntimeStatus (s : MqttClient) : RuntimeStatus :=
  match retry_state_ s with
  | kFailed => kTerminalFailure
  | _ => if IsConnected s then kConnected else kDisconnectedOrRetrying
  end.

(** ** The lease of the library: the number of its users, shared by every client *)
Definition AcquireLibrary (users : nat) (s : MqttClient) : Z * nat * MqttClient :=
  if (users =? 0)%nat then
    let (result, s) := lib s LibInit in
    if result =? MOSQ_ERR_SUCCESS then (MOSQ_ERR_SUCCESS, S users, s) else (result, users, s)
  else (MOSQ_ERR_SUCCESS, S users, s).

Definition ReleaseLibrary (users : nat) (s : MqttClient) : nat * MqttClient :=
  match users with
  | O => (O, s)
  | S O => (O, (lib s LibCleanup).2)
  | S users => (users, s)
  end.

(** The destructor; [on_retry_thread] says that the callback runs on the retry thread,
    which does not join itself. *)
Definition DestroyMqttClient (in_callback on_retry_thread : bool) (users : nat)
    (s : MqttClient) : nat * MqttClient :=
  if in_callback then
    let s := AbandonFromCallback (s <| retry_stop_requested_ := true |>) in
    let s := match retry_thread_ s with
             | Some _ => if on_retry_thread then s else join_retry s
             | None => s
             end in
    (users, s <| client_ := false |> <| library_acquired_ := false |>)
  else
    let s := Stop false s in
    if loop_started_ s then
      (users, (DisableLogger s) <| client_ := false |> <| library_acquired_ := false |>)
    else
      let s := if client_ s then ((lib s DestroyClient).2) <| client_ := false |> else s in
      if library_acquired_ s then
        let (users, s) := ReleaseLibrary users s in
        (users, s <| library_acquired_ := false |>)
      else (users, s).

(** [mosquitto_new] returns a null pointer when its reply is not zero.  An instance
    that is not returned is destroyed. *)
Definition Create (users : nat) : expected unit string * nat * MqttClient :=
  let fail (error : string) (users : nat) (s : MqttClient) :=
    let d := DestroyMqttClient false false users s in
    (Unexpected error : expected unit string, d.1, d.2) in
  let '(library_result, users, s) := AcquireLibrary users MakeMqttClient in
  if negb (library_result =? MOSQ_ERR_SUCCESS) then
    fail (MosquittoError "初始化MQTT库" library_result) users s
  else
    let s := s <| library_acquired_ := true |> in
    let (null, s) := lib s (NewClient (mq_client_id config)) in
    if negb (null =? 0) then fail "创建MQTT客户端失败" users s
    else
      let s := s <| client_ := true |> in
      let (credentials_result, s) :=
        if str_empty (mq_username config) then (MOSQ_ERR_SUCCESS, s)
        else lib s (CredentialsSet (mq_username config) (mq_password config)) in
      if negb (credentials_result =? MOSQ_ERR_SUCCESS) then
        fail (MosquittoError "设置MQTT认证信息" credentials_result) users s
      else
        let (reconnect_result, s) :=
          lib s (ReconnectDelaySet (mq_reconnect_delay config mod 2 ^ 32)
                   (mq_reconnect_delay_max config mod 2 ^ 32)) in
        if negb (reconnect_result =? MOSQ_ERR_SUCCESS) then
          fail (MosquittoError "设置MQTT重连参数" reconnect_result) users s
        else (Ok tt, users, s).

End Client.
