(* ===== verification/MqttClientFacts.v ===== *)
(** * MqttClientFacts: what the MQTT client keeps

    The events a client goes through and their runs; the accounting of the
    publications, the subscriptions of a connection with the steps of
    [SubscribeConfigured] and [ReplayRetainedRegistrations] interleaved with the
    callbacks, the retry thread, and the lease of the library. *)

From Stdlib Require Import Ascii ZArith Lia.
From S2P Require Import Prelude DeviceTopic Ingress AppConfig DeviceService CommandService.
From S2P Require Import MqttClient.
From stdpp Require Import options.

Create HintDb mqtt.
#[local] Arguments lib : simpl never.
#[local] Arguments retry_step : simpl never.

(** ** Events *)
Inductive ClientEvent :=
| EvPublishCommandSet (token : Z) (topic payload : string)
| EvPublishSourceCommandAck (topic payload : string)
| EvPublishStateEvent (topic payload : string)
| EvConfigureMessages (handler : bool) (max_payload : Z)
| EvSubscribeDevices (ns : string) | EvSubscribeCommands (ns : string)
| EvEnsure | EvReplay (ns : string)
| EvStart | EvStop (in_callback : bool) | EvRetry
| EvConnect (result : Z) | EvDisconnect (result : Z) | EvPublished (mid : Z)
| EvLog (level : Z) | EvMessage (message : option RawMessage) (received_at : TimePoint).

Section Events.
Context `{TO : TokenOrder} (env : MqttEnvironment) (config : MqttConfig).

Definition client_step (s : MqttClient) (e : ClientEvent) : MqttClient :=
  match e with
  | EvPublishCommandSet token topic payload => (PublishCommandSet env s token topic payload).2
  | EvPublishSourceCommandAck topic payload => (PublishSourceCommandAck env s topic payload).2
  | EvPublishStateEvent topic payload => (PublishStateEvent env s topic payload).2
  | EvConfigureMessages handler max_payload =>
      (ConfigureBusinessMessages s handler max_payload).2
  | EvSubscribeDevices ns => (SubscribeDeviceMessages env s ns).2
  | EvSubscribeCommands ns => (SubscribeCommandMessages env s ns).2
  | EvEnsure => (EnsureBusinessSubscriptions env s).2
  | EvReplay ns => (ReplayRetainedRegistrations env s ns).2
  | EvStart => (Start env config s).2
  | EvStop in_callback => Stop env config in_callback s
  | EvRetry => retry_step env config s
  | EvConnect result => HandleConnect env s result
  | EvDisconnect result => HandleDisconnect env s result
  | EvPublished mid => HandlePublish env s mid
  | EvLog level => HandleLog env s level
  | EvMessage message received_at => HandleMessage env s message received_at
  end.

Definition client_run (s : MqttClient) (events : list ClientEvent) : MqttClient :=
  foldl client_step s events.

(** The tokens whose publication was accepted during a run, and the tokens the
    completion handler was called with. *)
Definition accepted_token (s : MqttClient) (e : ClientEvent) : list Z :=
  match e with
  | EvPublishCommandSet token topic payload =>
      match (PublishCommandSet env s token topic payload).1 with
      | Ok _ => [token] | Unexpected _ => []
      end
  | _ => []
  end.
Fixpoint accepted_tokens (s : MqttClient) (events : list ClientEvent) : list Z :=
  match events with
  | [] => []
  | e :: rest => accepted_token s e ++ accepted_tokens (client_step s e) rest
  end.

Definition completed_token (o : Output) : list Z :=
  match o with Completed c => [pc_token c] | _ => [] end.
Definition completed_tokens (s : MqttClient) : list Z := outputs s ≫= completed_token.

(** ** What most operations leave alone

    A view of the client that does not observe the bookkeeping of the library calls and
    warnings, nor an output other than a completion, is the same after a call of the
    library or a warning; one that does not observe the members of the connection and
    of the retry thread either is the same after most operations. *)
Class Quiet {A} (view : MqttClient → A) := {
  un_emit s o : completed_token o = [] → view (emit s o) = view s;
  un_lib_calls s v : view (s <| lib_calls := v |>) = view s;
  un_handler_calls s v : view (s <| handler_calls := v |>) = view s;
  un_clock_reads s v : view (s <| clock_reads := v |>) = view s;
  un_disconnect_warnings s v : view (s <| disconnect_warnings := v |>) = view s;
  un_library_logs s v : view (s <| library_logs := v |>) = view s;
  un_business_warnings s v : view (s <| business_warnings := v |>) = view s
}.
Class Unobserved {A} (view : MqttClient → A) := {
  unobserved_quiet :: Quiet view;
  un_connected s v : view (s <| connected := v |>) = view s;
  un_handler s v : view (s <| handler := v |>) = view s;
  un_max_payload_bytes s v : view (s <| max_payload_bytes := v |>) = view s;
  un_untracked s v : view (s <| untracked_completion_mids := v |>) = view s;
  un_loop_started s v : view (s <| loop_started_ := v |>) = view s;
  un_retry_stop_requested s v : view (s <| retry_stop_requested_ := v |>) = view s;
  un_retry_state s v : view (s <| retry_state_ := v |>) = view s;
  un_retry_error s v : view (s <| retry_error_ := v |>) = view s;
  un_retry_thread s v : view (s <| retry_thread_ := v |>) = view s;
  un_callback_stop s v : view (s <| callback_stop_requested_ := v |>) = view s
}.

Definition same {A} (view : MqttClient → A) (s s' : MqttClient) : Prop := view s' = view s.
#[export] Instance same_preorder {A} (view : MqttClient → A) : PreOrder (same view).
Proof. split; [done|]. unfold same. intros s t u. congruence. Qed.

Lemma same_step {A} (view : MqttClient → A) s t u :
  same view s t → view u = view t → same view s u.
Proof. unfold same. congruence. Qed.
Lemma same_pair {A B} (view : MqttClient → A) (b : B) s t :
  same view s t → same view s (b, t).2.
Proof. done. Qed.
Lemma same_emit {A} (view : MqttClient → A) `{!Quiet view} s t o :
  completed_token o = [] → same view s t → same view s (emit t o).
Proof. intros Ho H. apply (same_step _ _ t); [done|]. by apply un_emit. Qed.

(** An update of an unobserved member, or one a concrete view does not read. *)
Ltac same_update :=
  match goal with
  | |- same ?view _ (update _ ?t) =>
      apply (same_step _ _ t);
      [|first [ first [ apply un_lib_calls | apply un_handler_calls | apply un_clock_reads
              | apply un_disconnect_warnings | apply un_library_logs | apply un_business_warnings
              | apply un_connected | apply un_handler | apply un_max_payload_bytes
              | apply un_untracked | apply un_loop_started | apply un_retry_stop_requested
              | apply un_retry_state | apply un_retry_error | apply un_retry_thread
              | apply un_callback_stop ]; apply _
              | generalize t; intros; reflexivity ]]
  end.
#[local] Hint Extern 0 (same _ ?s ?s) => reflexivity : mqtt.
#[local] Hint Extern 2 (same _ _ (update _ _)) => same_update : mqtt.
#[local] Hint Extern 1 (same _ _ (emit _ _)) => apply same_emit; [apply _|reflexivity|] : mqtt.
#[local] Hint Resolve same_pair : mqtt.
#[local] Hint Extern 0 (Unobserved _) => apply _ : mqtt.
#[local] Hint Extern 0 (Quiet _) => apply _ : mqtt.

(** A library call taken apart, its state kept as a projection. *)
Ltac split_lib :=
  match goal with
  | |- context [match lib env ?t ?c with _ => _ end] =>
      let r := fresh "r" in let u := fresh "u" in let E := fresh in
      destruct (lib env t c) as [r u] eqn:E;
      replace u with (lib env t c).2 by (by rewrite E); clear E u
  end.
Ltac same_cases :=
  first [solve [eauto 12 with mqtt]
        | split_lib; same_cases | case_match; same_cases
        | progress cbv zeta; same_cases].

Section QuietFrame.
#[local] Set Default Proof Using "Type*".
Context {A} (view : MqttClient → A) `{!Quiet view}.

Lemma same_lib s t c : same view s t → same view s (lib env t c).2.
Proof. intros. unfold lib. same_cases. Qed.
#[local] Hint Resolve same_lib : mqtt.
Lemma same_WarnDisconnected s t r : same view s t → same view s (WarnDisconnected env t r).
Proof. intros. unfold WarnDisconnected, warn_now. same_cases. Qed.
Lemma same_WarnLibraryEvent s t c x : same view s t → same view s (WarnLibraryEvent env t c x).
Proof. intros. unfold WarnLibraryEvent, warn_now. same_cases. Qed.
Lemma same_WarnBusiness s t c x : same view s t → same view s (WarnBusiness env t c x).
Proof. intros. unfold WarnBusiness, warn_now. same_cases. Qed.
Lemma same_Warn s t x : same view s t → same view s (Warn t x).
Proof. intros. unfold Warn. same_cases. Qed.
#[local] Hint Resolve same_WarnDisconnected same_WarnLibraryEvent same_WarnBusiness same_Warn : mqtt.

Lemma same_subscribe_all filters : ∀ s, same view s (subscribe_all env s filters).2.
Proof.
  induction filters as [|[[topic qos] op] rest IH]; intros s; [done|].
  cbn. pose proof (same_lib s s (SubscribeCall topic qos) (reflexivity s)).
  destruct (lib _ _ _) as [r t]; cbn in *. case_match; [|done]. etrans; [done|apply IH].
Qed.
Lemma same_deliver s t m : same view s t → same view s (deliver env t m).
Proof. intros. unfold deliver. same_cases. Qed.
#[local] Hint Resolve same_deliver : mqtt.
Lemma same_Dispatch s m t : same view s (Dispatch env s m t).
Proof. unfold Dispatch. same_cases. Qed.
Lemma same_HandleLog s l : same view s (HandleLog env s l).
Proof. unfold HandleLog. same_cases. Qed.
End QuietFrame.
#[local] Hint Resolve same_lib same_WarnDisconnected same_WarnLibraryEvent same_WarnBusiness
  same_Warn : mqtt.

Section Frame.
#[local] Set Default Proof Using "Type*".
Context {A} (view : MqttClient → A) `{!Unobserved view}.
Lemma same_publish_ack s topic payload : same view s (PublishSourceCommandAck env s topic payload).2.
Proof. unfold PublishSourceCommandAck, publish_lib. same_cases. Qed.
Lemma same_publish_state s topic payload : same view s (PublishStateEvent env s topic payload).2.
Proof. unfold PublishStateEvent, publish_lib. same_cases. Qed.

Lemma same_FinishRetry s t e : same view s t → same view s (FinishRetry t e).
Proof. intros. unfold FinishRetry. same_cases. Qed.
#[local] Hint Resolve same_FinishRetry : mqtt.
Lemma same_retry_step s : same view s (retry_step env config s).
Proof. unfold retry_step, connect_async. same_cases. Qed.
Lemma same_join_retry s t : same view s t → same view s (join_retry env config t).
Proof.
  intros. unfold join_retry.
  apply same_step with (retry_step env config (retry_step env config t));
    [|apply un_retry_thread].
  etrans; [done|]. etrans; apply same_retry_step.
Qed.
#[local] Hint Resolve same_retry_step same_join_retry : mqtt.
Lemma same_start_connection s t : same view s t → same view s (start_connection env config t).2.
Proof.
  intros H. unfold start_connection, connect_async. split_lib. cbv zeta.
  set (u := (lib env t _).2). assert (same view s u) as Hu by (apply same_lib; [apply _|done]).
  set (v := if _ || _ then WarnDisconnected env u _ else u).
  assert (same view s v) as Hv by (unfold v; same_cases). clearbody u v. same_cases.
Qed.
#[local] Hint Resolve same_start_connection : mqtt.
Lemma same_Start s : same view s (Start env config s).2.
Proof. unfold Start. same_cases. Qed.
Lemma same_StopNow s : same view s (StopNow env config s).
Proof. unfold StopNow. same_cases. Qed.
#[local] Hint Resolve same_StopNow : mqtt.
Lemma same_Stop s c : same view s (Stop env config c s).
Proof. unfold Stop. same_cases. Qed.

Lemma same_configure s h m : same view s (ConfigureBusinessMessages s h m).2.
Proof. unfold ConfigureBusinessMessages. same_cases. Qed.

(** The events no such view sees. *)
Definition unobserved (e : ClientEvent) : bool :=
  match e with
  | EvPublishCommandSet _ _ _ | EvDisconnect _ | EvPublished _ | EvSubscribeDevices _
  | EvSubscribeCommands _ | EvEnsure | EvReplay _ | EvConnect _ => false
  | _ => true
  end.
Lemma client_step_same s e : unobserved e = true → same view s (client_step s e).
Proof.
  destruct e; cbn; intros; try done; auto using same_publish_ack, same_publish_state,
    same_configure, same_Start, same_Stop, same_retry_step.
  - apply same_HandleLog, _.
  - apply same_Dispatch, _.
Qed.
End Frame.

(** ** Publications *)

(** The tables of the publications and the completions reported so far. *)
Definition publications (s : MqttClient) :=
  (token_to_mid s, mid_to_token s, publish_handler s, publish_capacity s, completed_tokens s).

Lemma completed_tokens_app s t o :
  outputs t = outputs s ++ [o] → completed_tokens t = completed_tokens s ++ completed_token o.
Proof. unfold completed_tokens. intros ->. by rewrite bind_app, bind_singleton. Qed.

#[local] Instance publications_unobserved : Unobserved publications.
Proof.
  split; [split|..]; try reflexivity. intros s o Ho. unfold publications.
  rewrite (completed_tokens_app s (emit s o) o eq_refl). by rewrite Ho, app_nil_r.
Qed.
Abbreviation quiet := (same publications).

Lemma quiet_Connected s t : quiet s t → quiet s (Connected t).
Proof. intros. unfold Connected. same_cases. Qed.
Lemma quiet_subscribe_mark s t f : quiet s t → quiet s (subscribe_mark t f).
Proof. intros. unfold subscribe_mark. same_cases. Qed.
#[local] Hint Resolve quiet_Connected quiet_subscribe_mark : mqtt.
Lemma quiet_SubscribeConfigured s t : quiet s t → quiet s (SubscribeConfigured env t).2.
Proof.
  intros. unfold SubscribeConfigured.
  pose proof (same_subscribe_all publications (subscribe_filters (subscribe_snapshot t)) t).
  destruct (subscribe_all _ _ _) as [[] u]; cbn [snd] in *;
    [apply quiet_subscribe_mark|]; by etrans.
Qed.
#[local] Hint Resolve quiet_SubscribeConfigured : mqtt.
Lemma quiet_Ensure s t : quiet s t → quiet s (EnsureBusinessSubscriptions env t).2.
Proof. intros. unfold EnsureBusinessSubscriptions. same_cases. Qed.
#[local] Hint Resolve quiet_Ensure : mqtt.
Lemma quiet_SubscribeDevices s ns : quiet s (SubscribeDeviceMessages env s ns).2.
Proof.
  unfold SubscribeDeviceMessages, set_device_namespace. case_match; [done|].
  apply quiet_Ensure. same_cases.
Qed.
Lemma quiet_SubscribeCommands s ns : quiet s (SubscribeCommandMessages env s ns).2.
Proof.
  unfold SubscribeCommandMessages, set_command_namespace. case_match; [done|].
  apply quiet_Ensure. same_cases.
Qed.
Lemma quiet_Replay s ns : quiet s (ReplayRetainedRegistrations env s ns).2.
Proof. unfold ReplayRetainedRegistrations, replay_mark. same_cases. Qed.
Lemma quiet_HandleConnect s r : quiet s (HandleConnect env s r).
Proof.
  unfold HandleConnect. case_match; [|same_cases].
  pose proof (quiet_SubscribeConfigured s (Connected s) (quiet_Connected s s (reflexivity s))).
  destruct (SubscribeConfigured _ _) as [[] u]; cbn [snd] in *; eauto with mqtt.
Qed.

(** The three events that are not quiet. *)
Definition counts_publications (e : ClientEvent) : bool :=
  match e with
  | EvPublishCommandSet _ _ _ | EvDisconnect _ | EvPublished _ => true
  | _ => false
  end.
Lemma client_step_quiet s e : counts_publications e = false → quiet s (client_step s e).
Proof.
  intros H. destruct (unobserved e) eqn:E; [by apply client_step_same, E; apply _|].
  destruct e; try discriminate; cbn; auto using quiet_SubscribeDevices, quiet_SubscribeCommands,
    quiet_Replay, quiet_HandleConnect.
  by apply quiet_Ensure.
Qed.

(** A message number leads back to a token of the table. *)
Definition mids_consistent (s : MqttClient) : Prop :=
  map_Forall (λ mid token, token_to_mid s !! token = Some mid) (mid_to_token s).
Definition within_capacity (s : MqttClient) : Prop :=
  (size (token_to_mid s) ≤ publish_capacity s)%nat.
Definition in_flight (s : MqttClient) : list Z := (map_to_list (token_to_mid s)).*1.

(** One event and the accounting: what was accepted is completed or in flight. *)
Record accounted (s s' : MqttClient) (accepted : list Z) : Prop := {
  acc_consistent : mids_consistent s';
  acc_capacity : within_capacity s';
  acc_handler : publish_handler s' = publish_handler s;
  acc_limit : publish_capacity s' = publish_capacity s;
  acc_tokens : completed_tokens s' ++ in_flight s' ≡ₚ completed_tokens s ++ in_flight s ++ accepted
}.

Lemma quiet_accounted s s' :
  mids_consistent s → within_capacity s → quiet s s' → accounted s s' [].
Proof.
  intros Hm Hc [= Ht Hi Hh Hp Ho]. split.
  - by unfold mids_consistent; rewrite Ht, Hi.
  - by unfold within_capacity; rewrite Ht, Hp.
  - done.
  - done.
  - unfold in_flight. by rewrite Ht, Ho, app_nil_r.
Qed.

Lemma in_flight_delete (m : gmap Z Z) token mid :
  m !! token = Some mid →
  (map_to_list m).*1 ≡ₚ token :: (map_to_list (delete token m)).*1.
Proof.
  intros H. change (token :: ?l) with ((token, mid) :: map_to_list (delete token m)).*1.
  by rewrite map_to_list_delete.
Qed.

Lemma publish_accounted s token topic payload :
  mids_consistent s → within_capacity s →
  accounted s (PublishCommandSet env s token topic payload).2
    (accepted_token s (EvPublishCommandSet token topic payload)).
Proof.
  intros Hm Hc. unfold accepted_token.
  assert (∀ e : string, accounted s (Unexpected (T:=unit) e, s).2 []) as Stay
    by (intros; by apply quiet_accounted).
  unfold PublishCommandSet, publish_lib.
  destruct (str_empty topic); [apply Stay|]. destruct (too_large payload); [apply Stay|].
  destruct (negb _); [apply Stay|]. case_bool_decide as Ht; [apply Stay|].
  destruct (_ <=? _)%nat eqn:Hs; [apply Stay|]. apply Nat.leb_gt in Hs.
  apply eq_None_not_Some in Ht.
  set (mid := lib_mid env (lib_calls s)).
  pose proof (same_lib publications s s (PublishCall topic payload 2 false) (reflexivity s)) as Q.
  destruct (lib env s _) as [result u]; cbn [fst snd] in *.
  destruct (negb _); [by apply quiet_accounted|].
  injection Q as Qt Qi Qh Qp Qo.
  assert (emplace (token_to_mid u) token mid = <[token := mid]> (token_to_mid s)) as Et
    by (unfold emplace; by rewrite Qt, Ht).
  split; cbn [fst snd].
  - unfold mids_consistent. intros m t.
    change (emplace (mid_to_token u) mid token !! m = Some t →
            emplace (token_to_mid u) token mid !! t = Some m).
    rewrite Et, Qi. unfold emplace. intros H.
    assert ((m = mid ∧ t = token) ∨ mid_to_token s !! m = Some t) as [[-> ->]|H'].
    { destruct (mid_to_token s !! mid) eqn:E; [by right|].
      rewrite lookup_insert in H. case_decide; [left|right]; by simplify_eq. }
    + by simplify_map_eq.
    + apply Hm in H'. rewrite lookup_insert_ne by congruence. done.
  - unfold within_capacity.
    change (size (emplace (token_to_mid u) token mid) ≤ publish_capacity u)%nat.
    rewrite Et, Qp, map_size_insert_None by done. lia.
  - done.
  - done.
  - unfold in_flight.
    change (completed_tokens u ++ (map_to_list (emplace (token_to_mid u) token mid)).*1
      ≡ₚ completed_tokens s ++ (map_to_list (token_to_mid s)).*1 ++ [token]).
    rewrite Et, Qo, map_to_list_insert by done. cbn. f_equiv. apply Permutation_cons_append.
Qed.

Lemma completed_complete_all (Quiet : ∀ n, handler_throws env n = false) tokens : ∀ s,
  ∃ s', complete_all env s tokens = (false, s') ∧ token_to_mid s' = token_to_mid s
    ∧ mid_to_token s' = mid_to_token s ∧ publish_handler s' = publish_handler s
    ∧ publish_capacity s' = publish_capacity s
    ∧ completed_tokens s' = completed_tokens s ++ tokens.
Proof.
  induction tokens as [|token rest IH]; intros s; cbn [complete_all].
  - exists s. by rewrite app_nil_r.
  - unfold complete. rewrite Quiet.
    edestruct IH as (s' & -> & H1 & H2 & H3 & H4 & H5). exists s'. split_and!; try done.
    rewrite H5, (completed_tokens_app s _ (Completed {| pc_token := token; pc_result := false |})),
      <- app_assoc by done. done.
Qed.

Lemma published_accounted (Quiet : ∀ n, handler_throws env n = false) s mid :
  mids_consistent s → within_capacity s → publish_handler s = true →
  accounted s (HandlePublish env s mid) [].
Proof.
  intros Hm Hc Hh. unfold HandlePublish.
  destruct (mid_to_token s !! mid) as [token|] eqn:E.
  2: { apply quiet_accounted; [done|done|]. case_bool_decide; [by split|].
       by apply (same_WarnBusiness publications). }
  pose proof (Hm _ _ E) as Ht.
  set (u := (s <| token_to_mid := _ |>) <| mid_to_token := _ |>).
  replace (publish_handler u) with true. unfold complete. rewrite Quiet.
  split.
  - intros m t H. cbn in H |- *. apply lookup_delete_Some in H as [Hne H].
    apply Hm in H. rewrite lookup_delete_ne; [done|]. intros ->. congruence.
  - unfold within_capacity in *. cbn. rewrite map_size_delete, Ht. cbn. lia.
  - done.
  - done.
  - rewrite (completed_tokens_app s _ (Completed {| pc_token := token; pc_result := true |}))
      by done. unfold in_flight. cbn.
    rewrite app_nil_r, <- app_assoc. f_equiv. symmetry. by apply (in_flight_delete _ _ mid).
Qed.

Lemma disconnect_accounted (Quiet : ∀ n, handler_throws env n = false) s result :
  mids_consistent s → within_capacity s → publish_handler s = true →
  accounted s (HandleDisconnect env s result) [].
Proof.
  intros Hm Hc Hh. unfold HandleDisconnect. cbv zeta.
  set (tokens := (token_order _).*1).
  set (u := update _ _). replace (publish_handler u) with true.
  destruct (completed_complete_all Quiet tokens u) as (s' & -> & H1 & H2 & H3 & H4 & H5).
  assert (tokens ≡ₚ in_flight s) as Hp by (unfold tokens, in_flight; by rewrite token_order_perm).
  assert (accounted s s' []) as A.
  { split.
    - unfold mids_consistent. rewrite H2. apply map_Forall_empty.
    - unfold within_capacity. rewrite H1. change (token_to_mid u) with (∅ : gmap Z Z).
      rewrite map_size_empty. lia.
    - by rewrite H3.
    - by rewrite H4.
    - rewrite H5, Hp. change (completed_tokens u) with (completed_tokens s).
      assert (in_flight s' = []) as ->.
      { unfold in_flight. rewrite H1. change (token_to_mid u) with (∅ : gmap Z Z).
        by rewrite map_to_list_empty. }
      by rewrite !app_nil_r. }
  case_match; [|done].
  pose proof (same_WarnDisconnected publications s' s' result (reflexivity s')) as Q.
  pose proof (quiet_accounted s' _ (acc_consistent _ _ _ A) (acc_capacity _ _ _ A) Q) as [].
  destruct A. split; [done|done|congruence|congruence|].
  etrans; [done|]. by rewrite app_nil_r.
Qed.

Lemma step_accounted (Quiet : ∀ n, handler_throws env n = false) s e :
  mids_consistent s → within_capacity s → publish_handler s = true →
  accounted s (client_step s e) (accepted_token s e).
Proof.
  intros. destruct (counts_publications e) eqn:E.
  - destruct e; try discriminate E; cbn [client_step accepted_token];
      auto using publish_accounted, published_accounted, disconnect_accounted.
  - replace (accepted_token s e) with (@nil Z) by (by destruct e).
    by apply quiet_accounted, client_step_quiet.
Qed.

Lemma run_accounted (Quiet : ∀ n, handler_throws env n = false) events : ∀ s,
  mids_consistent s → within_capacity s → publish_handler s = true →
  accounted s (client_run s events) (accepted_tokens s events).
Proof.
  induction events as [|e rest IH]; intros s Hm Hc Hh; cbn.
  - by apply quiet_accounted.
  - destruct (step_accounted Quiet s e Hm Hc Hh) as [H1 H2 H3 Hk H4].
    destruct (IH (client_step s e)) as [I1 I2 I3 Ik I4]; [done|done|congruence|].
    split; [done|done|by etrans|by etrans|]. etrans; [exact I4|].
    rewrite !app_assoc in *. by rewrite H4.
Qed.

(** C15: Once a completion handler that does not throw is configured, and whatever the client goes
    through (connections, disconnections, completions with known or unknown numbers, restarts),
    the tokens whose publication was accepted are exactly those the handler was called with and
    those still in flight, with their multiplicity; at most [capacity] are in flight. *)
Theorem publications_answered_once (Quiet : ∀ n, handler_throws env n = false)
    s capacity events u v :
  completed_tokens s = [] →
  ConfigureCommandPublishing s true capacity = (Ok tt, u) →
  v = client_run u events →
  completed_tokens v ++ in_flight v ≡ₚ accepted_tokens u events ∧
  (length (in_flight v) ≤ capacity)%nat.
Proof.
  intros Hs H ->. unfold ConfigureCommandPublishing in H. case_match; simplify_eq.
  set (u := update _ _).
  assert (mids_consistent u) as Hm by apply map_Forall_empty.
  assert (within_capacity u) as Hc.
  { unfold within_capacity. change (token_to_mid u) with (∅ : gmap Z Z).
    rewrite map_size_empty. lia. }
  destruct (run_accounted Quiet events u Hm Hc eq_refl) as [_ A2 _ A3 A4].
  split.
  - etrans; [exact A4|]. change (completed_tokens u) with (completed_tokens s). by rewrite Hs.
  - unfold within_capacity in A2. rewrite A3 in A2.
    unfold in_flight. by rewrite length_fmap, length_map_to_list.
Qed.

(** ** Subscriptions

    [SubscribeConfigured] and [ReplayRetainedRegistrations] hold the mutex of the
    subscriptions, not the one of the state, during their calls: callbacks and
    changes of name space take effect in between.  A task is what the holder of the
    mutex still has to do. *)
Inductive SubscriptionTask :=
| Subscribing (f : SubscribeFrame) (pending : list (string * Z * string))
| Unsubscribing (ns : string)
| Resubscribing (ns : string)
| Marking (ns : string).

(** [ss_held]: the filters subscribed on the connection; [ss_dropped]: the filters a
    replay unsubscribed and has not subscribed again. *)
Record SubscriptionState := {
  ss_client : MqttClient; ss_task : option SubscriptionTask;
  ss_live : gset string; ss_dropped : gset string
}.

#[export] Instance SubscriptionState_members : Members SubscriptionState := λ s,
  {| ss_client := ss_client s; ss_task := ss_task s; ss_live := ss_live s;
     ss_dropped := ss_dropped s |}.

Inductive SubscriptionEvent :=
| SeClient (e : ClientEvent) | SeConnected | SeDeviceNamespace (ns : string)
| SeCommandNamespace (ns : string) | SeBegin | SeBeginReplay (ns : string) | SeContinue.

Definition seen_by_subscriptions (e : ClientEvent) : bool :=
  match e with
  | EvSubscribeDevices _ | EvSubscribeCommands _ | EvEnsure | EvReplay _ => true
  | EvConnect result => result =? 0
  | _ => false
  end.

Definition set_client (s : SubscriptionState) (c : MqttClient) : SubscriptionState :=
  s <| ss_client := c |>.

(** The next piece of the task: a call of the library or the last critical section. *)
Definition task_step (s : SubscriptionState) : SubscriptionState :=
  match ss_task s with
  | None => s
  | Some (Subscribing f []) => (set_client s (subscribe_mark (ss_client s) f)) <| ss_task := None |>
  | Some (Subscribing f ((filter, qos, operation) :: rest)) =>
      let (result, c) := lib env (ss_client s) (SubscribeCall filter qos) in
      if result =? MOSQ_ERR_SUCCESS then
        (set_client s c) <| ss_task := Some (Subscribing f rest) |>
          <| ss_live := {[filter]} ∪ ss_live s |> <| ss_dropped := ss_dropped s ∖ {[filter]} |>
      else (set_client s c) <| ss_task := None |>
  | Some (Unsubscribing ns) =>
      let filter := RegistrationFilter ns in
      let (result, c) := lib env (ss_client s) (UnsubscribeCall filter) in
      if result =? MOSQ_ERR_SUCCESS then
        (set_client s c) <| ss_task := Some (Resubscribing ns) |>
          <| ss_live := ss_live s ∖ {[filter]} |> <| ss_dropped := {[filter]} ∪ ss_dropped s |>
      else (set_client s c) <| ss_task := None |>
  | Some (Resubscribing ns) =>
      let filter := RegistrationFilter ns in
      let (result, c) := lib env (ss_client s) (SubscribeCall filter 2) in
      if result =? MOSQ_ERR_SUCCESS then
        (set_client s c) <| ss_task := Some (Marking ns) |>
          <| ss_live := {[filter]} ∪ ss_live s |> <| ss_dropped := ss_dropped s ∖ {[filter]} |>
      else (set_client s c) <| ss_task := None |>
  | Some (Marking ns) => (set_client s (replay_mark (ss_client s) ns)) <| ss_task := None |>
  end.

(** A new connection is a clean session: nothing is subscribed on it. *)
Definition subscription_step (s : SubscriptionState) (e : SubscriptionEvent) : SubscriptionState :=
  match e with
  | SeClient e =>
      if seen_by_subscriptions e then s else set_client s (client_step (ss_client s) e)
  | SeConnected =>
      if connected (ss_client s) then set_client s (Connected (ss_client s))
      else (set_client s (Connected (ss_client s))) <| ss_live := ∅ |> <| ss_dropped := ∅ |>
  | SeDeviceNamespace ns => set_client s (set_device_namespace (ss_client s) ns)
  | SeCommandNamespace ns => set_client s (set_command_namespace (ss_client s) ns)
  | SeBegin =>
      match ss_task s with
      | None =>
          let f := subscribe_snapshot (ss_client s) in
          s <| ss_task := Some (Subscribing f (subscribe_filters f)) |>
      | Some _ => s
      end
  | SeBeginReplay ns =>
      match ss_task s with
      | None => s <| ss_task := Some (Unsubscribing ns) |> | Some _ => s
      end
  | SeContinue => task_step s
  end.

Definition subscription_run (s : SubscriptionState) (events : list SubscriptionEvent) :
    SubscriptionState := foldl subscription_step s events.

Definition no_subscriptions (c : MqttClient) : SubscriptionState :=
  {| ss_client := c; ss_task := None; ss_live := ∅; ss_dropped := ∅ |}.

(** *** What subscriptions see of the client *)
Definition subscriptions (c : MqttClient) :=
  (device_topic_namespace c, command_topic_namespace c, connection_generation c,
   registration_generation c, telemetry_generation c, source_request_generation c,
   device_ack_generation c).
#[local] Instance subscriptions_unobserved : Unobserved subscriptions.
Proof. by split; [split|..]. Qed.

Lemma emit_subscriptions s t o : same subscriptions s t → same subscriptions s (emit t o).
Proof. done. Qed.
#[local] Hint Resolve emit_subscriptions : mqtt.

Lemma complete_all_same tokens : ∀ s, same subscriptions s (complete_all env s tokens).2.
Proof.
  induction tokens as [|token rest IH]; intros s; [done|]. cbn [complete_all].
  unfold complete. case_match; [by apply same_pair|]. etrans; [|apply IH]. done.
Qed.
Lemma client_step_unseen s e :
  seen_by_subscriptions e = false → same subscriptions s (client_step s e).
Proof.
  intros H. destruct (unobserved e) eqn:E; [by apply client_step_same, E; apply _|].
  destruct e as [token topic payload| | | | | | | | | | |result|result|mid| |];
    try discriminate; cbn in *.
  - unfold PublishCommandSet, publish_lib. repeat case_match; simplify_eq; same_cases.
  - unfold HandleConnect. rewrite H. same_cases.
  - unfold HandleDisconnect. cbv zeta. set (u := update _ _).
    assert (same subscriptions s u) as Hu by done.
    pose proof (complete_all_same (token_order (token_to_mid (s <| connected := false |>))).*1 u).
    destruct (publish_handler u); [destruct (complete_all _ _ _) as [[] t]; cbn [snd] in *|].
    + by etrans.
    + case_match; [apply same_WarnDisconnected; [apply _|]|]; by etrans.
    + case_match; [by apply same_WarnDisconnected; [apply _|]|done].
  - unfold HandlePublish, complete. repeat case_match; simplify_eq; same_cases.
Qed.

(** *** The invariant *)
Definition held (s : SubscriptionState) (filters : list (string * Z * string)) : Prop :=
  Forall (λ f, f.1.1 ∈ ss_live s ∪ ss_dropped s) filters.

(** A generation a half of the subscriptions was marked with. *)
Definition marked (s : SubscriptionState) (mark : option Z) (filters : list (string * Z * string)) :
    Prop :=
  ∀ g, mark = Some g → g <= connection_generation (ss_client s) ∧
    (g = connection_generation (ss_client s) → held s filters).

Definition task_inv (s : SubscriptionState) : Prop :=
  match ss_task s with
  | Some (Subscribing f pending) =>
      sf_generation f <= connection_generation (ss_client s) ∧
      (sf_generation f = connection_generation (ss_client s) →
       (∃ prior, subscribe_filters f = prior ++ pending ∧ held s prior) ∧
       (sf_devices f = false → sf_device_namespace f ≠ "" →
        held s (device_filters (sf_device_namespace f))) ∧
       (sf_commands f = false → sf_command_namespace f ≠ "" →
        held s (command_filters (sf_command_namespace f))))
  | _ => True
  end.

Record subscription_inv (n : Z) (s : SubscriptionState) : Prop := {
  si_generation : 0 <= connection_generation (ss_client s) <= n;
  si_devices : marked s (telemetry_generation (ss_client s))
                 (device_filters (device_topic_namespace (ss_client s)));
  si_commands : marked s (source_request_generation (ss_client s))
                  (command_filters (command_topic_namespace (ss_client s)));
  si_task : task_inv s;
  si_dropped : ∀ filter, filter ∈ ss_dropped s → ∃ ns, filter = RegistrationFilter ns
}.

Lemma held_mono s s' filters :
  ss_live s ∪ ss_dropped s ⊆ ss_live s' ∪ ss_dropped s' → held s filters → held s' filters.
Proof. intros H Hf. eapply Forall_impl; [exact Hf|]. set_solver. Qed.

Lemma marked_mono s s' mark filters :
  connection_generation (ss_client s') = connection_generation (ss_client s) →
  ss_live s ∪ ss_dropped s ⊆ ss_live s' ∪ ss_dropped s' →
  marked s mark filters → marked s' mark filters.
Proof.
  intros Hg Hh H g Hm. rewrite Hg. destruct (H g Hm) as [H1 H2].
  split; [done|]. intros E. by apply (held_mono s), H2.
Qed.

Lemma task_mono s s' :
  ss_task s' = ss_task s → connection_generation (ss_client s') = connection_generation (ss_client s) →
  ss_live s ∪ ss_dropped s ⊆ ss_live s' ∪ ss_dropped s' → task_inv s → task_inv s'.
Proof.
  intros Ht Hg Hh. unfold task_inv. rewrite Ht, Hg.
  destruct (ss_task s) as [[f pending| | |]|]; try done.
  intros [H1 H2]. split; [done|]. intros E. destruct (H2 E) as ((prior & Hd & H3) & H4 & H5).
  split_and!; [exists prior|..]; eauto using held_mono.
Qed.

(** A step that keeps the view and loses no filter keeps the invariant, but for the task. *)
Lemma inv_step n s s' :
  subscription_inv n s → same subscriptions (ss_client s) (ss_client s') →
  ss_live s ∪ ss_dropped s ⊆ ss_live s' ∪ ss_dropped s' →
  (∀ filter, filter ∈ ss_dropped s' → filter ∈ ss_dropped s ∨ ∃ ns, filter = RegistrationFilter ns) →
  (task_inv s → task_inv s') → subscription_inv (n + 1) s'.
Proof.
  intros [H1 H2 H3 H4 H5] [= Ed Ec Eg Er Et Es Ea] Hh Hd Ht. split.
  - rewrite Eg. lia.
  - rewrite Et, Ed. by eapply marked_mono.
  - rewrite Es, Ec. by eapply marked_mono.
  - auto.
  - intros f Hf. destruct (Hd f Hf) as [Hf'|]; auto.
Qed.

(** A call of the library and the sets after it. *)
Lemma inv_lib n s s' call task live dropped :
  subscription_inv n s →
  s' = {| ss_client := (lib env (ss_client s) call).2; ss_task := task; ss_live := live;
          ss_dropped := dropped |} →
  ss_live s ∪ ss_dropped s ⊆ live ∪ dropped →
  (∀ filter, filter ∈ dropped → filter ∈ ss_dropped s ∨ ∃ ns, filter = RegistrationFilter ns) →
  (task_inv s → task_inv s') → subscription_inv (n + 1) s'.
Proof.
  intros H -> Hh Hd Ht. eapply inv_step; [exact H| |exact Hh|exact Hd|exact Ht].
  by apply same_lib; [apply _|].
Qed.

Lemma marked_now s filters :
  held s filters → marked s (Some (connection_generation (ss_client s))) filters.
Proof. intros H g [= <-]. by split. Qed.

(** The last critical section of a subscription: what it marks is held. *)
Lemma inv_subscribe_mark n s f :
  subscription_inv n s → ss_task s = Some (Subscribing f []) →
  subscription_inv (n + 1)
    ((set_client s (subscribe_mark (ss_client s) f)) <| ss_task := None |>).
Proof.
  intros H Et. pose proof H as [H1 H2 H3 H4 H5].
  unfold task_inv in H4. rewrite Et in H4. destruct H4 as [_ H4].
  set (s' := update _ _). set (c := ss_client s) in *.
  assert (connection_generation (ss_client s') = connection_generation c ∧
          device_topic_namespace (ss_client s') = device_topic_namespace c ∧
          command_topic_namespace (ss_client s') = command_topic_namespace c) as (Eg & Ed & Ec).
  { unfold s'; cbn. unfold subscribe_mark. repeat case_match; by split_and!. }
  assert (∀ m l, marked s m l → marked s' m l) as Keep.
  { intros m l. by apply marked_mono. }
  assert (∀ l, held s l → marked s' (Some (connection_generation c)) l) as Now.
  { intros l Hl. by apply Keep, marked_now. }
  split; [rewrite Eg; lia| | |done|exact H5]; rewrite ?Ed, ?Ec.
  - assert (telemetry_generation (ss_client s') = telemetry_generation c ∨
      connection_generation c = sf_generation f ∧ sf_device_namespace f = device_topic_namespace c
      ∧ sf_device_namespace f ≠ "" ∧ telemetry_generation (ss_client s') = Some (sf_generation f))
      as [->|(Hg & Hn & Hne & ->)]; [|by apply Keep|].
    { unfold s'; cbn. unfold subscribe_mark. repeat case_match; auto; bool_prop; subst;
        right; split_and!; auto; intros E; by rewrite E in *. }
    destruct H4 as ((prior & Hd & Hh) & Hdev & _); [done|].
    rewrite app_nil_r in Hd. rewrite <- Hg, <- Hn. apply Now.
    destruct (sf_devices f) eqn:E; [|by apply Hdev].
    unfold subscribe_filters in Hd. rewrite E in Hd. rewrite <- Hd in Hh.
    by apply Forall_app in Hh as [Hh _].
  - assert (source_request_generation (ss_client s') = source_request_generation c ∨
      connection_generation c = sf_generation f ∧ sf_command_namespace f = command_topic_namespace c
      ∧ sf_command_namespace f ≠ "" ∧ source_request_generation (ss_client s') = Some (sf_generation f))
      as [->|(Hg & Hn & Hne & ->)]; [|by apply Keep|].
    { unfold s'; cbn. unfold subscribe_mark. repeat case_match; auto; bool_prop; subst;
        right; split_and!; auto; intros E; by rewrite E in *. }
    destruct H4 as ((prior & Hd & Hh) & _ & Hcmd); [done|].
    rewrite app_nil_r in Hd. rewrite <- Hg, <- Hn. apply Now.
    destruct (sf_commands f) eqn:E; [|by apply Hcmd].
    unfold subscribe_filters in Hd. rewrite E in Hd. rewrite <- Hd in Hh.
    by apply Forall_app in Hh as [_ Hh].
Qed.

(** What a successful subscription adds to what is held. *)
Lemma inv_subscribed n s filter qos task :
  subscription_inv n s →
  let s' := {| ss_client := (lib env (ss_client s) (SubscribeCall filter qos)).2;
               ss_task := task; ss_live := {[filter]} ∪ ss_live s;
               ss_dropped := ss_dropped s ∖ {[filter]} |} in
  (task_inv s → task_inv s') → subscription_inv (n + 1) s'.
Proof.
  intros H s' Ht. eapply inv_lib; [exact H|reflexivity| |set_solver|exact Ht].
  intros x Hx. destruct (decide (x = filter)); set_solver.
Qed.

(** A task given up. *)
Lemma inv_abandoned n s call :
  subscription_inv n s →
  subscription_inv (n + 1)
    {| ss_client := (lib env (ss_client s) call).2; ss_task := None;
       ss_live := ss_live s; ss_dropped := ss_dropped s |}.
Proof. intros H. by eapply inv_lib; [exact H|reflexivity|done|auto|]. Qed.

Lemma task_inv_subscribed s filter qos op rest f :
  ss_task s = Some (Subscribing f ((filter, qos, op) :: rest)) → task_inv s →
  task_inv {| ss_client := (lib env (ss_client s) (SubscribeCall filter qos)).2;
              ss_task := Some (Subscribing f rest); ss_live := {[filter]} ∪ ss_live s;
              ss_dropped := ss_dropped s ∖ {[filter]} |}.
Proof.
  intros Et. unfold task_inv. rewrite Et. cbn [ss_task ss_client].
  assert (connection_generation (lib env (ss_client s) (SubscribeCall filter qos)).2
          = connection_generation (ss_client s)) as -> by done.
  intros [T1 T2]. split; [done|]. intros Hg. destruct (T2 Hg) as ((prior & Hp & Hh) & T3 & T4).
  set (s' := Build_SubscriptionState _ _ _ _).
  assert (ss_live s ∪ ss_dropped s ⊆ ss_live s' ∪ ss_dropped s') as Hsub.
  { unfold s'; cbn. intros x Hx. destruct (decide (x = filter)); set_solver. }
  split_and!; [|intros; eapply held_mono; eauto..].
  exists (prior ++ [(filter, qos, op)]). rewrite <- app_assoc. split; [done|].
  apply Forall_app. split; [by eapply held_mono|].
  apply Forall_singleton. unfold s'; cbn. set_solver.
Qed.

Lemma inv_task_step n s : subscription_inv n s → subscription_inv (n + 1) (task_step s).
Proof.
  intros H. unfold task_step.
  destruct (ss_task s) as [[f [|[[filter qos] op] rest]|ns|ns|ns]|] eqn:Et.
  - by apply inv_subscribe_mark.
  - split_lib. case_match; [|exact (inv_abandoned n s (SubscribeCall filter qos) H)].
    apply (inv_subscribed n s filter qos _ H). by eapply task_inv_subscribed.
  - split_lib. case_match; [|exact (inv_abandoned n s (UnsubscribeCall _) H)].
    eapply (inv_lib n s _ (UnsubscribeCall _)); [exact H|reflexivity| |set_solver|done].
    intros x Hx. destruct (decide (x = RegistrationFilter ns)); set_solver.
  - split_lib. case_match; [|exact (inv_abandoned n s (SubscribeCall _ 2) H)].
    by apply (inv_subscribed n s (RegistrationFilter ns) 2 (Some (Marking ns)) H).
  - destruct H as [H1 H2 H3 _ H5]. split; try done.
    all: unfold set_client; cbn; unfold replay_mark; case_match; try done.
    all: cbn; lia.
  - destruct H as [H1 H2 H3 H4 H5]. split; try done. lia.
Qed.

Lemma inv_connected n s :
  n + 1 < 2 ^ 64 → subscription_inv n s → subscription_inv (n + 1) (subscription_step s SeConnected).
Proof.
  intros Hn H. cbn. destruct (connected (ss_client s)) eqn:Ec.
  - eapply inv_step; [exact H| |done|auto|].
    + unfold set_client; cbn. unfold Connected. rewrite Ec. case_match; done.
    + apply task_mono; [done| |done]. unfold set_client; cbn. unfold Connected. rewrite Ec.
      by case_match.
  - destruct H as [H1 H2 H3 H4 H5].
    assert (u64 (connection_generation (ss_client s) + 1)
            = connection_generation (ss_client s) + 1) as Eu
      by (apply u64_small; unfold max_u64, two64; lia).
    assert (subscriptions (Connected (ss_client s)) =
      (device_topic_namespace (ss_client s), command_topic_namespace (ss_client s),
       connection_generation (ss_client s) + 1, registration_generation (ss_client s),
       telemetry_generation (ss_client s), source_request_generation (ss_client s),
       device_ack_generation (ss_client s))) as E.
    { unfold Connected. rewrite Ec, Eu. by case_match. }
    revert E. generalize (Connected (ss_client s)) as c. intros c [= Ed Eco Eg Er Et Es Ea].
    split.
    + cbn. rewrite Eg. lia.
    + cbn. rewrite Et. intros g Hg. apply H2 in Hg as [Hg _]. cbn. rewrite Eg. split; [lia|intros; lia].
    + cbn. rewrite Es. intros g Hg. apply H3 in Hg as [Hg _]. cbn. rewrite Eg. split; [lia|intros; lia].
    + unfold task_inv in *. cbn. rewrite Eg.
      destruct (ss_task s) as [[f pending| | |]|]; try done. destruct H4. split; [lia|intros; lia].
    + intros filter Hf. cbn in Hf. set_solver.
Qed.

(** A change of one name space forgets the marks of its half, or keeps everything. *)
Lemma inv_namespace n s c :
  subscription_inv n s → connection_generation c = connection_generation (ss_client s) →
  (telemetry_generation c = None ∨
   telemetry_generation c = telemetry_generation (ss_client s) ∧
   device_topic_namespace c = device_topic_namespace (ss_client s)) →
  (source_request_generation c = None ∨
   source_request_generation c = source_request_generation (ss_client s) ∧
   command_topic_namespace c = command_topic_namespace (ss_client s)) →
  subscription_inv (n + 1) (set_client s c).
Proof.
  intros [H1 H2 H3 H4 H5] Hg Hd Hc. split.
  - cbn. lia.
  - cbn. destruct Hd as [->|[-> ->]]; [done|]. by eapply marked_mono; [..|exact H2].
  - cbn. destruct Hc as [->|[-> ->]]; [done|]. by eapply marked_mono; [..|exact H3].
  - by eapply task_mono; [..|exact H4].
  - exact H5.
Qed.

Lemma inv_begin n s :
  subscription_inv n s → subscription_inv (n + 1) (subscription_step s SeBegin).
Proof.
  intros H. cbn. destruct (ss_task s) as [t|] eqn:Et.
  { eapply inv_step; [exact H|done|done|auto|done]. }
  eapply inv_step; [exact H|done|done|auto|]. intros _. unfold task_inv. cbn.
  split; [lia|]. intros _. pose proof H as [_ H2 H3 _ _].
  split_and!.
  - exists []. split; [done|constructor].
  - intros Hf%andb_false_iff Hne. destruct Hf as [Hf|Hf]; [by destruct (device_topic_namespace _)|].
    apply orb_false_iff in Hf as [_ Hf%negb_false_iff%bool_decide_eq_true]. by apply (H2 _ Hf).
  - intros Hf%andb_false_iff Hne. destruct Hf as [Hf|Hf]; [by destruct (command_topic_namespace _)|].
    apply orb_false_iff in Hf as [Hf%negb_false_iff%bool_decide_eq_true _]. by apply (H3 _ Hf).
Qed.

Lemma inv_subscription_step n s e :
  n + 1 < 2 ^ 64 → subscription_inv n s → subscription_inv (n + 1) (subscription_step s e).
Proof.
  intros Hn H. destruct e as [e| |ns|ns| |ns|].
  - cbn [subscription_step]. case_match; [by eapply inv_step; [exact H|done|done|auto|done]|].
    eapply inv_step; [exact H| |done|auto|]; [by apply client_step_unseen|].
    apply task_mono; [done| |done].
    assert (same subscriptions (ss_client s) (client_step (ss_client s) e)) as E
      by (by apply client_step_unseen).
    by injection E.
  - by apply inv_connected.
  - cbn [subscription_step]. apply inv_namespace; [done|..]; unfold set_device_namespace; case_match; auto.
    bool_prop. subst. auto.
  - cbn [subscription_step]. apply inv_namespace; [done|..]; unfold set_command_namespace; case_match; auto.
    bool_prop. subst. auto.
  - by apply inv_begin.
  - cbn [subscription_step]. case_match; (eapply inv_step; [exact H|done|done|auto|done]).
  - by apply inv_task_step.
Qed.

Lemma inv_subscription_run events : ∀ n s,
  n + Z.of_nat (length events) < 2 ^ 64 → subscription_inv n s →
  subscription_inv (n + Z.of_nat (length events)) (subscription_run s events).
Proof.
  induction events as [|e rest IH]; intros n s Hn H; cbn [length] in *.
  - by rewrite Z.add_0_r.
  - replace (n + Z.of_nat (S (length rest))) with (n + 1 + Z.of_nat (length rest)) by lia.
    apply (IH (n + 1)); [lia|]. apply inv_subscription_step; [lia|done].
Qed.

(** A filter is told from a registration filter by its last character. *)
Definition last_char (s : string) : option ascii := last (String.list_ascii_of_string s).

Lemma last_char_app a b : b ≠ "" → last_char (a +:+ b) = last_char b.
Proof.
  intros Hb. induction a as [|c a IH]; [done|]. rewrite app_String.
  unfold last_char in *. cbn [String.list_ascii_of_string]. rewrite last_cons, IH.
  destruct b as [|d b]; [done|]. cbn [String.list_ascii_of_string]. rewrite last_cons.
  by destruct (last (String.list_ascii_of_string b)).
Qed.

Lemma last_char_Registration ns : last_char (RegistrationFilter ns) = Some "n"%char.
Proof. unfold RegistrationFilter. by rewrite last_char_app. Qed.

Definition configured_filters (c : MqttClient) : list string :=
  ((if str_empty (device_topic_namespace c) then [] else device_filters (device_topic_namespace c))
   ++ (if str_empty (command_topic_namespace c) then []
       else command_filters (command_topic_namespace c))).*1.*1.

Lemma ready_held n s g :
  subscription_inv n s → BusinessSubscriptionGeneration (ss_client s) = Some g →
  g = connection_generation (ss_client s) ∧
  Forall (λ f, f ∈ ss_live s ∪ ss_dropped s) (configured_filters (ss_client s)).
Proof.
  intros [H1 H2 H3 H4 H5] H. unfold BusinessSubscriptionGeneration in H. cbv zeta in H.
  destruct (connected _); [cbn [negb] in H|done].
  unfold configured_filters. rewrite !fmap_app, Forall_app, !Forall_fmap.
  destruct (str_empty (device_topic_namespace (ss_client s))) eqn:Ed;
    destruct (str_empty (command_topic_namespace (ss_client s))) eqn:Ec; cbn [negb andb] in H;
    repeat case_match; try discriminate; simplify_eq; bool_prop; (split; [done|]);
    split; try (by constructor); first [by apply (H2 _ ltac:(eassumption)) | by apply (H3 _ ltac:(eassumption))].
Qed.

(** C21: Whatever calls, callbacks, reconnections, replays and changes of name space come between the
    steps of a subscription: when the client reports its business subscriptions as ready for a
    generation, the generation is the one of the current connection and every filter of the
    configured name spaces is subscribed on that connection, but for a registration filter a
    replay unsubscribed and has not subscribed again. *)
Theorem ready_subscriptions_live c events s g :
  subscriptions c = subscriptions MakeMqttClient →
  Z.of_nat (length events) < 2 ^ 64 →
  s = subscription_run (no_subscriptions c) events →
  BusinessSubscriptionGeneration (ss_client s) = Some g →
  g = connection_generation (ss_client s) ∧
  ∀ filter, filter ∈ configured_filters (ss_client s) →
    filter ∈ ss_live s ∨
    filter = RegistrationFilter (device_topic_namespace (ss_client s)) ∧ filter ∈ ss_dropped s.
Proof.
  intros [= Hd Hc Hg Hr Ht Hs Ha] Hn -> H.
  assert (subscription_inv 0 (no_subscriptions c)) as I0.
  { split; cbn; [lia| | |done|set_solver].
    - by rewrite Ht.
    - by rewrite Hs. }
  pose proof (inv_subscription_run events 0 _ Hn I0) as I.
  destruct (ready_held _ _ _ I H) as [E Hheld]. split; [done|].
  intros filter Hf. pose proof (proj1 (Forall_forall _ _) Hheld _ Hf) as [|Hdrop]%elem_of_union;
    [by left|].
  destruct (si_dropped _ _ I _ Hdrop) as [ns Hns].
  pose proof (last_char_Registration ns) as L. rewrite <- Hns in L.
  right. split; [|done]. unfold configured_filters in Hf.
  rewrite !fmap_app in Hf. apply elem_of_app in Hf as [Hf|Hf]; case_match; try set_solver.
  - cbn in Hf. rewrite !elem_of_cons in Hf. destruct Hf as [->|[->|[]%elem_of_nil]]; [done|].
    unfold TelemetryFilter in L. by rewrite last_char_app in L.
  - cbn in Hf. rewrite !elem_of_cons in Hf.
    destruct Hf as [->|[->|[->|[->|[]%elem_of_nil]]]]; by rewrite last_char_app in L.
Qed.

(** A task nothing comes between is the whole method. *)
Lemma task_runs_subscribe f pending : ∀ s,
  ss_task s = Some (Subscribing f pending) →
  let s' := Nat.iter (S (length pending)) task_step s in
  ss_task s' = None ∧
  ss_client s' = match subscribe_all env (ss_client s) pending with
                 | (Ok _, c) => subscribe_mark c f | (Unexpected _, c) => c
                 end.
Proof.
  induction pending as [|[[filter qos] op] rest IH]; intros s Et s'.
  - unfold s'. cbn [length Nat.iter nat_rect]. unfold task_step. by rewrite Et.
  - assert (s' = Nat.iter (S (length rest)) task_step (task_step s)) as -> by apply Nat.iter_succ_r.
    cbn [subscribe_all]. remember (task_step s) as u eqn:Hu. unfold task_step in Hu.
    rewrite Et in Hu. destruct (lib env (ss_client s) _) as [r c] eqn:E.
    destruct (r =? MOSQ_ERR_SUCCESS); subst u.
    + by apply IH.
    + assert (∀ k t, ss_task t = None → Nat.iter k task_step t = t) as Stay.
      { intros k t Ht. induction k as [|k IHk]; [done|]. rewrite Nat.iter_succ, IHk.
        unfold task_step. by rewrite Ht. }
      by rewrite Stay.
Qed.

(** [SubscribeConfigured] is its task run without interruption. *)
Theorem uninterrupted_subscription s :
  ss_task s = None →
  let f := subscribe_snapshot (ss_client s) in
  let s' := Nat.iter (S (length (subscribe_filters f))) task_step (subscription_step s SeBegin) in
  ss_task s' = None ∧ ss_client s' = (SubscribeConfigured env (ss_client s)).2.
Proof.
  intros Et f s'. unfold s', subscription_step. rewrite Et.
  fold f. set (u := s <| ss_task := Some (Subscribing f (subscribe_filters f)) |>).
  destruct (task_runs_subscribe f (subscribe_filters f) u eq_refl) as [H1 H2].
  split; [exact H1|]. etrans; [exact H2|]. unfold SubscribeConfigured. fold f.
  change (ss_client u) with (ss_client s).
  by destruct (subscribe_all env _ _) as [[] ?].
Qed.


(** ** The retry thread and the life cycle *)
Definition life (s : MqttClient) :=
  (loop_started_ s, retry_stop_requested_ s, retry_state_ s, retry_error_ s, retry_thread_ s).
#[local] Instance life_quiet : Quiet life.
Proof. by split. Qed.

(** The events that change the life cycle. *)
Definition lives (e : ClientEvent) : bool :=
  match e with EvStart | EvStop _ | EvRetry => true | _ => false end.

Lemma life_SubscribeConfigured s t : same life s t → same life s (SubscribeConfigured env t).2.
Proof.
  intros. unfold SubscribeConfigured.
  pose proof (same_subscribe_all life (subscribe_filters (subscribe_snapshot t)) t).
  destruct (subscribe_all _ _ _) as [[] u]; cbn [snd] in *; [|by etrans].
  transitivity u; [by etrans|]. unfold subscribe_mark. same_cases.
Qed.
Lemma life_Ensure s t : same life s t → same life s (EnsureBusinessSubscriptions env t).2.
Proof.
  intros. unfold EnsureBusinessSubscriptions. case_match; [|done]. by apply life_SubscribeConfigured.
Qed.
Lemma life_emit s t o : same life s t → same life s (emit t o).
Proof. done. Qed.
#[local] Hint Resolve life_emit : mqtt.
Lemma life_complete_all tokens : ∀ s, same life s (complete_all env s tokens).2.
Proof.
  induction tokens as [|token rest IH]; intros s; [done|]. cbn [complete_all].
  unfold complete. case_match; [by apply same_pair|]. etrans; [|apply IH]. done.
Qed.

Lemma client_step_life s e : lives e = false → same life s (client_step s e).
Proof.
  destruct e as [token topic payload|topic payload|topic payload|h m|ns|ns| |ns| | | |r|r|mid|l|m t];
    try discriminate; intros _; cbn [client_step].
  - unfold PublishCommandSet, publish_lib. repeat case_match; simplify_eq; same_cases.
  - unfold PublishSourceCommandAck, publish_lib. same_cases.
  - unfold PublishStateEvent, publish_lib. same_cases.
  - unfold ConfigureBusinessMessages. same_cases.
  - unfold SubscribeDeviceMessages, set_device_namespace. case_match; [done|].
    apply life_Ensure. same_cases.
  - unfold SubscribeCommandMessages, set_command_namespace. case_match; [done|].
    apply life_Ensure. same_cases.
  - by apply life_Ensure.
  - unfold ReplayRetainedRegistrations, replay_mark. same_cases.
  - unfold HandleConnect. case_match; [|same_cases].
    assert (same life s (Connected s)) as Hc by (unfold Connected; same_cases).
    pose proof (life_SubscribeConfigured s _ Hc).
    destruct (SubscribeConfigured _ _) as [[] u]; cbn [snd] in *; eauto with mqtt.
  - unfold HandleDisconnect. cbv zeta. set (u := update _ _).
    assert (same life s u) as Hu by done.
    pose proof (life_complete_all (token_order (token_to_mid (s <| connected := false |>))).*1 u).
    destruct (publish_handler u); [destruct (complete_all _ _ _) as [[] t]; cbn [snd] in *|];
      repeat case_match; try (apply same_WarnDisconnected; [apply _|]); done || by etrans.
  - unfold HandlePublish, complete. repeat case_match; simplify_eq; same_cases.
  - apply same_HandleLog, _.
  - apply same_Dispatch, _.
Qed.

Definition retry_delay_ok (delay : Z) : Prop :=
  mq_reconnect_delay config <= delay <= mq_reconnect_delay_max config.

(** The retry thread runs exactly while the state says so, never beside the network
    loop; a failure has a text; delays stay between the configured bounds. *)
Definition life_inv (s : MqttClient) : Prop :=
  (retry_state_ s = kFailed → retry_error_ s ≠ "") ∧
  match retry_thread_ s with
  | Some (RetryWaiting delay) | Some (RetryConnecting delay) =>
      retry_delay_ok delay ∧ retry_state_ s = kRunning ∧ loop_started_ s = false
  | Some RetryChecking | Some RetryStarting => retry_state_ s = kRunning ∧ loop_started_ s = false
  | Some RetryFinished | None => retry_state_ s ≠ kRunning
  end.

Lemma life_inv_same s s' : same life s s' → life_inv s → life_inv s'.
Proof. intros [= E1 E2 E3 E4 E5]. unfold life_inv. by rewrite E1, E3, E4, E5. Qed.

Lemma life_inv_finish s error : life_inv (FinishRetry s error).
Proof.
  unfold life_inv, FinishRetry. cbn. destruct error; cbn; by split.
Qed.

Lemma life_inv_updated s s' delay :
  same life s s' → life_inv s → retry_thread_ s = Some (RetryConnecting delay) →
  mq_reconnect_delay config <= mq_reconnect_delay_max config →
  0 < mq_reconnect_delay config → ∀ p,
  p = RetryChecking ∨ p = RetryWaiting (Z.min (delay * 2) (mq_reconnect_delay_max config)) →
  life_inv (s' <| retry_thread_ := Some p |>).
Proof.
  intros [= E1 E2 E3 E4 E5] [I1 I2] Et Hle Hpos p Hp. rewrite Et in I2.
  unfold life_inv. cbn. rewrite E1, E3, E4. destruct I2 as (Hd & Hr & Hl).
  unfold retry_delay_ok in *. split; [done|].
  destruct Hp as [->| ->]; split_and!; try done; lia.
Qed.

Lemma life_inv_retry s :
  mq_reconnect_delay config <= mq_reconnect_delay_max config → 0 < mq_reconnect_delay config →
  life_inv s → life_inv (retry_step env config s).
Proof.
  intros Hle Hpos I. unfold retry_step. destruct (retry_thread_ s) as [[d|d| | |]|] eqn:E; try done.
  - case_match; [apply life_inv_finish|]. destruct I as [I1 I2]. rewrite E in I2. by split.
  - unfold connect_async. split_lib.
    repeat case_match; try apply life_inv_finish.
    all: eapply life_inv_updated; [|exact I|exact E|done|done|eauto].
    all: eauto with mqtt.
  - case_match; [apply life_inv_finish|]. destruct I as [I1 I2]. rewrite E in I2. by split.
  - split_lib. case_match; apply life_inv_finish.
Qed.

Lemma join_finished s :
  retry_thread_ s = Some RetryFinished → join_retry env config s = s <| retry_thread_ := None |>.
Proof.
  intros E. unfold join_retry.
  assert (retry_step env config s = s) as -> by (unfold retry_step; by rewrite E).
  assert (retry_step env config s = s) as -> by (unfold retry_step; by rewrite E). done.
Qed.

Lemma life_inv_start_connection s :
  mq_reconnect_delay config <= mq_reconnect_delay_max config →
  retry_thread_ s = None → retry_state_ s = kIdle → loop_started_ s = false →
  life_inv (start_connection env config s).2.
Proof.
  intros Hle Ht Hs Hl.
  assert (∀ t, same life s t → life_inv t) as Same.
  { intros t [= E1 E2 E3 E4 E5]. unfold life_inv. rewrite E3, E5, Hs, Ht. by split. }
  assert (∀ t, same life s t → retry_state_ t = kIdle ∧ retry_thread_ t = None ∧
                               loop_started_ t = false) as Fields.
  { intros t [= E1 E2 E3 E4 E5]. by rewrite E1, E3, E5, Hs, Ht. }
  unfold start_connection, connect_async. split_lib. cbv zeta.
  set (u := (lib env s _).2). assert (same life s u) as Hu by (by apply same_lib; [apply _|]).
  set (v := if _ || _ then WarnDisconnected env u _ else u).
  assert (same life s v) as Hv by (unfold v; same_cases). clearbody u v.
  case_match; [by apply Same|]. destruct (Fields v Hv) as (F1 & F2 & F3).
  case_match; [case_match|].
  - unfold life_inv. cbn. rewrite F2. by split.
  - unfold life_inv, retry_delay_ok. cbn. rewrite F3. split_and!; done || lia.
  - split_lib. set (w := (lib env v _).2).
    assert (same life s w) as Hw by (by apply same_lib; [apply _|]). clearbody w.
    destruct (Fields w Hw) as (G1 & G2 & G3). case_match.
    + apply Same. apply same_lib; [apply _|done].
    + unfold life_inv. cbn. rewrite G2, G1. by split.
Qed.

Lemma life_inv_Start s :
  mq_reconnect_delay config <= mq_reconnect_delay_max config →
  life_inv s → life_inv (Start env config s).2.
Proof.
  intros Hle I. pose proof I as [I1 I2]. unfold Start.
  destruct (callback_stop_requested_ s); [done|]. destruct (loop_started_ s) eqn:El; [done|].
  assert (retry_state_ s ≠ kRunning → retry_thread_ s = None ∨ retry_thread_ s = Some RetryFinished)
    as Idle.
  { intros Hr. destruct (retry_thread_ s) as [[]|]; naive_solver. }
  destruct (retry_state_ s) eqn:Er; [|done|]; cbv zeta.
  - destruct (Idle ltac:(done)) as [E|E]; rewrite E; cbn [str_empty negb String.eqb].
    + apply life_inv_start_connection; done.
    + rewrite (join_finished s E). by apply life_inv_start_connection.
  - specialize (I1 eq_refl). destruct (retry_error_ s) as [|ch text] eqn:Ee; [done|].
    set (u := (s <| retry_error_ := _ |>) <| retry_state_ := _ |>).
    assert (retry_thread_ u = retry_thread_ s) as Eu by done. rewrite Eu.
    destruct (Idle ltac:(done)) as [E|E]; rewrite E.
    + unfold life_inv. cbn. rewrite E. by split.
    + rewrite E in Eu. rewrite (join_finished u Eu). by split.
Qed.

Lemma StopNow_settles s :
  let s' := StopNow env config s in
  retry_thread_ s' = None ∧ retry_state_ s' = kIdle ∧ retry_error_ s' = "" ∧ connected s' = false.
Proof.
  intros s'. unfold s', StopNow. cbv zeta.
  set (t := match retry_thread_ _ with Some _ => join_retry env config _ | None => _ end).
  assert (retry_thread_ t = None) as Et by (unfold t; case_match; done). clearbody t.
  case_match; [done|]. split_lib. 
  set (u := (lib env _ Disconnect).2). 
  set (v := if _ && _ then Warn u _ else u).
  assert (same life (t <| retry_state_ := kIdle |> <| retry_error_ := "" |>) v) as [= V1 V2 V3 V4 V5].
  { unfold v, u. same_cases. }
  clearbody v. split_lib. set (w := if negb _ then Warn _ _ else _).
  assert (retry_thread_ w = None ∧ retry_state_ w = kIdle ∧ retry_error_ w = "") as (W1 & W2 & W3).
  { unfold w, Warn. rewrite <- V4, <- V3, <- Et, <- V5. repeat case_match; done. }
  clearbody w. case_match; done.
Qed.

Lemma life_inv_step s e :
  mq_reconnect_delay config <= mq_reconnect_delay_max config → 0 < mq_reconnect_delay config →
  life_inv s → life_inv (client_step s e).
Proof.
  intros Hle Hpos I. destruct (lives e) eqn:E.
  - destruct e as [| | | | | | | | |in_callback| | | | | |]; try discriminate; cbn [client_step].
    + by apply life_inv_Start.
    + destruct in_callback; [exact I|].
      unfold Stop, life_inv. destruct (StopNow_settles s) as (-> & -> & _ & _). by split.
    + by apply life_inv_retry.
  - eapply life_inv_same; [by apply client_step_life|done].
Qed.

Lemma life_inv_run events :
  mq_reconnect_delay config <= mq_reconnect_delay_max config → 0 < mq_reconnect_delay config →
  ∀ s, life_inv s → life_inv (client_run s events).
Proof.
  intros Hle Hpos. induction events as [|e rest IH]; intros s I; [done|].
  by apply IH, life_inv_step.
Qed.

(** A retry thread that was told to stop ends within two steps. *)
Lemma stopped_retry_finishes s :
  retry_stop_requested_ s = true →
  let s' := retry_step env config (retry_step env config s) in
  retry_thread_ s' = retry_thread_ s ∧ retry_thread_ s = None ∨ retry_thread_ s' = Some RetryFinished.
Proof.
  intros Hs s'.
  assert (∀ t, retry_stop_requested_ t = true →
    (∃ d, retry_thread_ t = Some (RetryWaiting d)) ∨ retry_thread_ t = Some RetryChecking ∨
    retry_thread_ t = Some RetryFinished →
    retry_thread_ (retry_step env config t) = Some RetryFinished) as Ends.
  { intros t Ht [[d Hd]|[Hd|Hd]]; unfold retry_step; rewrite Hd, ?Ht; done. }
  destruct (retry_thread_ s) as [[d|d| | |]|] eqn:E.
  - right. apply Ends; [unfold retry_step; by rewrite E, Hs|right; right]. apply Ends; eauto.
  - right. unfold s'. unfold retry_step at 2. rewrite E. unfold connect_async. split_lib.
    set (u := (lib env s _).2).
    assert (same life s u) as Hu by (by apply same_lib; [apply _|]). clearbody u.
    injection Hu as _ U _ _ _.
    assert (∀ t, same life u t → retry_stop_requested_ t = true) as Stop
      by (intros t [= _ -> _ _ _]; congruence).
    repeat case_match; (apply Ends; [|cbn; eauto]); cbn; try (by apply Stop; eauto with mqtt).
  - right. apply Ends; [unfold retry_step; by rewrite E, Hs|right; right]. apply Ends; eauto.
  - right. unfold s'. unfold retry_step at 2. rewrite E. split_lib.
    case_match; (apply Ends; [|cbn; eauto]); cbn; unfold Warn; by repeat case_match.
  - right. apply Ends; [unfold retry_step; by rewrite E, Hs|right; right]. apply Ends; eauto.
  - left. split; [|done]. unfold s'.
    assert (retry_step env config s = s) as -> by (unfold retry_step; by rewrite E).
    unfold retry_step. by rewrite E.
Qed.

(** C39: After any sequence of calls, callbacks and steps of the retry thread: the retry thread runs
    exactly while the state says so and never beside the network loop, its delay stays between
    the configured bounds, and a failure carries a text, which the client reports as terminal.
    A stop then ends the thread in at most two of its steps and leaves no thread, no failure and
    no connection. *)
Theorem retry_lifecycle c events s :
  0 < mq_reconnect_delay config → mq_reconnect_delay config <= mq_reconnect_delay_max config →
  life c = life MakeMqttClient → s = client_run c events →
  let running s := match retry_thread_ s with None | Some RetryFinished => false | _ => true end in
  (retry_state_ s = kRunning ↔ running s = true) ∧
  (running s = true → loop_started_ s = false) ∧
  (∀ delay, retry_thread_ s = Some (RetryWaiting delay) ∨ retry_thread_ s = Some (RetryConnecting delay) →
   retry_delay_ok delay) ∧
  (GetRuntimeStatus s = kTerminalFailure ↔ retry_state_ s = kFailed) ∧
  (retry_state_ s = kFailed → retry_error_ s ≠ "") ∧
  (let asked := s <| retry_stop_requested_ := true |> in
   running (retry_step env config (retry_step env config asked)) = false) ∧
  (let stopped := Stop env config false s in
   retry_thread_ stopped = None ∧ IsConnected stopped = false ∧
   GetRuntimeStatus stopped = kDisconnectedOrRetrying).
Proof.
  intros Hpos Hle Hc -> running.
  assert (life_inv c) as I0.
  { unfold life_inv. injection Hc as _ _ -> _ ->. by split. }
  pose proof (life_inv_run events Hle Hpos c I0) as [I1 I2].
  set (s := client_run c events) in *. unfold running.
  destruct (StopNow_settles s) as (E1 & E2 & _ & E4). split_and!.
  - destruct (retry_thread_ s) as [[]|]; naive_solver.
  - destruct (retry_thread_ s) as [[]|]; naive_solver.
  - intros delay [E|E]; rewrite E in I2; apply I2.
  - unfold GetRuntimeStatus. destruct (retry_state_ s); repeat case_match; naive_solver.
  - done.
  - set (asked := s <| retry_stop_requested_ := true |>). assert (retry_stop_requested_ asked = true) as Ha by done.
    destruct (stopped_retry_finishes asked Ha) as [[-> E]| ->]; [by rewrite E|done].
  - done.
  - done.
  - unfold Stop, GetRuntimeStatus, IsConnected. by rewrite E2, E4.
Qed.

(** A failure of the retry thread is returned by the next [Start], once. *)
Theorem retry_failure_reported s :
  life_inv s → retry_state_ s = kFailed → callback_stop_requested_ s = false →
  loop_started_ s = false →
  let r := Start env config s in
  r.1 = Unexpected (retry_error_ s) ∧ GetRuntimeStatus r.2 ≠ kTerminalFailure.
Proof.
  intros [I1 I2] Hs Hc Hl. specialize (I1 Hs). unfold Start. rewrite Hc, Hl, Hs. cbv zeta.
  set (u := (s <| retry_error_ := _ |>) <| retry_state_ := _ |>).
  assert (retry_thread_ u = retry_thread_ s) as Eu by done.
  destruct (retry_error_ s) as [|ch text]; [done|]. cbn [str_empty negb String.eqb].
  rewrite Hs in I2.
  assert (retry_thread_ u = None ∨ retry_thread_ u = Some RetryFinished) as [E|E]
    by (rewrite Eu; destruct (retry_thread_ s) as [[]|]; naive_solver);
    rewrite E; [|rewrite (join_finished u E)]; (split; [done|]);
    unfold GetRuntimeStatus; cbn; destruct (connected s); discriminate.
Qed.

(** ** The lease of the library *)
Definition library_balance (o : Output) : Z :=
  match o with
  | Called LibInit 0 => 1 | Called LibCleanup _ => -1 | _ => 0
  end.
Definition client_balance (o : Output) : Z :=
  match o with
  | Called (NewClient _) 0 => 1 | Called DestroyClient _ => -1 | _ => 0
  end.
Definition balance (f : Output → Z) (s : MqttClient) : Z := foldr (λ o n, f o + n) 0 (outputs s).

Lemma balance_lib f s c : balance f (lib env s c).2 = balance f s + f (Called c (lib env s c).1).
Proof.
  unfold balance. change (outputs (lib env s c).2) with (outputs s ++ [Called c (lib env s c).1]).
  generalize (Called c (lib env s c).1) as last_output. intros o.
  induction (outputs s) as [|o' os IH]; cbn in *; lia.
Qed.

(** A client the destructor finds without thread nor loop. *)
Definition fresh (s : MqttClient) (held acquired : bool) (library_open client_open : Z) : Prop :=
  life s = life MakeMqttClient ∧ client_ s = held ∧ library_acquired_ s = acquired ∧
  balance library_balance s = library_open ∧ balance client_balance s = client_open.

Lemma fresh_lib s held acquired l c call :
  fresh s held acquired l c →
  fresh (lib env s call).2 held acquired
    (l + library_balance (Called call (lib env s call).1))
    (c + client_balance (Called call (lib env s call).1)).
Proof. intros (H1 & H2 & H3 & H4 & H5). unfold fresh. rewrite !balance_lib, H4, H5. done. Qed.

Lemma destroy_fresh s held acquired l c users :
  fresh s held acquired l c →
  let d := DestroyMqttClient env config false false users s in
  d.1 = (if acquired then pred users else users) ∧ client_ d.2 = false ∧
  library_acquired_ d.2 = false ∧
  balance library_balance d.2 = l - (if acquired && (users =? 1)%nat then 1 else 0) ∧
  balance client_balance d.2 = c - (if held then 1 else 0).
Proof.
  intros F d. pose proof F as ([= L1 L2 L3 L4 L5] & _).
  assert (Stop env config false s =
    s <| retry_stop_requested_ := true |> <| retry_state_ := kIdle |> <| retry_error_ := "" |>
      <| connected := false |> <| callback_stop_requested_ := false |>) as Es.
  { unfold Stop, StopNow. cbv zeta.
    change (retry_thread_ (s <| retry_stop_requested_ := true |>)) with (retry_thread_ s).
    rewrite L5. cbn [life] in *.
    change (loop_started_ (_ <| retry_error_ := "" |>)) with (loop_started_ s). by rewrite L1. }
  destruct F as (_ & H2 & H3 & H4 & H5).
  unfold d, DestroyMqttClient. rewrite Es. set (t := update false _).
  assert (loop_started_ t = false ∧ client_ t = held ∧ library_acquired_ t = acquired ∧
    balance library_balance t = l ∧ balance client_balance t = c) as (-> & T2 & T3 & T4 & T5)
    by (by split_and!).
  clearbody t. cbv zeta. rewrite T2.
  set (v := if held then _ else t).
  assert (library_acquired_ v = acquired ∧ client_ v = false ∧
    balance library_balance v = l ∧ balance client_balance v = c - (if held then 1 else 0))
    as (V1 & V2 & V3 & V4).
  { unfold v. destruct held; [|split_and!; done || lia].
    pose proof (balance_lib library_balance t DestroyClient) as B1.
    pose proof (balance_lib client_balance t DestroyClient) as B2.
    cbn [library_balance client_balance] in B1, B2.
    split_and!; [done|done| |]; [etrans; [exact B1|by rewrite T4, Z.add_0_r]|etrans; [exact B2|by rewrite T5]]. }
  clearbody v. rewrite V1. destruct acquired; cbn [andb fst snd]; [|split_and!; done || lia].
  unfold ReleaseLibrary. destruct users as [|[|users]]; cbn [andb Nat.eqb fst snd].
  - split_and!; try done. etrans; [exact V3|lia].
  - pose proof (balance_lib library_balance v LibCleanup) as B1.
    pose proof (balance_lib client_balance v LibCleanup) as B2.
    cbn [library_balance client_balance] in B1, B2.
    split_and!; [done|done|done|..]; [etrans; [exact B1|]|etrans; [exact B2|]]; [by rewrite V3|lia].
  - split_and!; try done. etrans; [exact V3|lia].
Qed.

Lemma acquire_fresh users :
  let '(r, u, s) := AcquireLibrary env users MakeMqttClient in
  (r = 0 ∧ u = S users ∧ fresh s false false (if (users =? 0)%nat then 1 else 0) 0) ∨
  (r ≠ 0 ∧ u = users ∧ fresh s false false 0 0).
Proof.
  unfold AcquireLibrary. destruct users as [|users]; cbn [Nat.eqb].
  - assert (fresh MakeMqttClient false false 0 0) as F by done.
    apply (fresh_lib _ _ _ _ _ LibInit) in F.
    destruct (lib env MakeMqttClient LibInit) as [r s]; cbn [fst snd] in F.
    destruct (r =? MOSQ_ERR_SUCCESS) eqn:E.
    + apply Z.eqb_eq in E as ->. by left.
    + apply Z.eqb_neq in E. right. split_and!; [done|done|]. by destruct r.
  - by left.
Qed.

(** A creation that fails, at whatever call, gives back the library and the client it
    took; one that succeeds holds exactly one user of the library and one client, and
    destroying it gives both back. *)
Theorem creation_releases users :
  match Create env config users with
  | (Unexpected _, users', s) =>
      users' = users ∧ client_ s = false ∧ library_acquired_ s = false ∧
      balance library_balance s = 0 ∧ balance client_balance s = 0
  | (Ok _, users', s) =>
      users' = S users ∧ client_ s = true ∧ library_acquired_ s = true ∧
      life s = life MakeMqttClient ∧ balance client_balance s = 1 ∧
      let d := DestroyMqttClient env config false false users' s in
      d.1 = users ∧ client_ d.2 = false ∧ library_acquired_ d.2 = false ∧
      balance library_balance d.2 = 0 ∧ balance client_balance d.2 = 0
  end.
Proof.
  assert (fresh MakeMqttClient false false 0 0) as F0 by done.
  set (opened := if (users =? 0)%nat then 1 else 0).
  (* a failure after the client is made *)
  assert (∀ (s : MqttClient) held c, fresh s held true opened c → c = (if held then 1 else 0) →
    let d := DestroyMqttClient env config false false (S users) s in
    d.1 = users ∧ client_ d.2 = false ∧ library_acquired_ d.2 = false ∧
    balance library_balance d.2 = 0 ∧ balance client_balance d.2 = 0) as Give.
  { intros s held c F -> d. destruct (destroy_fresh _ _ _ _ _ (S users) F) as (D1 & D2 & D3 & D4 & D5).
    split_and!; [done|done|done|..]; fold d in D4, D5; [rewrite D4|by rewrite D5, Z.sub_diag].
    unfold opened. cbn [andb]. by destruct users. }
  unfold Create. cbv zeta.
  pose proof (acquire_fresh users) as HA. fold opened in HA.
  destruct (AcquireLibrary env users MakeMqttClient) as [[r u] s].
  destruct HA as [(-> & -> & F)|(Hr & -> & F)]; cbn [Z.eqb MOSQ_ERR_SUCCESS negb].
  2: { apply Z.eqb_neq in Hr. unfold MOSQ_ERR_SUCCESS. rewrite Hr. cbn [negb].
       destruct (destroy_fresh _ _ _ _ _ users F) as (D1 & D2 & D3 & D4 & D5). by split_and!. }
  assert (fresh (s <| library_acquired_ := true |>) false true opened 0) as F1
    by (destruct F as (? & ? & ? & ? & ?); by split_and!).
  revert F1. generalize (s <| library_acquired_ := true |>) as s1. clear s F. intros s F1.
  pose proof (fresh_lib s _ _ _ _ (NewClient (mq_client_id config)) F1) as F2.
  destruct (lib env s (NewClient (mq_client_id config))) as [null s2]; cbn [fst snd] in F2.
  cbn [library_balance client_balance] in F2. rewrite Z.add_0_r in F2.
  destruct (null =? 0) eqn:En; cbn [negb]; [apply Z.eqb_eq in En as ->|apply Z.eqb_neq in En].
  2: { apply (Give s2 false 0); [by destruct null|done]. }
  assert (fresh (s2 <| client_ := true |>) true true opened 1) as F3
    by (destruct F2 as (? & ? & ? & ? & ?); by split_and!).
  revert F3. generalize (s2 <| client_ := true |>) as s3. clear s F1 s2 F2. intros s F3.
  set (credentials := if str_empty (mq_username config) then (MOSQ_ERR_SUCCESS, s) else _).
  assert (fresh credentials.2 true true opened 1) as F4.
  { unfold credentials. case_match; [done|].
    apply (fresh_lib _ _ _ _ _ (CredentialsSet (mq_username config) (mq_password config))) in F3.
    cbn [library_balance client_balance] in F3. by rewrite !Z.add_0_r in F3. }
  destruct credentials as [cr s4]; cbn [snd] in F4.
  destruct (negb (cr =? MOSQ_ERR_SUCCESS)); [by apply (Give s4 true 1)|].
  set (delays := ReconnectDelaySet _ _).
  apply (fresh_lib _ _ _ _ _ delays) in F4. cbn [library_balance client_balance delays] in F4.
  rewrite !Z.add_0_r in F4. destruct (lib env s4 delays) as [rr s5]; cbn [snd] in F4.
  destruct (negb (rr =? MOSQ_ERR_SUCCESS)); [by apply (Give s5 true 1)|].
  pose proof (Give s5 true 1 F4 eq_refl) as G.
  destruct F4 as (G1 & G2 & G3 & G4 & G5). do 5 (split; [done|]). exact G.
Qed.

(** ** A replay that fails *)
Lemma replay_failure_same s ns e s' :
  ReplayRetainedRegistrations env s ns = (Unexpected e, s') →
  same subscriptions s s' ∧ connected s' = connected s.
Proof.
  unfold ReplayRetainedRegistrations. case_match; [intros; by simplify_eq|].
  split_lib. set (u := (lib env s _).2).
  assert (same subscriptions s u ∧ connected u = connected s) as [Hu Hc] by done. clearbody u.
  case_match; [intros; by simplify_eq|].
  split_lib. set (v := (lib env u _).2).
  assert (same subscriptions u v ∧ connected v = connected u) as [Hv Hd] by done. clearbody v.
  case_match; [|done]. intros; simplify_eq. split; [by etrans|congruence].
Qed.

(** A replay that unsubscribed the registrations and failed to subscribe them again
    leaves the generation marked: the client goes on reporting its subscriptions as
    ready, and ensuring them subscribes nothing on this connection. *)
Theorem replay_failure_not_repaired s ns e s' g :
  BusinessSubscriptionGeneration s = Some g →
  ReplayRetainedRegistrations env s ns = (Unexpected e, s') →
  BusinessSubscriptionGeneration s' = Some g ∧
  (EnsureBusinessSubscriptions env s').1 = Ok tt ∧
  lib_calls (EnsureBusinessSubscriptions env s').2 = lib_calls s'.
Proof.
  intros Hg H. destruct (replay_failure_same _ _ _ _ H) as [[= E1 E2 E3 E4 E5 E6 E7] E8].
  assert (BusinessSubscriptionGeneration s' = Some g) as Hg'.
  { unfold BusinessSubscriptionGeneration in *. by rewrite E1, E2, E3, E4, E5, E6, E7, E8. }
  split; [done|]. unfold EnsureBusinessSubscriptions. case_match; [|done].
  assert (subscribe_filters (subscribe_snapshot s') = []) as Ef.
  { unfold BusinessSubscriptionGeneration in Hg'. unfold subscribe_filters, subscribe_snapshot.
    cbn [sf_devices sf_commands]. repeat case_match; try done; exfalso;
      repeat match goal with H : _ && _ = _ |- _ => rewrite H in * end; cbn in *; congruence. }
  unfold SubscribeConfigured. rewrite Ef. cbn [subscribe_all fst snd]. split; [done|].
  unfold subscribe_mark. cbv zeta. repeat case_match; done.
Qed.

End Events.

(** ** Witnesses *)
Module Example.
#[local] Instance order : TokenOrder.
Proof. refine {| token_order := λ m, map_to_list m |}. done. Defined.

(** A library that accepts every call, with message numbers from 1. *)
Definition environment : MqttEnvironment :=
  {| lib_reply := λ _ _, 0; lib_mid := λ n, Z.of_nat n + 1; handler_throws := λ _, false;
     warn_clock := λ n, Z.of_nat n; thread_error := λ _, None; strerror := λ _, "error" |}.
Definition config : MqttConfig :=
  {| mq_host := "broker"; mq_port := 1883; mq_keepalive := 60; mq_client_id := "cns";
     mq_username := ""; mq_password := ""; mq_reconnect_delay := 1; mq_reconnect_delay_max := 30;
     mq_topic_namespace := "cns"; mq_max_payload_bytes := 65536 |}.

Definition configured : MqttClient :=
  (ConfigureCommandPublishing MakeMqttClient true 2).2.
Definition publishing : list ClientEvent :=
  [EvConnect 0; EvPublishCommandSet 7 "a" "x"; EvPublishCommandSet 8 "b" "y";
   EvPublishCommandSet 9 "c" "z"; EvPublished 1; EvPublished 1; EvPublishCommandSet 9 "c" "z";
   EvDisconnect 1].

(** The third command is refused, the first completes, the others end with the connection. *)
Lemma publications_answered_once_witness :
  let v := client_run environment config configured publishing in
  completed_tokens v = [7; 9; 8] ∧
  completed_tokens v ++ in_flight v ≡ₚ accepted_tokens environment config configured publishing.
Proof.
  split; [vm_compute; reflexivity|].
  refine (proj1 (publications_answered_once environment config (λ _, eq_refl) MakeMqttClient 2
    publishing configured _ _ _ eq_refl)); reflexivity.
Defined.

(** A reconnection between two calls of a subscription. *)
Definition interleaving : list SubscriptionEvent :=
  [SeDeviceNamespace "cns"; SeConnected; SeBegin; SeContinue; SeClient (EvDisconnect 1);
   SeConnected; SeContinue; SeContinue; SeBegin; SeContinue; SeContinue; SeContinue].

Lemma ready_subscriptions_live_witness :
  let s := subscription_run environment config (no_subscriptions MakeMqttClient) interleaving in
  BusinessSubscriptionGeneration (ss_client s) = Some 2 ∧
  2 = connection_generation (ss_client s).
Proof.
  split; [vm_compute; reflexivity|].
  refine (proj1 (ready_subscriptions_live environment config MakeMqttClient interleaving _ 2
    eq_refl _ eq_refl _)); [reflexivity|vm_compute; reflexivity].
Defined.

(** A name that does not resolve twice, then does. *)
Definition resolving : MqttEnvironment :=
  {| lib_reply := λ n _, if (n <? 2)%nat then MOSQ_ERR_EAI else 0; lib_mid := λ n, Z.of_nat n + 1;
     handler_throws := λ _, false; warn_clock := λ n, Z.of_nat n; thread_error := λ _, None;
     strerror := λ _, "error" |}.

Lemma retry_lifecycle_witness :
  let s := client_run resolving config MakeMqttClient [EvStart; EvRetry; EvRetry] in
  retry_thread_ s = Some (RetryWaiting 2) ∧ retry_delay_ok config 2.
Proof.
  split; [vm_compute; reflexivity|].
  refine (proj1 (proj2 (proj2 (retry_lifecycle resolving config MakeMqttClient
    [EvStart; EvRetry; EvRetry] _ _ _ _ eq_refl))) 2 _); [reflexivity|vm_compute; discriminate|
    reflexivity|left; vm_compute; reflexivity].
Defined.

(** A broker that refuses the connection attempts of the retry thread. *)
Definition refusing : MqttEnvironment :=
  {| lib_reply := λ n _, if (n <? 1)%nat then MOSQ_ERR_EAI else 3; lib_mid := λ n, Z.of_nat n + 1;
     handler_throws := λ _, false; warn_clock := λ n, Z.of_nat n; thread_error := λ _, None;
     strerror := λ _, "error" |}.

Lemma retry_failure_reported_witness :
  let s := client_run refusing config MakeMqttClient [EvStart; EvRetry; EvRetry] in
  retry_state_ s = kFailed ∧ (Start refusing config s).1 = Unexpected (retry_error_ s).
Proof.
  split; [vm_compute; reflexivity|].
  refine (proj1 (retry_failure_reported refusing config _ _ _ _ _));
    [split; [intros _; vm_compute; discriminate|vm_compute; discriminate]|vm_compute; reflexivity..].
Defined.

(** The broker drops the second call of the replay. *)
Definition half_replay : MqttEnvironment :=
  {| lib_reply := λ n _, if (n =? 3)%nat then 7 else 0; lib_mid := λ n, Z.of_nat n + 1;
     handler_throws := λ _, false; warn_clock := λ n, Z.of_nat n; thread_error := λ _, None;
     strerror := λ _, "error" |}.

Lemma replay_failure_not_repaired_witness :
  let s := client_run half_replay config MakeMqttClient [EvSubscribeDevices "cns"; EvConnect 0] in
  let r := ReplayRetainedRegistrations half_replay s "cns" in
  is_ok r.1 = false ∧ BusinessSubscriptionGeneration r.2 = Some 1.
Proof.
  intros s r. split; [vm_compute; reflexivity|].
  refine (proj1 (replay_failure_not_repaired half_replay s "cns"
    (match r.1 with Unexpected e => e | Ok _ => "" end) r.2 1 _ _)); vm_compute; reflexivity.
Defined.
End Example.
