(* ===== verification/PostgresStore.v ===== *)
(** * PostgresStore: src/route_service/src/adapters/postgres/postgres_store.cpp

    The operations on the database.  PostgreSQL and libpqxx are not part of the
    repository: what a statement gives back, rows or an exception, is an environment,
    and so is whether the connection is open.  An SQL statement is a constructor with
    the parameters that are bound to it; a transaction is the calls between its begin
    and its commit, one that is left otherwise is rolled back. *)

From Stdlib Require Import Ascii ZArith Lia.
From S2P Require Import Prelude Json CommandTypes CommandState CommandRouter.
From S2P Require Import DeviceMessage DeviceRegistry DirtyState AppConfig Migration.
From stdpp Require Import options.

(** ** Failures *)
Inductive OperationFailureKind := kUnavailable | kPermanent.
#[export] Instance OperationFailureKind_eq_dec : EqDecision OperationFailureKind.
Proof. solve_decision. Defined.

Definition ClassifyOperationFailure (connection_open broken_connection : bool) :
    OperationFailureKind :=
  if broken_connection || negb connection_open then kUnavailable else kPermanent.

(** ** Connection parameters *)
Fixpoint quote_chars (s : string) : string :=
  match s with
  | EmptyString => EmptyString
  | String c rest =>
      if Ascii.eqb c "\" || Ascii.eqb c "'" then String "\" (String c (quote_chars rest))
      else String c (quote_chars rest)
  end.
Definition QuoteConnectionValue (value : string) : string :=
  String "'" (quote_chars value +:+ "'").
Definition ConnectionParameter (name value : string) : string :=
  name +:+ String "=" (QuoteConnectionValue value).

Definition BuildSafeConnectionDescription (config : DatabaseConfig) : string :=
  ConnectionParameter "host" (db_host config) +:+ String " "
    (ConnectionParameter "port" (dec (db_port config)) +:+ String " "
      (ConnectionParameter "dbname" (db_name config) +:+ String " "
        (ConnectionParameter "user" (db_user config)))).
Definition BuildConnectionString (config : DatabaseConfig) : string :=
  BuildSafeConnectionDescription config +:+ String " "
    (ConnectionParameter "password" (db_password config) +:+ String " "
      (ConnectionParameter "connect_timeout" (dec (db_connect_timeout config)))).

Definition MigrationContext (m : Migration) : string :=
  "迁移版本 " +:+ dec (version m) +:+ "（" +:+ name m +:+ "）".

(** ** Times: [duration_cast] drops the digits below a microsecond *)
Definition ToUnixMicroseconds (time : TimePoint) : Z := Z.quot time 1000.
Definition minimum_us : Z := Z.quot (- 2 ^ 63) 1000.
Definition maximum_us : Z := Z.quot (2 ^ 63 - 1) 1000.
Definition FromUnixMicroseconds (microseconds : Z) : expected TimePoint string :=
  if (microseconds <? minimum_us) || (maximum_us <? microseconds) then
    Unexpected "PostgreSQL 设备时间超出系统时钟范围"
  else Ok (microseconds * 1000).

(** ** Rows

    The value of a column, by the type the query gives it.  [as<T>()] throws on a
    null and on a value of another type. *)
Inductive Field := FNull | FText (s : string) | FInt (z : Z) | FBool (b : bool).
Abbreviation Row := (list Field) (only parsing).
Definition column (row : Row) (n : nat) : Field := nth n row FNull.
Definition is_null_field (f : Field) : bool := match f with FNull => true | _ => false end.

(** A computation that may throw; [broken] says that the exception is
    [pqxx::broken_connection]. *)
Inductive attempt (A : Type) := Value (a : A) | Raised (broken : bool).
Arguments Value {A} a.
Arguments Raised {A} broken.

Notation "'let?' x ':=' e1 'in' e2" :=
  (match e1 with Value x => e2 | Raised broken => Raised broken end)
  (at level 10, x name, e1 at level 100, e2 at level 200) : cns_scope.

(** [auto x = e1; if (!x) return std::unexpected(x.error());] where [e1] may throw. *)
Notation "'let?!' x ':=' e1 'in' e2" :=
  (match e1 with
   | Value (Ok x) => e2 | Value (Unexpected err) => Value (Unexpected err)
   | Raised broken => Raised broken
   end)
  (at level 10, x name, e1 at level 100, e2 at level 200) : cns_scope.

Definition as_text (f : Field) : attempt string :=
  match f with FText s => Value s | _ => Raised false end.
Definition as_int64 (f : Field) : attempt Z :=
  match f with
  | FInt z => if (- 2 ^ 63 <=? z) && (z <? 2 ^ 63) then Value z else Raised false
  | _ => Raised false
  end.
Definition as_int (f : Field) : attempt Z :=
  match f with
  | FInt z => if (- 2 ^ 31 <=? z) && (z <? 2 ^ 31) then Value z else Raised false
  | _ => Raised false
  end.
Definition as_bool (f : Field) : attempt bool :=
  match f with FBool b => Value b | _ => Raised false end.

(** [f.is_null() ? std::nullopt : std::optional{f.as<std::string>()}] *)
Definition optional_text (f : Field) : attempt (option string) :=
  if is_null_field f then Value None else let? s := as_text f in Value (Some s).

Definition DatabaseStatus (status : Status) : string :=
  match status with kOnline => "online" | kOffline => "offline" end.
Definition DeviceStatus (status : string) : Status :=
  if String.eqb status "online" then kOnline else kOffline.
Definition DeviceTypeOf (value : string) : DeviceType :=
  if String.eqb value "flight_controller" then kFlightController else kCnsBox.

Section Store.
Context `{JL : JsonLib}.

(** ** Reading a device *)
Definition OptionalJson (field : Field) (name : string) (require_object : bool) :
    attempt (expected (option json) string) :=
  if is_null_field field then Value (Ok None)
  else
    let? text := as_text field in
    match json_parse text with
    | None => Value (Unexpected ("读取 PostgreSQL 设备失败：" +:+ name +:+ " JSON 无效"))
    | Some value =>
        if require_object && negb (is_object value) then
          Value (Unexpected ("读取 PostgreSQL 设备失败：" +:+ name +:+ " 必须为对象"))
        else Value (Ok (Some value))
    end.

Fixpoint capability_texts (values : list json) : expected (list string) string :=
  match values with
  | [] => Ok []
  | value :: rest =>
      if negb (is_string value) || str_empty (get_string value) then
        Unexpected "读取 PostgreSQL 设备失败：capabilities 必须为字符串数组"
      else let! texts := capability_texts rest in Ok (get_string value :: texts)
  end.

Definition CapabilitiesFromField (field : Field) :
    attempt (expected (option (list string)) string) :=
  let?! parsed := OptionalJson field "capabilities" false in
  match parsed with
  | None => Value (Ok None)
  | Some value =>
      if negb (is_array value) then
        Value (Unexpected "读取 PostgreSQL 设备失败：capabilities 必须为字符串数组")
      else Value (let! texts := capability_texts (jelements value) in Ok (Some texts))
  end.

Definition JsonText (value : option json) : option string := json_dump <$> value.
Definition CapabilitiesText (value : option (list string)) : option string :=
  (λ l, json_dump (JArray (JString <$> l))) <$> value.

Definition ParseDeviceTelemetry (text : option string) : expected (option json) string :=
  match text with
  | None => Ok None
  | Some text =>
      match json_parse text with
      | None => Unexpected "读取 PostgreSQL 设备失败：遥测 JSON 无效"
      | Some parsed =>
          if negb (is_object parsed)
          then Unexpected "读取 PostgreSQL 设备失败：遥测必须为对象" else Ok (Some parsed)
      end
  end.

(** A column of microseconds that may be null. *)
Definition optional_time (f : Field) : attempt (expected (option TimePoint) string) :=
  if is_null_field f then Value (Ok None)
  else
    let? us := as_int64 f in
    Value (let! parsed := FromUnixMicroseconds us in Ok (Some parsed)).

(** The three JSON columns are read before the first of their errors is returned. *)
Definition DeviceFromRow (row : Row) : attempt (expected DeviceRecord string) :=
  let? telemetry_text := optional_text (column row 8) in
  match ParseDeviceTelemetry telemetry_text with
  | Unexpected e => Value (Unexpected e)
  | Ok telemetry =>
      let? capabilities := CapabilitiesFromField (column row 10) in
      let? product := OptionalJson (column row 11) "product" true in
      let? version := OptionalJson (column row 12) "version" true in
      match capabilities, product, version with
      | Unexpected e, _, _ => Value (Unexpected e)
      | _, Unexpected e, _ => Value (Unexpected e)
      | _, _, Unexpected e => Value (Unexpected e)
      | Ok capabilities, Ok product, Ok version =>
          let?! last_seen := optional_time (column row 7) in
          let?! telemetry_received := optional_time (column row 9) in
          let? device_id := as_text (column row 0) in
          let? school_id := as_int64 (column row 1) in
          let? school_name := as_text (column row 2) in
          let? dcdw_label := optional_text (column row 3) in
          let? model_version := as_text (column row 4) in
          let? status := as_text (column row 6) in
          let? device_type := as_text (column row 5) in
          Value (Ok
            {| dr_device_id := device_id; dr_school_id := school_id;
               dr_school_name := school_name; dr_dcdw_label := dcdw_label;
               dr_model_version := model_version; dr_status := DeviceStatus status;
               dr_last_seen_at := last_seen; dr_latest_telemetry := telemetry;
               dr_telemetry_received_at := telemetry_received; dr_revision := 0;
               dr_device_type := DeviceTypeOf device_type; dr_capabilities := capabilities;
               dr_product := product; dr_version := version |})
      end
  end.

(** ** Reading a command *)
Definition CommandStatusText (status : CommandStatus) : string :=
  match status with
  | kPending => "pending" | kDispatched => "dispatched" | kInProgress => "in_progress"
  | kSucceeded => "succeeded" | kFailed => "failed" | kTimeout => "timeout"
  | kDeliveryUncertain => "delivery_uncertain"
  end.

Definition ParseCommandStatus (status : string) : expected CommandStatus string :=
  if String.eqb status "pending" then Ok kPending
  else if String.eqb status "dispatched" then Ok kDispatched
  else if String.eqb status "in_progress" then Ok kInProgress
  else if String.eqb status "succeeded" then Ok kSucceeded
  else if String.eqb status "failed" then Ok kFailed
  else if String.eqb status "timeout" then Ok kTimeout
  else if String.eqb status "delivery_uncertain" then Ok kDeliveryUncertain
  else Unexpected "读取 PostgreSQL 命令失败：状态不受支持".

Definition ParseCommandJson (field : Field) : attempt (expected json string) :=
  let? text := as_text field in
  match json_parse text with
  | Some value => Value (Ok value)
  | None => Value (Unexpected "读取 PostgreSQL 命令失败：JSON 无效")
  end.

(** The lambda [time]. *)
Definition command_time (row : Row) (index : nat) : attempt (expected TimePoint string) :=
  let? us := as_int64 (column row index) in Value (FromUnixMicroseconds us).

Definition optional_command_time (row : Row) (index : nat) :
    attempt (expected (option TimePoint) string) :=
  if is_null_field (column row index) then Value (Ok None)
  else let?! parsed := command_time row index in Value (Ok (Some parsed)).

Definition CommandFromRow (row : Row) : attempt (expected CommandRecord string) :=
  let? type_text := as_text (column row 1) in
  match ParseCommandType type_text with
  | Unexpected _ => Value (Unexpected "读取 PostgreSQL 命令失败：命令类型不受支持")
  | Ok type =>
      let? status_text := as_text (column row 6) in
      match ParseCommandStatus status_text with
      | Unexpected e => Value (Unexpected e)
      | Ok status =>
          let?! request := ParseCommandJson (column row 5) in
          let?! device_ack :=
            (if is_null_field (column row 9) then Value (Ok None)
             else let?! parsed := ParseCommandJson (column row 9) in Value (Ok (Some parsed))) in
          let? created := command_time row 10 in
          let? updated := command_time row 12 in
          match created, updated with
          | Ok created, Ok updated =>
              let?! dispatched := optional_command_time row 11 in
              let?! completed := optional_command_time row 13 in
              let? command_id := as_text (column row 0) in
              let? source_id := as_text (column row 2) in
              let? request_id := as_text (column row 3) in
              let? target := optional_text (column row 4) in
              let? error_code := optional_text (column row 7) in
              let? error_message := optional_text (column row 8) in
              Value (Ok
                {| c_command_id := command_id; c_command_type := type; c_source_id := source_id;
                   c_request_id := request_id; c_target_device_id := target;
                   c_request_payload := request; c_status := status;
                   c_error_code := error_code; c_error_message := error_message;
                   c_device_ack := device_ack; c_created_at := created;
                   c_dispatched_at := dispatched; c_updated_at := updated;
                   c_completed_at := completed |})
          | _, _ => Value (Unexpected "读取 PostgreSQL 命令失败：时间无效")
          end
      end
  end.

(** The loops over the rows of a result. *)
Fixpoint rows_map {A} (f : Row → attempt (expected A string)) (rows : list Row) :
    attempt (expected (list A) string) :=
  match rows with
  | [] => Value (Ok [])
  | row :: rest =>
      let?! a := f row in
      let?! l := rows_map f rest in
      Value (Ok (a :: l))
  end.

(** ** Plans of a device write *)
Record DeviceWritePlan := { update_metadata : bool; update_latest_state : bool }.
Definition PlanDeviceWrite (write_metadata write_status write_telemetry : bool) :
    DeviceWritePlan :=
  {| update_metadata := write_metadata; update_latest_state := write_status || write_telemetry |}.

Definition ValidateDeviceWrite (write : DesiredDeviceWrite) : expected unit string :=
  match dr_latest_telemetry (w_record write) with
  | Some telemetry =>
      if w_telemetry write && negb (is_object telemetry)
      then Unexpected "写入 PostgreSQL 设备状态失败：遥测必须为对象" else Ok tt
  | None => Ok tt
  end.

(** ** The database *)

(** The values bound to the parameters of the two command statements. *)
Record CommandParameters := {
  cp_command_id : string; cp_source_id : string; cp_request_id : string;
  cp_command_type : string; cp_target_device_id : option string; cp_request_payload : string;
  cp_status : string; cp_error_code : option string; cp_error_message : option string;
  cp_device_ack : option string; cp_created_at : Z; cp_dispatched_at : option Z;
  cp_updated_at : Z; cp_completed_at : option Z
}.

Inductive Statement :=
| BeginRead | BeginWork | Commit
| SelectMigrationTable | SelectMigrations
| MigrationScript (content : string) | InsertMigration (version : Z) (name : string)
| SelectDevices | SelectDevice (device_id : string)
| UpsertSchool (school_name : string)
| InsertDevice (device_id : string) (school_id : option Z) (dcdw_label : option string)
    (model_version device_type : string) (capabilities product version : option string)
| InsertDeviceState (device_id status : string) (last_seen : option Z)
| InsertDeviceSource (device_id : string)
| UpdateDevice (device_id : string) (dcdw_label capabilities product version : option string)
| UpdateDeviceState (device_id : string) (write_status : bool) (status : string)
    (last_seen : option Z) (write_telemetry : bool) (telemetry : option string)
    (telemetry_received : option Z)
| SelectSources | DisableSource (source_id : string) | UpsertSource (source_id kind : string)
| SelectSourcesOrdered
| SelectActiveCommands (limit : Z) | SelectActiveConfigCommands (limit : Z)
| RecoverControl (recovered_at limit : Z)
| SelectCommand (source_id request_id : string) | SelectCommandById (command_id : string)
| InsertCommandStatement (parameters : CommandParameters)
| UpdateCommand (command_id expected_ desired : string) (error_code error_message : option string)
    (device_ack : option string) (dispatched_at completed_at : option Z) (updated_at : Z)
| DeleteExpired (before batch_size : Z).

Inductive DatabaseReply := Rows (rows : list Row) | Fails (broken : bool).

(** The reply to the n-th call, whether the connection is open after n calls, whether
    the n-th attempt to connect succeeds, and the content of a file: not opened, not
    read, or its bytes. *)
Record DatabaseEnvironment := {
  db_reply : nat → Statement → DatabaseReply;
  db_open : nat → bool;
  db_connects : nat → bool;
  db_file : string → option (option string)
}.

(** What went to the database, with the exception it met, and to the information sink. *)
Inductive DatabaseEvent :=
| Executed (statement : Statement) (failure : option bool)
| Connected (description : string)
| Informed (message : string).

Record PostgresStore := {
  info_sink_ : bool;
  last_failure_kind_ : OperationFailureKind;
  calls : nat;
  trace : list DatabaseEvent
}.

#[export] Instance PostgresStore_members : Members PostgresStore := λ s,
  {| info_sink_ := info_sink_ s; last_failure_kind_ := last_failure_kind_ s; calls := calls s;
     trace := trace s |}.

Context (env : DatabaseEnvironment).

Definition IsOpen (s : PostgresStore) : bool := db_open env (calls s).
Definition LastOperationFailureKind (s : PostgresStore) : OperationFailureKind :=
  last_failure_kind_ s.

Definition inform (s : PostgresStore) (message : string) : PostgresStore :=
  if info_sink_ s then s <| trace := trace s ++ [Informed message] |> else s.

(** [Connect]; [n] calls were made before, on other connections. *)
Definition Connect (config : DatabaseConfig) (info_sink : bool) (n : nat)
    (before : list DatabaseEvent) : expected PostgresStore string :=
  let safe_description := BuildSafeConnectionDescription config in
  if db_connects env n then
    let store := {| info_sink_ := info_sink; last_failure_kind_ := kPermanent; calls := S n;
                    trace := before ++ [Connected safe_description] |} in
    Ok (inform store ("已连接 PostgreSQL：" +:+ safe_description))
  else Unexpected ("连接 PostgreSQL 失败：" +:+ safe_description).

Definition SetInfoSink (s : PostgresStore) (info_sink : bool) : PostgresStore :=
  s <| info_sink_ := info_sink |>.

(** ** Transactions: a computation on the database that may throw *)
Definition Db (A : Type) : Type := PostgresStore → attempt A * PostgresStore.
Definition db_ret {A} (a : A) : Db A := λ s, (Value a, s).
Definition db_bind {A B} (m : Db A) (f : A → Db B) : Db B := λ s,
  match m s with (Value a, s) => f a s | (Raised broken, s) => (Raised broken, s) end.
Definition db_lift {A} (a : attempt A) : Db A := λ s, (a, s).

Definition exec (statement : Statement) : Db (list Row) := λ s,
  let reply := db_reply env (calls s) statement in
  let s := s <| calls := S (calls s) |>
             <| trace := trace s ++
                  [Executed statement (match reply with Rows _ => None | Fails broken => Some broken end)] |> in
  match reply with Rows rows => (Value rows, s) | Fails broken => (Raised broken, s) end.

(** [.one_row()] throws on any other number of rows. *)
Definition one_row (statement : Statement) : Db Row :=
  db_bind (exec statement) (λ rows,
    match rows with [row] => db_ret row | _ => db_lift (Raised false) end).

#[local] Notation "'let+' x ':=' m 'in' k" := (db_bind m (λ x, k))
  (at level 10, x name, m at level 100, k at level 200).

(** A result with an error ends the block without a commit. *)
Definition or_return {A B} (m : Db (expected A string)) (f : A → Db (expected B string)) :
    Db (expected B string) :=
  db_bind m (λ r, match r with Ok a => f a | Unexpected e => db_ret (Unexpected e) end).
#[local] Notation "'let+!' x ':=' m 'in' k" := (or_return m (λ x, k))
  (at level 10, x name, m at level 100, k at level 200).

(** [try { ... } catch (broken_connection) { ... } catch (exception) { ... }] *)
Definition guarded {A} (message : string) (m : Db (expected A string)) (s : PostgresStore) :
    expected A string * PostgresStore :=
  match m s with
  | (Value r, s) => (r, s)
  | (Raised broken, s) =>
      (Unexpected message,
       s <| last_failure_kind_ := ClassifyOperationFailure (IsOpen s) broken |>)
  end.

(** The handlers that keep the failure kind. *)
Definition guarded_keep {A} (message : string) (m : Db (expected A string)) (s : PostgresStore) :
    expected A string * PostgresStore :=
  match m s with
  | (Value r, s) => (r, s)
  | (Raised _, s) => (Unexpected message, s)
  end.

Definition set_permanent (s : PostgresStore) : PostgresStore :=
  s <| last_failure_kind_ := kPermanent |>.

(** ** Migrations *)
Definition migration_row (row : Row) : attempt (expected AppliedMigration string) :=
  let? version := as_int (column row 0) in
  let? name := as_text (column row 1) in
  Value (Ok {| a_version := version; a_name := name |}).

Definition ReadAppliedMigrations : PostgresStore → expected (list AppliedMigration) string * PostgresStore :=
  guarded "读取 PostgreSQL 迁移版本失败"
    (let+ _ := exec BeginRead in
     let+ table := one_row SelectMigrationTable in
     if is_null_field (column table 0) then db_ret (Ok [])
     else
       let+ rows := exec SelectMigrations in
       db_lift (rows_map migration_row rows)).

Definition ApplyMigration (m : Migration) (s : PostgresStore) : expected unit string * PostgresStore :=
  match db_file env (file m) with
  | None | Some None => (Unexpected ("读取" +:+ MigrationContext m +:+ "文件失败"), s)
  | Some (Some content) =>
      guarded_keep ("执行" +:+ MigrationContext m +:+ "失败")
        (let+ _ := exec BeginWork in
         let+ _ := exec (MigrationScript content) in
         let+ _ := exec (InsertMigration (version m) (name m)) in
         let+ _ := exec Commit in
         (λ s, (Value (Ok tt), inform s ("已执行" +:+ MigrationContext m)))) s
  end.

(** ** Devices *)
Definition LoadDevices : PostgresStore → expected (list DeviceRecord) string * PostgresStore :=
  guarded_keep "读取 PostgreSQL 设备失败"
    (let+ _ := exec BeginRead in
     let+ rows := exec SelectDevices in
     db_lift (rows_map DeviceFromRow rows)).

Definition is_online (status : RegistrationStatus) : bool :=
  match status with kRegOnline => true | kRegOffline => false end.

(** The school is inserted only when the registration names one. *)
Definition upsert_school (school_name : option string) : Db (option Z) :=
  match school_name with
  | None => db_ret None
  | Some school =>
      let+ row := one_row (UpsertSchool school) in
      let+ id := db_lift (as_int64 (column row 0)) in
      db_ret (Some id)
  end.

Definition ProvisionDevice (registration : Registration) (received_at : TimePoint)
    (s : PostgresStore) : expected DeviceRecord string * PostgresStore :=
  let id := reg_device_id registration in
  let type := reg_device_type registration in
  match type, reg_school_name registration with
  | kCnsBox, None => (Unexpected "建档设备缺少学校", set_permanent s)
  | _, school_name =>
      guarded "PostgreSQL 设备建档失败"
        (let+ _ := exec BeginWork in
         let+ school_id := upsert_school school_name in
         let+ _ := exec (InsertDevice id school_id (reg_dcdw_label registration)
                           (match type with kFlightController => "PX4" | kCnsBox => "CNS v1.0" end)
                           (DeviceTypeText type) (CapabilitiesText (reg_capabilities registration))
                           (JsonText (reg_product registration))
                           (JsonText (reg_version registration))) in
         let online := is_online (reg_status registration) in
         let last_seen := if online then Some (ToUnixMicroseconds received_at) else None in
         let+ _ := exec (InsertDeviceState id (if online then "online" else "offline") last_seen) in
         let+ _ := exec (InsertDeviceSource id) in
         let+ actual := one_row (SelectDevice id) in
         let+! record := db_lift (DeviceFromRow actual) in
         let+ _ := exec Commit in
         db_ret (Ok record)) s
  end.

Definition update_device (record : DeviceRecord) : Statement :=
  UpdateDevice (dr_device_id record) (dr_dcdw_label record)
    (CapabilitiesText (dr_capabilities record)) (JsonText (dr_product record))
    (JsonText (dr_version record)).
Definition update_device_state (write : DesiredDeviceWrite) : Statement :=
  let record := w_record write in
  UpdateDeviceState (dr_device_id record) (w_status write) (DatabaseStatus (dr_status record))
    (ToUnixMicroseconds <$> dr_last_seen_at record) (w_telemetry write)
    (JsonText (dr_latest_telemetry record))
    (ToUnixMicroseconds <$> dr_telemetry_received_at record).

Definition exec_if (condition : bool) (statement : Statement) : Db unit :=
  if condition then let+ _ := exec statement in db_ret tt else db_ret tt.

Definition WriteDeviceState (write : DesiredDeviceWrite) (s : PostgresStore) :
    expected unit string * PostgresStore :=
  match ValidateDeviceWrite write with
  | Unexpected e => (Unexpected e, set_permanent s)
  | Ok _ =>
      let plan := PlanDeviceWrite (w_metadata write) (w_status write) (w_telemetry write) in
      if negb (update_metadata plan) && negb (update_latest_state plan) then (Ok tt, s)
      else
        guarded "写入 PostgreSQL 设备状态失败"
          (let+ _ := exec BeginWork in
           let+ _ := exec_if (update_metadata plan) (update_device (w_record write)) in
           let+ _ := exec_if (update_latest_state plan) (update_device_state write) in
           let+ _ := exec Commit in
           db_ret (Ok tt)) s
  end.

(** ** Command sources *)
Definition source_kind_text (kind : FixedSourceKind) : string :=
  match kind with kHostApp => "host_app" | kControlCenter => "control_center" end.

(** The first loop: the kinds by identifier; [emplace] keeps the first. *)
Fixpoint existing_kinds (rows : list Row) (kinds : gmap string string) :
    attempt (gmap string string) :=
  match rows with
  | [] => Value kinds
  | row :: rest =>
      let? id := as_text (column row 0) in
      let? kind := as_text (column row 1) in
      existing_kinds rest
        (match kinds !! id with Some _ => kinds | None => <[id := kind]> kinds end)
  end.

(** The second loop; [None] is a configured source the database knows as another kind. *)
Fixpoint configured_ids (sources : list FixedSourceConfig) (kinds : gmap string string)
    (ids : gset string) : option (gset string) :=
  match sources with
  | [] => Some ids
  | source :: rest =>
      let conflict :=
        match kinds !! fs_source_id source with
        | Some kind => negb (String.eqb kind (source_kind_text (fs_source_kind source)))
        | None => false
        end in
      if conflict then None
      else configured_ids rest kinds ({[fs_source_id source]} ∪ ids)
  end.

Fixpoint disable_others (rows : list Row) (ids : gset string) : Db unit :=
  match rows with
  | [] => db_ret tt
  | row :: rest =>
      let+ source_id := db_lift (as_text (column row 0)) in
      let+ kind := db_lift (as_text (column row 1)) in
      let+ _ := exec_if (negb (String.eqb kind "device") && negb (bool_decide (source_id ∈ ids)))
                  (DisableSource source_id) in
      disable_others rest ids
  end.

Fixpoint upsert_sources (sources : list FixedSourceConfig) : Db unit :=
  match sources with
  | [] => db_ret tt
  | source :: rest =>
      let+ _ := exec (UpsertSource (fs_source_id source) (source_kind_text (fs_source_kind source))) in
      upsert_sources rest
  end.

Definition ParseSourceKind (kind : string) : option SourceKind :=
  if String.eqb kind "device" then Some kDevice
  else if String.eqb kind "host_app" then Some CommandTypes.kHostApp
  else if String.eqb kind "control_center" then Some CommandTypes.kControlCenter
  else None.

(** The last loop; an unknown kind sets the failure kind. *)
Fixpoint read_sources (rows : list Row) : Db (expected (list CommandSource) string) :=
  match rows with
  | [] => db_ret (Ok [])
  | row :: rest =>
      let+ kind := db_lift (as_text (column row 1)) in
      match ParseSourceKind kind with
      | None => λ s, (Value (Unexpected "读取 PostgreSQL 命令来源失败：来源类型无效"), set_permanent s)
      | Some parsed_kind =>
          let+ id := db_lift (as_text (column row 0)) in
          let+ device := db_lift (optional_text (column row 2)) in
          let+ enabled := db_lift (as_bool (column row 3)) in
          let+! sources := read_sources rest in
          db_ret (Ok ({| s_source_id := id; s_kind := parsed_kind; s_device_id := device;
                         s_enabled := enabled |} :: sources))
      end
  end.

Definition SyncAndLoadCommandSources (configured_sources : list FixedSourceConfig) :
    PostgresStore → expected (list CommandSource) string * PostgresStore :=
  guarded "同步 PostgreSQL 命令来源失败"
    (let+ _ := exec BeginWork in
     let+ existing := exec SelectSources in
     let+ kinds := db_lift (existing_kinds existing ∅) in
     match configured_ids configured_sources kinds ∅ with
     | None => λ s, (Value (Unexpected "同步 PostgreSQL 命令来源失败：来源类型冲突"), set_permanent s)
     | Some ids =>
         let+ _ := disable_others existing ids in
         let+ _ := upsert_sources configured_sources in
         let+ rows := exec SelectSourcesOrdered in
         let+! sources := read_sources rows in
         let+ _ := exec Commit in
         db_ret (Ok sources)
     end).

(** ** Commands *)
Definition max_i64 : Z := 2 ^ 63 - 1.

Definition LoadActiveCommands (limit : Z) (s : PostgresStore) :
    expected (list CommandRecord) string * PostgresStore :=
  if max_i64 <? limit then (Unexpected "读取 PostgreSQL 活动命令失败：数量超出范围", s)
  else
    guarded "读取 PostgreSQL 活动命令失败"
      (let+ _ := exec BeginRead in
       let+ rows := exec (SelectActiveCommands limit) in
       db_lift (rows_map CommandFromRow rows)) s.

Definition LoadActiveConfigCommands (limit : Z) (s : PostgresStore) :
    expected (list CommandRecord) string * PostgresStore :=
  if max_i64 <? limit then (Unexpected "读取 PostgreSQL 活动命令失败：数量超出范围", s)
  else
    guarded "读取 PostgreSQL 活动命令失败"
      (let+ _ := exec BeginRead in
       let+ rows := exec (SelectActiveConfigCommands limit) in
       db_lift (rows_map CommandFromRow rows)) s.

Definition RecoverActiveControlCommands (recovered_at : TimePoint) (limit : Z) (s : PostgresStore) :
    expected (list CommandRecord) string * PostgresStore :=
  if max_i64 <? limit then (Unexpected "恢复 PostgreSQL 飞控命令失败：数量超出范围", s)
  else
    guarded "恢复 PostgreSQL 飞控命令失败"
      (let+ _ := exec BeginWork in
       let+ rows := exec (RecoverControl (ToUnixMicroseconds recovered_at) limit) in
       let+! commands := db_lift (rows_map CommandFromRow rows) in
       let+ _ := exec Commit in
       db_ret (Ok commands)) s.

(** The first row of a query for one command. *)
Definition first_command (rows : list Row) : attempt (expected (option CommandRecord) string) :=
  match rows with
  | [] => Value (Ok None)
  | row :: _ => let?! command := CommandFromRow row in Value (Ok (Some command))
  end.

Definition FindCommand (source_id request_id : string) :
    PostgresStore → expected (option CommandRecord) string * PostgresStore :=
  guarded "读取 PostgreSQL 命令失败"
    (let+ _ := exec BeginRead in
     let+ rows := exec (SelectCommand source_id request_id) in
     db_lift (first_command rows)).

Definition FindCommandById (command_id : string) :
    PostgresStore → expected (option CommandRecord) string * PostgresStore :=
  guarded "读取 PostgreSQL 命令失败"
    (let+ _ := exec BeginRead in
     let+ rows := exec (SelectCommandById command_id) in
     db_lift (first_command rows)).

Definition command_parameters (c : CommandRecord) : CommandParameters :=
  {| cp_command_id := c_command_id c; cp_source_id := c_source_id c;
     cp_request_id := c_request_id c; cp_command_type := CommandTypeText (c_command_type c);
     cp_target_device_id := c_target_device_id c;
     cp_request_payload := json_dump (c_request_payload c);
     cp_status := CommandStatusText (c_status c); cp_error_code := c_error_code c;
     cp_error_message := c_error_message c; cp_device_ack := JsonText (c_device_ack c);
     cp_created_at := ToUnixMicroseconds (c_created_at c);
     cp_dispatched_at := ToUnixMicroseconds <$> c_dispatched_at c;
     cp_updated_at := ToUnixMicroseconds (c_updated_at c);
     cp_completed_at := ToUnixMicroseconds <$> c_completed_at c |}.

Definition InsertCommand (command : CommandRecord) :
    PostgresStore → expected CommandRecord string * PostgresStore :=
  guarded "写入 PostgreSQL 命令失败"
    (let+ _ := exec BeginWork in
     let+ row := one_row (InsertCommandStatement (command_parameters command)) in
     let+! inserted := db_lift (CommandFromRow row) in
     let+ _ := exec Commit in
     db_ret (Ok inserted)).

Definition update_command (command_id : string) (expected_ desired : CommandStatus)
    (upd : CommandUpdate) : Statement :=
  UpdateCommand command_id (CommandStatusText expected_) (CommandStatusText desired)
    (u_error_code upd) (u_error_message upd) (JsonText (u_device_ack upd))
    (ToUnixMicroseconds <$> u_dispatched_at upd) (ToUnixMicroseconds <$> u_completed_at upd)
    (ToUnixMicroseconds (u_updated_at upd)).

Definition TransitionCommand (command_id : string) (expected_ desired : CommandStatus)
    (upd : CommandUpdate) (s : PostgresStore) : expected CommandRecord string * PostgresStore :=
  if negb (CanTransition expected_ desired) then
    (Unexpected "转换 PostgreSQL 命令状态失败：状态迁移非法", set_permanent s)
  else
    guarded "转换 PostgreSQL 命令状态失败"
      (let+ _ := exec BeginWork in
       let+ rows := exec (update_command command_id expected_ desired upd) in
       match rows with
       | [] => db_ret (Unexpected "转换 PostgreSQL 命令状态失败：状态已变化")
       | row :: _ =>
           let+! changed := db_lift (CommandFromRow row) in
           let+ _ := exec Commit in
           db_ret (Ok changed)
       end) s.

Definition DeleteExpiredTerminalCommands (before : TimePoint) (batch_size : Z) (s : PostgresStore) :
    expected Z string * PostgresStore :=
  if max_i64 <? batch_size then (Unexpected "清理 PostgreSQL 命令失败：数量超出范围", s)
  else
    guarded "清理 PostgreSQL 命令失败"
      (let+ _ := exec BeginWork in
       let+ rows := exec (DeleteExpired (ToUnixMicroseconds before) batch_size) in
       let+ _ := exec Commit in
       db_ret (Ok (Z.of_nat (length rows)))) s.

End Store.
