(* ===== verification/PostgresStoreFacts.v ===== *)
(** * PostgresStoreFacts: what the operations on the database keep

    Times in microseconds, connection parameters, transactions and failures, and the
    round trip of a command through its row. *)

From Stdlib Require Import Ascii ZArith Lia.
From S2P Require Import Prelude Json CommandTypes CommandState CommandRouter.
From S2P Require Import DeviceMessage DeviceRegistry DirtyState AppConfig Migration PostgresStore.
From stdpp Require Import options.

(** ** Times *)
Lemma To_From us t : FromUnixMicroseconds us = Ok t → ToUnixMicroseconds t = us.
Proof.
  unfold FromUnixMicroseconds, ToUnixMicroseconds. case_match; [done|]. intros [= <-].
  by rewrite Z.quot_mul.
Qed.

(** Every time point of the system clock is written and read back without overflow,
    rounded toward the epoch to its microsecond; a number of microseconds is read
    exactly when its time point fits, and is then written back unchanged. *)
Theorem microseconds_roundtrip t us :
  - 2 ^ 63 <= t < 2 ^ 63 →
  (∃ t', FromUnixMicroseconds (ToUnixMicroseconds t) = Ok t' ∧
     Z.abs t' <= Z.abs t ∧ Z.abs (t - t') < 1000 ∧ 0 <= t * t' ∧ - 2 ^ 63 <= t' < 2 ^ 63) ∧
  (is_ok (FromUnixMicroseconds us) = true ↔ - 2 ^ 63 <= us * 1000 < 2 ^ 63) ∧
  (∀ t', FromUnixMicroseconds us = Ok t' → t' = us * 1000 ∧ ToUnixMicroseconds t' = us).
Proof.
  intros Ht.
  assert (minimum_us = -9223372036854775) as Emin by reflexivity.
  assert (maximum_us = 9223372036854775) as Emax by reflexivity.
  pose proof (Z.quot_rem' t 1000) as Hq. pose proof (Z.rem_bound_abs t 1000) as Hr.
  assert (0 <= t ∧ 0 <= Z.rem t 1000 < 1000 ∧ 0 <= Z.quot t 1000 ∨
          t < 0 ∧ -1000 < Z.rem t 1000 <= 0 ∧ Z.quot t 1000 <= 0) as Hs.
  { destruct (Z.le_gt_cases 0 t); [left|right].
    - pose proof (Z.rem_nonneg t 1000). pose proof (Z.quot_pos t 1000). lia.
    - pose proof (Z.rem_nonpos t 1000). lia. }
  split_and!.
  - unfold FromUnixMicroseconds, ToUnixMicroseconds. rewrite Emin, Emax.
    set (q := Z.quot t 1000) in *. set (r := Z.rem t 1000) in *.
    assert (-9223372036854775 <= q <= 9223372036854775) by lia.
    destruct (_ || _) eqn:E; [apply orb_true_iff in E; rewrite !Z.ltb_lt in E; lia|].
    exists (q * 1000). split_and!; try done; first [lia | nia].
  - unfold FromUnixMicroseconds. rewrite Emin, Emax.
    destruct (_ || _) eqn:E; cbn;
      [apply orb_true_iff in E; rewrite !Z.ltb_lt in E|apply orb_false_iff in E; rewrite !Z.ltb_ge in E];
      split; intros; try done; lia.
  - intros t' H. pose proof (To_From _ _ H). unfold FromUnixMicroseconds in H.
    case_match; by simplify_eq.
Qed.

Lemma microseconds_roundtrip_witness :
  (- 2 ^ 63 <= -1500 < 2 ^ 63) ∧
  ∃ t', FromUnixMicroseconds (ToUnixMicroseconds (-1500)) = Ok t' ∧ Z.abs t' <= 1500.
Proof.
  split; [lia|]. destruct (microseconds_roundtrip (-1500) 7) as [(t' & H1 & H2 & _) _]; [lia|].
  by exists t'.
Defined.

(** ** Connection parameters *)
Lemma quote_chars_prefix a : ∀ b r r',
  quote_chars a +:+ String "'" r = quote_chars b +:+ String "'" r' → a = b ∧ r = r'.
Proof.
  induction a as [|c a IH]; intros [|d b] r r' H; cbn in H.
  - by simplify_eq.
  - exfalso. destruct (Ascii.eqb d "\" || Ascii.eqb d "'") eqn:E; simplify_eq/=.
  - exfalso. destruct (Ascii.eqb c "\" || Ascii.eqb c "'") eqn:E; simplify_eq/=.
  - destruct (Ascii.eqb c "\" || Ascii.eqb c "'") eqn:Ec;
      destruct (Ascii.eqb d "\" || Ascii.eqb d "'") eqn:Ed; cbn in H.
    + injection H as -> H. by destruct (IH _ _ _ H) as [-> ->].
    + injection H as <- H. done.
    + injection H as -> H. done.
    + injection H as -> H. by destruct (IH _ _ _ H) as [-> ->].
Qed.

Lemma ConnectionParameter_prefix name a b r r' :
  ConnectionParameter name a +:+ r = ConnectionParameter name b +:+ r' → a = b ∧ r = r'.
Proof.
  unfold ConnectionParameter, QuoteConnectionValue. intros H.
  rewrite !str_app_assoc in H. apply (inj (String.append name)) in H. cbn in H.
  injection H as H. rewrite !str_app_assoc in H. by apply quote_chars_prefix in H.
Qed.

Lemma ConnectionParameter_next name a b r r' :
  String " " (ConnectionParameter name a +:+ r) = String " " (ConnectionParameter name b +:+ r') →
  a = b ∧ r = r'.
Proof.
  intros H. apply (f_equal (λ s, match s with String _ s => s | _ => s end)) in H.
  by apply ConnectionParameter_prefix in H.
Qed.

(** Whatever the values contain, quotes, spaces or backslashes, two configurations with the same
    connection string agree on every parameter: a value cannot add or change a parameter. *)
Theorem connection_string_injective c d :
  0 <= db_port c < 10 ^ 20 → 0 <= db_port d < 10 ^ 20 →
  0 <= db_connect_timeout c < 10 ^ 20 → 0 <= db_connect_timeout d < 10 ^ 20 →
  BuildConnectionString c = BuildConnectionString d →
  db_host c = db_host d ∧ db_port c = db_port d ∧ db_name c = db_name d ∧
  db_user c = db_user d ∧ db_password c = db_password d ∧
  db_connect_timeout c = db_connect_timeout d.
Proof.
  intros H1 H2 H3 H4 H. unfold BuildConnectionString, BuildSafeConnectionDescription in H.
  repeat rewrite ?str_app_assoc, ?app_String in H.
  apply ConnectionParameter_prefix in H as [Eh H].
  apply ConnectionParameter_next in H as [Ep H]. apply ConnectionParameter_next in H as [En H].
  apply ConnectionParameter_next in H as [Eu H]. apply ConnectionParameter_next in H as [Ew H].
  rewrite <- (str_app_nil_r (ConnectionParameter _ (dec (db_connect_timeout c)))),
    <- (str_app_nil_r (ConnectionParameter _ (dec (db_connect_timeout d)))) in H.
  apply ConnectionParameter_next in H as [Et _].
  apply dec_inj in Ep, Et; done.
Qed.

Lemma connection_string_injective_witness :
  let c := {| db_host := "h' password='x"; db_port := 5432; db_name := "cns"; db_user := "u\";
              db_password := "p'"; db_connect_timeout := 5; db_reconnect_interval := 5 |} in
  db_password c = db_password c ∧ BuildConnectionString c = BuildConnectionString c.
Proof.
  intros c. split; [|reflexivity].
  refine (proj1 (proj2 (proj2 (proj2 (proj2 (connection_string_injective c c _ _ _ _ eq_refl)))))); 
    cbn; lia.
Defined.

(** ** Transactions *)
Definition statements (s : PostgresStore) : list (Statement * option bool) :=
  omap (λ e, match e with Executed st f => Some (st, f) | _ => None end) (trace s).

Section Transactions.
Context `{JL : JsonLib} (env : DatabaseEnvironment).

(** A conversion that throws is no broken connection. *)
Definition mild {A} (a : attempt A) : Prop := a ≠ Raised true.

(** The statements a step adds: all but the last succeeded, and if the last one failed
    the step raised its exception; only a statement raises a broken connection. *)
Definition adds {A} (r : attempt A) (s s' : PostgresStore) (ok : list Statement)
    (failed : list (Statement * option bool)) : Prop :=
  statements s' = statements s ++ (((λ st, (st, None)) <$> ok) ++ failed) ∧
  (failed = [] ∧ mild r ∨ ∃ st b, failed = [(st, Some b)] ∧ r = Raised b).

Definition keeps_kind {A} (r : attempt A) (s s' : PostgresStore) : Prop :=
  last_failure_kind_ s' = last_failure_kind_ s ∨ last_failure_kind_ s' = kPermanent.

(** A computation that does not commit. *)
Definition clean {A} (m : Db A) : Prop := ∀ s,
  ∃ ok failed, adds (m s).1 s (m s).2 ok failed ∧ Commit ∉ ok ∧ keeps_kind (m s).1 s (m s).2.

(** A block of an operation: it commits last, exactly when it returns a value
    ([commits]), or never. *)
Definition block {A} (commits : bool) (m : Db (expected A string)) : Prop := ∀ s,
  ∃ ok failed, adds (m s).1 s (m s).2 ok failed ∧ keeps_kind (m s).1 s (m s).2 ∧
    match (m s).1 with
    | Value (Ok _) =>
        failed = [] ∧
        if commits then ∃ pre, ok = pre ++ [Commit] ∧ Commit ∉ pre else Commit ∉ ok
    | _ => Commit ∉ ok
    end.

Lemma statements_exec s n st f :
  statements (s <| calls := n |> <| trace := trace s ++ [Executed st f] |>) =
  statements s ++ [(st, f)].
Proof. unfold statements. cbn. by rewrite omap_app. Qed.

Lemma clean_quiet {A} (a : attempt A) (f : PostgresStore → PostgresStore) :
  (∀ s, statements (f s) = statements s) →
  (∀ s, last_failure_kind_ (f s) = last_failure_kind_ s ∨ last_failure_kind_ (f s) = kPermanent) →
  mild a → clean (λ s, (a, f s)).
Proof.
  intros Hs Hk Ha s. exists [], []. cbn. split_and!; [split; [|by left]|set_solver|apply Hk].
  by rewrite Hs, app_nil_r.
Qed.
Lemma clean_ret {A} (a : A) : clean (db_ret a).
Proof. by apply (clean_quiet (Value a) id); [|left|]. Qed.
Lemma clean_lift {A} (a : attempt A) : mild a → clean (db_lift a).
Proof. intros. by apply (clean_quiet a id); [|left|]. Qed.
Lemma clean_exec st : st ≠ Commit → clean (exec env st).
Proof.
  intros Hst s. unfold exec. destruct (db_reply env (calls s) st) as [rows|broken]; cbn.
  - exists [st], []. split_and!; [split; [|by left]|set_solver|by left].
    etrans; [apply statements_exec|done].
  - exists [], [(st, Some broken)]. split_and!; [split|set_solver|by left].
    + apply statements_exec.
    + right. by exists st, broken.
Qed.

Lemma adds_trans {B} (r' : attempt B) s t u ok ok' failed' :
  statements t = statements s ++ ((λ st, (st, None)) <$> ok) → adds r' t u ok' failed' → adds r' s u (ok ++ ok') failed'.
Proof.
  intros H1 [H2 H3]. split; [|done]. by rewrite H2, H1, fmap_app, <- !app_assoc.
Qed.

Lemma clean_bind {A B} (m : Db A) (f : A → Db B) : clean m → (∀ a, clean (f a)) → clean (db_bind m f).
Proof.
  intros Hm Hf s. destruct (Hm s) as (ok & failed & [Ha Hr] & Hc & Hk). unfold db_bind.
  destruct (m s) as [[a|b] t]; cbn [fst snd] in *.
  - destruct Hr as [[-> _]|(? & ? & _ & ?)]; [|done]. rewrite app_nil_r in Ha.
    destruct (Hf a t) as (ok' & failed' & Ha' & Hc' & Hk').
    exists (ok ++ ok'), failed'. split_and!.
    + by eapply adds_trans.
    + set_solver.
    + unfold keeps_kind in *. destruct Hk' as [->|]; auto.
  - exists ok, failed. split_and!; [split; [done|]|done|done].
    destruct Hr as [[-> Hr]|(st & b' & -> & [= ->])]; [|right; eauto].
    left. split; [done|]. intros [= ->]. by apply Hr.
Qed.
Lemma clean_or_return {A B} (m : Db (expected A string)) (f : A → Db (expected B string)) :
  clean m → (∀ a, clean (f a)) → clean (or_return m f).
Proof. intros Hm Hf. apply clean_bind; [done|]. intros []; [apply Hf|apply clean_ret]. Qed.
Lemma clean_one_row st : st ≠ Commit → clean (one_row env st).
Proof.
  intros H. apply clean_bind; [by apply clean_exec|].
  intros [|row [|]]; [by apply clean_lift|apply clean_ret|by apply clean_lift].
Qed.
Lemma clean_exec_if c st : st ≠ Commit → clean (exec_if env c st).
Proof.
  intros H. unfold exec_if. case_match; [|apply clean_ret].
  apply clean_bind; [by apply clean_exec|intros; apply clean_ret].
Qed.

Lemma block_bind {A B} c (m : Db A) (f : A → Db (expected B string)) :
  clean m → (∀ a, block c (f a)) → block c (db_bind m f).
Proof.
  intros Hm Hf s. destruct (Hm s) as (ok & failed & [Ha Hr] & Hc & Hk). unfold db_bind.
  destruct (m s) as [[a|b] t]; cbn [fst snd] in *.
  - destruct Hr as [[-> _]|(? & ? & _ & ?)]; [|done]. rewrite app_nil_r in Ha.
    destruct (Hf a t) as (ok' & failed' & Ha' & Hk' & Hc').
    exists (ok ++ ok'), failed'. split_and!.
    + by eapply adds_trans.
    + unfold keeps_kind in *. destruct Hk' as [->|]; auto.
    + destruct (f a t) as [[[v|e]|b] u]; cbn [fst] in *; [|set_solver..].
      destruct Hc' as [-> Hc']. split; [done|]. destruct c; [|set_solver].
      destruct Hc' as (pre & -> & Hp). exists (ok ++ pre). split; [by rewrite app_assoc|set_solver].
  - exists ok, failed. split_and!; [split; [done|]|done|done].
    destruct Hr as [[-> Hr]|(st & b' & -> & [= ->])]; [|right; eauto].
    left. split; [done|]. intros [= ->]. by apply Hr.
Qed.
Lemma block_fail {A} c e : block (A:=A) c (db_ret (Unexpected e)).
Proof.
  intros s. exists [], []. cbn. split_and!; [split; [by rewrite app_nil_r|by left]|by left|set_solver].
Qed.
Lemma block_permanent {A} c e : block (A:=A) c (λ s, (Value (Unexpected e), set_permanent s)).
Proof.
  intros s. exists [], []. cbn.
  split_and!; [split; [by rewrite app_nil_r|by left]|by right|set_solver].
Qed.
Lemma block_or_return {A B} c (m : Db (expected A string)) (f : A → Db (expected B string)) :
  clean m → (∀ a, block c (f a)) → block c (or_return m f).
Proof. intros Hm Hf. apply block_bind; [done|]. intros []; [apply Hf|apply block_fail]. Qed.
Lemma block_lift {A} (a : attempt (expected A string)) : mild a → block false (db_lift a).
Proof.
  intros Ha s. exists [], []. cbn.
  split_and!; [split; [by rewrite app_nil_r|by left]|by left|].
  destruct a as [[]|]; [split; [done|]|..]; set_solver.
Qed.
Lemma block_ret {A} (a : A) : block false (db_ret (Ok a)).
Proof. by apply (block_lift (Value (Ok a))). Qed.
Lemma block_commit {A} (a : A) :
  block true (db_bind (exec env Commit) (λ _, db_ret (Ok a))).
Proof.
  intros s. unfold db_bind, exec. destruct (db_reply env (calls s) Commit) as [rows|broken]; cbn.
  - exists [Commit], []. split_and!; [split; [|by left]|by left|done|].
    + etrans; [apply statements_exec|done].
    + exists []. split; [done|set_solver].
  - exists [], [(Commit, Some broken)]. split_and!; [split|by left|set_solver].
    + apply statements_exec.
    + right. by exists Commit, broken.
Qed.

(** *** Conversions never raise a broken connection *)
Lemma mild_value {A} (a : A) : mild (Value a).
Proof. done. Qed.
Lemma mild_raised {A} : mild (A:=A) (Raised false).
Proof. done. Qed.
Lemma mild_bind {A B} (a : attempt A) (f : A → attempt B) :
  mild a → (∀ x, mild (f x)) → mild (let? x := a in f x).
Proof. intros Ha Hf. destruct a as [x|[]]; [apply Hf|done|done]. Qed.
Lemma mild_bind_ok {A B} (a : attempt (expected A string)) (f : A → attempt (expected B string)) :
  mild a → (∀ x, mild (f x)) → mild (let?! x := a in f x).
Proof. intros Ha Hf. destruct a as [[x|e]|[]]; [apply Hf|done..]. Qed.
Ltac mild_cases :=
  repeat first
    [ apply mild_value | apply mild_raised | solve [auto with mild]
    | apply mild_bind; [|intros ?] | apply mild_bind_ok; [|intros ?] | case_match ].
Create HintDb mild.
Lemma mild_as_text f : mild (as_text f).
Proof. unfold as_text. mild_cases. Qed.
Lemma mild_as_int64 f : mild (as_int64 f).
Proof. unfold as_int64. mild_cases. Qed.
Lemma mild_as_int f : mild (as_int f).
Proof. unfold as_int. mild_cases. Qed.
Lemma mild_as_bool f : mild (as_bool f).
Proof. unfold as_bool. mild_cases. Qed.
#[local] Hint Resolve mild_as_text mild_as_int64 mild_as_int mild_as_bool : mild.
Lemma mild_optional_text f : mild (optional_text f).
Proof. unfold optional_text. mild_cases. Qed.
Lemma mild_optional_time f : mild (optional_time f).
Proof. unfold optional_time. mild_cases. Qed.
Lemma mild_OptionalJson f n r : mild (OptionalJson f n r).
Proof. unfold OptionalJson. mild_cases. Qed.
#[local] Hint Resolve mild_optional_text mild_optional_time mild_OptionalJson : mild.
Lemma mild_Capabilities f : mild (CapabilitiesFromField f).
Proof. unfold CapabilitiesFromField. mild_cases. Qed.
#[local] Hint Resolve mild_Capabilities : mild.
Lemma mild_DeviceFromRow row : mild (DeviceFromRow row).
Proof. unfold DeviceFromRow. mild_cases. Qed.
Lemma mild_ParseCommandJson f : mild (ParseCommandJson f).
Proof. unfold ParseCommandJson. mild_cases. Qed.
Lemma mild_command_time row i : mild (command_time row i).
Proof. unfold command_time. mild_cases. Qed.
#[local] Hint Resolve mild_ParseCommandJson mild_command_time : mild.
Lemma mild_optional_command_time row i : mild (optional_command_time row i).
Proof. unfold optional_command_time. mild_cases. Qed.
#[local] Hint Resolve mild_optional_command_time : mild.
Lemma mild_CommandFromRow row : mild (CommandFromRow row).
Proof. unfold CommandFromRow. mild_cases. Qed.
Lemma mild_migration_row row : mild (migration_row row).
Proof. unfold migration_row. mild_cases. Qed.
#[local] Hint Resolve mild_DeviceFromRow mild_CommandFromRow mild_migration_row : mild.
Lemma mild_rows_map {A} (f : list Field → attempt (expected A string)) rows :
  (∀ row, mild (f row)) → mild (rows_map f rows).
Proof. intros Hf. induction rows as [|row rest IH]; cbn [rows_map]; mild_cases. Qed.
Lemma mild_first_command rows : mild (first_command rows).
Proof. unfold first_command. mild_cases. Qed.
Lemma mild_existing_kinds rows : ∀ kinds, mild (existing_kinds rows kinds).
Proof. induction rows as [|row rest IH]; intros kinds; cbn [existing_kinds]; mild_cases. Qed.
#[local] Hint Resolve mild_rows_map mild_first_command mild_existing_kinds : mild.

(** *** The blocks of the operations *)
Ltac clean_cases :=
  repeat first
    [ apply clean_ret | apply clean_lift; solve [auto with mild] | apply clean_exec; discriminate
    | apply clean_one_row; discriminate | apply clean_exec_if; discriminate
    | apply clean_or_return; [|intros ?] | apply clean_bind; [|intros ?] ].
Ltac block_cases :=
  repeat first
    [ apply block_commit | apply block_fail | apply block_permanent | apply block_ret
    | apply block_lift; solve [auto with mild]
    | apply block_or_return; [solve [clean_cases; auto with mild]|intros ?]
    | apply block_bind; [solve [clean_cases; auto with mild]|intros ?] ].

Lemma clean_upsert_school school : clean (upsert_school env school).
Proof. unfold upsert_school. case_match; clean_cases. Qed.
Lemma clean_disable_others ids rows : clean (disable_others env rows ids).
Proof. induction rows as [|row rest IH]; cbn [disable_others]; clean_cases; done. Qed.
Lemma clean_upsert_sources sources : clean (upsert_sources env sources).
Proof. induction sources as [|source rest IH]; cbn [upsert_sources]; clean_cases; done. Qed.
Lemma clean_read_sources rows : clean (read_sources rows).
Proof.
  induction rows as [|row rest IH]; cbn [read_sources]; clean_cases.
  case_match; [clean_cases; done|]. by apply clean_quiet; [|right|].
Qed.
#[local] Hint Resolve clean_upsert_school clean_disable_others clean_upsert_sources
  clean_read_sources : mild.

(** *** The operations *)
Inductive StoreOperation :=
| OpReadAppliedMigrations | OpApplyMigration (m : Migration) | OpLoadDevices
| OpProvisionDevice (registration : Registration) (received_at : TimePoint)
| OpWriteDeviceState (write : DesiredDeviceWrite)
| OpSyncAndLoadCommandSources (sources : list FixedSourceConfig)
| OpLoadActiveCommands (limit : Z) | OpLoadActiveConfigCommands (limit : Z)
| OpRecoverActiveControlCommands (recovered_at : TimePoint) (limit : Z)
| OpFindCommand (source_id request_id : string) | OpFindCommandById (command_id : string)
| OpInsertCommand (command : CommandRecord)
| OpTransitionCommand (command_id : string) (expected_ desired : CommandStatus) (upd : CommandUpdate)
| OpDeleteExpiredTerminalCommands (before : TimePoint) (batch_size : Z).

Definition outcome_of {A} (r : expected A string * PostgresStore) : bool * PostgresStore :=
  (is_ok r.1, r.2).
Definition run_operation (op : StoreOperation) (s : PostgresStore) : bool * PostgresStore :=
  match op with
  | OpReadAppliedMigrations => outcome_of (ReadAppliedMigrations env s)
  | OpApplyMigration m => outcome_of (ApplyMigration env m s)
  | OpLoadDevices => outcome_of (LoadDevices env s)
  | OpProvisionDevice r at_ => outcome_of (ProvisionDevice env r at_ s)
  | OpWriteDeviceState w => outcome_of (WriteDeviceState env w s)
  | OpSyncAndLoadCommandSources l => outcome_of (SyncAndLoadCommandSources env l s)
  | OpLoadActiveCommands n => outcome_of (LoadActiveCommands env n s)
  | OpLoadActiveConfigCommands n => outcome_of (LoadActiveConfigCommands env n s)
  | OpRecoverActiveControlCommands t n => outcome_of (RecoverActiveControlCommands env t n s)
  | OpFindCommand a b => outcome_of (FindCommand env a b s)
  | OpFindCommandById a => outcome_of (FindCommandById env a s)
  | OpInsertCommand c => outcome_of (InsertCommand env c s)
  | OpTransitionCommand a e d u => outcome_of (TransitionCommand env a e d u s)
  | OpDeleteExpiredTerminalCommands t n => outcome_of (DeleteExpiredTerminalCommands env t n s)
  end.

(** What an operation that succeeds has executed, statement by statement. *)
Definition provisioning (r : Registration) (at_ : TimePoint) (school_id : option Z) : list Statement :=
  let id := reg_device_id r in
  let online := match reg_status r with kRegOnline => true | kRegOffline => false end in
  [BeginWork] ++ (match reg_school_name r with Some school => [UpsertSchool school] | None => [] end) ++
  [InsertDevice id school_id (reg_dcdw_label r)
     (match reg_device_type r with kFlightController => "PX4" | kCnsBox => "CNS v1.0" end)
     (DeviceTypeText (reg_device_type r)) (CapabilitiesText (reg_capabilities r))
     (JsonText (reg_product r)) (JsonText (reg_version r));
   InsertDeviceState id (if online then "online" else "offline")
     (if online then Some (ToUnixMicroseconds at_) else None);
   InsertDeviceSource id; SelectDevice id; Commit].

Definition updates (w : DesiredDeviceWrite) : list Statement :=
  (if w_metadata w then [update_device (w_record w)] else []) ++
  (if w_status w || w_telemetry w then [update_device_state w] else []).

Definition transaction (op : StoreOperation) (executed : list Statement) : Prop :=
  match op with
  | OpReadAppliedMigrations =>
      executed = [BeginRead; SelectMigrationTable] ∨
      executed = [BeginRead; SelectMigrationTable; SelectMigrations]
  | OpApplyMigration m =>
      ∃ content, db_file env (file m) = Some (Some content) ∧
        executed = [BeginWork; MigrationScript content; InsertMigration (version m) (name m); Commit]
  | OpLoadDevices => executed = [BeginRead; SelectDevices]
  | OpProvisionDevice r at_ =>
      ∃ school_id, executed = provisioning r at_ school_id ∧
        (is_Some school_id ↔ is_Some (reg_school_name r))
  | OpWriteDeviceState w =>
      executed = match updates w with [] => [] | l => BeginWork :: l ++ [Commit] end
  | OpSyncAndLoadCommandSources sources =>
      ∃ disabled, executed =
        [BeginWork; SelectSources] ++ (DisableSource <$> disabled) ++
        ((λ source, UpsertSource (fs_source_id source) (source_kind_text (fs_source_kind source)))
           <$> sources) ++ [SelectSourcesOrdered; Commit]
  | OpLoadActiveCommands n => executed = [BeginRead; SelectActiveCommands n]
  | OpLoadActiveConfigCommands n => executed = [BeginRead; SelectActiveConfigCommands n]
  | OpRecoverActiveControlCommands t n =>
      executed = [BeginWork; RecoverControl (ToUnixMicroseconds t) n; Commit]
  | OpFindCommand a b => executed = [BeginRead; SelectCommand a b]
  | OpFindCommandById a => executed = [BeginRead; SelectCommandById a]
  | OpInsertCommand c =>
      executed = [BeginWork; InsertCommandStatement (command_parameters c); Commit]
  | OpTransitionCommand a e d u => executed = [BeginWork; update_command a e d u; Commit]
  | OpDeleteExpiredTerminalCommands t n =>
      executed = [BeginWork; DeleteExpired (ToUnixMicroseconds t) n; Commit]
  end.

Definition changes_database (op : StoreOperation) : bool :=
  match op with
  | OpReadAppliedMigrations | OpLoadDevices | OpLoadActiveCommands _ | OpLoadActiveConfigCommands _
  | OpFindCommand _ _ | OpFindCommandById _ => false
  | _ => true
  end.

(** The operations the worker does not run keep the kind of the last failure. *)
Definition classifies (op : StoreOperation) : bool :=
  match op with OpApplyMigration _ | OpLoadDevices => false | _ => true end.

(** How an operation ends: the statements it sent, in order. *)
Definition failure_kept (kind : bool) (s s' : PostgresStore)
    (failed : list (Statement * option bool)) : Prop :=
  if kind then
    match failed with
    | [] => keeps_kind (Value tt) s s' ∨
            last_failure_kind_ s' = ClassifyOperationFailure (IsOpen env s') false
    | [(_, Some broken)] => last_failure_kind_ s' = ClassifyOperationFailure (IsOpen env s') broken
    | _ => False
    end
  else last_failure_kind_ s' = last_failure_kind_ s ∧
       match failed with [] | [(_, Some _)] => True | _ => False end.

Definition operation_ends (op : StoreOperation) (s : PostgresStore) (r : bool * PostgresStore) : Prop :=
  let '(succeeded, s') := r in
  ∃ ok failed,
    statements s' = statements s ++ (((λ st, (st, None)) <$> ok) ++ failed) ∧
    (* it succeeded: nothing failed, and its statements were executed, all of them *)
    (succeeded = true → failed = [] ∧ keeps_kind (Value tt) s s' ∧ transaction op ok) ∧
    (* it failed: no commit was confirmed, and the kind of the failure is known *)
    (succeeded = false → Commit ∉ ok ∧ failure_kept (classifies op) s s' failed).

(** *** A failure commits nothing *)
Definition fails_cleanly (kind : bool) (s : PostgresStore) (r : bool * PostgresStore) : Prop :=
  if r.1 then keeps_kind (Value tt) s r.2
  else ∃ ok failed,
    statements r.2 = statements s ++ (((λ st, (st, None)) <$> ok) ++ failed) ∧
    Commit ∉ ok ∧ failure_kept kind s r.2 failed.

Lemma guarded_fails {A} c message (m : Db (expected A string)) s :
  block c m → fails_cleanly true s (outcome_of (guarded env message m s)).
Proof.
  intros Hm. destruct (Hm s) as (ok & failed & [Ha Hr] & Hk & Hc).
  unfold guarded, outcome_of, fails_cleanly. destruct (m s) as [[[v|e]|broken] t]; cbn [fst snd is_ok] in *.
  - exact Hk.
  - exists ok, failed. split_and!; [done|done|].
    destruct Hr as [[-> _]|(st & b & _ & ?)]; [by left|done].
  - exists ok, failed. split_and!; [done|done|].
    destruct Hr as [[-> Hb]|(st & b & -> & [= ->])]; [|done].
    right. destruct broken; [by destruct Hb|done].
Qed.

Lemma early_fails {A} kind (e : string) s :
  fails_cleanly kind s (outcome_of (Unexpected (T:=A) e, s)) ∧
  fails_cleanly true s (outcome_of (Unexpected (T:=A) e, set_permanent s)).
Proof.
  split; exists [], []; cbn; rewrite app_nil_r; (split; [done|]; split; [set_solver|]).
  - destruct kind; [left; by left|done].
  - left. by right.
Qed.

(** The statements of a store, one call later. *)
Lemma statements_call s n st f :
  statements (s <| calls := n |> <| trace := trace s ++ [Executed st f] |>) = statements s ++ [(st, f)].
Proof. apply statements_exec. Qed.
Lemma statements_inform s message : statements (inform s message) = statements s.
Proof. unfold inform, statements. case_match; [|done]. cbn. by rewrite omap_app, app_nil_r. Qed.

(** The two operations that keep the kind of the last failure. *)
Ltac calls_made :=
  repeat first [rewrite statements_inform | rewrite statements_exec]; rewrite <- ?app_assoc; reflexivity.
Lemma LoadDevices_fails s : fails_cleanly false s (outcome_of (LoadDevices env s)).
Proof.
  unfold LoadDevices, guarded_keep, db_bind, exec, db_lift, fails_cleanly, outcome_of.
  destruct (db_reply env (calls s) BeginRead) as [r0|b0]; cbn [fst snd is_ok calls];
    [|exists [], [(BeginRead, Some b0)]; split_and!; [calls_made|set_solver|by split]].
  set (s1 := s <| calls := _ |> <| trace := _ |>). change (calls s1) with (S (calls s)).
  destruct (db_reply env _ SelectDevices) as [rows|b1]; cbn [fst snd is_ok];
    [|exists [BeginRead], [(SelectDevices, Some b1)]; unfold s1;
      split_and!; [calls_made|set_solver|by split]].
  destruct (rows_map DeviceFromRow rows) as [[v|e]|b]; cbn [fst snd is_ok]; [by left|..];
    exists [BeginRead; SelectDevices], []; unfold s1; split_and!; first [calls_made|set_solver|by split].
Qed.
Lemma ApplyMigration_fails m s : fails_cleanly false s (outcome_of (ApplyMigration env m s)).
Proof.
  unfold ApplyMigration. destruct (db_file env (file m)) as [[content|]|]; [|eapply (early_fails false)..].
  unfold guarded_keep, db_bind, exec, fails_cleanly, outcome_of.
  destruct (db_reply env (calls s) BeginWork) as [r0|b]; cbn [fst snd is_ok calls];
    [|exists [], [(BeginWork, Some b)]; split_and!; [calls_made|set_solver|by split]].
  destruct (db_reply env _ (MigrationScript content)) as [r1|b]; cbn [fst snd is_ok calls];
    [|exists [BeginWork], [(MigrationScript content, Some b)]; split_and!; [calls_made|set_solver|by split]].
  destruct (db_reply env _ (InsertMigration _ _)) as [r2|b]; cbn [fst snd is_ok calls];
    [|exists [BeginWork; MigrationScript content], [(InsertMigration (version m) (name m), Some b)];
      split_and!; [calls_made|set_solver|by split]].
  destruct (db_reply env _ Commit) as [r3|b]; cbn [fst snd is_ok calls];
    [|exists [BeginWork; MigrationScript content; InsertMigration (version m) (name m)], [(Commit, Some b)];
      split_and!; [calls_made|set_solver|by split]].
  left. unfold inform. by case_match.
Qed.

(** *** A success executes the whole transaction *)
Lemma bind_value {A B} (m : Db A) (f : A → Db B) s b u :
  db_bind m f s = (Value b, u) → ∃ a t, m s = (Value a, t) ∧ f a t = (Value b, u).
Proof. unfold db_bind. destruct (m s) as [[a|] t]; [|done]. intros H. by exists a, t. Qed.
Lemma or_return_value {A B} (m : Db (expected A string)) (f : A → Db (expected B string)) s b u :
  or_return m f s = (Value (Ok b), u) → ∃ a t, m s = (Value (Ok a), t) ∧ f a t = (Value (Ok b), u).
Proof. intros ([a|e] & t & H1 & H2)%bind_value; [by exists a, t|done]. Qed.
Lemma exec_value st s rows t :
  exec env st s = (Value rows, t) → statements t = statements s ++ [(st, None)].
Proof. unfold exec. destruct (db_reply env (calls s) st); [|done]. intros [= _ <-]. apply statements_exec. Qed.
Lemma one_row_value st s row t :
  one_row env st s = (Value row, t) → statements t = statements s ++ [(st, None)].
Proof.
  intros (rows & u & H1%exec_value & H2)%bind_value. destruct rows as [|r [|]]; [done| |done].
  by injection H2 as _ <-.
Qed.
Lemma exec_if_value c st s v t :
  exec_if env c st s = (Value v, t) → statements t = statements s ++ (if c then [(st, None)] else []).
Proof.
  unfold exec_if. destruct c; [|intros [= _ <-]; by rewrite app_nil_r].
  intros (rows & u & H1%exec_value & [= _ <-])%bind_value. exact H1.
Qed.
Lemma lift_value {A} (a : attempt A) s v t : db_lift a s = (Value v, t) → t = s.
Proof. by intros [= _ <-]. Qed.

(** A computation that succeeded, from one store to the next. *)
Ltac values :=
  repeat match goal with
    | H : db_bind _ _ _ = (Value _, _) |- _ => apply bind_value in H as (? & ? & ? & H)
    | H : or_return _ _ _ = (Value (Ok _), _) |- _ => apply or_return_value in H as (? & ? & ? & H)
    | H : exec env _ _ = (Value _, _) |- _ => apply exec_value in H
    | H : one_row env _ _ = (Value _, _) |- _ => apply one_row_value in H
    | H : exec_if env _ _ _ = (Value _, _) |- _ => apply exec_if_value in H
    | H : db_lift _ _ = (Value _, _) |- _ => apply lift_value in H; subst
    | H : db_ret _ _ = (Value _, _) |- _ => injection H as ?; subst
    end.
Ltac chain :=
  repeat match goal with H : statements ?t = _ |- context [statements ?t] => rewrite H; clear H end;
  rewrite <- ?app_assoc; reflexivity.

Lemma guarded_value {A} message (m : Db (expected A string)) s u :
  outcome_of (guarded env message m s) = (true, u) → ∃ v, m s = (Value (Ok v), u).
Proof.
  unfold guarded, outcome_of. destruct (m s) as [[[v|e]|] t]; cbn; try done. intros [= <-]. by exists v.
Qed.
Lemma guarded_keep_value {A} message (m : Db (expected A string)) s u :
  outcome_of (guarded_keep message m s) = (true, u) → ∃ v, m s = (Value (Ok v), u).
Proof.
  unfold guarded_keep, outcome_of. destruct (m s) as [[[v|e]|] t]; cbn; try done. intros [= <-]. by exists v.
Qed.

Lemma disable_others_value ids rows : ∀ s t,
  disable_others env rows ids s = (Value tt, t) →
  ∃ disabled, statements t = statements s ++ ((λ st, (st, None)) <$> (DisableSource <$> disabled)).
Proof.
  induction rows as [|row rest IH]; intros s t H; cbn [disable_others] in H; values.
  { exists []. by rewrite app_nil_r. }
  apply IH in H as [disabled H].
  destruct (negb _ && negb _).
  - eexists (_ :: disabled). cbn [fmap list_fmap]. chain.
  - exists disabled. rewrite app_nil_r in *. chain.
Qed.
Lemma upsert_sources_value sources : ∀ s t,
  upsert_sources env sources s = (Value tt, t) →
  statements t = statements s ++ ((λ st, (st, None)) <$>
    ((λ source, UpsertSource (fs_source_id source) (source_kind_text (fs_source_kind source))) <$> sources)).
Proof.
  induction sources as [|source rest IH]; intros s t H; cbn [upsert_sources] in H; values.
  { by rewrite app_nil_r. }
  apply IH in H. cbn [fmap list_fmap]. chain.
Qed.
Lemma read_sources_value rows : ∀ s l t,
  read_sources rows s = (Value (Ok l), t) → statements t = statements s.
Proof.
  induction rows as [|row rest IH]; intros s l t H; cbn [read_sources] in H; values; [done|].
  destruct (ParseSourceKind _); [|done]. values. by eapply IH.
Qed.

Lemma WriteDeviceState_executes w s u :
  outcome_of (WriteDeviceState env w s) = (true, u) →
  ∃ ok, statements u = statements s ++ ((λ st, (st, None)) <$> ok) ∧ transaction (OpWriteDeviceState w) ok.
Proof.
  unfold WriteDeviceState, transaction, updates, PlanDeviceWrite. destruct (ValidateDeviceWrite w); [|done].
  cbn [update_metadata update_latest_state]. destruct (w_metadata w), (w_status w || w_telemetry w); cbn [negb andb app];
    intros H; try apply guarded_value in H as [v H]; values; cbn [app] in *; rewrite ?app_nil_r in *.
  1-3: eexists; split; [|reflexivity]; chain.
  exists []. injection H as <-. by rewrite app_nil_r.
Qed.

Lemma upsert_school_value name s school_id t :
  upsert_school env name s = (Value school_id, t) →
  statements t = statements s ++
    ((λ st, (st, None)) <$> match name with Some school => [UpsertSchool school] | None => [] end) ∧
  (is_Some school_id ↔ is_Some name).
Proof.
  unfold upsert_school. destruct name as [school|]; intros H; values.
  - split; [done|]. split; intros _; by eexists.
  - rewrite app_nil_r. done.
Qed.

Lemma ProvisionDevice_executes r at_ s u :
  outcome_of (ProvisionDevice env r at_ s) = (true, u) →
  ∃ ok, statements u = statements s ++ ((λ st, (st, None)) <$> ok) ∧ transaction (OpProvisionDevice r at_) ok.
Proof.
  unfold ProvisionDevice, transaction, provisioning. intros H.
  destruct (reg_device_type r), (reg_school_name r) eqn:En; try done;
    apply guarded_value in H as [v H]; values;
    match goal with H : upsert_school _ _ _ = (Value ?i, _) |- _ =>
      apply upsert_school_value in H as [Hs Hi]; eexists; split; [|exists i; split; [reflexivity|exact Hi]] end;
    rewrite ?fmap_app; destruct (reg_status r); chain.
Qed.

Lemma SyncAndLoadCommandSources_executes sources s u :
  outcome_of (SyncAndLoadCommandSources env sources s) = (true, u) →
  ∃ ok, statements u = statements s ++ ((λ st, (st, None)) <$> ok) ∧
    transaction (OpSyncAndLoadCommandSources sources) ok.
Proof.
  unfold SyncAndLoadCommandSources. intros [v H]%guarded_value. values.
  destruct (configured_ids _ _ _); [|done]. values.
  repeat match goal with
    | H : disable_others _ _ _ _ = (Value ?x, _) |- _ => destruct x; apply disable_others_value in H as [disabled H]
    | H : upsert_sources _ _ _ = (Value ?x, _) |- _ => destruct x; apply upsert_sources_value in H
    | H : read_sources _ _ = (Value (Ok _), _) |- _ => apply read_sources_value in H
    end.
  eexists. split; [|exists disabled; reflexivity]. rewrite !fmap_app. chain.
Qed.

(** Operation by operation. *)
Lemma run_operation_executes op s u :
  run_operation op s = (true, u) →
  ∃ ok, statements u = statements s ++ ((λ st, (st, None)) <$> ok) ∧ transaction op ok.
Proof.
  destruct op; cbn [run_operation].
  - intros [v H]%guarded_value. values. case_match; values.
    + eexists. split; [|by left]. chain.
    + eexists. split; [|by right]. chain.
  - unfold ApplyMigration. destruct (db_file env (file m)) as [[content|]|] eqn:Ef; [|done..].
    intros [v H]%guarded_keep_value. values. injection H as _ <-. rewrite statements_inform.
    eexists. split; [|exists content; split; [exact Ef|reflexivity]]. chain.
  - intros [v H]%guarded_keep_value. values. eexists. split; [|reflexivity]. chain.
  - apply ProvisionDevice_executes.
  - apply WriteDeviceState_executes.
  - apply SyncAndLoadCommandSources_executes.
  - unfold LoadActiveCommands. case_match; [done|]. intros [v H']%guarded_value. values.
    eexists. split; [|reflexivity]. chain.
  - unfold LoadActiveConfigCommands. case_match; [done|]. intros [v H']%guarded_value. values.
    eexists. split; [|reflexivity]. chain.
  - unfold RecoverActiveControlCommands. case_match; [done|]. intros [v H']%guarded_value. values.
    eexists. split; [|reflexivity]. chain.
  - intros [v H]%guarded_value. values. eexists. split; [|reflexivity]. chain.
  - intros [v H]%guarded_value. values. eexists. split; [|reflexivity]. chain.
  - intros [v H]%guarded_value. values. eexists. split; [|reflexivity]. chain.
  - unfold TransitionCommand. case_match; [done|]. intros [v H']%guarded_value. values.
    case_match; values; [done|]. eexists. split; [|reflexivity]. chain.
  - unfold DeleteExpiredTerminalCommands. case_match; [done|]. intros [v H']%guarded_value. values.
    eexists. split; [|reflexivity]. chain.
Qed.

Lemma run_operation_fails op s : fails_cleanly (classifies op) s (run_operation op s).
Proof.
  destruct op; cbn [run_operation classifies].
  - eapply guarded_fails. block_cases. case_match; block_cases.
  - apply ApplyMigration_fails.
  - apply LoadDevices_fails.
  - unfold ProvisionDevice. case_match; [case_match; [|eapply (early_fails true)]|];
      eapply guarded_fails; block_cases.
  - unfold WriteDeviceState. case_match; [|eapply (early_fails true)]. cbv zeta. case_match; [by left|].
    eapply guarded_fails. block_cases.
  - eapply guarded_fails. block_cases. case_match; block_cases.
  - unfold LoadActiveCommands. case_match; [eapply (early_fails true)|]. eapply guarded_fails. block_cases.
  - unfold LoadActiveConfigCommands. case_match; [eapply (early_fails true)|]. eapply guarded_fails. block_cases.
  - unfold RecoverActiveControlCommands. case_match; [eapply (early_fails true)|]. eapply guarded_fails. block_cases.
  - eapply guarded_fails. block_cases.
  - eapply guarded_fails. block_cases.
  - eapply guarded_fails. block_cases.
  - unfold TransitionCommand. case_match; [eapply (early_fails true)|]. eapply guarded_fails. block_cases.
    case_match; block_cases.
  - unfold DeleteExpiredTerminalCommands. case_match; [eapply (early_fails true)|].
    eapply guarded_fails. block_cases.
Qed.

Lemma run_operation_ends op s : operation_ends op s (run_operation op s).
Proof.
  pose proof (run_operation_fails op s) as Hf. pose proof (run_operation_executes op s) as He.
  unfold operation_ends, fails_cleanly in *. destruct (run_operation op s) as [[] u]; cbn [fst snd] in *.
  - destruct (He u eq_refl) as (ok & Hs & Ht). exists ok, []. rewrite app_nil_r. by split_and!.
  - destruct Hf as (ok & failed & Hs & Hc & Hk). exists ok, failed. by split_and!.
Qed.


End Transactions.

(** ** A command through its row *)
Definition field_of (o : option string) : Field := match o with Some s => FText s | None => FNull end.
Definition time_field (o : option Z) : Field := match o with Some z => FInt z | None => FNull end.

(** The row a database returns for the values it was sent: the two documents are columns
    of type jsonb, and [jsonb_text] is how PostgreSQL writes such a document as text. *)
Definition command_row (jsonb_text : string → string) (p : CommandParameters) : list Field :=
  [FText (cp_command_id p); FText (cp_command_type p); FText (cp_source_id p);
   FText (cp_request_id p); field_of (cp_target_device_id p); FText (jsonb_text (cp_request_payload p));
   FText (cp_status p); field_of (cp_error_code p); field_of (cp_error_message p);
   field_of (jsonb_text <$> cp_device_ack p); FInt (cp_created_at p); time_field (cp_dispatched_at p);
   FInt (cp_updated_at p); time_field (cp_completed_at p)].

Definition to_microsecond (t : TimePoint) : TimePoint := Z.quot t 1000 * 1000.
Definition stored_command (c : CommandRecord) : CommandRecord :=
  {| c_command_id := c_command_id c; c_command_type := c_command_type c;
     c_source_id := c_source_id c; c_request_id := c_request_id c;
     c_target_device_id := c_target_device_id c; c_request_payload := c_request_payload c;
     c_status := c_status c; c_error_code := c_error_code c; c_error_message := c_error_message c;
     c_device_ack := c_device_ack c; c_created_at := to_microsecond (c_created_at c);
     c_dispatched_at := to_microsecond <$> c_dispatched_at c;
     c_updated_at := to_microsecond (c_updated_at c);
     c_completed_at := to_microsecond <$> c_completed_at c |}.

Definition clock_time (t : TimePoint) : Prop := - 2 ^ 63 <= t < 2 ^ 63.

Lemma ParseCommandStatus_text status : ParseCommandStatus (CommandStatusText status) = Ok status.
Proof. by destruct status. Qed.

Lemma read_time t : clock_time t →
  (let? us := as_int64 (FInt (ToUnixMicroseconds t)) in Value (FromUnixMicroseconds us))
  = Value (Ok (to_microsecond t)).
Proof.
  intros Ht. destruct (microseconds_roundtrip t 0 Ht) as [(t' & H & _) _].
  unfold as_int64, to_microsecond, ToUnixMicroseconds in *.
  pose proof (Z.quot_rem' t 1000). pose proof (Z.rem_bound_abs t 1000). unfold clock_time in Ht.
  destruct ((_ <=? _) && _) eqn:E; [|apply andb_false_iff in E; rewrite Z.leb_gt, Z.ltb_ge in E; lia].
  rewrite H. unfold FromUnixMicroseconds in H. case_match; congruence.
Qed.

Section RoundTrip.
#[local] Set Default Proof Using "Type*".
Context `{JL : JsonLib} (env : DatabaseEnvironment) (jsonb_text : string → string).

(** The document comes back from its column as it was: jsonb keeps the value of a document,
    not its white space or the order of its keys, which the parser does not see either. *)
Definition survives (v : json) : Prop := json_parse (jsonb_text (json_dump v)) = Some v.

Lemma read_optional_text o : optional_text (field_of o) = Value o.
Proof. by destruct o. Qed.

Lemma read_optional_time row i o :
  column row i = time_field (ToUnixMicroseconds <$> o) → (∀ t, o = Some t → clock_time t) →
  optional_command_time row i = Value (Ok (to_microsecond <$> o)).
Proof.
  intros E Ht. unfold optional_command_time, command_time. rewrite E.
  destruct o as [t|]; [|done]. cbn [fmap option_fmap option_map time_field is_null_field].
  by rewrite read_time by auto.
Qed.

Lemma read_json v : survives v → ParseCommandJson (FText (jsonb_text (json_dump v))) = Value (Ok v).
Proof. intros Hs. unfold ParseCommandJson. cbn. by rewrite Hs. Qed.

Lemma read_optional_json o : (∀ v, o = Some v → survives v) →
  let f := field_of (jsonb_text <$> JsonText o) in
  (if is_null_field f then Value (Ok None)
   else let?! parsed := ParseCommandJson f in Value (Ok (Some parsed))) = Value (Ok o).
Proof. intros H. destruct o as [v|]; [|done]. cbn -[ParseCommandJson]. by rewrite read_json by auto. Qed.

(** What a command needs to be stored: its times are of the clock, its documents
    survive their columns. *)
Record storable (c : CommandRecord) : Prop := {
  st_created : clock_time (c_created_at c);
  st_updated : clock_time (c_updated_at c);
  st_dispatched t : c_dispatched_at c = Some t → clock_time t;
  st_completed t : c_completed_at c = Some t → clock_time t;
  st_payload : survives (c_request_payload c);
  st_ack v : c_device_ack c = Some v → survives v
}.

Lemma command_row_read c :
  storable c → CommandFromRow (command_row jsonb_text (command_parameters c)) = Value (Ok (stored_command c)).
Proof.
  intros [Hc Hu Hd Hf Hp Ha]. unfold CommandFromRow.
  rewrite (read_optional_time _ 11 (c_dispatched_at c)), (read_optional_time _ 13 (c_completed_at c))
    by done.
  unfold command_row, command_time, column, command_parameters.
  cbn [nth as_text cp_command_id cp_command_type cp_source_id cp_request_id cp_target_device_id
    cp_request_payload cp_status cp_error_code cp_error_message cp_device_ack cp_created_at
    cp_dispatched_at cp_updated_at cp_completed_at].
  rewrite ParseCommandType_text, ParseCommandStatus_text, read_json, read_optional_json by done.
  by rewrite !read_time, !read_optional_text by done.
Qed.

(** C40: On a database that gives back the row it was sent, its payloads as jsonb writes them (whatever
    the text is, as long as it reads back as the value that was sent), an insertion returns the
    command itself, its times rounded to the microsecond, and leaves it committed. *)
Theorem InsertCommand_roundtrip c s :
  storable c →
  (∀ n, db_reply env n (InsertCommandStatement (command_parameters c))
        = Rows [command_row jsonb_text (command_parameters c)]) →
  (∀ n, db_reply env n BeginWork = Rows []) → (∀ n, db_reply env n Commit = Rows []) →
  let r := InsertCommand env c s in
  r.1 = Ok (stored_command c) ∧
  statements r.2 = statements s ++
    [(BeginWork, None); (InsertCommandStatement (command_parameters c), None); (Commit, None)].
Proof.
  intros Hc Hi Hb Hw r. unfold r, InsertCommand, guarded, one_row, or_return, db_bind, exec, db_lift, db_ret.
  rewrite Hb. cbn [calls]. rewrite Hi, (command_row_read c Hc), Hw. cbn [fst snd]. split; [done|].
  unfold statements. cbn. by rewrite !omap_app, <- !app_assoc.
Qed.
End RoundTrip.

(** ** Witnesses *)
Module Example.
#[local] Existing Instance codec_lib.
#[local] Existing Instance codec_laws.

Definition payload : json := JObject [("x", JUInt 1)].
Definition command : CommandRecord :=
  {| c_command_id := "c1"; c_command_type := kConfig; c_source_id := "host"; c_request_id := "r1";
     c_target_device_id := Some "dev"; c_request_payload := payload; c_status := kDispatched;
     c_error_code := None; c_error_message := None; c_device_ack := None; c_created_at := 1500;
     c_dispatched_at := Some 2999; c_updated_at := 3000; c_completed_at := None |}.

(** A database that stores what it is sent. *)
Definition environment : DatabaseEnvironment :=
  {| db_reply := λ _ st, match st with InsertCommandStatement p => Rows [command_row id p] | _ => Rows [] end;
     db_open := λ _, true; db_connects := λ _, true; db_file := λ _, None |}.
Definition store : PostgresStore :=
  {| info_sink_ := false; last_failure_kind_ := kPermanent; calls := 0; trace := [] |}.

(** A parser that skips white space, and a database that writes some. *)
Definition spaced_lib : JsonLib :=
  {| json_parse := λ s, codec_parse (match s with String " " rest => rest | _ => s end);
     json_dump := codec_dump; json_equal := codec_equal |}.
Definition spaced : DatabaseEnvironment :=
  {| db_reply := λ _ st, match st with
                         | InsertCommandStatement p => Rows [command_row (String " ") p]
                         | _ => Rows []
                         end;
     db_open := λ _, true; db_connects := λ _, true; db_file := λ _, None |}.

Lemma InsertCommand_roundtrip_witness :
  let r := InsertCommand (JL := spaced_lib) spaced command store in
  is_ok r.1 = true ∧ r.1 = Ok (stored_command command).
Proof.
  split; [vm_compute; reflexivity|].
  refine (proj1 (InsertCommand_roundtrip (JL := spaced_lib) spaced (String " ") command store _ _ _ _));
    try reflexivity.
  split; cbn; try (unfold clock_time; lia); try discriminate.
  - intros t [= <-]. unfold clock_time. lia.
  - unfold survives. vm_compute. reflexivity.
Defined.
End Example.
