(* ===== verification/PostgresBridge.v ===== *)
(** * PostgresBridge: RuntimePostgresBridge of src/route_service/src/service_environment.cpp

    The store as the database thread sees it: every operation of [PostgresStore] with
    its failure classified, the reconnection, and the jobs of [PostgresWorker::Run]
    carried out on it. *)

From Stdlib Require Import ZArith Lia.
From S2P Require Import Prelude Json CommandTypes CommandState.
From S2P Require Import DeviceMessage DeviceRegistry DirtyState DeviceService AppConfig Migration.
From S2P Require Import PostgresWorker PostgresStore PostgresStoreFacts.
From stdpp Require Import options.

(** ** The bridge

    Its state is the store it owns, which is never null: the bridge is built with one
    and a reconnection replaces it only by another.  The calls to the database are
    numbered across the connections, so the store in use also counts those of a
    connection that was given up. *)
Section Bridge.
Context `{JL : JsonLib} (env : DatabaseEnvironment).
Context (config_ : DatabaseConfig) (has_info_sink : bool) (migrations_ : list Migration).

Definition error_kind (kind : OperationFailureKind) : ErrorKind :=
  match kind with kPermanent => kErrPermanent | kUnavailable => kErrUnavailable end.

Definition Classify (context : string) (s : PostgresStore) : DatabaseError :=
  {| err_kind := error_kind (LastOperationFailureKind s); err_message := context |}.
Definition ClassifyWithDetail (context detail : string) (s : PostgresStore) : DatabaseError :=
  let error := Classify context s in
  if str_empty detail then error
  else {| err_kind := err_kind error; err_message := detail |}.

(** The two ways a result of the store is passed on. *)
Definition classified {A} (context : string) (r : expected A string * PostgresStore) :
    expected A DatabaseError * PostgresStore :=
  match r.1 with
  | Ok value => (Ok value, r.2)
  | Unexpected _ => (Unexpected (Classify context r.2), r.2)
  end.
Definition classified_with_detail {A} (context : string) (r : expected A string * PostgresStore) :
    expected A DatabaseError * PostgresStore :=
  match r.1 with
  | Ok value => (Ok value, r.2)
  | Unexpected detail => (Unexpected (ClassifyWithDetail context detail r.2), r.2)
  end.

Definition Provision (registration : Registration) (received_at : TimePoint) (s : PostgresStore) :
    expected DeviceRecord DatabaseError * PostgresStore :=
  classified "数据库建档失败" (ProvisionDevice env registration received_at s).
Definition Write (write : DesiredDeviceWrite) (s : PostgresStore) :
    expected unit DatabaseError * PostgresStore :=
  classified "数据库状态写入失败" (WriteDeviceState env write s).
Definition FindCommand (source_id request_id : string) (s : PostgresStore) :
    expected (option CommandRecord) DatabaseError * PostgresStore :=
  classified_with_detail "数据库命令查询失败" (PostgresStore.FindCommand env source_id request_id s).
Definition FindCommandById (command_id : string) (s : PostgresStore) :
    expected (option CommandRecord) DatabaseError * PostgresStore :=
  classified_with_detail "数据库命令查询失败" (PostgresStore.FindCommandById env command_id s).
Definition InsertCommand (command : CommandRecord) (s : PostgresStore) :
    expected CommandRecord DatabaseError * PostgresStore :=
  classified_with_detail "数据库命令写入失败" (PostgresStore.InsertCommand env command s).
Definition TransitionCommand (command_id : string) (expected_ desired : CommandStatus)
    (upd : CommandUpdate) (s : PostgresStore) :
    expected CommandRecord DatabaseError * PostgresStore :=
  classified_with_detail "数据库命令状态转换失败"
    (PostgresStore.TransitionCommand env command_id expected_ desired upd s).
Definition CleanupCommands (before : TimePoint) (batch_size : Z) (s : PostgresStore) :
    expected Z DatabaseError * PostgresStore :=
  classified "数据库命令清理失败" (DeleteExpiredTerminalCommands env before batch_size s).
Definition RecoverControlCommands (recovered_at : TimePoint) (batch_size : Z) (s : PostgresStore) :
    expected (list CommandRecord) DatabaseError * PostgresStore :=
  classified "数据库飞控命令恢复失败" (RecoverActiveControlCommands env recovered_at batch_size s).

Definition ReconnectAndValidate (s : PostgresStore) : expected unit DatabaseError * PostgresStore :=
  match Connect env config_ has_info_sink (calls s) (trace s) with
  | Unexpected _ =>
      (Unexpected {| err_kind := kErrUnavailable; err_message := "数据库重连失败" |},
       s <| calls := S (calls s) |>)
  | Ok connected =>
      let (applied, connected) := ReadAppliedMigrations env connected in
      let fail kind message :=
        (Unexpected {| err_kind := kind; err_message := message |},
         s <| calls := calls connected |> <| trace := trace connected |>) in
      match applied with
      | Unexpected _ =>
          fail (match LastOperationFailureKind connected with
                | kUnavailable => kErrUnavailable | kPermanent => kErrPermanent
                end) "数据库重连后读取迁移版本失败"
      | Ok applied =>
          match BuildMigrationPlan migrations_ applied kCheckOnly with
          | Unexpected _ => fail kErrPermanent "数据库迁移版本校验失败"
          | Ok _ => (Ok tt, connected)
          end
      end
  end.

(** ** The jobs of the worker on the bridge *)
Definition visit (task : CommandDatabaseTask) (s : PostgresStore) :
    expected CommandDatabaseValue DatabaseError * PostgresStore :=
  match task with
  | FindCommandTask source_id request_id =>
      let (value, s) := FindCommand source_id request_id s in
      (let! command := value in Ok (OptionalCommand command), s)
  | FindCommandByIdTask command_id =>
      let (value, s) := FindCommandById command_id s in
      (let! command := value in Ok (OptionalCommand command), s)
  | InsertCommandTask command =>
      let (value, s) := InsertCommand command s in
      (let! command := value in Ok (OneCommand command), s)
  | TransitionCommandTask command_id expected_ desired upd =>
      let (value, s) := TransitionCommand command_id expected_ desired upd s in
      (let! command := value in Ok (OneCommand command), s)
  | RecoverControlCommandsTask recovered_at limit =>
      let (value, s) := RecoverControlCommands recovered_at limit s in
      (let! commands := value in Ok (Commands commands), s)
  | CleanupCommandsTask before batch_size =>
      let (value, s) := CleanupCommands before batch_size s in
      (let! n := value in Ok (Count n), s)
  end.

Context (reconnect_interval : TimePoint).

(** The rest of a turn of [Run] once a job is taken: no operation of the store throws. *)
Definition run_job (w : PostgresWorker) (s : PostgresStore) (now : TimePoint) :
    list WorkerOutput * PostgresWorker * PostgresStore :=
  let idle := w <| running := None |> in
  match running w with
  | None => ([], w, s)
  | Some Reconnect =>
      let (result, s) := ReconnectAndValidate s in
      (finish_reconnect reconnect_interval idle (Returned result) now, s)
  | Some GiveUp => ([], abandon_queues idle, s)
  | Some (LoseProvision id) => (lose_provision reconnect_interval idle id now, s)
  | Some (CommandJob id task) =>
      let (result, s) := visit task s in
      (finish_command reconnect_interval idle id task (Returned result) now, s)
  | Some (ProvisionJob task) =>
      let (result, s) := Provision (pt_registration task) (pt_received_at task) s in
      (finish_provision idle task (Returned result), s)
  | Some (WriteJob write) =>
      let (result, s) := Write write s in
      (finish_write reconnect_interval idle write (Returned result) now, s)
  end.

(** ** The worker and its store

    What other threads do to the worker, and the turns of its own thread. *)
Record DatabaseThread := { worker : PostgresWorker; store : PostgresStore }.

Inductive ThreadOp :=
| SubmitProvisionOp (registration : Registration) (at_ : TimePoint)
| SubmitWriteOp (write : DesiredDeviceWrite)
| SubmitCommandOp (operation_id : Z) (task : CommandDatabaseTask)
| DrainOp
| PickOp (stop : bool) (now : TimePoint)
| RunJobOp (now : TimePoint).

Context `{MO : MapOrder} (max_inflight : nat).

Definition caller_op (op : ThreadOp) : option WorkerOp :=
  match op with
  | SubmitProvisionOp r at_ => Some (OpSubmitProvision r at_)
  | SubmitWriteOp write => Some (OpSubmitWrite write)
  | SubmitCommandOp id task => Some (OpSubmitCommand id task)
  | DrainOp => Some OpDrain
  | PickOp stop now => Some (OpPick stop now)
  | RunJobOp _ => None
  end.

Definition thread_step (s : DatabaseThread) (op : ThreadOp) : list WorkerOutput * DatabaseThread :=
  match op with
  | RunJobOp now =>
      let '(outs, w, st) := run_job (worker s) (store s) now in
      (outs, {| worker := w; store := st |})
  | _ =>
      match caller_op op with
      | Some op =>
          let r := worker_step reconnect_interval max_inflight (worker s) op in
          (r.1, {| worker := r.2; store := store s |})
      | None => ([], s)
      end
  end.

Fixpoint thread_run (s : DatabaseThread) (ops : list ThreadOp) : list WorkerOutput * DatabaseThread :=
  match ops with
  | [] => ([], s)
  | op :: rest =>
      let r := thread_step s op in
      let q := thread_run r.2 rest in
      (r.1 ++ q.1, q.2)
  end.

Definition start_thread (s : PostgresStore) : DatabaseThread :=
  {| worker := MakePostgresWorker; store := s |}.
End Bridge.
