(* ===== verification/PostgresBridgeFacts.v ===== *)
(** * PostgresBridgeFacts: the database thread with its store

    What a job of the worker leaves in the database and tells the rest of the program,
    whatever the database does; the reconnection; and the worker alone as an
    abstraction of the two together. *)

From Stdlib Require Import ZArith Lia.
From S2P Require Import Prelude Json CommandTypes CommandState.
From S2P Require Import DeviceMessage DeviceRegistry DirtyState DeviceService AppConfig Migration.
From S2P Require Import PostgresWorker PostgresStore PostgresStoreFacts PostgresBridge.
From stdpp Require Import options.

Section Answers.
#[local] Set Default Proof Using "JL Type*".
Context `{JL : JsonLib} (env : DatabaseEnvironment).
Context (config : DatabaseConfig) (sink : bool) (migrations : list Migration).

(** The connection in use was lost: it is not open, or the last statement met a broken
    connection; for a reconnection, also when none could be made. *)
Definition connection_broken (after : PostgresStore) : Prop :=
  IsOpen env after = false ∨ ∃ earlier st, statements after = earlier ++ [(st, Some true)].
Definition connection_lost (before after : PostgresStore) : Prop :=
  connection_broken after ∨ db_connects env (calls before) = false.

(** The statements of a step: those that succeeded, and the one that failed. *)
Definition sent (s s' : PostgresStore) (ok : list Statement) (failed : list (Statement * option bool)) :
    Prop :=
  statements s' = statements s ++ (((λ st, (st, None)) <$> ok) ++ failed).

(** How an operation of the bridge ends. *)
Definition answered {A} (op : StoreOperation) (s : PostgresStore)
    (r : expected A DatabaseError * PostgresStore) : Prop :=
  ∃ ok failed, sent s r.2 ok failed ∧
    match r.1 with
    | Ok _ => failed = [] ∧ transaction env op ok ∧ last_failure_kind_ r.2 = kPermanent
    | Unexpected e =>
        Commit ∉ ok ∧
        match err_kind e with
        | kErrUnavailable => connection_broken r.2
        | kErrPermanent =>
            last_failure_kind_ r.2 = kPermanent ∧ ∀ st, failed ≠ [(st, Some true)]
        end
    end.

Lemma keeps_permanent s s' :
  last_failure_kind_ s = kPermanent → keeps_kind (Value tt) s s' → last_failure_kind_ s' = kPermanent.
Proof. intros H [->|]; done. Qed.

Lemma sent_broken s s' ok failed st :
  sent s s' ok failed → failed = [(st, Some true)] → connection_broken s'.
Proof.
  intros H ->. right. rewrite H, app_assoc. by eexists _, st.
Qed.

(** A failure of the store, and the kind it leaves. *)
Lemma failed_answer op s s' :
  classifies op = true → last_failure_kind_ s = kPermanent → operation_ends env op s (false, s') →
  ∃ ok failed, sent s s' ok failed ∧ Commit ∉ ok ∧
    match last_failure_kind_ s' with
    | kUnavailable => connection_broken s'
    | kPermanent => ∀ st, failed ≠ [(st, Some true)]
    end.
Proof.
  intros Hop Hk (ok & failed & Hs & _ & H). destruct (H eq_refl) as [Hc Hf]. rewrite Hop in Hf.
  exists ok, failed. split; [done|]. split; [done|].
  destruct failed as [|[st [broken|]] [|]]; try done.
  - destruct Hf as [Hf|Hf]; [by rewrite (keeps_permanent _ _ Hk Hf)|]. rewrite Hf.
    unfold ClassifyOperationFailure. cbn. destruct (IsOpen env s') eqn:E; [done|by left].
  - rewrite Hf. unfold ClassifyOperationFailure. destruct broken; cbn.
    + by eapply sent_broken.
    + destruct (IsOpen env s') eqn:E; [done|by left].
Qed.

Lemma Classify_answered {A} (fail : string → PostgresStore → DatabaseError) op s
    (r : expected A string * PostgresStore) :
  (∀ e t, err_kind (fail e t) = error_kind (last_failure_kind_ t)) → classifies op = true →
  last_failure_kind_ s = kPermanent → operation_ends env op s (outcome_of r) →
  answered op s
    (match r.1 with Ok v => Ok v | Unexpected e => Unexpected (fail e r.2) end, r.2).
Proof.
  intros Hfail Hop Hk H. destruct r as [[v|e] t]; cbn [fst snd outcome_of is_ok] in *.
  - destruct H as (ok & failed & Hs & H & _). destruct (H eq_refl) as (-> & Hk' & Hc).
    exists ok, []. split; [done|]. cbn. split_and!; [done|done|by eapply keeps_permanent].
  - destruct (failed_answer _ _ _ Hop Hk H) as (ok & failed & Hs & Hc & Hf).
    exists ok, failed. split; [done|]. cbn. split; [done|]. rewrite Hfail.
    cbn [fst snd] in *. destruct (last_failure_kind_ t); [exact Hf|split; [done|exact Hf]].
Qed.

Lemma classified_answered {A} context op s (r : expected A string * PostgresStore) :
  classifies op = true → last_failure_kind_ s = kPermanent → run_operation env op s = outcome_of r →
  answered op s (classified context r).
Proof.
  intros Hop Hk E. pose proof (run_operation_ends env op s) as H. rewrite E in H.
  pose proof (Classify_answered (λ _, Classify context) _ s r (λ _ _, eq_refl) Hop Hk H) as Ha.
  unfold classified. by destruct r as [[] ].
Qed.
Lemma detailed_answered {A} context op s (r : expected A string * PostgresStore) :
  classifies op = true → last_failure_kind_ s = kPermanent → run_operation env op s = outcome_of r →
  answered op s (classified_with_detail context r).
Proof.
  intros Hop Hk E. pose proof (run_operation_ends env op s) as H. rewrite E in H.
  unshelve epose proof (Classify_answered (ClassifyWithDetail context) _ s r _ Hop Hk H) as Ha.
  { intros e t. unfold ClassifyWithDetail. by case_match. }
  unfold classified_with_detail. by destruct r as [[] ].
Qed.

Lemma answered_map {A B} op s (r : expected A DatabaseError * PostgresStore) (f : A → B) :
  answered op s r → answered op s (let! v := r.1 in Ok (f v), r.2).
Proof. by destruct r as [[] ]. Qed.

(** *** Each job *)
Definition task_operation (task : CommandDatabaseTask) : StoreOperation :=
  match task with
  | FindCommandTask source_id request_id => OpFindCommand source_id request_id
  | FindCommandByIdTask command_id => OpFindCommandById command_id
  | InsertCommandTask command => OpInsertCommand command
  | TransitionCommandTask command_id from to upd => OpTransitionCommand command_id from to upd
  | RecoverControlCommandsTask at_ limit => OpRecoverActiveControlCommands at_ limit
  | CleanupCommandsTask before batch_size => OpDeleteExpiredTerminalCommands before batch_size
  end.

Lemma visit_answered task s :
  last_failure_kind_ s = kPermanent → answered (task_operation task) s (visit env task s).
Proof.
  intros Hk. destruct task as [a b|a|c|a e d u|t n|t n]; cbn [visit task_operation];
    match goal with
    | |- answered _ _ (let (_, _) := ?r in _) =>
        rewrite (surjective_pairing r); cbv iota beta; apply answered_map
    end.
  1-4: by apply detailed_answered.
  1-2: by apply classified_answered.
Qed.
Lemma Provision_answered r at_ s :
  last_failure_kind_ s = kPermanent → answered (OpProvisionDevice r at_) s (Provision env r at_ s).
Proof. intros. by apply classified_answered. Qed.
Lemma Write_answered w s :
  last_failure_kind_ s = kPermanent → answered (OpWriteDeviceState w) s (Write env w s).
Proof. intros. by apply classified_answered. Qed.

(** A new connection starts without a failure, after the statements of the old one. *)
Lemma Connect_fresh s c :
  Connect env config sink (calls s) (trace s) = Ok c →
  statements c = statements s ∧ last_failure_kind_ c = kPermanent.
Proof.
  unfold Connect. case_match; [|done]. intros [= <-]. unfold inform, statements. cbn.
  case_match; cbn; by rewrite !omap_app, !app_nil_r.
Qed.

(** A reconnection that fails leaves the store in use. *)
Definition reconnected (s : PostgresStore) (r : expected unit DatabaseError * PostgresStore) : Prop :=
  ∃ ok failed, sent s r.2 ok failed ∧ Commit ∉ ok ∧
    match r.1 with
    | Ok _ => failed = [] ∧ last_failure_kind_ r.2 = kPermanent ∧ transaction env OpReadAppliedMigrations ok
    | Unexpected e =>
        last_failure_kind_ r.2 = last_failure_kind_ s ∧ info_sink_ r.2 = info_sink_ s ∧
        match err_kind e with
        | kErrUnavailable => connection_lost s r.2
        | kErrPermanent => ∀ st, failed ≠ [(st, Some true)]
        end
    end.

Lemma ReconnectAndValidate_reconnected s :
  reconnected s (ReconnectAndValidate env config sink migrations s).
Proof.
  unfold ReconnectAndValidate. destruct (Connect env config sink _ _) as [c|e] eqn:Ec.
  2: { exists [], []. unfold sent. cbn. rewrite app_nil_r.
       split_and!; [done|set_solver|done|done|right].
       unfold Connect in Ec. by destruct (db_connects env (calls s)). }
  destruct (Connect_fresh _ _ Ec) as [Es Hk].
  pose proof (run_operation_ends env OpReadAppliedMigrations c) as H.
  cbn [run_operation] in H.
  destruct (ReadAppliedMigrations env c) as [[applied|e] t]; cbn [outcome_of is_ok fst snd] in H.
  - destruct H as (ok & failed & Hs & H & _). destruct (H eq_refl) as (-> & Hk' & Hc).
    rewrite Es in Hs. exists ok, []. destruct (BuildMigrationPlan _ _ _); cbn [fst snd err_kind].
    + split_and!; [done| |done|by eapply keeps_permanent|done].
      destruct Hc as [-> | ->]; set_solver.
    + split_and!; try done. destruct Hc as [-> | ->]; set_solver.
  - destruct (failed_answer OpReadAppliedMigrations _ _ eq_refl Hk H) as (ok & failed & Hs & Hc & Hf).
    unfold sent in Hs. rewrite Es in Hs. exists ok, failed.
    cbn [fst snd err_kind] in *. split; [exact Hs|]. split; [done|]. split; [done|]. split; [done|].
    unfold LastOperationFailureKind. destruct (last_failure_kind_ t); [by left|exact Hf].
Qed.

End Answers.
(** ** The reconnection *)

(** A reconnection succeeds exactly when a connection is made and the migrations the
    database records are those the program ships, all of them and no other; the store
    in use is then the new connection, and otherwise the old one, as it was. *)
Theorem reconnect_spec `{JL : JsonLib} env config sink migrations s :
  let r := ReconnectAndValidate env config sink migrations s in
  (r.1 = Ok tt ↔
   ∃ c, Connect env config sink (calls s) (trace s) = Ok c ∧
     (ReadAppliedMigrations env c).1 = Ok (recorded <$> migrations) ∧
     numbered 0 (version <$> migrations)) ∧
  (r.1 = Ok tt → last_failure_kind_ r.2 = kPermanent) ∧
  (r.1 ≠ Ok tt → info_sink_ r.2 = info_sink_ s ∧ last_failure_kind_ r.2 = last_failure_kind_ s).
Proof.
  assert (∀ applied plan, BuildMigrationPlan migrations applied kCheckOnly = Ok plan →
    numbered 0 (version <$> migrations) ∧ applied = recorded <$> migrations) as Hplan.
  { intros applied plan (Hn & (ms & Ha & ->) & Hp)%BuildMigrationPlan_spec.
    rewrite (Hp eq_refl), app_nil_r in Ha. by subst. }
  assert (numbered 0 (version <$> migrations) →
    BuildMigrationPlan migrations (recorded <$> migrations) kCheckOnly = Ok {| pending := [] |}) as Hback.
  { intros Hn. apply BuildMigrationPlan_spec. split; [done|]. split; [|done].
    exists migrations. by rewrite app_nil_r. }
  pose proof (ReconnectAndValidate_reconnected env config sink migrations s) as (ok & failed & _ & _ & H).
  intros r. fold r in H. split_and!.
  - unfold r, ReconnectAndValidate. destruct (Connect env config sink _ _) as [c|e]; [|naive_solver].
    destruct (ReadAppliedMigrations env c) as [[applied|e] t] eqn:Er; cbn.
    + destruct (BuildMigrationPlan migrations applied _) as [plan|e] eqn:Ep; cbn.
      * split; [intros _; exists c|done]. rewrite Er. cbn. by destruct (Hplan _ _ Ep) as [? ->].
      * split; [done|]. intros (c' & [= <-] & Ha & Hn). rewrite Er in Ha. injection Ha as ->.
        by rewrite (Hback Hn) in Ep.
    + split; [done|]. intros (c' & [= <-] & Ha & Hn). by rewrite Er in Ha.
  - intros Er. rewrite Er in H. apply H.
  - destruct r.1 as [[]|e]; [done|]. intros _. split; apply H.
Qed.

(** ** The thread *)
Inductive Verdict := Done | Refused | Lost.

(** What the thread told the rest of the program about a job. *)
Definition verdict (job : Job) (outs : list WorkerOutput) : Verdict :=
  match job, outs with
  | GiveUp, _ => Refused
  | CommandJob id _, [EmittedCommand r] => if is_ok (cd_value r) then Done else Refused
  | CommandJob _ _, _ => Lost
  | _, Emitted r :: _ =>
      match r_kind r with
      | kProvisioned | kWriteCompleted | kRecovered => Done
      | kPermanentFailure => Refused
      | DeviceService.kUnavailable => Lost
      end
  | _, _ => Lost
  end.

(** What becomes of a job that was lost: the command is first in the queue, the write
    among the writes; a provisioning is dropped, and reported in the next step. *)
Definition lost_job (job : Job) (outs : list WorkerOutput) (w : PostgresWorker) : Prop :=
  match job with
  | Reconnect => unavailable_ w = true
  | GiveUp => False
  | CommandJob id task => unavailable_ w = true ∧ ∃ rest, commands_ w = (id, task) :: rest
  | ProvisionJob task => running w = Some (LoseProvision (reg_device_id (pt_registration task)))
  | LoseProvision id =>
      unavailable_ w = true ∧ provisions_ w = ∅ ∧ Emitted {| r_kind := DeviceService.kUnavailable; r_device_id := id;
        r_revision := 0; r_provisioned := None |} ∈ outs
  | WriteJob write =>
      unavailable_ w = true ∧
      ∀ c, selects write c = true → holds w (w_device_id write) c (w_revision write)
  end.

Section Thread.
#[local] Set Default Proof Using "JL Type*".
Context `{JL : JsonLib} (env : DatabaseEnvironment).
Context (config : DatabaseConfig) (sink : bool) (migrations : list Migration).
Context (itv : TimePoint) `{MO : MapOrder} (m : nat).
Abbreviation step := (thread_step env config sink migrations itv m).
Abbreviation run := (thread_run env config sink migrations itv m).

(** While the worker is not waiting for a reconnection, its store has not met a
    connection failure, or it is about to say so; it reconnects only while it waits. *)
Record thread_ok (s : DatabaseThread) : Prop := {
  ok_kind : unavailable_ (worker s) = false → (∀ id, running (worker s) ≠ Some (LoseProvision id)) →
    last_failure_kind_ (store s) = kPermanent;
  ok_running : match running (worker s) with
               | Some (Reconnect | GiveUp) => unavailable_ (worker s) = true
               | Some (LoseProvision _) => unavailable_ (worker s) = false ∧ connection_broken env (store s)
               | Some _ => unavailable_ (worker s) = false
               | None => True
               end
}.

(** The statements of a job that is done. *)
Definition job_transaction (job : Job) (executed : list Statement) : Prop :=
  match job with
  | Reconnect => transaction env OpReadAppliedMigrations executed
  | CommandJob _ task => transaction env (task_operation task) executed
  | ProvisionJob task => transaction env (OpProvisionDevice (pt_registration task) (pt_received_at task)) executed
  | WriteJob write => transaction env (OpWriteDeviceState write) executed
  | GiveUp | LoseProvision _ => False
  end.

(** How a job ends. *)
Definition settled (job : Job) (s : DatabaseThread) (r : list WorkerOutput * DatabaseThread) : Prop :=
  let v := verdict job r.1 in
  ∃ ok failed, sent (store s) (store r.2) ok failed ∧
    (v = Done → failed = [] ∧ job_transaction job ok ∧ unavailable_ (worker r.2) = false) ∧
    (v ≠ Done → Commit ∉ ok) ∧
    (v = Lost → connection_lost env (store s) (store r.2) ∧ lost_job job r.1 (worker r.2)) ∧
    (∀ st, failed = [(st, Some true)] → v = Lost).

Lemma thread_ok_start st : last_failure_kind_ st = kPermanent → thread_ok (start_thread st).
Proof. by split. Qed.

Lemma pick_unavailable w stop now : unavailable_ (pick w stop now) = unavailable_ w.
Proof. unfold pick. repeat case_match; done. Qed.
Lemma pick_running w stop now :
  running w = None →
  match running (pick w stop now) with
  | Some Reconnect => unavailable_ w = true
  | Some (GiveUp | LoseProvision _) => False
  | Some _ => unavailable_ w = false
  | None => True
  end.
Proof.
  intros H. unfold pick. destruct stop; cbn; [by rewrite H|].
  destruct (unavailable_ w) eqn:E; [destruct (now <? _); cbn; by rewrite ?H|].
  destruct (commands_ w) as [|[]]; [|done]. destruct (map_order (provisions_ w)) as [|[]]; [|done].
  destruct (map_order (writes_ w)) as [|[]]; [|done]. destruct (drain_requested_ w); cbn; by rewrite H.
Qed.

Lemma thread_ok_frame s w :
  thread_ok s → unavailable_ w = unavailable_ (worker s) → running w = running (worker s) →
  thread_ok {| worker := w; store := store s |}.
Proof. intros [Hk Hr] E1 E2. split; cbn; by rewrite E1, ?E2. Qed.

Lemma caller_ok s op wop :
  caller_op op = Some wop → thread_ok s → thread_ok (step s op).2.
Proof.
  intros E H. destruct op; simplify_eq/=.
  1-4: apply thread_ok_frame; [done|..];
    unfold SubmitProvision, SubmitWrite, SubmitCommand, RequestDrain; by repeat case_match.
  destruct (worker_stopped_ (worker s)); [by destruct s|].
  destruct (running (worker s)) eqn:Er; [by destruct s|]. destruct H as [Hk Hr]. rewrite Er in Hk.
  pose proof (pick_running (worker s) stop now Er) as Hp.
  split; cbn; rewrite pick_unavailable; [intros Hu _; by apply Hk|].
  by destruct (running (pick _ _ _)) as [[]|].
Qed.

(** The parts of [settled] for a job whose outcome is known. *)
Abbreviation ends_with s job outs w st :=
  (let r := (outs, {| worker := w; store := st |}) in settled job s r ∧ thread_ok r.2).
Lemma settle_done job s outs w st ok :
  verdict job outs = Done → sent (store s) st ok [] → job_transaction job ok →
  unavailable_ w = false → last_failure_kind_ st = kPermanent → running w = None →
  ends_with s job outs w st.
Proof.
  intros Hv Hs Hc Hu Hk Hr r. split; [|split; cbn; by rewrite ?Hr].
  exists ok, []. cbn. rewrite Hv. by split_and!.
Qed.
Lemma settle_refused job s outs w st ok failed :
  verdict job outs = Refused → sent (store s) st ok failed → Commit ∉ ok →
  (∀ c, failed ≠ [(c, Some true)]) → (unavailable_ w = false → last_failure_kind_ st = kPermanent) →
  (running w = None ∨ running w = Some GiveUp ∧ unavailable_ w = true) → ends_with s job outs w st.
Proof.
  intros Hv Hs Hc Hf Hk Hr r. split.
  - exists ok, failed. cbn. rewrite Hv. split_and!; try done. intros c ->. by destruct (Hf c).
  - split; cbn; [by intros ? _; auto|]. by destruct Hr as [-> |[-> ?]].
Qed.
Lemma settle_lost job s outs w st ok failed :
  verdict job outs = Lost → sent (store s) st ok failed → Commit ∉ ok →
  connection_lost env (store s) st → lost_job job outs w → thread_ok {| worker := w; store := st |} →
  ends_with s job outs w st.
Proof.
  intros Hv Hs Hc Hl Hk Hr r. split; [|exact Hr].
  exists ok, failed. cbn. rewrite Hv. by split_and!.
Qed.
Lemma idle_unavailable w st : unavailable_ w = true → running w = None → thread_ok {| worker := w; store := st |}.
Proof. intros Hu Hr. split; cbn; by rewrite ?Hr, ?Hu. Qed.
Lemma sent_nothing st : sent st st [] [].
Proof. unfold sent. by rewrite app_nil_r. Qed.

Lemma MergeWrite_kept ws w c :
  selects w c = true →
  ∃ x, MergeWrite ws w !! w_device_id w = Some x ∧ selects x c = true ∧ w_revision w <= w_revision x.
Proof. intros. apply MergeWrite_spec. right. by split_and!. Qed.

Lemma job_settles s job now :
  thread_ok s → running (worker s) = Some job →
  let r := step s (RunJobOp now) in settled job s r ∧ thread_ok r.2.
Proof.
  intros [Hk Hr] Ej. rewrite Ej in Hr, Hk. unfold thread_step, run_job. rewrite Ej.
  destruct job as [| |id task|task|id|write].
  - pose proof (ReconnectAndValidate_reconnected env config sink migrations (store s)) as H.
    destruct (ReconnectAndValidate _ _ _ _ _) as [[[]|e] st];
      destruct H as (ok & failed & Hs & Hc & H); cbn [fst snd] in *.
    + destruct H as (-> & H & Ht). by apply (settle_done _ _ _ _ _ ok).
    + destruct H as (_ & _ & H). unfold finish_reconnect, outcome, is_unavailable.
      destruct (err_kind e) eqn:Ee; cbn [fst snd].
      * apply (settle_lost _ _ _ _ _ ok failed); try done. by apply idle_unavailable.
      * apply (settle_refused _ _ _ _ _ ok failed); try done; cbn; rewrite ?Hr; auto; done.
  - apply (settle_refused _ _ _ _ _ [] []); try done; [apply sent_nothing|set_solver|..];
      cbn; rewrite ?Hr; auto; done.
  - specialize (Hk Hr ltac:(discriminate)).
    pose proof (visit_answered env task (store s) Hk) as (ok & failed & Hs & H).
    destruct (visit env task (store s)) as [[v|e] st]; cbn [fst snd] in *.
    + destruct H as (-> & Hc & H). by apply (settle_done _ _ _ _ _ ok).
    + destruct H as [Hc H]. unfold finish_command, outcome, is_unavailable.
      destruct (err_kind e) eqn:Ee; cbn [fst snd].
      * apply (settle_lost _ _ _ _ _ ok failed); try done; [by left|].
        split; [done|by eexists].
      * destruct H. apply (settle_refused _ _ _ _ _ ok failed); try done. by left.
  - specialize (Hk Hr ltac:(discriminate)).
    pose proof (Provision_answered env (pt_registration task) (pt_received_at task) (store s) Hk)
      as (ok & failed & Hs & H).
    destruct (Provision env _ _ (store s)) as [[v|e] st]; cbn [fst snd] in *.
    + destruct H as (-> & Hc & H). by apply (settle_done _ _ _ _ _ ok).
    + destruct H as [Hc H]. unfold finish_provision, outcome, is_unavailable.
      destruct (err_kind e) eqn:Ee; cbn [fst snd].
      * apply (settle_lost _ _ _ _ _ ok failed); try done; [by left|].
        split; cbn; [|done]. intros _ H'. by destruct (H' (reg_device_id (pt_registration task))).
      * destruct H. apply (settle_refused _ _ _ _ _ ok failed); try done. by left.
  - destruct Hr as [Hr Hb]. apply (settle_lost _ _ _ _ _ [] []); try done;
      [apply sent_nothing|set_solver|by left|]. split_and!; [done..|left].
  - specialize (Hk Hr ltac:(discriminate)).
    pose proof (Write_answered env write (store s) Hk) as (ok & failed & Hs & H).
    destruct (Write env write (store s)) as [[[]|e] st]; cbn [fst snd] in *.
    + destruct H as (-> & Hc & H). by apply (settle_done _ _ _ _ _ ok).
    + destruct H as [Hc H]. unfold finish_write, outcome, is_unavailable.
      destruct (err_kind e) eqn:Ee; cbn [fst snd].
      * apply (settle_lost _ _ _ _ _ ok failed); try done; [by left|].
        split; [done|]. intros c Hsel. left. by apply MergeWrite_kept.
      * destruct H. apply (settle_refused _ _ _ _ _ ok failed); try done. by left.
Qed.

Lemma thread_ok_run ops : ∀ s, thread_ok s → thread_ok (run s ops).2.
Proof.
  induction ops as [|op ops IH]; intros s H; [done|]. cbn [thread_run snd]. apply IH.
  destruct (caller_op op) as [wop|] eqn:E; [by eapply caller_ok|]. destruct op; simplify_eq/=.
  destruct (running (worker s)) as [job|] eqn:Ej; [by apply (job_settles s job now)|].
  unfold run_job. rewrite Ej. by destruct s.
Qed.

(** C17: Whatever the database and the other threads do, on a store without an earlier failure: a job
    the thread reports as done has executed exactly the statements of its transaction and committed;
    of a job it refuses or loses no COMMIT was confirmed; it reports a loss only when the connection
    is broken, and whenever a statement met a broken connection.  A command or a write that is
    lost is back in the queues and the thread reconnects; a provisioning that is lost is dropped,
    with all the queued ones, and its device told that the database is unavailable. *)
Theorem jobs_settled ops store0 job now :
  last_failure_kind_ store0 = kPermanent →
  let s := (run (start_thread store0) ops).2 in
  running (worker s) = Some job → settled job s (step s (RunJobOp now)).
Proof. intros Hk s Hj. by apply job_settles; [apply thread_ok_run, thread_ok_start|]. Qed.

(** ** The worker alone is an abstraction of the thread *)
Inductive refines : ThreadOp → WorkerOp → Prop :=
| refines_caller op wop : caller_op op = Some wop → refines op wop
| refines_job replies now : refines (RunJobOp now) (OpFinishJob replies now).

Lemma run_job_reply w st now :
  ∃ replies, (run_job env config sink migrations itv w st now).1 = finish_job itv w replies now.
Proof.
  set (base := {| reply_reconnect := Thrown; reply_command := Thrown; reply_provision := Thrown;
                  reply_write := Thrown |}).
  unfold run_job, finish_job. destruct (running w) as [[| |id task|task|id|write]|]; [| |..|by exists base].
  - destruct (ReconnectAndValidate _ _ _ _ _) as [r st'].
    by exists {| reply_reconnect := PostgresWorker.Returned r; reply_command := Thrown; reply_provision := Thrown;
              reply_write := Thrown |}.
  - by exists base.
  - destruct (visit _ _ _) as [r st'].
    by exists {| reply_reconnect := Thrown; reply_command := PostgresWorker.Returned r; reply_provision := Thrown;
              reply_write := Thrown |}.
  - destruct (Provision _ _ _ _) as [r st'].
    by exists {| reply_reconnect := Thrown; reply_command := Thrown;
              reply_provision := PostgresWorker.Returned r; reply_write := Thrown |}.
  - by exists base.
  - destruct (Write _ _ _) as [r st'].
    by exists {| reply_reconnect := Thrown; reply_command := Thrown; reply_provision := Thrown;
              reply_write := PostgresWorker.Returned r |}.
Qed.

Lemma step_refines s op :
  ∃ wop, refines op wop ∧
    worker_step itv m (worker s) wop = ((step s op).1, worker (step s op).2).
Proof.
  destruct (caller_op op) as [wop|] eqn:E.
  - exists wop. split; [by constructor|]. destruct op; simplify_eq/=; first [apply surjective_pairing | done].
  - destruct op; try done. destruct (run_job_reply (worker s) (store s) now) as [replies H].
    exists (OpFinishJob replies now). split; [apply refines_job|]. cbn.
    destruct (run_job _ _ _ _ _ _ _ _) as [[outs w] st]. cbn in *. by rewrite <- H.
Qed.

(** Every run of the thread with its store is a run of the worker with some replies of
    a store, with the same submissions, the same outputs and the same state: what holds
    of the worker for every store holds of the two together. *)
Theorem thread_refines_worker ops s :
  ∃ wops, Forall2 refines ops wops ∧
    worker_run itv m (worker s) wops = ((run s ops).1, worker (run s ops).2).
Proof.
  revert s. induction ops as [|op ops IH]; intros s; [by exists []|].
  destruct (step_refines s op) as (wop & Hw & E). destruct (IH (step s op).2) as (wops & Hws & Es).
  exists (wop :: wops). split; [by constructor|]. cbn [worker_run thread_run]. rewrite E. cbn [fst snd]. by rewrite Es.
Qed.
End Thread.

(** ** Witnesses *)
Module Example.
#[local] Existing Instance codec_lib.
#[local] Existing Instance codec_laws.
#[local] Instance order : MapOrder.
Proof. refine {| map_order := λ A m, map_to_list m |}. done. Defined.

(** A database that stores the commands it is sent, but breaks the connection on the
    statements from the fifth to the eighth. *)
Definition environment : DatabaseEnvironment :=
  {| db_reply := λ n st,
       if ((4 <=? n) && (n <=? 7))%nat then Fails true
       else match st with InsertCommandStatement p => Rows [command_row id p] | _ => Rows [] end;
     db_open := λ _, true; db_connects := λ _, true; db_file := λ _, None |}.
Definition config : DatabaseConfig :=
  {| db_host := "h"; db_port := 5432; db_name := "cns"; db_user := "u"; db_password := "p";
     db_connect_timeout := 5; db_reconnect_interval := 5 |}.
Definition insert : CommandDatabaseTask := InsertCommandTask PostgresStoreFacts.Example.command.

(** A first insertion is committed; a second one meets the broken connection. *)
Definition ops : list ThreadOp :=
  [SubmitCommandOp 1 insert; PickOp false 0; RunJobOp 0; SubmitCommandOp 2 insert; PickOp false 0].
Definition started : DatabaseThread := start_thread PostgresStoreFacts.Example.store.
Definition reached : DatabaseThread :=
  (thread_run environment config true [] 5 10 started ops).2.

Lemma jobs_settled_witness :
  running (worker reached) = Some (CommandJob 2 insert) ∧
  settled environment (CommandJob 2 insert) reached
    (thread_step environment config true [] 5 10 reached (RunJobOp 1)).
Proof.
  split; [vm_compute; reflexivity|].
  refine (jobs_settled environment config true [] 5 10 ops PostgresStoreFacts.Example.store
    (CommandJob 2 insert) 1 _ _); vm_compute; reflexivity.
Defined.

(** The two answers, and the second command still queued. *)
Example two_insertions :
  let r := thread_run environment config true [] 5 10 started (ops ++ [RunJobOp 1]) in
  r.1 ≠ [] ∧ (commands_ (worker r.2)).*1 = [2] ∧ unavailable_ (worker r.2) = true.
Proof. vm_compute. by split_and!. Qed.
End Example.
