(* ===== verification/ExternalBridge.v ===== *)
(** * ExternalBridge: RuntimeExternalBridge of src/route_service/src/service_environment.cpp

    What the threads of the runtime send out through the MQTT client: the state events
    and the directory of devices, both retained by the broker, commands,
    acknowledgements, replays and log lines.  Every method holds the mutex of the bridge. *)

From Stdlib Require Import ZArith Lia.
From S2P Require Import Prelude Json DeviceTopic DeviceMessage DeviceRegistry StateEvent.
From S2P Require Import DeviceService CommandService AppConfig MqttClient.
From stdpp Require Import options.

(** [mqtt] and [logger] say whether the pointer is set; both objects are the client that
    is passed along, whose outputs hold the log lines too. *)
Record RuntimeExternalBridge := {
  mqtt : bool;
  logger : bool;
  topic_namespace : string;
  device_directory : DeviceDirectory;
  enabled : bool;
  system_reads : nat   (* readings of the system clock so far *)
}.

#[export] Instance RuntimeExternalBridge_members : Members RuntimeExternalBridge := λ b,
  {| mqtt := mqtt b; logger := logger b; topic_namespace := topic_namespace b;
     device_directory := device_directory b; enabled := enabled b;
     system_reads := system_reads b |}.

Definition MakeExternalBridge : RuntimeExternalBridge :=
  {| mqtt := false; logger := false; topic_namespace := ""; device_directory := empty_directory;
     enabled := true; system_reads := 0 |}.

Definition state_failed : string := "发布设备当前状态快照失败".
Definition directory_failed : string := "发布全量设备目录失败".

Definition SnapshotFor (published : PublishedState) : Snapshot :=
  let record := ps_record published in
  {| sn_device_id := dr_device_id record; sn_revision := dr_revision record;
     sn_school_id := dr_school_id record; sn_school_name := dr_school_name record;
     sn_dcdw_label := dr_dcdw_label record; sn_model_version := dr_model_version record;
     sn_online := bool_decide (dr_status record = kOnline);
     sn_last_seen_at := dr_last_seen_at record;
     sn_telemetry_received_at := dr_telemetry_received_at record;
     sn_latest_telemetry := dr_latest_telemetry record; sn_degraded := ps_degraded published;
     sn_device_type := DeviceTypeText (dr_device_type record);
     sn_capabilities := dr_capabilities record; sn_product := dr_product record;
     sn_version := dr_version record |}.

Definition DirectoryEntryFor (published : PublishedState) : DirectoryEntry :=
  let record := ps_record published in
  {| de_device_id := dr_device_id record; de_school_name := dr_school_name record;
     de_dcdw_label := dr_dcdw_label record; de_model_version := dr_model_version record;
     de_online := bool_decide (dr_status record = kOnline);
     de_device_type := DeviceTypeText (dr_device_type record);
     de_capabilities := dr_capabilities record; de_product := dr_product record;
     de_version := dr_version record |}.

Section Bridge.
Context `{JL : JsonLib} (env : MqttEnvironment) (system_clock : nat → TimePoint).

Definition system_now (b : RuntimeExternalBridge) : TimePoint * RuntimeExternalBridge :=
  (system_clock (system_reads b), b <| system_reads := S (system_reads b) |>).

Definition Disable (b : RuntimeExternalBridge) : RuntimeExternalBridge :=
  b <| enabled := false |> <| mqtt := false |> <| logger := false |>.

Definition Diagnose (b : RuntimeExternalBridge) (c : MqttClient) (message : string) : MqttClient :=
  if negb (enabled b) || negb (logger b) then c else emit c (LoggedError message).
Definition Inform (b : RuntimeExternalBridge) (c : MqttClient) (message : string) : MqttClient :=
  if negb (enabled b) || negb (logger b) then c else emit c (LoggedInfo message).

(** A retained publication, and the error line when it fails. *)
Definition publish_retained (c : MqttClient) (topic payload failure : string) : MqttClient :=
  let (result, c) := PublishStateEvent env c topic payload in
  match result with Ok _ => c | Unexpected _ => emit c (LoggedError failure) end.

Definition PublishStateLocked (b : RuntimeExternalBridge) (c : MqttClient)
    (published : PublishedState) : RuntimeExternalBridge * MqttClient :=
  let (now, b) := system_now b in
  let payload := json_dump (BuildStateEvent (SnapshotFor published) (ps_reason published) now) in
  (b, publish_retained c
        (StateEventTopic (topic_namespace b) (dr_device_id (ps_record published))) payload
        state_failed).

Definition PublishDirectoryLocked (b : RuntimeExternalBridge) (c : MqttClient) :
    RuntimeExternalBridge * MqttClient :=
  let (now, b) := system_now b in
  let payload := json_dump (BuildDeviceDirectorySnapshot (Entries (device_directory b))
                              (Revision (device_directory b)) now) in
  (b, publish_retained c (DeviceDirectoryTopic (topic_namespace b)) payload directory_failed).

Definition Publish (b : RuntimeExternalBridge) (c : MqttClient) (published : PublishedState) :
    RuntimeExternalBridge * MqttClient :=
  if negb (enabled b) then (b, c)
  else
    let u := Update (device_directory b) (DirectoryEntryFor published) in
    let b := b <| device_directory := u.2 |> in
    if negb (mqtt b) || negb (logger b) then (b, c)
    else
      let (b, c) := PublishStateLocked b c published in
      if u.1 then PublishDirectoryLocked b c else (b, c).

Fixpoint publish_states (b : RuntimeExternalBridge) (c : MqttClient) (states : list PublishedState) :
    RuntimeExternalBridge * MqttClient :=
  match states with
  | [] => (b, c)
  | published :: rest =>
      let (b, c) := PublishStateLocked b c published in publish_states b c rest
  end.

Definition PublishFullSnapshot (b : RuntimeExternalBridge) (c : MqttClient)
    (published_states : list PublishedState) : RuntimeExternalBridge * MqttClient :=
  if negb (enabled b) then (b, c)
  else
    let entries := DirectoryEntryFor <$> published_states in
    let b := b <| device_directory := (Replace (device_directory b) entries).2 |> in
    if negb (mqtt b) || negb (logger b) then (b, c)
    else
      let (b, c) := PublishDirectoryLocked b c in
      publish_states b c published_states.

(** The callbacks [RuntimeBundle::Initialize] gives to the worker and to the command
    service. *)
Definition ReplayRegistrations (b : RuntimeExternalBridge) (c : MqttClient)
    (config_namespace : string) : MqttClient :=
  if negb (enabled b) || negb (mqtt b) then c
  else
    let (replay, c) := ReplayRetainedRegistrations env c config_namespace in
    match replay with
    | Unexpected _ => if logger b then emit c (LoggedError "重放设备注册消息失败") else c
    | Ok _ => c
    end.

Definition PublishSet (b : RuntimeExternalBridge) (c : MqttClient) (token : Z)
    (topic payload : string) : expected unit string * MqttClient :=
  if negb (enabled b) || negb (mqtt b) then (Unexpected "MQTT桥已失效", c)
  else PublishCommandSet env c token topic payload.

Definition PublishAck (b : RuntimeExternalBridge) (c : MqttClient) (topic payload : string) :
    MqttClient :=
  if enabled b && mqtt b then (PublishSourceCommandAck env c topic payload).2 else c.
End Bridge.
