(* ===== verification/ExternalBridgeFacts.v ===== *)
(** * ExternalBridgeFacts: what the broker retains

    The state events and the directory are retained publications.  Whatever else is
    sent through the client in between, what is retained for a topic of the bridge is
    the last document it published, and that is the document of the last state. *)

From Stdlib Require Import Ascii ZArith Lia.
From S2P Require Import Prelude Json DeviceTopic DeviceMessage DeviceRegistry StateEvent.
From S2P Require Import SourceRequest Ingress.
From S2P Require Import DeviceService CommandService AppConfig MqttClient MqttClientFacts.
From S2P Require Import ExternalBridge.
From stdpp Require Import options.

#[local] Arguments lib : simpl never.

(** ** Retained documents *)
Definition retains (topic : string) (o : Output) : option string :=
  match o with
  | Called (PublishCall t payload _ true) 0 => if String.eqb t topic then Some payload else None
  | _ => None
  end.

(** The document retained for a topic: the last one the library took. *)
Definition retained (topic : string) (outs : list Output) : option string :=
  foldl (λ r o, match retains topic o with Some p => Some p | None => r end) None outs.

Lemma retained_snoc topic outs o :
  retained topic (outs ++ [o]) =
  match retains topic o with Some p => Some p | None => retained topic outs end.
Proof. unfold retained. by rewrite foldl_app. Qed.

Lemma retained_app topic outs new :
  Forall (λ o, retains topic o = None) new → retained topic (outs ++ new) = retained topic outs.
Proof.
  intros H. induction new as [|o new IH] using rev_ind; [by rewrite app_nil_r|].
  apply Forall_app in H as [H [Ho _]%Forall_cons]. by rewrite app_assoc, retained_snoc, Ho, IH.
Qed.

(** ** What most calls of the client add to the outputs *)

(** [t] comes after [s] by outputs that satisfy [P]. *)
Definition adds_only (P : Output → Prop) (s t : MqttClient) : Prop :=
  ∃ new, outputs t = outputs s ++ new ∧ Forall P new.

#[export] Instance adds_only_preorder P : PreOrder (adds_only P).
Proof.
  split.
  - intros s. exists []. by rewrite app_nil_r.
  - intros s t u (a & Ea & Ha) (b & Eb & Hb). exists (a ++ b).
    rewrite Eb, Ea, app_assoc. split; [done|by apply Forall_app].
Qed.

Lemma adds_only_same P s t u : adds_only P s t → outputs u = outputs t → adds_only P s u.
Proof. intros (new & E & H) Eu. exists new. by rewrite Eu. Qed.
Lemma adds_only_emit (P : Output → Prop) s t o : P o → adds_only P s t → adds_only P s (emit t o).
Proof.
  intros Ho H. etrans; [exact H|]. exists [o]. split; [done|]. by apply Forall_singleton.
Qed.
Lemma adds_only_pair {B} P (b : B) s t : adds_only P s t → adds_only P s (b, t).2.
Proof. done. Qed.

(** Nothing the client sends by itself is a retained publication. *)
Definition plain (o : Output) : Prop :=
  match o with Called (PublishCall _ _ _ true) _ => False | _ => True end.
Lemma plain_retains topic o : plain o → retains topic o = None.
Proof. destruct o as [[] r| | | | |]; try done. by destruct retain. Qed.

Create HintDb adds.
Ltac adds_update :=
  match goal with
  | |- adds_only _ _ (update _ ?t) => apply (adds_only_same _ _ t); [|generalize t; intros; reflexivity]
  end.
#[local] Hint Extern 0 (adds_only _ ?s ?s) => reflexivity : adds.
#[local] Hint Extern 2 (adds_only _ _ (update _ _)) => adds_update : adds.
#[local] Hint Extern 1 (adds_only _ _ (emit _ _)) => apply adds_only_emit; [exact I|] : adds.
#[local] Hint Resolve adds_only_pair : adds.

Section Client.
#[local] Set Default Proof Using "Type*".
Context `{TO : TokenOrder} (env : MqttEnvironment) (config : MqttConfig).

Lemma adds_lib P s t c : (∀ r, P (Called c r)) → adds_only P s t → adds_only P s (lib env t c).2.
Proof. intros Hc H. unfold lib. apply adds_only_emit; [apply Hc|]. by eapply adds_only_same. Qed.
#[local] Hint Extern 1 (adds_only plain _ (lib _ _ _).2) => apply adds_lib; [intros; exact I|] : adds.

(** A library call taken apart, its state kept as a projection. *)
Ltac take_lib :=
  match goal with
  | |- context [match lib env ?t ?c with _ => _ end] =>
      let r := fresh "r" in let u := fresh "u" in let E := fresh in
      destruct (lib env t c) as [r u] eqn:E;
      replace u with (lib env t c).2 by (by rewrite E); clear E u
  end.
Ltac adds_cases :=
  first [solve [eauto 12 with adds]
        | take_lib; adds_cases | case_match; adds_cases | progress cbv zeta; adds_cases].
Ltac adds_warning := intros; unfold warn_now; adds_cases.

Lemma adds_WarnDisconnected s t r : adds_only plain s t → adds_only plain s (WarnDisconnected env t r).
Proof. unfold WarnDisconnected. adds_warning. Qed.
Lemma adds_WarnLibraryEvent s t k x : adds_only plain s t → adds_only plain s (WarnLibraryEvent env t k x).
Proof. unfold WarnLibraryEvent. adds_warning. Qed.
Lemma adds_WarnBusiness s t k x : adds_only plain s t → adds_only plain s (WarnBusiness env t k x).
Proof. unfold WarnBusiness. adds_warning. Qed.
Lemma adds_Warn s t x : adds_only plain s t → adds_only plain s (Warn t x).
Proof. unfold Warn. adds_warning. Qed.
#[local] Hint Resolve adds_WarnDisconnected adds_WarnLibraryEvent adds_WarnBusiness adds_Warn : adds.

Lemma adds_subscribe_all filters : ∀ s, adds_only plain s (subscribe_all env s filters).2.
Proof.
  induction filters as [|[[topic qos] op] rest IH]; intros s; [done|]. cbn.
  pose proof (adds_lib plain s s (SubscribeCall topic qos) (λ _, I) (reflexivity s)) as H.
  destruct (lib _ _ _) as [r t]; cbn in *. case_match; [|done]. etrans; [exact H|apply IH].
Qed.
Lemma adds_subscribe_mark s t f : adds_only plain s t → adds_only plain s (subscribe_mark t f).
Proof. intros. unfold subscribe_mark. adds_cases. Qed.
Lemma adds_SubscribeConfigured s t : adds_only plain s t → adds_only plain s (SubscribeConfigured env t).2.
Proof.
  intros H. unfold SubscribeConfigured. pose proof (adds_subscribe_all (subscribe_filters (subscribe_snapshot t)) t) as Ha.
  destruct (subscribe_all _ _ _) as [[] u]; cbn in *; [apply adds_subscribe_mark|]; by etrans.
Qed.
#[local] Hint Resolve adds_SubscribeConfigured : adds.
Lemma adds_Ensure s t : adds_only plain s t → adds_only plain s (EnsureBusinessSubscriptions env t).2.
Proof. intros. unfold EnsureBusinessSubscriptions. adds_cases. Qed.
#[local] Hint Resolve adds_Ensure : adds.
Lemma adds_SubscribeDevices s ns : adds_only plain s (SubscribeDeviceMessages env s ns).2.
Proof. unfold SubscribeDeviceMessages, set_device_namespace. adds_cases. Qed.
Lemma adds_SubscribeCommands s ns : adds_only plain s (SubscribeCommandMessages env s ns).2.
Proof. unfold SubscribeCommandMessages, set_command_namespace. adds_cases. Qed.
Lemma adds_Replay s ns : adds_only plain s (ReplayRetainedRegistrations env s ns).2.
Proof. unfold ReplayRetainedRegistrations, replay_mark. adds_cases. Qed.
Lemma adds_PublishCommandSet s token topic payload :
  adds_only plain s (PublishCommandSet env s token topic payload).2.
Proof. unfold PublishCommandSet, publish_lib. adds_cases. Qed.
Lemma adds_PublishAck s topic payload :
  adds_only plain s (PublishSourceCommandAck env s topic payload).2.
Proof. unfold PublishSourceCommandAck, publish_lib. adds_cases. Qed.
Lemma adds_Connected s t : adds_only plain s t → adds_only plain s (Connected t).
Proof. intros. unfold Connected. adds_cases. Qed.
#[local] Hint Resolve adds_Connected : adds.
Lemma adds_HandleConnect s r : adds_only plain s (HandleConnect env s r).
Proof.
  unfold HandleConnect. case_match; [|adds_cases].
  pose proof (adds_SubscribeConfigured s (Connected s)) as Hs.
  destruct (SubscribeConfigured _ _) as [[] t]; cbn in Hs; eauto with adds.
Qed.
Lemma adds_complete s t token r : adds_only plain s t → adds_only plain s (complete env t token r).2.
Proof. intros. unfold complete. adds_cases. Qed.
Lemma adds_complete_all tokens : ∀ s, adds_only plain s (complete_all env s tokens).2.
Proof.
  induction tokens as [|token rest IH]; intros s; [done|]. cbn [complete_all].
  pose proof (adds_complete s s token false (reflexivity s)) as H.
  destruct (complete env s token false) as [[] t]; cbn [snd] in *; [done|]. etrans; [exact H|apply IH].
Qed.
Lemma adds_HandleDisconnect s r : adds_only plain s (HandleDisconnect env s r).
Proof.
  unfold HandleDisconnect. cbv zeta. set (u := update _ _).
  assert (adds_only plain s u) as Hu by (unfold u; eauto with adds). clearbody u.
  pose proof (adds_complete_all (token_order (token_to_mid (s <| connected := false |>))).*1 u) as H.
  destruct (if publish_handler u then _ else _) as [threw t] eqn:E.
  assert (adds_only plain s t) as Ht.
  { destruct (publish_handler u); [rewrite E in H; by etrans|by injection E as _ <-]. }
  adds_cases.
Qed.
Lemma adds_HandlePublish s mid : adds_only plain s (HandlePublish env s mid).
Proof. unfold HandlePublish, complete. adds_cases. Qed.
Lemma adds_HandleLog s l : adds_only plain s (HandleLog env s l).
Proof. unfold HandleLog. adds_cases. Qed.
Lemma adds_HandleMessage s m t : adds_only plain s (HandleMessage env s m t).
Proof. unfold HandleMessage, Dispatch, deliver. adds_cases. Qed.
Lemma adds_FinishRetry s t e : adds_only plain s t → adds_only plain s (FinishRetry t e).
Proof. intros. unfold FinishRetry. adds_cases. Qed.
#[local] Hint Resolve adds_FinishRetry : adds.
Lemma adds_retry_step s t : adds_only plain s t → adds_only plain s (retry_step env config t).
Proof. intros. unfold retry_step, connect_async. adds_cases. Qed.
#[local] Hint Resolve adds_retry_step : adds.
Lemma adds_join_retry s t : adds_only plain s t → adds_only plain s (join_retry env config t).
Proof. intros. unfold join_retry. eauto with adds. Qed.
#[local] Hint Resolve adds_join_retry : adds.
Lemma adds_start_connection s t : adds_only plain s t → adds_only plain s (start_connection env config t).2.
Proof.
  intros H. unfold start_connection, connect_async. take_lib. cbv zeta.
  set (u := (lib env t _).2). assert (adds_only plain s u) as Hu by (unfold u; eauto with adds).
  set (v := if _ || _ then WarnDisconnected env u _ else u).
  assert (adds_only plain s v) as Hv by (unfold v; case_match; eauto with adds). clearbody u v. adds_cases.
Qed.
#[local] Hint Resolve adds_start_connection : adds.
Lemma adds_Start s : adds_only plain s (Start env config s).2.
Proof. unfold Start. adds_cases. Qed.
Lemma adds_StopNow s : adds_only plain s (StopNow env config s).
Proof.
  unfold StopNow. cbv zeta. set (a := update _ s). set (b := match retry_thread_ a with Some _ => _ | None => _ end).
  assert (adds_only plain s b) as Hb by (unfold b, a; case_match; eauto with adds). clearbody a b.
  set (c := update _ (update _ b)). assert (adds_only plain s c) as Hc by (unfold c; eauto with adds).
  clearbody c. case_match; [eauto with adds|].
  take_lib. set (d := (lib env c _).2). assert (adds_only plain s d) as Hd by (unfold d; eauto with adds).
  clearbody d. set (e := if _ && _ then _ else d).
  assert (adds_only plain s e) as He by (unfold e; case_match; eauto with adds). clearbody e.
  take_lib. set (f := (lib env e _).2). assert (adds_only plain s f) as Hf by (unfold f; eauto with adds).
  clearbody f. set (g := if negb _ then Warn f _ else _).
  assert (adds_only plain s g) as Hg by (unfold g; case_match; eauto with adds). clearbody g.
  case_match; eauto with adds.
Qed.

(** The publications of the runtime are made through the bridge; everything else that
    happens to the client. *)
Definition elsewhere (e : ClientEvent) : bool :=
  match e with
  | EvPublishCommandSet _ _ _ | EvPublishSourceCommandAck _ _ | EvPublishStateEvent _ _
  | EvReplay _ => false
  | _ => true
  end.
Lemma adds_client_step s e : elsewhere e = true → adds_only plain s (client_step env config s e).
Proof.
  destruct e; intros H; try done; cbn [client_step];
    auto using adds_SubscribeDevices, adds_SubscribeCommands, adds_Start, adds_HandleConnect,
      adds_HandleDisconnect, adds_HandlePublish, adds_HandleLog, adds_HandleMessage with adds.
  - unfold ConfigureBusinessMessages. adds_cases.
  - unfold Stop. pose proof (adds_StopNow s). adds_cases.
Qed.
End Client.

(** ** Topics *)
Lemma state_topic_inj ns a b : StateEventTopic ns a = StateEventTopic ns b → a = b.
Proof.
  unfold StateEventTopic. intros E%str_app_cancel_l%str_app_cancel_l. by eapply str_app_inj_r.
Qed.
Lemma state_topic_not_directory ns id : StateEventTopic ns id ≠ DeviceDirectoryTopic ns.
Proof.
  unfold StateEventTopic, DeviceDirectoryTopic. intros E%str_app_cancel_l.
  apply (f_equal last_char) in E. rewrite <- (str_app_assoc "/events/devices/") in E.
  by rewrite last_char_app in E.
Qed.

(** ** Runs of the bridge *)
Inductive BridgeEvent :=
| BrPublish (published : PublishedState)
| BrSnapshot (states : list PublishedState)
| BrSet (token : Z) (topic payload : string)
| BrAck (topic payload : string)
| BrReplay (config_namespace : string)
| BrDiagnose (message : string) | BrInform (message : string)
| BrDisable
| BrClient (e : ClientEvent).

Section Runs.
#[local] Set Default Proof Using "JL Type*".
Context `{JL : JsonLib, TO : TokenOrder} (env : MqttEnvironment) (config : MqttConfig).
Context (system_clock : nat → TimePoint).

Definition bridge_step (s : RuntimeExternalBridge * MqttClient) (e : BridgeEvent) :
    RuntimeExternalBridge * MqttClient :=
  let (b, c) := s in
  match e with
  | BrPublish published => Publish env system_clock b c published
  | BrSnapshot states => PublishFullSnapshot env system_clock b c states
  | BrSet token topic payload => (b, (PublishSet env b c token topic payload).2)
  | BrAck topic payload => (b, PublishAck env b c topic payload)
  | BrReplay ns => (b, ReplayRegistrations env b c ns)
  | BrDiagnose message => (b, Diagnose b c message)
  | BrInform message => (b, Inform b c message)
  | BrDisable => (Disable b, c)
  | BrClient e => (b, if elsewhere e then client_step env config c e else c)
  end.
Definition bridge_run (s : RuntimeExternalBridge * MqttClient) (events : list BridgeEvent) :
    RuntimeExternalBridge * MqttClient := foldl bridge_step s events.

(** What a subscriber should see: the states announced, the directory they make, and
    the two documents. *)
Definition announces (e : BridgeEvent) : list PublishedState :=
  match e with BrPublish p => [p] | BrSnapshot l => l | _ => [] end.
Definition latest (id : string) (ps : list PublishedState) : option PublishedState :=
  last (filter (λ p, dr_device_id (ps_record p) = id) ps).
Definition directory_op (e : BridgeEvent) : list DirectoryOp :=
  match e with
  | BrPublish p => [OpUpdate (DirectoryEntryFor p)]
  | BrSnapshot l => [OpReplace (DirectoryEntryFor <$> l)]
  | _ => []
  end.
Definition directory_document (d : DeviceDirectory) (t : TimePoint) : string :=
  json_dump (BuildDeviceDirectorySnapshot (Entries d) (Revision d) t).
Definition state_document (p : PublishedState) (t : TimePoint) : string :=
  json_dump (BuildStateEvent (SnapshotFor p) (ps_reason p) t).

(** The documents retained since [c0], unless a failure was logged: of the directory
    [dir], where one is known, and of the last of the states [ps] of each device. *)
Definition documents (ns : string) (c0 : MqttClient) (dir : option DeviceDirectory)
    (ps : list PublishedState) (c : MqttClient) : Prop :=
  ∃ new, outputs c = outputs c0 ++ new ∧
    (LoggedError directory_failed ∉ new → ∀ d, dir = Some d →
       ∃ t, retained (DeviceDirectoryTopic ns) (outputs c) = Some (directory_document d t)) ∧
    (LoggedError state_failed ∉ new → ∀ id p, latest id ps = Some p →
       ∃ t, retained (StateEventTopic ns id) (outputs c) = Some (state_document p t)).

Definition read_clock (b : RuntimeExternalBridge) : RuntimeExternalBridge :=
  b <| system_reads := S (system_reads b) |>.
Lemma PublishStateLocked_eq b c p :
  PublishStateLocked env system_clock b c p =
  (read_clock b, publish_retained env c (StateEventTopic (topic_namespace b) (dr_device_id (ps_record p)))
     (state_document p (system_clock (system_reads b))) state_failed).
Proof. reflexivity. Qed.
Lemma PublishDirectoryLocked_eq b c :
  PublishDirectoryLocked env system_clock b c =
  (read_clock b, publish_retained env c (DeviceDirectoryTopic (topic_namespace b))
     (directory_document (device_directory b) (system_clock (system_reads b))) directory_failed).
Proof. reflexivity. Qed.

Lemma publish_retained_outputs c topic payload failure :
  ∃ new, outputs (publish_retained env c topic payload failure) = outputs c ++ new ∧
    (∀ t, t ≠ topic → Forall (λ o, retains t o = None) new) ∧
    (LoggedError failure ∈ new ∨ ∀ outs, retained topic (outs ++ new) = Some payload).
Proof.
  assert (∀ s, ∃ new, outputs (emit s (LoggedError failure)) = outputs s ++ new ∧
    (∀ t, t ≠ topic → Forall (λ o, retains t o = None) new) ∧
    (LoggedError failure ∈ new ∨ ∀ outs, retained topic (outs ++ new) = Some payload)) as Hfail.
  { intros s. exists [LoggedError failure]. split; [done|]. split; [by constructor|left; set_solver]. }
  unfold publish_retained, PublishStateEvent, publish_lib.
  destruct (str_empty topic); [apply Hfail|]. destruct (too_large payload); [apply Hfail|].
  unfold lib. cbn [fst snd].
  set (r := lib_reply _ _ _). destruct (r =? MOSQ_ERR_SUCCESS) eqn:Er; cbn [negb].
  - apply Z.eqb_eq in Er. rewrite Er. exists [Called (PublishCall topic payload 1 true) 0].
    split; [done|]. split.
    + intros t Ht. apply Forall_singleton. cbn. by destruct (String.eqb_spec topic t).
    + right. intros outs. rewrite retained_snoc. cbn. by rewrite String.eqb_refl.
  - exists [Called (PublishCall topic payload 1 true) r; LoggedError failure].
    split; [cbn; by rewrite <- app_assoc|]. split; [|left; set_solver].
    intros t Ht. repeat constructor. cbn. destruct r; [done| |]; done.
Qed.

Lemma documents_plain ns c0 dir ps c c' :
  adds_only plain c c' → documents ns c0 dir ps c → documents ns c0 dir ps c'.
Proof.
  intros (more & E & Hm) (new & En & Hd & Hs). exists (new ++ more).
  assert (∀ t, retained t (outputs c') = retained t (outputs c)) as Er.
  { intros t. rewrite E. apply retained_app. eapply Forall_impl; [exact Hm|]. apply plain_retains. }
  split; [by rewrite E, En, app_assoc|]. setoid_rewrite not_elem_of_app. setoid_rewrite Er.
  split; naive_solver.
Qed.

Lemma latest_snoc id ps p :
  latest id (ps ++ [p]) = if decide (dr_device_id (ps_record p) = id) then Some p else latest id ps.
Proof.
  unfold latest. rewrite filter_app, filter_cons, filter_nil. case_decide.
  - by rewrite last_snoc.
  - by rewrite app_nil_r.
Qed.

Lemma documents_state ns c0 dir ps c b p :
  topic_namespace b = ns → documents ns c0 dir ps c →
  documents ns c0 dir (ps ++ [p]) (PublishStateLocked env system_clock b c p).2.
Proof.
  intros <- (new & En & Hd & Hs). rewrite PublishStateLocked_eq. cbn [snd].
  set (payload := state_document _ _).
  destruct (publish_retained_outputs c (StateEventTopic (topic_namespace b)
    (dr_device_id (ps_record p))) payload state_failed) as (more & E & Ho & Hp).
  exists (new ++ more). rewrite E. split; [by rewrite En, app_assoc|].
  setoid_rewrite not_elem_of_app. split.
  - intros [Hn _] d Hdir. rewrite retained_app; [by apply Hd|]. apply Ho.
    intros H. by apply (state_topic_not_directory (topic_namespace b) (dr_device_id (ps_record p))).
  - intros [Hn Hm] id q Hq. rewrite latest_snoc in Hq. case_decide as Hid; simplify_eq.
    + destruct Hp as [Hp|Hp]; [done|]. eexists. by rewrite Hp.
    + rewrite retained_app; [by apply Hs|]. apply Ho. by intros H%state_topic_inj.
Qed.

Lemma documents_directory ns c0 dir ps c b :
  topic_namespace b = ns → documents ns c0 dir ps c →
  documents ns c0 (Some (device_directory b)) ps (PublishDirectoryLocked env system_clock b c).2.
Proof.
  intros <- (new & En & Hd & Hs). rewrite PublishDirectoryLocked_eq. cbn [snd].
  set (payload := directory_document _ _).
  destruct (publish_retained_outputs c (DeviceDirectoryTopic (topic_namespace b)) payload
    directory_failed) as (more & E & Ho & Hp).
  exists (new ++ more). rewrite E. split; [by rewrite En, app_assoc|].
  setoid_rewrite not_elem_of_app. split.
  - intros [Hn Hm] d [= <-]. destruct Hp as [Hp|Hp]; [done|]. eexists. by rewrite Hp.
  - intros [Hn Hm] id q Hq. rewrite retained_app; [by apply Hs|]. apply Ho.
    apply state_topic_not_directory.
Qed.

Lemma documents_states ns c0 dir states : ∀ ps c b,
  topic_namespace b = ns → documents ns c0 dir ps c →
  documents ns c0 dir (ps ++ states) (publish_states env system_clock b c states).2.
Proof.
  induction states as [|p states IH]; intros ps c b Hb H; [by rewrite app_nil_r|].
  cbn [publish_states]. pose proof (documents_state ns c0 dir ps c b p Hb H) as H1.
  rewrite PublishStateLocked_eq in *. rewrite cons_middle, app_assoc. by apply IH.
Qed.
Lemma publish_states_bridge states : ∀ b c,
  ∃ n, (publish_states env system_clock b c states).1 = b <| system_reads := n |>.
Proof.
  induction states as [|p states IH]; intros b c; [by exists (system_reads b); destruct b|].
  cbn [publish_states]. rewrite PublishStateLocked_eq. destruct (IH (read_clock b)
    (publish_retained env c (StateEventTopic (topic_namespace b) (dr_device_id (ps_record p)))
     (state_document p (system_clock (system_reads b))) state_failed)) as [n ->]. by exists n.
Qed.

(** A bridge that still sends. *)
Definition attached (ns : string) (b : RuntimeExternalBridge) : Prop :=
  enabled b = true ∧ mqtt b = true ∧ logger b = true ∧ topic_namespace b = ns.

Definition current (ns : string) (c0 : MqttClient) (ps : list PublishedState)
    (s : RuntimeExternalBridge * MqttClient) : Prop :=
  attached ns s.1 ∧ documents ns c0 (Some (device_directory s.1)) ps s.2.

Lemma snapshot_current ns c0 dir ps b c states :
  attached ns b → documents ns c0 dir ps c →
  current ns c0 (ps ++ states) (PublishFullSnapshot env system_clock b c states).
Proof.
  intros (He & Hm & Hl & Hn) H0. unfold PublishFullSnapshot. rewrite He. cbn [negb].
  set (b1 := update _ b). assert (attached ns b1) as Hb by (by split_and!).
  clearbody b1. destruct Hb as (He1 & Hm1 & Hl1 & Hn1). rewrite Hm1, Hl1. cbn [negb orb].
  pose proof (documents_directory ns c0 dir ps c b1 Hn1 H0) as H1.
  rewrite PublishDirectoryLocked_eq in *. cbn [snd] in H1.
  pose proof (documents_states ns c0 _ states ps _ (read_clock b1) Hn1 H1) as H2.
  destruct (publish_states_bridge states (read_clock b1) (publish_retained env c
    (DeviceDirectoryTopic (topic_namespace b1))
    (directory_document (device_directory b1) (system_clock (system_reads b1))) directory_failed))
    as [n En].
  unfold current. rewrite En. split; [by split_and!|exact H2].
Qed.

Lemma publish_current ns c0 ps b c p :
  current ns c0 ps (b, c) → current ns c0 (ps ++ [p]) (Publish env system_clock b c p).
Proof.
  intros [(He & Hm & Hl & Hn) H]. cbn [fst snd] in *. unfold Publish. rewrite He. cbn [negb].
  destruct (directory_step_spec (device_directory b) (OpUpdate (DirectoryEntryFor p))
    (dir_entries (device_directory b)) (same_entries_refl _)) as [_ Hu]. cbn [directory_step] in Hu.
  set (u := Update _ _) in *. set (b1 := update _ b).
  assert (attached ns b1) as (He1 & Hm1 & Hl1 & Hn1) by (by split_and!).
  assert (device_directory b1 = u.2) as Hd by done. clearbody b1. rewrite Hm1, Hl1. cbn [negb orb].
  pose proof (documents_state ns c0 _ ps c b1 p Hn1 H) as H1. rewrite PublishStateLocked_eq in *.
  destruct u.1.
  - rewrite PublishDirectoryLocked_eq. split; [by split_and!|].
    by apply (documents_directory ns c0 _ _ _ (read_clock b1) Hn1 H1).
  - rewrite <- Hu, <- Hd in H1. split; [by split_and!|exact H1].
Qed.

Lemma same_current ns c0 ps b c c' :
  adds_only plain c c' → current ns c0 ps (b, c) → current ns c0 ps (b, c').
Proof. intros Ha [H1 H2]. split; [done|]. by eapply documents_plain. Qed.

Lemma step_current ns c0 ps s e :
  current ns c0 ps s → enabled (bridge_step s e).1 = true →
  current ns c0 (ps ++ announces e) (bridge_step s e).
Proof.
  destruct s as [b c]. intros H He.
  destruct e; cbn [announces bridge_step] in *; rewrite ?app_nil_r; try (apply same_current with c; [|done]).
  - by apply publish_current.
  - destruct H. by eapply snapshot_current.
  - unfold PublishSet. case_match; [done|]. apply adds_PublishCommandSet.
  - unfold PublishAck. case_match; [apply adds_PublishAck|done].
  - unfold ReplayRegistrations. case_match; [done|].
    pose proof (adds_Replay env c config_namespace) as Ha.
    destruct (ReplayRetainedRegistrations _ _ _) as [[] t]; cbn [snd] in Ha; [done|].
    case_match; [by apply adds_only_emit|done].
  - unfold Diagnose. case_match; [done|by apply adds_only_emit].
  - unfold Inform. case_match; [done|by apply adds_only_emit].
  - done.
  - destruct (elsewhere e) eqn:E; [by apply adds_client_step|done].
Qed.

(** The directory follows the announcements. *)
Lemma step_directory s e m :
  enabled s.1 = true → same_entries (dir_entries (device_directory s.1)) m →
  same_entries (dir_entries (device_directory (bridge_step s e).1))
    (foldl directory_spec m (directory_op e)).
Proof.
  destruct s as [b c]. cbn [fst]. intros He H.
  destruct e; cbn [bridge_step directory_op foldl]; try done.
  - destruct (directory_step_spec (device_directory b) (OpUpdate (DirectoryEntryFor published)) m H) as [Hs _].
    unfold Publish. rewrite He. cbn [negb]. set (b1 := update _ b).
    assert (device_directory b1 = (Update (device_directory b) (DirectoryEntryFor published)).2) as E by done.
    clearbody b1. case_match; [cbn [fst]; by rewrite E|]. rewrite PublishStateLocked_eq.
    case_match; [rewrite PublishDirectoryLocked_eq|]; cbn [fst];
      change (device_directory (read_clock (read_clock b1))) with (device_directory b1);
      change (device_directory (read_clock b1)) with (device_directory b1); by rewrite E.
  - destruct (directory_step_spec (device_directory b) (OpReplace (DirectoryEntryFor <$> states)) m H) as [Hs _].
    unfold PublishFullSnapshot. rewrite He. cbn [negb]. set (b1 := update _ b).
    assert (device_directory b1 = (Replace (device_directory b) (DirectoryEntryFor <$> states)).2) as E by done.
    clearbody b1. case_match; [cbn [fst]; by rewrite E|]. rewrite PublishDirectoryLocked_eq.
    match goal with |- context [publish_states _ _ ?b ?c ?l] =>
      destruct (publish_states_bridge l b c) as [n ->] end.
    change (same_entries (dir_entries (device_directory b1)) (directory_spec m (OpReplace (DirectoryEntryFor <$> states)))).
    by rewrite E.
Qed.

Lemma enabled_before s e : enabled (bridge_step s e).1 = true → enabled s.1 = true.
Proof.
  destruct s as [b c]. destruct e; cbn [bridge_step fst]; try done.
  - unfold Publish. destruct (enabled b) eqn:E; [done|]. cbn. congruence.
  - unfold PublishFullSnapshot. destruct (enabled b) eqn:E; [done|]. cbn. congruence.
Qed.
Lemma enabled_run events : ∀ s, enabled (bridge_run s events).1 = true → enabled s.1 = true.
Proof.
  induction events as [|e events IH]; intros s H; [done|]. by eapply enabled_before, IH.
Qed.

Lemma run_current ns c0 events : ∀ ps m s,
  current ns c0 ps s → same_entries (dir_entries (device_directory s.1)) m →
  enabled (bridge_run s events).1 = true →
  current ns c0 (ps ++ (events ≫= announces)) (bridge_run s events) ∧
  same_entries (dir_entries (device_directory (bridge_run s events).1))
    (foldl directory_spec m (events ≫= directory_op)).
Proof.
  induction events as [|e events IH]; intros ps m s Hc Hs He; [by rewrite app_nil_r|].
  pose proof (enabled_run events _ He) as He1. pose proof (enabled_before _ _ He1) as He0.
  cbn [mbind list_bind]. rewrite app_assoc, foldl_app. apply IH; [by apply step_current| |done].
  by apply step_directory.
Qed.

(** C22: From a full snapshot on, while the bridge is attached to the client and whatever is
    sent, received or reconnected in between: unless a failed publication was logged,
    the directory the broker retains is the current one, the document it retains for a
    device is the last state announced of that device, and the entries of the directory
    are the last ones announced. *)
Theorem retained_documents_current b0 c0 states events b c :
  mqtt b0 = true → logger b0 = true →
  bridge_run (b0, c0) (BrSnapshot states :: events) = (b, c) → enabled b = true →
  let ns := topic_namespace b0 in
  let all := BrSnapshot states :: events in
  ∃ new, outputs c = outputs c0 ++ new ∧
    (LoggedError directory_failed ∉ new →
       ∃ t, retained (DeviceDirectoryTopic ns) (outputs c)
            = Some (directory_document (device_directory b) t)) ∧
    (LoggedError state_failed ∉ new → ∀ id p, latest id (all ≫= announces) = Some p →
       ∃ t, retained (StateEventTopic ns id) (outputs c) = Some (state_document p t)) ∧
    same_entries (dir_entries (device_directory b))
      (foldl directory_spec ∅ (all ≫= directory_op)).
Proof.
  intros Hm Hl Hrun He ns all.
  assert (enabled (bridge_run (b0, c0) all).1 = true) as He'.
  { change all with (BrSnapshot states :: events). by rewrite Hrun. }
  change (bridge_run (b0, c0) all) with (bridge_run (bridge_step (b0, c0) (BrSnapshot states)) events)
    in He'.
  pose proof (enabled_run _ _ He') as He1. pose proof (enabled_before _ _ He1) as He0.
  assert (attached ns b0) as Hb by (by split_and!).
  assert (documents ns c0 None [] c0) as H0.
  { exists []. rewrite app_nil_r. split; [done|]. by split. }
  pose proof (snapshot_current ns c0 None [] b0 c0 states Hb H0) as Hc.
  pose proof (step_directory (b0, c0) (BrSnapshot states) _ He0 (same_entries_refl _)) as Hd.
  destruct (run_current ns c0 events ([] ++ states) _ _ Hc Hd He') as [[_ (new & E & H1 & H2)] Hs].
  change (bridge_run (bridge_step (b0, c0) (BrSnapshot states)) events)
    with (bridge_run (b0, c0) all) in *. change (bridge_run (b0, c0) all = (b, c)) in Hrun.
  change (PublishFullSnapshot env system_clock b0 c0 states) with (bridge_step (b0, c0) (BrSnapshot states)) in *.
  change (bridge_run (bridge_step (b0, c0) (BrSnapshot states)) events)
    with (bridge_run (b0, c0) all) in *. rewrite Hrun in *. cbn [fst snd] in *.
  exists new. split_and!; [done|naive_solver|naive_solver|exact Hs].
Qed.
End Runs.

(** ** Witness *)
Module Example.
#[local] Existing Instance codec_lib.
#[local] Existing Instance MqttClientFacts.Example.order.

Definition record (online : bool) : DeviceRecord :=
  {| dr_device_id := "d1"; dr_school_id := 1; dr_school_name := "S"; dr_dcdw_label := Some "A";
     dr_model_version := "m"; dr_status := if online then kOnline else kOffline;
     dr_last_seen_at := Some 5; dr_latest_telemetry := None; dr_telemetry_received_at := None;
     dr_revision := 3; dr_device_type := kCnsBox; dr_capabilities := None; dr_product := None;
     dr_version := None |}.
Definition published (online : bool) : PublishedState :=
  {| ps_record := record online; ps_reason := kRegistrationOnline; ps_degraded := false |}.

Definition bridge : RuntimeExternalBridge :=
  MakeExternalBridge <| mqtt := true |> <| logger := true |> <| topic_namespace := "cns" |>.

(** The device goes offline, across a reconnection and an acknowledgement. *)
Definition events : list BridgeEvent :=
  [BrClient (EvDisconnect 1); BrAck "cns/sources/a/config/ack" "{}"; BrClient (EvConnect 0);
   BrPublish (published false)].
Definition final : RuntimeExternalBridge * MqttClient :=
  bridge_run MqttClientFacts.Example.environment MqttClientFacts.Example.config (λ n, Z.of_nat n)
    (bridge, MakeMqttClient) (BrSnapshot [published true] :: events).

Lemma retained_documents_current_witness :
  enabled final.1 = true ∧
  same_entries (dir_entries (device_directory final.1)) {["d1" := DirectoryEntryFor (published false)]}.
Proof.
  split; [vm_compute; reflexivity|].
  destruct (retained_documents_current MqttClientFacts.Example.environment
    MqttClientFacts.Example.config (λ n, Z.of_nat n) bridge MakeMqttClient [published true] events
    final.1 final.2) as (new & _ & _ & _ & H); [reflexivity|reflexivity| |vm_compute; reflexivity|exact H].
  apply surjective_pairing.
Defined.

(** What is retained at the end is the state and the directory with the device offline. *)
Example retained_offline :
  retained (StateEventTopic "cns" "d1") (outputs final.2) = Some (state_document (published false) 2) ∧
  retained (DeviceDirectoryTopic "cns") (outputs final.2)
    = Some (directory_document (device_directory final.1) 3).
Proof. vm_compute. by split. Qed.
End Example.
