(* ===== verification/CommandOperations.v ===== *)
(** * CommandOperations: the database operations a command service waits for

    Every operation in the table of the service was submitted and accepted, and leaves
    the table only with its answer: a service that was closed, which takes no answers
    any more, waits for what was under way for ever. *)

From Stdlib Require Import ZArith Lia.
From S2P Require Import Prelude Json DeviceMessage DeviceRegistry.
From S2P Require Import CommandTypes CommandState CommandRouter SourceRequest CommandPolicy.
From S2P Require Import DirtyState DeviceService PostgresWorker CommandService CommandServiceFacts.
From stdpp Require Import options.

(** The operation [id] is waited for. *)
Definition awaited (s : CommandService) (id : Z) : Prop := is_Some (operations_ s !! id).

(** The task an operation of the table was submitted with. *)
Definition matches (op : Operation) (task : CommandDatabaseTask) : Prop :=
  match o_kind op, task with
  | kFind, FindCommandTask _ _ | kFindByIdForConvergence, FindCommandByIdTask _
  | kTransition, TransitionCommandTask _ _ _ _ | kCleanup, CleanupCommandsTask _ _ => True
  | kInsert, InsertCommandTask record =>
      let context := o_context op in
      x_record context = Some record ∧ c_command_type record = x_command_type context ∧
      c_request_payload record = default JNull (ComparisonPayload (x_parsed context))
  | _, _ => False
  end.

(** The submissions carry consecutive identifiers: the next one, when they do. *)
Definition number (next : option Z) (o : Output) : option Z :=
  match next, o with
  | Some n, TaskSubmitted id _ _ => if id =? n then Some (u64 (n + 1)) else None
  | _, _ => next
  end.

(** The submissions of a run are numbered one after the other. *)
Lemma submissions_cons o outs :
  submissions (o :: outs) = (if submission o then 1 else 0) + submissions outs.
Proof. unfold submissions. cbn [List.filter]. destruct (submission o); cbn [length]; lia. Qed.

Lemma numbered_from outs : ∀ a b,
  foldl number (Some a) outs = Some b → 0 < a → a + submissions outs <= max_u64 →
  (∀ id task accepted, TaskSubmitted id task accepted ∈ outs → a <= id < b) ∧
  (∀ id task task' x y, TaskSubmitted id task x ∈ outs → TaskSubmitted id task' y ∈ outs → task = task') ∧
  b = a + submissions outs.
Proof.
  assert (∀ l, foldl number None l = None) as Hnone by (induction l as [|[] l IH]; done).
  induction outs as [|o outs IH]; intros a b H Ha Hlt.
  { cbn in H. simplify_eq. split_and!; [by intros ??? ?%elem_of_nil|by intros ????? ?%elem_of_nil|unfold submissions; cbn; lia]. }
  cbn [foldl] in H. rewrite submissions_cons in *. destruct (submission o) eqn:Es; cycle 1.
  { assert (number (Some a) o = Some a) as En by by destruct o. rewrite En in H.
    destruct (IH a b H Ha Hlt) as (H1 & H2 & H3).
    split_and!; [..|lia]; intros *; rewrite !elem_of_cons; intros [<-|?]; try done; [by eapply H1|].
    intros [<-|?]; [done|by eapply H2]. }
  destruct o as [i t acc| | | |]; try done. cbn [number] in H.
  destruct (i =? a) eqn:E; [|by rewrite Hnone in H]. apply Z.eqb_eq in E as ->.
  assert (0 <= submissions outs) as Hpos by (unfold submissions; lia).
  rewrite u64_small in H by lia. destruct (IH (a + 1) b H) as (H1 & H2 & H3); [lia|lia|].
  split_and!; [| |lia].
  - intros id task accepted [[= -> _ _]|Hin]%elem_of_cons; [lia|].
    specialize (H1 _ _ _ Hin). lia.
  - intros id task task' x y [[= -> -> _]|Hx]%elem_of_cons [[= -> _]|Hy]%elem_of_cons; try done.
    + specialize (H1 _ _ _ Hy). lia.
    + specialize (H1 _ _ _ Hx). lia.
    + by eapply H2.
Qed.

(** From [s] to [t] no operation was given up, and those that are new were submitted. *)
Definition awaits (s t : CommandService) : Prop :=
  ∃ new, outputs t = outputs s ++ new ∧
    foldl number (Some (next_operation_id_ s)) new = Some (next_operation_id_ t) ∧
    (∀ id, awaited s id → awaited t id) ∧
    (∀ id op, operations_ t !! id = Some op →
       operations_ s !! id = Some op ∨ ∃ task, TaskSubmitted id task true ∈ new ∧ matches op task).

#[export] Instance awaits_preorder : PreOrder awaits.
Proof.
  split.
  - intros s. exists []. rewrite app_nil_r. auto.
  - intros s t u (a & Ea & Da & Ka & Na) (b & Eb & Db & Kb & Nb). exists (a ++ b).
    rewrite Eb, Ea, app_assoc, foldl_app, Da. split_and!; [done|done|auto|].
    intros id op [H|(task & H & Hm)]%Nb.
    + apply Na in H as [H|(task & H & Hm)]; [by left|right]. exists task. set_solver.
    + right. exists task. set_solver.
Qed.

Create HintDb awaiting.

Section Awaits.
Context `{JL : JsonLib, MO : MapOrder} (env : Environment) (cfg : Configuration).

(** An update of the other members. *)
Lemma awaits_same s t u :
  awaits s t → outputs u = outputs t → operations_ u = operations_ t →
  next_operation_id_ u = next_operation_id_ t → awaits s u.
Proof. unfold awaits, awaited. intros H -> -> ->. exact H. Qed.

Ltac awaits_update :=
  match goal with
  | |- awaits _ (update _ ?t) =>
      apply (awaits_same _ t); [|generalize t; intros; reflexivity..]
  end.
#[local] Hint Extern 0 (awaits ?s ?s) => reflexivity : awaiting.
#[local] Hint Extern 2 (awaits _ (update _ _)) => awaits_update : awaiting.
Ltac awaits_cases := cbv zeta; repeat case_match; simplify_eq; eauto 12 with awaiting.

Lemma awaits_emit s t o : submission o = false → awaits s t → awaits s (emit t o).
Proof.
  intros Ho (new & E & D & K & N). exists (new ++ [o]). unfold awaited in *. cbn.
  rewrite E, <- app_assoc, foldl_snoc, D. split_and!; [done|by destruct o|done|].
  intros id op [H|(task & H & Hm)]%N; [by left|right]. exists task. set_solver.
Qed.
#[local] Hint Resolve awaits_emit : awaiting.
#[local] Hint Extern 1 (submission _ = _) => reflexivity : awaiting.
Lemma awaits_Diagnose s t o : awaits s t → awaits s (Diagnose t o).
Proof. by apply awaits_emit. Qed.
Lemma awaits_Inform s t o : awaits s t → awaits s (Inform t o).
Proof. by apply awaits_emit. Qed.
#[local] Hint Resolve awaits_Diagnose awaits_Inform : awaiting.

Lemma awaits_Submit s t kind ctx task :
  matches {| o_kind := kind; o_context := ctx |} task →
  awaits s t → awaits s (Submit env t kind ctx task).2.
Proof.
  intros Hm H. etrans; [exact H|]. clear H. unfold Submit. cbv zeta.
  destruct (submit_reply env _); cbn [snd].
  - exists [TaskSubmitted (next_operation_id_ t) task true]. unfold awaited, emplace. cbn.
    rewrite Z.eqb_refl. split_and!; [done|done|..]; intros id; [|intros op]; case_match;
      rewrite ?lookup_insert_is_Some', ?lookup_insert_Some; auto.
    intros [[<- <-]|[_ ?]]; [right|by left]. exists task. set_solver.
  - exists [TaskSubmitted (next_operation_id_ t) task false]. unfold awaited. cbn.
    rewrite Z.eqb_refl. auto.
Qed.
#[local] Hint Resolve awaits_Submit : awaiting.
#[local] Hint Extern 1 (matches _ _) => exact I : awaiting.
Lemma matches_insert s ctx id target :
  let p := prepare_record s ctx (new_record ctx id) in
  matches {| o_kind := kInsert; o_context := ctx <| x_target := target |> <| x_record := Some p.1 |> |}
    (InsertCommandTask p.1).
Proof.
  intros p. split; [done|]. unfold p, prepare_record, fail_record, new_record. cbn.
  repeat case_match; done.
Qed.
#[local] Hint Resolve matches_insert : awaiting.

Lemma awaits_ack s t topic payload : awaits s t → awaits s (publish_source_ack env t topic payload).
Proof. intros. unfold publish_source_ack. awaits_cases. Qed.
#[local] Hint Resolve awaits_ack : awaiting.
Lemma awaits_Reject s t id rid e now type :
  awaits s t → awaits s (Reject env cfg t id rid e now type).
Proof. apply awaits_ack. Qed.
Lemma awaits_PublishAck s t ctx now : awaits s t → awaits s (PublishAck env cfg t ctx now).
Proof. intros. unfold PublishAck. awaits_cases. Qed.
#[local] Hint Resolve awaits_Reject awaits_PublishAck : awaiting.
Lemma awaits_transition s t ctx task :
  awaits s t → awaits s (SubmitTransitionOrDefer env t ctx task).
Proof. intros. unfold SubmitTransitionOrDefer, defer. awaits_cases. Qed.
#[local] Hint Resolve awaits_transition : awaiting.
Lemma awaits_retry s t : awaits s t → awaits s (RetryDeferredTransitions env t).
Proof. intros. unfold RetryDeferredTransitions, defer. awaits_cases. Qed.
Lemma awaits_PublishRecord s t ctx now : awaits s t → awaits s (PublishRecord env cfg t ctx now).
Proof. intros. unfold PublishRecord, publish_failed. awaits_cases. Qed.
Lemma awaits_remember s t ctx now : awaits s t → awaits s (RememberCompletedCommand cfg t ctx now).
Proof. intros. unfold RememberCompletedCommand. awaits_cases. Qed.
Lemma awaits_forget s t id : awaits s t → awaits s (forget_command t id).
Proof. intros. unfold forget_command. awaits_cases. Qed.
Lemma awaits_set_active s t id ctx : awaits s t → awaits s (set_active t id ctx).
Proof. intros. unfold set_active. awaits_cases. Qed.
#[local] Hint Resolve awaits_retry awaits_PublishRecord awaits_remember awaits_forget
  awaits_set_active : awaiting.
Lemma awaits_device_ack s t id payload type now :
  awaits s t → awaits s (HandleDeviceAck env cfg t id payload type now).
Proof.
  intros. unfold HandleDeviceAck, TryHandleLateDeviceAck, unmatched_ack, keep_early_ack,
    apply_device_ack. awaits_cases.
Qed.
#[local] Hint Resolve awaits_device_ack : awaiting.
Lemma awaits_message s m now : awaits s (HandleMessage env cfg s m now).
Proof. unfold HandleMessage, HandleRequest. awaits_cases. Qed.
Lemma awaits_found s t ctx e now : awaits s t → awaits s (handle_found env cfg t ctx e now).
Proof. intros. unfold handle_found, answer_duplicate. awaits_cases. Qed.
Lemma awaits_converge s t ctx r now :
  awaits s t → awaits s (ConvergeAfterConflict env cfg t ctx r now).
Proof. intros. unfold ConvergeAfterConflict. awaits_cases. Qed.
Lemma awaits_settle s t k ctx q r now :
  awaits s t → awaits s (settle_written env cfg t k ctx q r now).
Proof. intros. unfold settle_written, replay_early_ack. awaits_cases. Qed.
#[local] Hint Resolve awaits_found awaits_converge awaits_settle : awaiting.
Lemma awaits_written s t k ctx r now :
  awaits s t → awaits s (handle_written env cfg t k ctx r now).
Proof. intros. unfold handle_written, answer_duplicate. awaits_cases. Qed.
#[local] Hint Resolve awaits_written : awaiting.
Lemma awaits_completion s c now : awaits s (HandleCompletion env s c now).
Proof. unfold HandleCompletion. awaits_cases. Qed.
Lemma awaits_cleanup s t now : awaits s t → awaits s (schedule_cleanup env cfg t now).
Proof. intros. unfold schedule_cleanup. awaits_cases. Qed.
Lemma awaits_check s t now id : awaits s t → awaits s (check_command env cfg now t id).
Proof. intros. unfold check_command, time_out, start_recovery. awaits_cases. Qed.
#[local] Hint Resolve awaits_cleanup awaits_check : awaiting.
Lemma awaits_timeouts s t now :
  awaits s t → awaits s (ProcessTimeoutsAndRecovery env cfg t now).
Proof.
  intros H. unfold ProcessTimeoutsAndRecovery. generalize (map_order (active_commands_
    (schedule_cleanup env cfg t now))).*1. intros ids.
  induction ids as [|id ids IH] using rev_ind; [by apply awaits_cleanup|].
  rewrite foldl_snoc. by apply awaits_check.
Qed.
Lemma awaits_housekeeping s now : awaits s (housekeeping env cfg s now).
Proof. apply awaits_timeouts, awaits_retry. reflexivity. Qed.

Lemma awaits_online s id now : awaits s (OnTargetOnline env cfg s id now).
Proof.
  unfold OnTargetOnline. apply awaits_timeouts. generalize (map_order (active_commands_ s)).
  intros l. induction l as [|[command_id ctx] l IH] using rev_ind; [reflexivity|].
  rewrite foldl_snoc. awaits_cases.
Qed.
Lemma awaits_load s commands : awaits s (LoadActive cfg s commands).
Proof.
  unfold LoadActive. case_match; [by auto with awaiting|].
  clear. induction commands as [|r commands IH] using rev_ind; [reflexivity|].
  rewrite foldl_snoc. unfold load_command. awaits_cases.
Qed.

(** An answer takes its own operation out of the table. *)
Definition answered_operation (s : CommandService) (id : Z) : CommandService :=
  s <| operations_ := delete id (operations_ s) |>
    <| outstanding_operations_ := u64 (outstanding_operations_ s - 1) |>.
Lemma awaits_result s r now :
  awaits (if decide (awaited s (cd_operation_id r)) then answered_operation s (cd_operation_id r) else s)
    (HandleDatabaseResult env cfg s r now).
Proof.
  unfold HandleDatabaseResult, answered_operation, awaited.
  destruct (operations_ s !! cd_operation_id r) as [o|] eqn:E;
    (case_decide as Hd; [|done || by destruct Hd]); [|by destruct Hd].
  unfold handle_operation_error, handle_operation_value, HandleTransitionConflict.
  set (t := update _ _). clearbody t. awaits_cases.
Qed.

(** ** A step of the service *)

(** Between [s] and [t]: what is waited for was so before, its answers being still
    queued, or was submitted; and it stays so unless its answer is taken. *)
Definition follows (s t : CommandService) : Prop :=
  ∃ new, outputs t = outputs s ++ new ∧
    foldl number (Some (next_operation_id_ s)) new = Some (next_operation_id_ t) ∧
    ∀ id op, operations_ t !! id = Some op →
      (∃ task, TaskSubmitted id task true ∈ new ∧ matches op task) ∨
      (operations_ s !! id = Some op ∧
       ∀ r, r ∈ database_results_ s → cd_operation_id r = id → r ∈ database_results_ t).
Definition steps (s t : CommandService) : Prop :=
  follows s t ∧
  ∀ id, awaited s id → (∀ r, r ∈ database_results_ s → cd_operation_id r ≠ id) → awaited t id.

Lemma awaits_steps s t :
  awaits s t → (∀ r, r ∈ database_results_ s → r ∈ database_results_ t) → steps s t.
Proof.
  intros (new & E & D & K & N) H. split; [|auto]. exists new. split_and!; [done|done|].
  intros id op [?|?]%N; [right; auto|by left].
Qed.

Lemma process_one_steps s now : steps s (default s (process_one env cfg s now)).
Proof.
  unfold process_one. destruct (database_results_ s) as [|r rest] eqn:E.
  - destruct (publish_completions_ s) as [|c rest]; [destruct (messages_ s) as [|m rest]|]; cbn.
    + apply awaits_steps; [reflexivity|auto].
    + set (u := update _ s). pose proof (frame_message env cfg u m now) as []. apply awaits_steps.
      * etrans; [|apply awaits_message]. by apply (awaits_same s s).
      * rewrite frame_results. by unfold u.
    + set (u := update _ s). pose proof (frame_completion env u c now) as []. apply awaits_steps.
      * etrans; [|apply awaits_completion]. by apply (awaits_same s s).
      * rewrite frame_results. by unfold u.
  - cbn. set (u := s <| database_results_ := rest |>).
    pose proof (frame_result env cfg u r now) as []. change (database_results_ u) with rest in frame_results.
    destruct (awaits_result u r now) as (new & En & D & K & N).
    set (v := if decide _ then _ else _) in *.
    assert (∀ id, operations_ v !! id = if decide (id = cd_operation_id r) then None else operations_ s !! id)
      as Hv.
    { intros id. unfold v, awaited, answered_operation. case_decide as Hd; cbn.
      - destruct (decide (id = _)) as [->|]; [by rewrite lookup_delete_eq|by rewrite lookup_delete_ne].
      - destruct (decide (id = _)) as [->|]; [by apply eq_None_not_Some|done]. }
    assert (outputs v = outputs s ∧ next_operation_id_ v = next_operation_id_ s) as [Eo En']
      by (unfold v; by case_decide).
    rewrite Eo in En. rewrite En' in D. split.
    + exists new. split_and!; [done|done|]. intros id op Hop.
      destruct (N id op Hop) as [H|H]; [right|by left]. rewrite Hv in H.
      case_decide as Hid; [done|]. split; [done|]. intros q Hq <-. rewrite frame_results.
      rewrite E in Hq. apply elem_of_cons in Hq as [->|?]; [done|assumption].
    + intros id Ha Hno. apply K. unfold awaited. rewrite Hv. case_decide as Hid; [|done].
      exfalso. apply (Hno r); [rewrite E; left|done].
Qed.

#[local] Ltac frame_one :=
  split; (reflexivity || (exists []; symmetry; apply app_nil_r)).

Lemma frame_online s id now : frame s (OnTargetOnline env cfg s id now).
Proof.
  unfold OnTargetOnline. apply frame_timeouts. generalize (map_order (active_commands_ s)).
  intros l. induction l as [|[command_id ctx] l IH] using rev_ind; [reflexivity|].
  rewrite foldl_snoc. etrans; [exact IH|]. repeat case_match; first [reflexivity | frame_one].
Qed.
Lemma frame_load s commands : frame s (LoadActive cfg s commands).
Proof.
  unfold LoadActive. case_match; [by apply frame_Diagnose|].
  clear. induction commands as [|r commands IH] using rev_ind; [reflexivity|].
  rewrite foldl_snoc. etrans; [exact IH|]. unfold load_command, set_active.
  repeat case_match; first [reflexivity | frame_one].
Qed.

Lemma command_step_steps s op :
  op ≠ OpCancelOutstandingWork → steps s (command_step env cfg s op).
Proof.
  intros Hop. destruct op; try done; cbn [command_step].
  all: try (apply awaits_steps; [apply (awaits_same s s)|]; done).
  - unfold TryPush. case_match; (apply awaits_steps; [apply (awaits_same s s)|]; done).
  - unfold PushDatabaseResult. case_match; (apply awaits_steps; [apply (awaits_same s s); done|]); cbn; set_solver.
  - unfold PushPublishCompletion. case_match; (apply awaits_steps; [apply (awaits_same s s)|]; done).
  - apply process_one_steps.
  - apply awaits_steps; [apply awaits_housekeeping|].
    by rewrite (frame_results _ _ (frame_housekeeping env cfg s now)).
  - apply awaits_steps; [apply awaits_online|].
    by rewrite (frame_results _ _ (frame_online s device_id now)).
  - apply awaits_steps; [apply awaits_load|]. by rewrite (frame_results _ _ (frame_load s commands)).
  - unfold SetMqttAvailable. case_match; (apply awaits_steps; [apply (awaits_same s s)|]; done).
Qed.

Lemma command_step_follows s op : follows s (command_step env cfg s op).
Proof.
  destruct op; try (by apply command_step_steps).
  exists []. rewrite app_nil_r. by split_and!.
Qed.

(** ** A closed service

    It takes no answers: [stranded] is an operation under way whose answer has not come. *)
Definition stranded (s : CommandService) (id : Z) : Prop :=
  closed_ s = true ∧ awaited s id ∧ ∀ r, r ∈ database_results_ s → cd_operation_id r ≠ id.

Lemma command_step_results s op :
  (closed_ s = true → closed_ (command_step env cfg s op) = true) ∧
  ∀ r, r ∈ database_results_ (command_step env cfg s op) →
    r ∈ database_results_ s ∨ (closed_ s = false ∧ op = OpPushDatabaseResult r).
Proof.
  assert (∀ u t, frame u t → closed_ u = closed_ s →
    (∀ r, r ∈ database_results_ u → r ∈ database_results_ s) →
    (closed_ s = true → closed_ t = true) ∧
    ∀ r, r ∈ database_results_ t →
      r ∈ database_results_ s ∨ (closed_ s = false ∧ op = OpPushDatabaseResult r)) as Hf.
  { intros u t H Hc Hr. rewrite (frame_closed _ _ H), (frame_results _ _ H), Hc. auto. }
  destruct op; cbn [command_step]; try (split; [done|by left]).
  - unfold TryPush. destruct (_ || _); split; auto.
  - unfold PushDatabaseResult. destruct (closed_ s) eqn:E; [auto|]. cbn. split; [congruence|].
    intros q [?|?%list_elem_of_singleton]%elem_of_app; subst; auto.
  - unfold PushPublishCompletion. destruct (closed_ s) eqn:E; [auto|]. split; [cbn; congruence|auto].
  - unfold process_one. destruct (database_results_ s) as [|r rest] eqn:E.
    + destruct (publish_completions_ s); [destruct (messages_ s)|]; cbn [default id].
      * rewrite E. auto.
      * eapply Hf; [apply frame_message|done|]. cbn. by rewrite E.
      * eapply Hf; [apply frame_completion|done|]. cbn. by rewrite E.
    + cbn [default id]. eapply Hf; [apply frame_result|done|]. cbn. set_solver.
  - apply (Hf s); [apply frame_housekeeping|done|done].
  - apply (Hf s); [apply frame_online|done|done].
  - apply (Hf s); [apply frame_load|done|done].
  - unfold SetMqttAvailable. destruct (_ && _); auto.
  - cbn. split; [done|]. intros r ?%elem_of_nil. done.
Qed.

Lemma stranded_run ops : ∀ s id,
  stranded s id → OpCancelOutstandingWork ∉ ops → stranded (command_run env cfg s ops) id.
Proof.
  induction ops as [|op ops IH]; intros s id (Hc & Ha & Hr) Hn; [done|]. cbn [command_run foldl].
  apply IH; [|set_solver]. destruct (command_step_results s op) as [Hc' Hr'].
  split_and!; [auto| |]; [|intros r [?|[? _]]%Hr'; [auto|congruence]].
  destruct (command_step_steps s op) as [_ K]; [set_solver|]. by apply K.
Qed.
End Awaits.

(** C20: A command service that is closed while an operation is under way never becomes idle
    again, unless its work is cancelled: the answer it waits for is dropped. *)
Theorem closed_service_never_idle `{JL : JsonLib, MO : MapOrder} env cfg sources devices before after id :
  let s := command_run env cfg (MakeCommandService sources devices) before in
  let t := command_run env cfg s after in
  closed_ s = true → awaited s id → (∀ r, r ∈ database_results_ s → cd_operation_id r ≠ id) →
  OpCancelOutstandingWork ∉ after → submissions (outputs t) < max_u64 →
  DatabaseIdle t = false.
Proof.
  intros s t Hc Ha Hr Hn Hlt.
  assert (stranded t id) as (_ & [o Ho] & _) by by apply stranded_run.
  assert (t = command_run env cfg (MakeCommandService sources devices) (before ++ after)) as Et
    by (unfold t, s, command_run; by rewrite foldl_app).
  destruct (ok_counted _ _ (ok_run env cfg sources devices (before ++ after))) as (_ & Hout & _);
    [by rewrite <- Et|]. rewrite <- Et in Hout.
  unfold DatabaseIdle. apply Z.eqb_neq. rewrite Hout. intros E.
  assert (size (operations_ t) = 0%nat) as E0 by lia. apply map_size_empty_inv in E0.
  by rewrite E0, lookup_empty in Ho.
Qed.

(** ** A shutdown while a request is being looked up *)
Definition asked : list CommandOp := [OpTryPush sample_request_message; OpProcessOne 0].
Definition answer : list CommandOp :=
  [OpPushDatabaseResult {| cd_operation_id := 1; cd_value := Ok (OptionalCommand (Some (sample_command kSucceeded))) |};
   OpProcessOne 0].

Lemma closed_service_never_idle_witness :
  DatabaseIdle (sample_command_run (asked ++ answer)) = true ∧
  DatabaseIdle (sample_command_run ((asked ++ [OpCloseCommands]) ++ answer)) = false.
Proof.
  split; [vm_compute; reflexivity|].
  pose proof (closed_service_never_idle (JL := codec_lib) (MO := key_order) sample_command_env
    sample_command_cfg sample_sources sample_directory (asked ++ [OpCloseCommands]) answer 1) as H.
  unfold sample_command_run, sample_commands, command_run in *. rewrite foldl_app. apply H.
  - vm_compute. reflexivity.
  - vm_compute. by eexists.
  - intros r Hr. exfalso. revert Hr. vm_compute. by intros ?%elem_of_nil.
  - unfold answer. rewrite !not_elem_of_cons. split_and!; [done|done|apply not_elem_of_nil].
  - vm_compute. reflexivity.
Defined.
