(* ===== verification/CommandOrigins.v ===== *)
(** * CommandOrigins: where the commands sent to devices come from

    Every publication of a run belongs to one insertion, which is answered only once and
    publishes at most once, or repeats a configuration command; and what the service keeps
    of a command, for its time-outs and its recovery, comes from an insertion the database
    confirmed or from a command it had at the start. *)

From Stdlib Require Import ZArith Lia.
From S2P Require Import Prelude Json DeviceMessage DeviceRegistry.
From S2P Require Import CommandTypes CommandState CommandRouter SourceRequest CommandPolicy.
From S2P Require Import DirtyState DeviceService PostgresWorker CommandService.
From S2P Require Import CommandServiceFacts CommandOperations.
From stdpp Require Import options.

(** ** Publications *)
Definition publication (o : Output) : bool :=
  match o with DevicePublish _ _ _ _ => true | _ => false end.
Definition publications (outs : list Output) : list Output := List.filter publication outs.

Lemma publications_app a b : publications (a ++ b) = publications a ++ publications b.
Proof. apply List.filter_app. Qed.
Lemma publications_none outs : Forall no_publish outs ↔ publications outs = [].
Proof.
  split.
  - induction 1 as [|o outs Ho _ IH]; [done|]. cbn. by destruct o.
  - induction outs as [|o outs IH]; [by constructor|]. destruct o; cbn; try (intros H; constructor; auto; done).
Qed.
Lemma publications_Forall (P : Output → Prop) outs :
  Forall P outs → Forall (λ o, publication o = true ∧ P o) (publications outs).
Proof. rewrite !Forall_forall. intros H o Ho. apply list_elem_of_In, List.filter_In in Ho as [?%list_elem_of_In ?]. auto. Qed.

(** From [s] to [t] at most one publication, and it satisfies [P]. *)
Definition publishes_once (P : Output → Prop) (s t : CommandService) : Prop :=
  ∃ new, outputs t = outputs s ++ new ∧
    (publications new = [] ∨ ∃ o, publications new = [o] ∧ P o).

Section Once.
Context `{JL : JsonLib, MO : MapOrder} (env : Environment) (cfg : Configuration).
Implicit Types s t : CommandService.

Lemma quiet_once P s t : emits no_publish s t → publishes_once P s t.
Proof. intros (new & E & H). exists new. split; [done|]. left. by apply publications_none. Qed.

Lemma once_impl (P Q : Output → Prop) s t :
  (∀ o, P o → Q o) → publishes_once P s t → publishes_once Q s t.
Proof. intros H (new & E & [?|(o & ? & ?)]); exists new; eauto 6. Qed.

Lemma once_from P s t u : outputs t = outputs s → publishes_once P t u → publishes_once P s u.
Proof. unfold publishes_once. by intros ->. Qed.

Lemma once_publish s ctx now : publishes_once (sends cfg ctx) s (PublishRecord env cfg s ctx now).
Proof.
  unfold PublishRecord. destruct (x_record ctx) as [r|] eqn:Er; [|by apply quiet_once, emits_refl].
  destruct (c_target_device_id r) as [device|] eqn:Ed; [|by apply quiet_once, emits_refl].
  destruct (negb _); [by apply quiet_once, emits_refl|].
  destruct (command_payload _ _) as [p|] eqn:Ep; [|by apply quiet_once, emits_refl]. cbv zeta.
  match goal with |- context [emit ?s1 ?o] => set (o1 := o); set (s2 := emit s1 o1) end.
  assert (sends cfg ctx o1) as Ho by (by eexists r, device, p, _, _).
  destruct (publish_reply _ _).
  { exists [o1]. split; [done|]. right. by exists o1. }
  match goal with |- publishes_once _ _ ?u => assert (emits no_publish s2 u) as (new & En & Hn) end.
  { unfold publish_failed. cbv zeta. apply quiet_transition. by apply emits_refl. }
  exists ([o1] ++ new). split; [etrans; [exact En|]; by rewrite app_assoc|].
  right. exists o1. split; [|done]. apply publications_none in Hn. by rewrite publications_app, Hn.
Qed.

Lemma once_written s ctx r now :
  publishes_once (λ o, IsTerminal (c_status r) = false ∧ other_command kInsert (x_record ctx) r = None ∧
                    sends cfg (ctx <| x_record := Some r |>) o)
    s (handle_written env cfg s kInsert ctx r now).
Proof.
  unfold handle_written, answer_duplicate. destruct (other_command _ _ _) as [ins|] eqn:Eother.
  { apply quiet_once. destruct (conflicts _ _); [apply quiet_Reject|apply quiet_PublishAck]; by apply emits_refl. }
  cbn [terminal_behind]. cbv zeta. destruct (bool_decide _ || IsTerminal _) eqn:Et.
  { apply quiet_once, quiet_settle. by apply emits_refl. }
  bool_prop. match goal with |- publishes_once _ _ (PublishRecord _ _ ?u _ _) => apply (once_from _ s u); [done|] end.
  eapply once_impl; [|apply once_publish]. done.
Qed.

(** An answer of the database, the only event of the queues that publishes. *)
Lemma once_one s now :
  publishes_once (λ o, inserts cfg s o ∧ ¬ no_publish o) s (default s (process_one env cfg s now)).
Proof.
  assert (∀ P t, emits no_publish s t → publishes_once P s t) as Hq by (intros; by apply quiet_once).
  unfold process_one. destruct (database_results_ s) as [|result rest] eqn:Er.
  { destruct (publish_completions_ s) as [|c cs].
    - destruct (messages_ s) as [|m ms]; [by apply Hq, emits_refl|]. apply Hq, quiet_message. by apply emits_refl.
    - apply Hq, quiet_completion. by apply emits_refl. }
  cbn [default]. set (s0 := update _ s). unfold HandleDatabaseResult.
  change (operations_ s0) with (operations_ s).
  destruct (operations_ s !! cd_operation_id result) as [op|] eqn:Eo; [|by apply Hq, emits_refl].
  cbv zeta. set (s1 := update _ _). destruct (cd_value result) as [v|e] eqn:Ev; cycle 1.
  { apply Hq, quiet_error. by apply emits_refl. }
  destruct v as [|r|r|rs|n]; try (apply Hq, quiet_value; [done|by apply emits_refl]).
  destruct (decide (o_kind op = kInsert)) as [Ek|Ek];
    [|apply Hq, quiet_value; [done|by apply emits_refl]].
  unfold handle_operation_value. rewrite Ek. cbv zeta.
  apply (once_from _ s s1); [done|]. eapply once_impl; [|apply once_written].
  intros o (Ht & Hoc & Hs). split.
  - right. by exists result, rest, op, r.
  - destruct Hs as (? & ? & ? & ? & ? & _ & _ & _ & ->). tauto.
Qed.

(** The operation answered is waited for no longer. *)
Lemma answered_once s r rest now :
  database_results_ s = r :: rest →
  ∃ new, outputs (default s (process_one env cfg s now)) = outputs s ++ new ∧
    ∀ op, operations_ (default s (process_one env cfg s now)) !! cd_operation_id r = Some op →
      ∃ task, TaskSubmitted (cd_operation_id r) task true ∈ new.
Proof.
  intros E. unfold process_one. rewrite E. cbn. set (u := s <| database_results_ := rest |>).
  destruct (awaits_result env cfg u r now) as (new & En & _ & _ & N). exists new.
  set (v := if decide _ then _ else _) in *.
  assert (outputs v = outputs s) as Eo by (unfold v; by case_decide). rewrite Eo in En.
  split; [exact En|]. intros op Hop. destruct (N _ _ Hop) as [H|(task & H & _)]; [|by exists task].
  exfalso. revert H. unfold v, awaited, answered_operation. case_decide as Hd; cbn.
  - by rewrite lookup_delete_eq.
  - intros H. apply Hd. by exists op.
Qed.

(** ** The publications of a run

    [o] is the command of the insertion submitted as operation [id] and confirmed by the
    database, with the parameters of the request inserted; or, without an insertion of its
    own, it repeats a configuration command. *)
Definition origin (ops : list CommandOp) (outs : list Output) (o : Output) (insertion : option Z) : Prop :=
  match insertion with
  | Some id => ∃ context record answer,
      TaskSubmitted id (InsertCommandTask record) true ∈ outs ∧
      c_command_type record = x_command_type context ∧
      c_request_payload record = default JNull (ComparisonPayload (x_parsed context)) ∧
      OpPushDatabaseResult {| cd_operation_id := id; cd_value := Ok (OneCommand answer) |} ∈ ops ∧
      c_command_id answer = c_command_id record ∧ IsTerminal (c_status answer) = false ∧
      sends cfg (context <| x_record := Some answer |>) o
  | None => ∃ context, x_command_type context = kConfig ∧ sends cfg context o
  end.

Definition origins (ops : list CommandOp) (s : CommandService) (insertions : list (option Z)) : Prop :=
  Forall2 (origin ops (outputs s)) (publications (outputs s)) insertions ∧ NoDup (omap id insertions).

Lemma origin_later ops ops' outs outs' o insertion :
  origin ops outs o insertion → origin (ops ++ ops') (outs ++ outs') o insertion.
Proof.
  destruct insertion as [id|]; [|done]. intros (x & r & a & H1 & H2 & H3 & H4 & H5).
  exists x, r, a. set_solver.
Qed.

Lemma inserts_origin ops s result rest o :
  database_results_ s = result :: rest → (∀ r, r ∈ database_results_ s → OpPushDatabaseResult r ∈ ops) →
  (∀ id op, operations_ s !! id = Some op → ∃ task, TaskSubmitted id task true ∈ outputs s ∧ matches op task) →
  inserts cfg s o → ¬ no_publish o →
  origin ops (outputs s) o (Some (cd_operation_id result)) ∧ is_Some (operations_ s !! cd_operation_id result).
Proof.
  intros Er Hr Hops [?|(q & rest' & op & answer & Eq & Eop & Ek & Ev & Ht & Hoc & Hs)] Hn; [done|].
  rewrite Er in Eq. simplify_eq. split; [|by exists op].
  destruct (Hops _ _ Eop) as (task & Hin & Hm). unfold matches in Hm. rewrite Ek in Hm.
  destruct task as [| |record| | |]; try done. destruct Hm as (Hrec & Htype & Hpayload).
  exists (o_context op), record, answer. split_and!; try done.
  - destruct q as [i value]. cbn in Ev. subst value. apply Hr. rewrite Er. left.
  - revert Hoc. rewrite Hrec. cbn. destruct (String.eqb _ _) eqn:E; [|done]. intros _.
    symmetry. by apply String.eqb_eq.
Qed.

Lemma Forall2_right {A B} (P : A → B → Prop) l k y : Forall2 P l k → y ∈ k → ∃ x, P x y.
Proof. induction 1; [by intros ?%elem_of_nil|]. intros [->|?]%elem_of_cons; eauto. Qed.

(** What is known of the service after [ops]. *)
Record traced (ops : list CommandOp) (s : CommandService) : Prop := {
  tr_numbers : foldl number (Some 1) (outputs s) = Some (next_operation_id_ s);
  tr_operations : ∀ id op, operations_ s !! id = Some op →
    ∃ task, TaskSubmitted id task true ∈ outputs s ∧ matches op task;
  tr_results : ∀ r, r ∈ database_results_ s → OpPushDatabaseResult r ∈ ops;
  tr_origins : submissions (outputs s) < max_u64 →
    ∃ insertions, origins ops s insertions ∧
      ∀ i, Some i ∈ insertions → operations_ s !! i = None
}.

Lemma submissions_app a b : submissions (a ++ b) = submissions a + submissions b.
Proof. unfold submissions. rewrite List.filter_app, length_app. lia. Qed.

(** The origins of what one step adds. *)
Definition added (ops : list CommandOp) (s : CommandService) (op : CommandOp)
    (new : list Output) (insertions : list (option Z)) : Prop :=
  Forall2 (origin ops (outputs s)) (publications new) insertions ∧
  (omap id insertions = [] ∨
   ∃ i, omap id insertions = [i] ∧ is_Some (operations_ s !! i) ∧
     ∀ o, operations_ (command_step env cfg s op) !! i = Some o → ∃ task, TaskSubmitted i task true ∈ new).

Lemma step_adds ops s op new :
  traced ops s → outputs (command_step env cfg s op) = outputs s ++ new →
  ∃ insertions, added ops s op new insertions.
Proof.
  intros [_ T2 T3 _] En.
  assert (publications new = [] → ∃ insertions, added ops s op new insertions) as Hnone.
  { intros E. exists []. unfold added. rewrite E. split; [constructor|by left]. }
  assert (∀ now, emits (recovers cfg s now) s (command_step env cfg s op) →
    ∃ insertions, added ops s op new insertions) as Hrec.
  { intros now (new' & E' & H). rewrite E' in En. apply app_inv_head in En as ->.
    exists (replicate (length (publications new)) None). split.
    - apply Forall2_replicate_r; [done|]. eapply Forall_impl; [by apply publications_Forall|].
      intros o [Ho [?|(i & context & r & device & _ & Hc & _ & _ & _ & _ & Hs)]]; [by destruct o|].
      by exists context.
    - left. induction (length (publications new)); [done|]. by cbn. }
  destruct (decide (sends_nothing op)) as [Hop|Hop].
  { destruct (quiet_step env cfg s op Hop) as (new' & E' & H). rewrite E' in En.
    apply app_inv_head in En as ->. by apply Hnone, publications_none. }
  destruct op; try (by destruct Hop); cbn [command_step] in *;
    [|by eapply Hrec, emits_housekeeping|by eapply Hrec, emits_online].
  - destruct (once_one s now) as (new' & E' & H). rewrite E' in En. apply app_inv_head in En as ->.
    destruct H as [H|(o & Ho & Hi & Hp)]; [by apply Hnone|].
    destruct (database_results_ s) as [|r rest] eqn:Er.
    { exfalso. destruct Hi as [?|(? & ? & ? & ? & E & _)]; [done|]. by rewrite Er in E. }
    destruct (inserts_origin ops s r rest o Er ltac:(by rewrite Er) T2 Hi Hp) as [Ho' Hop'].
    destruct (answered_once s r rest now Er) as (new' & E'' & Ha). rewrite E' in E''.
    apply app_inv_head in E'' as ->. exists [Some (cd_operation_id r)]. unfold added. rewrite Ho.
    split; [by repeat constructor|]. right. by exists (cd_operation_id r).
Qed.

Lemma traced_step ops s op : traced ops s → traced (ops ++ [op]) (command_step env cfg s op).
Proof.
  intros T. destruct (command_step_follows env cfg s op) as (new & E & Hn & Ho).
  destruct (command_step_results env cfg s op) as [_ Hr]. destruct (step_adds ops s op new T E) as (more & Hm).
  destruct T as [T1 T2 T3 T4]. split.
  - by rewrite E, foldl_app, T1.
  - intros i o Hop. rewrite E. destruct (Ho i o Hop) as [(task & H & Hmt)|[H _]].
    + exists task. rewrite elem_of_app. auto.
    + destruct (T2 i o H) as (task & ? & ?). exists task. rewrite elem_of_app. auto.
  - intros r [H|[_ ->]]%Hr; apply elem_of_app; [left; by apply T3|right; left].
  - rewrite E, submissions_app. intros Hlt. assert (0 <= submissions new ∧ 0 <= submissions (outputs s)) as [Hp Hp'] by (unfold submissions; lia).
    destruct T4 as (insertions & [HF HN] & HG); [lia|]. destruct Hm as [HF' Hm].
    destruct (numbered_from _ _ _ T1) as (Hb & _ & Hle); [lia|lia|].
    destruct (numbered_from _ _ _ Hn) as (Hb' & _); [lia..|].
    assert (∀ i, Some i ∈ insertions → i < next_operation_id_ s) as Hi.
    { intros i (o & x & r & a & Hin & _)%(Forall2_right _ _ _ _ HF). apply Hb in Hin. lia. }
    assert (∀ i task, TaskSubmitted i task true ∈ new → next_operation_id_ s <= i) as Hnew.
    { intros i task H. apply Hb' in H. lia. }
    exists (insertions ++ more). split; [split|].
    + rewrite E, publications_app. apply Forall2_app; (eapply Forall2_impl; [eassumption|]);
        intros o i Hoi; by apply origin_later.
    + rewrite omap_app. destruct Hm as [->|(i & -> & [o Hsome] & _)]; [by rewrite app_nil_r|].
      apply NoDup_app. split; [done|]. split; [|apply NoDup_singleton].
      intros j Hj ->%list_elem_of_singleton. apply list_elem_of_omap in Hj as ([k|] & Hk & [= ->]).
      apply HG in Hk. congruence.
    + intros i Hi'. apply eq_None_not_Some. intros [o Ho'].
      destruct (Ho i o Ho') as [(task & H & _)|[H _]].
      { apply Hnew in H. apply elem_of_app in Hi' as [Hi'|Hi']; [apply Hi in Hi'; lia|].
        destruct Hm as [Hm|(j & Hm & [oj Hj] & _)].
        - assert (i ∈ omap id more) as Hin by (apply list_elem_of_omap; by exists (Some i)).
          rewrite Hm in Hin. by apply elem_of_nil in Hin.
        - assert (i ∈ omap id more) as Hin by (apply list_elem_of_omap; by exists (Some i)).
          rewrite Hm in Hin. apply list_elem_of_singleton in Hin as ->.
          destruct (T2 _ _ Hj) as (t' & Ht' & _). apply Hb in Ht'. lia. }
      apply elem_of_app in Hi' as [Hi'|Hi']; [apply HG in Hi'; congruence|].
      assert (i ∈ omap id more) as Hin by (apply list_elem_of_omap; by exists (Some i)).
      destruct Hm as [Hm|(j & Hm & [oj Hj] & Hgone)]; rewrite Hm in Hin; [by apply elem_of_nil in Hin|].
      apply list_elem_of_singleton in Hin as ->. destruct (Hgone o Ho') as (task & Ht).
      apply Hnew in Ht. destruct (T2 _ _ Hj) as (t' & Ht' & _). apply Hb in Ht'. lia.
Qed.

Lemma traced_run sources devices ops :
  traced ops (command_run env cfg (MakeCommandService sources devices) ops).
Proof.
  induction ops as [|op ops IH] using rev_ind.
  - split; [done|done|by intros r ?%elem_of_nil|]. intros _. exists [].
    split; [split; constructor|by intros i ?%elem_of_nil].
  - unfold command_run. rewrite foldl_snoc. by apply traced_step.
Qed.

End Once.

(** ** What the service keeps of a command

    [Q] is what is to be known of the type and the request of a command, of its identifier
    and of its target.  It holds of what the service keeps if it holds of the insertions
    the database confirms and of the commands loaded, and if what the database answers to
    a transition or a look-up may stand for it. *)
(** The identifier by which a task finds its command. *)
Definition task_command (task : CommandDatabaseTask) : option string :=
  match task with TransitionCommandTask id _ _ _ | FindCommandByIdTask id => Some id | _ => None end.

Section Kept.
#[local] Set Default Proof Using "Q_record Type*".
Context `{JL : JsonLib, MO : MapOrder} (env : Environment) (cfg : Configuration).
Context (Q : CommandType → ParsedSourceRequest → CommandRecord → Prop).
Context (Q_record : ∀ type parsed r r', c_command_id r' = c_command_id r →
  c_target_device_id r' = c_target_device_id r → Q type parsed r → Q type parsed r').
Context (N : Prop).
Implicit Types s t : CommandService.

Definition kept (context : RequestContext) : Prop :=
  match x_record context with
  | Some record => Q (x_command_type context) (x_parsed context) record
  | None => False
  end.
Definition kept_operation (o : Operation) : Prop :=
  match o_kind o with kTransition | kFindByIdForConvergence => kept (o_context o) | _ => True end.


(** The command a context is about. *)
Definition about (context : RequestContext) : option string := c_command_id <$> x_record context.
Definition filed (id : string) (context : RequestContext) : Prop := kept context ∧ about context = Some id.
Definition deferrable (d : DeferredTransition) : Prop :=
  kept (d_context d) ∧ (N → about (d_context d) = Some (t_command_id (d_task d))).

(** An operation that changes or looks up a command by its identifier was submitted with
    the identifier of the command it is about. *)
Definition named (outs : list Output) (id : Z) (o : Operation) : Prop :=
  match o_kind o with
  | kTransition | kFindByIdForConvergence =>
      N → ∃ task, TaskSubmitted id task true ∈ outs ∧ task_command task = about (o_context o)
  | _ => True
  end.

Record keeps s : Prop := {
  kp_active : map_Forall filed (active_commands_ s);
  kp_publications : map_Forall (λ _, kept) (publications_ s);
  kp_deferred : map_Forall (λ _, deferrable) (deferred_transitions_ s);
  kp_operations : map_Forall (λ _, kept_operation) (operations_ s);
  kp_named : map_Forall (named (outputs s)) (operations_ s)
}.

Lemma named_later outs outs' id o : named outs id o → named (outs ++ outs') id o.
Proof.
  unfold named. destruct (o_kind o); try done; intros H HN; destruct (H HN) as (task & ? & ?);
    exists task; rewrite elem_of_app; auto.
Qed.

(** An update of the other members. *)
Lemma keeps_same s t :
  keeps s → active_commands_ t = active_commands_ s → publications_ t = publications_ s →
  deferred_transitions_ t = deferred_transitions_ s → operations_ t = operations_ s →
  outputs t = outputs s → keeps t.
Proof.
  intros [] H1 H2 H3 H4 H5.
  split; [rewrite H1|rewrite H2|rewrite H3|rewrite H4|rewrite H4, H5]; assumption.
Qed.
Lemma keeps_emit s o : keeps s → keeps (emit s o).
Proof.
  intros []. split; try assumption. eapply map_Forall_impl; [eassumption|]. intros. by apply named_later.
Qed.
Ltac keeps_update :=
  match goal with
  | |- keeps (update _ ?t) => apply (keeps_same t); [|generalize t; intros; reflexivity..]
  | |- keeps (emit ?t _) => apply keeps_emit
  end.
#[local] Hint Extern 2 (keeps _) => keeps_update : command.
Ltac keeps_cases := cbv zeta; repeat case_match; simplify_eq; eauto 8 with command.

Lemma keeps_Diagnose s m : keeps s → keeps (Diagnose s m).
Proof. intros. unfold Diagnose. keeps_cases. Qed.
Lemma keeps_Inform s m : keeps s → keeps (Inform s m).
Proof. intros. unfold Inform. keeps_cases. Qed.
#[local] Hint Resolve keeps_Diagnose keeps_Inform : command.
Lemma keeps_ack s topic payload : keeps s → keeps (publish_source_ack env s topic payload).
Proof. intros. unfold publish_source_ack. keeps_cases. Qed.
Lemma keeps_Reject s id rid e now type : keeps s → keeps (Reject env cfg s id rid e now type).
Proof. apply keeps_ack. Qed.
Lemma keeps_PublishAck s ctx now : keeps s → keeps (PublishAck env cfg s ctx now).
Proof. intros. unfold PublishAck. destruct (x_record ctx); [by apply keeps_ack|done]. Qed.
#[local] Hint Resolve keeps_Reject keeps_PublishAck : command.

Lemma kept_forall_emplace {K V} `{Countable K} (P : K → V → Prop) (m : gmap K V) k v :
  P k v → map_Forall P m → map_Forall P (emplace k v m).
Proof.
  intros Hk Hm. unfold emplace. destruct (m !! k); [done|]. by apply map_Forall_insert_2.
Qed.
Lemma keeps_Submit s kind ctx task :
  keeps s → kept_operation {| o_kind := kind; o_context := ctx |} →
  (kind = kTransition ∨ kind = kFindByIdForConvergence → N → task_command task = about ctx) →
  keeps (Submit env s kind ctx task).2.
Proof.
  intros H Ho Hn. unfold Submit. cbv zeta.
  set (o := TaskSubmitted _ _ _). set (s1 := emit _ o).
  assert (keeps s1) as [] by (apply keeps_emit; by eapply keeps_same).
  destruct (submit_reply _ _) eqn:Er; cbn [snd]; split; try assumption.
  - by apply (kept_forall_emplace (λ _, kept_operation)).
  - apply (kept_forall_emplace (named (outputs s1))); [|assumption]. unfold named. cbn [o_kind o_context].
    destruct kind; try done; intros HN; exists task; (split; [apply elem_of_app; right|by apply Hn; auto]);
      left.
Qed.
Lemma keeps_transition s ctx (t : Transition) :
  keeps s → kept ctx → (N → about ctx = Some (t_command_id t)) → keeps (SubmitTransitionOrDefer env s ctx t).
Proof.
  intros H Hc Hn. unfold SubmitTransitionOrDefer. cbv zeta.
  destruct (keeps_Submit s kTransition ctx (transition_task t) H Hc) as [].
  { intros _ HN. symmetry. by apply Hn. }
  destruct (Submit _ _ _ _ _) as [[] s']; cbn [fst snd] in *; split; try assumption.
  - by apply map_Forall_delete.
  - by apply (map_Forall_insert_2 (λ _, deferrable)).
Qed.
Lemma keeps_retry s : keeps s → keeps (RetryDeferredTransitions env s).
Proof.
  intros H. unfold RetryDeferredTransitions. destruct (negb _); [done|].
  destruct (map_order (deferred_transitions_ s)) as [|[id d] rest] eqn:E; [done|]. cbv zeta.
  assert (deferrable d) as [Hd Hn].
  { apply (kp_deferred s H id). apply map_order_lookup. rewrite E. left. }
  set (s1 := update _ s).
  assert (keeps s1) as H1 by (destruct H; split; try assumption; by apply map_Forall_delete).
  destruct (keeps_Submit s1 kTransition (d_context d) (transition_task (d_task d)) H1 Hd) as [].
  { intros _ HN. symmetry. by apply Hn. }
  destruct (Submit _ _ _ _ _) as [[] s']; cbn [fst snd] in *; split; try assumption.
  by apply (map_Forall_insert_2 (λ _, deferrable)).
Qed.

(** A record with the same identifier and target. *)
Lemma kept_record ctx r r' x :
  kept ctx → x_record ctx = Some r → x_record x = Some r' →
  x_command_type x = x_command_type ctx → x_parsed x = x_parsed ctx →
  c_command_id r' = c_command_id r → c_target_device_id r' = c_target_device_id r → kept x.
Proof. unfold kept. intros H Hr -> -> -> H1 H2. rewrite Hr in H. by eapply Q_record. Qed.

Lemma keeps_publish s ctx now : keeps s → kept ctx → keeps (PublishRecord env cfg s ctx now).
Proof.
  intros H Hc. unfold PublishRecord. destruct (x_record ctx) as [r|] eqn:Er; [|done].
  destruct (c_target_device_id r) as [device|]; [|done]. destruct (negb _); [done|].
  destruct (command_payload _ _) as [p|]; [|done]. cbv zeta.
  match goal with |- context [emit ?s1 ?o] => assert (keeps (emit s1 o)) as H' end.
  { apply keeps_emit. destruct H. split; try assumption. by apply (kept_forall_emplace (λ _, kept)). }
  destruct (publish_reply _ _); [exact H'|]. unfold publish_failed. cbv zeta. apply keeps_transition.
  - destruct H'. split; try assumption. by apply map_Forall_delete.
  - by eapply (kept_record ctx r).
  - by intros _.
Qed.
Lemma keeps_remember s ctx now : keeps s → keeps (RememberCompletedCommand cfg s ctx now).
Proof. intros. unfold RememberCompletedCommand. keeps_cases. Qed.
Lemma keeps_forget s id : keeps s → keeps (forget_command s id).
Proof. intros []. split; try assumption. by apply map_Forall_delete. Qed.
Lemma keeps_set_active s id ctx : keeps s → kept ctx → about ctx = Some id → keeps (set_active s id ctx).
Proof. intros [] Ha Hi. split; try assumption. by apply (map_Forall_insert_2 filed). Qed.
#[local] Hint Extern 1 => match goal with |- N → _ => intros _; reflexivity end : command.
#[local] Hint Extern 1 (about _ = Some _) => reflexivity : command.
#[local] Hint Resolve keeps_transition keeps_publish keeps_remember keeps_forget keeps_set_active : command.

Lemma keeps_apply_ack s ctx r ack type now :
  keeps s → kept ctx → x_record ctx = Some r → keeps (apply_device_ack env cfg s ctx r ack type now).
Proof.
  intros H Hc Hr. unfold apply_device_ack. cbv zeta. apply keeps_transition; [done|..].
  - destruct (is_status _ _); eapply (kept_record ctx r); try done;
      unfold acknowledged; by repeat case_match.
  - intros _. unfold about, acknowledged. by repeat case_match.
Qed.
Lemma keeps_device_ack s device payload type now :
  keeps s → keeps (HandleDeviceAck env cfg s device payload type now).
Proof.
  intros H. unfold HandleDeviceAck. destruct (read_device_ack payload type) as [ack|m]; [|by apply keeps_Diagnose].
  destruct (matching_command _ _ _ _) as [[ctx r]|] eqn:Em; cycle 1.
  { unfold TryHandleLateDeviceAck, unmatched_ack, keep_early_ack. keeps_cases. }
  apply matching_active in Em as (Ha & Hr & _). apply (kp_active s H) in Ha as [Ha _].
  destruct (negb _); [by apply keeps_Diagnose|].
  destruct (is_status (c_status r) kPending); [unfold keep_early_ack; keeps_cases|].
  destruct (negb (is_status (c_status r) kDispatched) && negb _); [done|]. by apply keeps_apply_ack.
Qed.
Lemma keeps_request s id type m now : keeps s → keeps (HandleRequest env cfg s id type m now).
Proof.
  intros H. unfold HandleRequest. cbv zeta.
  assert (∀ k ctx task, k = kFind → keeps (Submit env s k ctx task).2) as Hs
    by (intros k ctx task ->; apply keeps_Submit; [done..|by intros [?|?]]).
  repeat case_match; try (by apply keeps_Reject); try done; [by apply Hs|by apply keeps_Reject, Hs].
Qed.
Lemma keeps_message s m now : keeps s → keeps (HandleMessage env cfg s m now).
Proof.
  intros H. unfold HandleMessage. cbv zeta.
  repeat case_match; try done; by (apply keeps_device_ack || apply keeps_request).
Qed.
Lemma keeps_found s ctx existing now : keeps s → keeps (handle_found env cfg s ctx existing now).
Proof.
  intros H. unfold handle_found, answer_duplicate. destruct existing as [r|].
  { destruct (conflicts _ _); [by apply keeps_Reject|by apply keeps_PublishAck]. }
  cbv zeta. apply keeps_Submit; [|exact I|by intros [?|?]]. by eapply keeps_same.
Qed.

(** What the database answers to a transition or a look-up. *)
Definition stands (ctx : RequestContext) (r : CommandRecord) : Prop :=
  (kept ctx → ∀ r0, x_record ctx = Some r0 → Q (x_command_type ctx) (x_parsed ctx) r) ∧
  (N → about ctx = Some (c_command_id r)).
Lemma kept_stands ctx r x :
  kept ctx → stands ctx r → x_record x = Some r → x_command_type x = x_command_type ctx →
  x_parsed x = x_parsed ctx → kept x.
Proof.
  intros H [Hr _]. pose proof (Hr H) as Hr'. unfold kept in *. intros -> -> ->.
  destruct (x_record ctx) as [r0|]; [by apply (Hr' r0)|done].
Qed.

Lemma keeps_converge s ctx current now :
  keeps s → kept ctx → stands ctx current → keeps (ConvergeAfterConflict env cfg s ctx current now).
Proof.
  intros H Hc Hr. unfold ConvergeAfterConflict. destruct (x_record ctx) as [desired|] eqn:Ed; [|done]. cbv zeta.
  assert (kept (ctx <| x_record := Some current |> <| x_target := TargetFor s current |>)) as Ha
    by by eapply (kept_stands ctx current).
  repeat case_match; eauto 6 with command. apply keeps_transition; [done|by eapply (kept_record ctx desired)|].
  intros HN. destruct Hr as [_ Hr]. specialize (Hr HN). unfold about in *. by rewrite Ed in Hr.
Qed.
Lemma keeps_settle s kind ctx requested r now :
  keeps s → kept ctx → about ctx = Some (c_command_id r) →
  keeps (settle_written env cfg s kind ctx requested r now).
Proof.
  intros H Hc Hr. unfold settle_written. cbv zeta.
  set (s1 := PublishAck env cfg s ctx now). assert (keeps s1) as H1 by by apply keeps_PublishAck.
  set (s2 := match x_target ctx with Some _ => _ | None => s1 end).
  assert (keeps s2) as H2 by (unfold s2; repeat case_match; eauto with command).
  match goal with |- keeps (let '(_, _) := ?p in _) => assert (keeps p.1 ∧ kept p.2 ∧ about p.2 = about ctx) as (H3 & Hc3 & Hr3) end.
  { destruct (x_target ctx), (x_device_ack_business_status ctx) as [text|]; try done.
    destruct (ack_persisted _ _); [|done]. split_and!; [by apply keeps_Inform|exact Hc|done]. }
  match goal with |- keeps (let '(_, _) := ?p in _) => destruct p as [s3 ctx3] end. cbn [fst snd] in *.
  destruct (IsTerminal (c_status r)); [eauto with command|].
  assert (keeps (set_active s3 (c_command_id r) ctx3)) as H4
    by (apply keeps_set_active; [done..|by rewrite Hr3]).
  destruct (is_status _ _); [|done]. unfold replay_early_ack.
  destruct (early_device_acks_ _ !! _); [|done]. apply keeps_device_ack. by eapply keeps_same.
Qed.

(** What the database answers to an operation. *)
Definition answer_ok (o : Operation) (value : CommandDatabaseValue) : Prop :=
  let context := o_context o in
  match o_kind o, value with
  | kTransition, OneCommand r | kFindByIdForConvergence, OptionalCommand (Some r) => stands context r
  | kInsert, OneCommand r =>
      other_command kInsert (x_record context) r = None → Q (x_command_type context) (x_parsed context) r
  | _, _ => True
  end.

Lemma keeps_written s o r now :
  keeps s → kept_operation o → o_kind o = kTransition ∨ o_kind o = kInsert → answer_ok o (OneCommand r) →
  keeps (handle_written env cfg s (o_kind o) (o_context o) r now).
Proof.
  intros H Ho Hk Ha. unfold handle_written. destruct (other_command _ _ _) as [ins|] eqn:Eo.
  { unfold answer_duplicate. destruct (conflicts _ _); [by apply keeps_Reject|by apply keeps_PublishAck]. }
  destruct (terminal_behind _ _ r) as [desired|] eqn:Et.
  { unfold terminal_behind in Et. repeat step_match. apply keeps_transition; [done| |].
    - unfold kept_operation in Ho. by destruct (o_kind o).
    - intros _. unfold about. match goal with E : x_record _ = Some _ |- _ => by rewrite E end. }
  cbv zeta. assert (kept ((o_context o) <| x_record := Some r |>)) as Hc.
  { unfold answer_ok, kept_operation in *. destruct Hk as [Hk|Hk]; rewrite Hk in *.
    - by eapply (kept_stands (o_context o) r).
    - exact (Ha Eo). }
  destruct (_ || _); [by apply keeps_settle|]. apply keeps_publish; [by apply keeps_set_active|done].
Qed.
Lemma keeps_value s o v now :
  keeps s → kept_operation o → answer_ok o v → keeps (handle_operation_value env cfg s o v now).
Proof.
  intros H Ho Ha. pose proof (λ r, keeps_written s o r now H Ho) as Hw.
  unfold handle_operation_value. cbv zeta. unfold kept_operation, answer_ok in *.
  destruct (o_kind o), v as [|[r|]|r| |]; try (by apply keeps_Diagnose); try done;
    try (by apply keeps_found); try (by apply keeps_converge); apply Hw; auto.
Qed.
Lemma keeps_error s o e : keeps s → kept_operation o → keeps (handle_operation_error env s o e).
Proof.
  intros H Ho. unfold handle_operation_error, HandleTransitionConflict. cbv zeta.
  destruct (x_record (o_context o)) as [r|] eqn:Er; [|keeps_cases].
  destruct (bool_decide (o_kind o = kTransition) && _) eqn:Ek; [|keeps_cases].
  apply andb_true_iff in Ek as [Ek _]. apply bool_decide_eq_true in Ek.
  unfold kept_operation in Ho. rewrite Ek in Ho.
  match goal with |- context [Submit env s ?k ?c ?t] =>
    assert (keeps (Submit env s k c t).2) as H2; [|destruct (Submit env s k c t) as [[] s2]] end.
  { apply keeps_Submit; [done|exact Ho|]. intros _ _. unfold about. cbn. by rewrite Er. }
  { exact H2. }
  apply keeps_Diagnose. by eapply keeps_same.
Qed.
Lemma keeps_result s r now :
  keeps s →
  (∀ o v, operations_ s !! cd_operation_id r = Some o → cd_value r = Ok v → answer_ok o v) →
  keeps (HandleDatabaseResult env cfg s r now).
Proof.
  intros H Ha. unfold HandleDatabaseResult. destruct (operations_ s !! _) as [o|] eqn:Eo; [|done]. cbv zeta.
  assert (kept_operation o) as Ho by exact (kp_operations s H _ _ Eo).
  set (s1 := update _ _).
  assert (keeps s1) as H1 by (destruct H; split; try assumption; by apply map_Forall_delete).
  destruct (cd_value r) eqn:Ev; [apply keeps_value; auto|by apply keeps_error].
Qed.
Lemma keeps_completion s c now : keeps s → keeps (HandleCompletion env s c now).
Proof.
  intros H. unfold HandleCompletion. destruct (publications_ s !! _) as [ctx|] eqn:Ep; [|done].
  assert (kept ctx) as Hc by exact (kp_publications s H _ _ Ep). cbv zeta.
  set (s1 := update _ _).
  assert (keeps s1) as H1 by (destruct H; split; try assumption; by apply map_Forall_delete).
  destruct (x_record ctx) as [r|] eqn:Er; [|done]. destruct (pc_result c && _); [done|].
  apply keeps_transition; [done|eapply (kept_record ctx r); try done|intros _; unfold about];
    unfold completed_record; by destruct (pc_result c).
Qed.
Lemma keeps_cleanup s now : keeps s → keeps (schedule_cleanup env cfg s now).
Proof.
  intros H. assert (∀ t n, keeps t → keeps (t <| next_cleanup_at_ := n |>)) as Hn
    by (intros t n Ht; by eapply keeps_same).
  unfold schedule_cleanup. cbv zeta. destruct (next_cleanup_at_ s); [|by apply Hn].
  destruct (_ <=? _); [|done]. apply Hn. destruct (negb _ && _); [|done]. by apply keeps_Submit.
Qed.
Lemma keeps_check s now id : keeps s → keeps (check_command env cfg now s id).
Proof.
  intros H. unfold check_command. destruct (active_commands_ s !! id) as [ctx|] eqn:Ea; [|done].
  destruct (kp_active s H _ _ Ea) as [Hc Hi].
  destruct (x_record ctx) as [r|] eqn:Er; [|done].
  assert (keeps (start_recovery s id)) as Hs by by eapply keeps_same.
  destruct (_ <=? _).
  - destruct (recovering s id); [done|]. unfold time_out. cbv zeta.
    apply keeps_transition; [done|by eapply (kept_record ctx r)|].
    intros _. unfold about in *. by rewrite Er in Hi.
  - destruct (_ || _ || _); [done|]. destruct (c_target_device_id r); [|done].
    destruct (is_online _ _); [|done]. by apply keeps_publish.
Qed.
Lemma keeps_timeouts s now : keeps s → keeps (ProcessTimeoutsAndRecovery env cfg s now).
Proof.
  intros H. unfold ProcessTimeoutsAndRecovery. generalize (map_order (active_commands_
    (schedule_cleanup env cfg s now))).*1. intros ids.
  induction ids as [|id ids IH] using rev_ind; [by apply keeps_cleanup|].
  rewrite foldl_snoc. by apply keeps_check.
Qed.
Lemma keeps_online s id now : keeps s → keeps (OnTargetOnline env cfg s id now).
Proof.
  intros H. unfold OnTargetOnline. apply keeps_timeouts. generalize (map_order (active_commands_ s)).
  intros l. induction l as [|[command_id ctx] l IH] using rev_ind; [done|].
  rewrite foldl_snoc. repeat case_match; try done; by eapply keeps_same.
Qed.

(** A command loaded at the start, with the request read back from what was stored. *)
Definition loads (r : CommandRecord) : Prop :=
  IsTerminal (c_status r) = false → ∀ kind,
    Q (c_command_type r) (ParseRequest (json_dump (c_request_payload r)) kind (c_command_type r)) r.
Lemma keeps_load s commands : keeps s → Forall loads commands → keeps (LoadActive cfg s commands).
Proof.
  intros H Hl. unfold LoadActive. destruct (_ <? _)%nat; [by apply keeps_Diagnose|].
  induction commands as [|r commands IH] using rev_ind; [done|]. apply Forall_app in Hl as [Hl Hr].
  apply Forall_cons in Hr as [Hr _]. rewrite foldl_snoc. unfold load_command.
  destruct (CatalogFind _ _) as [source|]; [|by apply IH]. destruct (IsTerminal _) eqn:Et; [by apply IH|].
  apply keeps_set_active; [by apply IH|by apply Hr|done].
Qed.

(** A step of the service. *)
Definition step_keeps s (op : CommandOp) : Prop :=
  match op with
  | OpProcessOne _ => ∀ r rest o v, database_results_ s = r :: rest →
      operations_ s !! cd_operation_id r = Some o → cd_value r = Ok v → answer_ok o v
  | OpLoadActive commands => Forall loads commands
  | _ => True
  end.
Lemma keeps_step s op : keeps s → step_keeps s op → keeps (command_step env cfg s op).
Proof.
  intros H Ha. destruct op; cbn [command_step]; try (by eapply keeps_same).
  - unfold TryPush. destruct (_ || _); [done|by eapply keeps_same].
  - unfold PushDatabaseResult. destruct (closed_ s); [done|by eapply keeps_same].
  - unfold PushPublishCompletion. destruct (closed_ s); [done|by eapply keeps_same].
  - unfold process_one. cbn [step_keeps] in Ha. destruct (database_results_ s) as [|r rest] eqn:Er; cbn [default id].
    + destruct (publish_completions_ s); [destruct (messages_ s)|]; cbn [default id];
        [done|apply keeps_message|apply keeps_completion]; by eapply keeps_same.
    + apply keeps_result; [by eapply keeps_same|]. intros o v Ho Hv. by apply (Ha r rest).
  - by apply keeps_timeouts, keeps_retry.
  - by apply keeps_online.
  - by apply keeps_load.
  - unfold SetMqttAvailable. cbv zeta. destruct (_ && _); by eapply keeps_same.
  - destruct H as [H1 _ _ _ _]. split; [exact H1|apply map_Forall_empty..].
Qed.
Lemma keeps_make sources devices : keeps (MakeCommandService sources devices).
Proof. split; apply map_Forall_empty. Qed.
End Kept.
#[local] Existing Instance codec_lib.
