(* ===== verification/RuntimeBundle.v ===== *)
(** * RuntimeBundle: RuntimeBundle of src/route_service/src/service_environment.cpp

    The services of a running process and their threads: how they are put together,
    started and stopped, and the handlers the client is given.  The callbacks that join
    the services to the client are in [ExternalBridge]. *)

From Stdlib Require Import ZArith Lia.
From S2P Require Import Prelude Json DeviceTopic DeviceMessage DeviceRegistry DirtyState.
From S2P Require Import BoundedQueue Ingress CommandTypes CommandState CommandRouter AppConfig Migration.
From S2P Require Import DeviceService PostgresWorker CommandService CommandIngress.
From S2P Require Import MqttClient PostgresStore PostgresBridge ExternalBridge.
From stdpp Require Import options.

(** ** SelfOwnedRuntimeThread of service_runner.cpp

    Whether the thread can be joined, and whether a stop was requested. *)
Record SelfOwnedRuntimeThread := { Joinable : bool; stop_requested : bool }.

Definition MakeThread : SelfOwnedRuntimeThread := {| Joinable := false; stop_requested := false |}.

(** [None]: an exception, of a thread that was started already or that cannot be
    created. *)
Definition StartThread (creates : bool) (t : SelfOwnedRuntimeThread) :
    option SelfOwnedRuntimeThread :=
  if Joinable t then None
  else if creates then Some {| Joinable := true; stop_requested := false |} else None.

Definition RequestThreadStop (t : SelfOwnedRuntimeThread) : SelfOwnedRuntimeThread :=
  {| Joinable := Joinable t; stop_requested := true |}.
Definition JoinThread (t : SelfOwnedRuntimeThread) : SelfOwnedRuntimeThread :=
  {| Joinable := false; stop_requested := stop_requested t |}.
Definition DetachThread (t : SelfOwnedRuntimeThread) : SelfOwnedRuntimeThread :=
  {| Joinable := false; stop_requested := stop_requested t |}.

(** ** The bundle

    [database] is the worker with the store of its bridge, [migrations] the list that
    bridge checks after a reconnection; the registry is the one of [service], which
    [command_service] reads. *)
Record RuntimeBundle := {
  config : AppConfig;
  migrations : list Migration;
  database : DatabaseThread;
  service : DeviceService;
  command_service : CommandService;
  ingress : DeviceIngress;
  command_ingress : CommandIngress;
  startup_writes : list DesiredDeviceWrite;
  database_thread : SelfOwnedRuntimeThread;
  business_thread : SelfOwnedRuntimeThread
}.

#[export] Instance RuntimeBundle_members : Members RuntimeBundle := λ b,
  {| config := config b; migrations := migrations b; database := database b; service := service b;
     command_service := command_service b; ingress := ingress b;
     command_ingress := command_ingress b; startup_writes := startup_writes b;
     database_thread := database_thread b; business_thread := business_thread b |}.

#[export] Instance DatabaseThread_members : Members DatabaseThread := λ d,
  {| worker := worker d; store := store d |}.

(** What [Initialize] reads of the configuration. *)
Definition device_configuration (c : AppConfig) : DeviceService.Configuration :=
  {| DeviceService.topic_namespace := mq_topic_namespace (ac_mqtt c);
     telemetry_interval := seconds (ds_telemetry_flush_interval (ac_device_state c));
     offline_timeout := seconds (ds_offline_timeout (ac_device_state c));
     has_snapshots := true;
     queue_capacity := Z.to_nat (qu_mqtt_inbound_capacity (ac_queues c)) |}.

Definition max_inflight (c : AppConfig) : nat := Z.to_nat (cc_max_inflight_commands (ac_command c)).
Definition reconnect_interval (c : AppConfig) : TimePoint :=
  seconds (db_reconnect_interval (ac_database c)).

Definition command_configuration (c : AppConfig) : CommandService.Configuration :=
  {| CommandService.topic_namespace_ := mq_topic_namespace (ac_mqtt c);
     max_inflight_commands_ := max_inflight c;
     config_timeout_ := seconds (cc_config_timeout (ac_command c));
     control_timeout_ := seconds (cc_control_timeout (ac_command c));
     terminal_retention_ := days (cc_terminal_retention (ac_command c));
     cleanup_interval_ := seconds (cc_cleanup_interval (ac_command c));
     cleanup_batch_size_ := cc_cleanup_batch_size (ac_command c) |}.

Section Bundle.
Context `{JL : JsonLib, MO : MapOrder}.
Context (device_env : DeviceService.Environment).

(** The bundle [StartDeviceRuntime] fills in, after [Initialize]. *)
Definition Initialize (c : AppConfig) (available : list Migration) (store : PostgresStore) (registry : DeviceRegistry)
    (writes : list DesiredDeviceWrite) (sources : SourceCatalog) (active : list CommandRecord) :
    RuntimeBundle :=
  let commands := MakeCommandService sources registry in
  let commands := LoadActive (command_configuration c) commands active in
  {| config := c; migrations := available;
     database := start_thread store;
     service := MakeDeviceService device_env (device_configuration c) registry;
     command_service := SetMqttAvailable commands false;
     ingress := MakeDeviceIngress true true (seconds 30);
     command_ingress := MakeCommandIngress (mq_topic_namespace (ac_mqtt c)) true;
     startup_writes := writes;
     database_thread := MakeThread; business_thread := MakeThread |}.

Definition StartDatabaseThread (creates : bool) (b : RuntimeBundle) : option RuntimeBundle :=
  (λ t, b <| database_thread := t |>) <$> StartThread creates (database_thread b).

(** The loop over the start-up writes: a write the worker refuses is dropped. *)
Definition submit_write (b : RuntimeBundle) (write : DesiredDeviceWrite) : RuntimeBundle :=
  let d := database b in
  let d := d <| worker := (PostgresWorker.SubmitWrite (worker d) write).2 |> in
  b <| database := d |>.

Definition StartBusinessThread (creates : bool) (b : RuntimeBundle) : option RuntimeBundle :=
  (λ t, let b' := foldl submit_write (b <| business_thread := t |>) (startup_writes b) in
        b' <| startup_writes := [] |>) <$> StartThread creates (business_thread b).

Definition RequestStop (b : RuntimeBundle) : RuntimeBundle :=
  b <| business_thread := RequestThreadStop (business_thread b) |>
    <| database_thread := RequestThreadStop (database_thread b) |>
    <| service := CancelOutstandingDatabaseWork (service b) |>
    <| command_service := CancelOutstandingWork (command_service b) |>.

Definition Join (b : RuntimeBundle) : RuntimeBundle :=
  b <| database_thread := JoinThread (database_thread b) |>
    <| business_thread := JoinThread (business_thread b) |>.

Definition Detach (b : RuntimeBundle) : RuntimeBundle :=
  b <| database_thread := DetachThread (database_thread b) |>
    <| business_thread := DetachThread (business_thread b) |>.

(** *** The message handler [StartMqtt] gives to the client

    Both bridges see every message: the first keeps those of its own topics, the second
    hands each to the device service.  [now1] and [now2] are the readings of the steady
    clock by the two rate limiters; the sinks of the bridges do not throw.  The result
    also gives the diagnostics. *)
Definition business_message (b : RuntimeBundle) (message : InboundMessage) (now1 now2 : TimePoint) :
    list string * RuntimeBundle :=
  let '(_, rejected, gate, commands) :=
    CommandIngress.TryPush (command_configuration (config b)) (command_ingress b)
      (command_service b) message now1 in
  let b := b <| command_ingress := gate |> <| command_service := commands |> in
  match handle_begin (ingress b) with
  | None => (rejected, b)
  | Some _ =>
      let (submitted, devices) :=
        if has_submit (ingress b) then DeviceService.TryPush (service b) message
        else (false, service b) in
      let b := b <| service := devices |> in
      let (report, gate) :=
        Handle (ingress b) (Z.of_nat (String.length (m_payload message))) submitted now2 true in
      (rejected ++ (report_text <$> option_list report), b <| ingress := gate |>)
  end.

(** The handler of the completions of publications. *)
Definition publish_completed (b : RuntimeBundle) (completion : PublishCompletion) : RuntimeBundle :=
  b <| command_service := PushPublishCompletion (command_service b) completion |>.
End Bundle.
