(* ===== verification/ServiceEnvironment.v ===== *)
(** * ServiceEnvironment: ServiceEnvironment of src/route_service/src/service_environment.cpp

    The operations [RunService] calls, on the main thread.  An operation that uses a
    pointer or an optional that is not set has no result: [None] is undefined behaviour.
    No operation runs out of memory; a thread may fail to start. *)

From Stdlib Require Import ZArith Lia.
From S2P Require Import Prelude Json Logger DeviceMessage DeviceRegistry DirtyState.
From S2P Require Import Ingress CommandTypes CommandState CommandRouter AppConfig Migration.
From S2P Require Import DeviceService PostgresWorker CommandService CommandIngress ServiceRunner.
From S2P Require Import MqttClient PostgresStore PostgresBridge ExternalBridge RuntimeBundle.
From stdpp Require Import options.

(** ** What is outside the process

    The file named by [config_path], the directory [migrations_path] names, the
    database, the MQTT library, the clocks of the main thread by reading, whether
    a signal handler is refused and a thread cannot be created, and what the drain of
    the threads meets. *)
Record World := {
  wd_config_file : option string;
  wd_migrations_path : string;
  wd_migrations : Listing;
  wd_database : DatabaseEnvironment;
  wd_mqtt : MqttEnvironment;
  wd_device : DeviceService.Environment;
  wd_system_clock : nat → TimePoint;
  wd_steady_clock : nat → TimePoint;
  wd_signal_refused : Z → bool;
  wd_thread_created : StartOperation → bool;
  wd_drain : DrainOperations
}.

Definition SIGINT : Z := 2.
Definition SIGTERM : Z := 15.

Inductive LogLine := Line (level : Level) (text : string) | StandardError (text : string).

(** ** State

    [mqtt] is the client with the configuration it holds, [mqtt_users] the number of
    users of the MQTT library, [requested] the shutdown flag, [database_calls] the calls
    to a database that refused a connection; the log holds the lines of the main thread
    itself. *)
Record State := {
  config : option AppConfig;
  logger : option Level;
  available : list Migration;
  store : option PostgresStore;
  applied : list AppliedMigration;
  plan : option MigrationPlan;
  mqtt : option (MqttConfig * MqttClient);
  registry : DeviceRegistry;
  startup_writes : list DesiredDeviceWrite;
  command_sources : SourceCatalog;
  active_commands : list CommandRecord;
  external_bridge : option RuntimeExternalBridge;
  runtime_bundle : option RuntimeBundle;
  next_mqtt_subscription_retry : TimePoint;
  last_external_snapshot_generation : option Z;
  accepting_device_messages : bool;
  device_runtime_stopped : bool;
  mqtt_users : nat;
  requested : bool;
  handled : list Z;
  database_calls : nat;
  system_reads : nat;
  steady_reads : nat;
  log : list LogLine
}.

#[export] Instance State_members : Members State := λ s,
  {| config := config s; logger := logger s; available := available s; store := store s;
     applied := applied s; plan := plan s; mqtt := mqtt s; registry := registry s;
     startup_writes := startup_writes s; command_sources := command_sources s;
     active_commands := active_commands s; external_bridge := external_bridge s;
     runtime_bundle := runtime_bundle s;
     next_mqtt_subscription_retry := next_mqtt_subscription_retry s;
     last_external_snapshot_generation := last_external_snapshot_generation s;
     accepting_device_messages := accepting_device_messages s;
     device_runtime_stopped := device_runtime_stopped s; mqtt_users := mqtt_users s;
     requested := requested s; handled := handled s; database_calls := database_calls s;
     system_reads := system_reads s; steady_reads := steady_reads s; log := log s |}.

Definition MakeState : State :=
  {| config := None; logger := None; available := []; store := None; applied := []; plan := None;
     mqtt := None; registry := empty_registry; startup_writes := []; command_sources := ∅;
     active_commands := []; external_bridge := None; runtime_bundle := None;
     next_mqtt_subscription_retry := 0; last_external_snapshot_generation := None;
     accepting_device_messages := false; device_runtime_stopped := true; mqtt_users := 0;
     requested := false; handled := []; database_calls := 0; system_reads := 0;
     steady_reads := 0; log := [] |}.

Section Environment.
Context `{JL : JsonLib, MO : MapOrder, TO : TokenOrder} (w : World).

(** [None] is undefined behaviour. *)
Abbreviation Result A := (option (A * State)%type) (only parsing).
Abbreviation Failure := (expected unit string) (only parsing).

Definition system_now (s : State) : TimePoint * State :=
  (wd_system_clock w (system_reads s), s <| system_reads := S (system_reads s) |>).
Definition steady_now (s : State) : TimePoint * State :=
  (wd_steady_clock w (steady_reads s), s <| steady_reads := S (steady_reads s) |>).

Definition write_log (s : State) (line : LogLine) : State := s <| log := log s ++ [line] |>.

(** ** Start-up *)
Definition LoadConfig (s : State) : Result Failure :=
  match LoadAppConfig (wd_config_file w) with
  | Unexpected e => Some (Unexpected e, s)
  | Ok c => Some (Ok tt, s <| config := Some c |>)
  end.

Definition InitializeLogger (s : State) : Result unit :=
  c ← config s; Some (tt, s <| logger := Some (lg_level (ac_logging c)) |>).

Definition DiscoverMigrations (s : State) : Result Failure :=
  match Migration.DiscoverMigrations (wd_migrations_path w) (wd_migrations w) with
  | Unexpected e => Some (Unexpected e, s)
  | Ok found => Some (Ok tt, s <| available := found |>)
  end.

Definition ConnectPostgres (s : State) : Result Failure :=
  c ← config s;
  _ ← logger s;
  let n := match store s with Some st => calls st | None => database_calls s end in
  match Connect (wd_database w) (ac_database c) true n [] with
  | Unexpected e =>
      Some (Unexpected e,
            s <| database_calls := S n |>
              <| store := (λ st, st <| calls := S n |>) <$> store s |>)
  | Ok connected => Some (Ok tt, s <| store := Some connected |>)
  end.

Definition ReadAppliedMigrations (s : State) : Result Failure :=
  st ← store s;
  let (read, st) := PostgresStore.ReadAppliedMigrations (wd_database w) st in
  let s := s <| store := Some st |> in
  match read with
  | Unexpected e => Some (Unexpected e, s)
  | Ok read => Some (Ok tt, s <| applied := read |>)
  end.

Definition PlanMigrations (apply : bool) (s : State) : Result Failure :=
  match BuildMigrationPlan (available s) (applied s) (if apply then kApply else kCheckOnly) with
  | Unexpected e => Some (Unexpected e, s)
  | Ok planned => Some (Ok tt, s <| plan := Some planned |>)
  end.

Definition PendingMigrationCount (s : State) : Result nat :=
  p ← plan s; Some (length (pending p), s).

(** [std::vector::at] throws when there is no such element: the reply is [None]. *)
Definition ApplyMigration (index : nat) (s : State) : Result (option Failure) :=
  st ← store s;
  p ← plan s;
  match pending p !! index with
  | None => Some (None, s)
  | Some m =>
      let (r, st) := PostgresStore.ApplyMigration (wd_database w) m st in
      Some (Some r, s <| store := Some st |>)
  end.

Definition startup_write (mutation : Mutation) : DesiredDeviceWrite :=
  {| w_record := mut_record mutation; w_revision := dr_revision (mut_record mutation);
     w_metadata := false; w_status := true; w_telemetry := false; w_urgency := kImmediate |}.

Definition LoadDeviceSnapshot (s : State) : Result Failure :=
  st ← store s;
  let (records, st) := LoadDevices (wd_database w) st in
  let s := s <| store := Some st |> in
  match records with
  | Unexpected e => Some (Unexpected e, s)
  | Ok records =>
      match DeviceRegistry.Load records with
      | Unexpected e => Some (Unexpected e, s)
      | Ok loaded =>
          let s := s <| registry := loaded |> <| startup_writes := [] |> in
          let (now, s) := system_now s in
          c ← config s;
          let (mutations, loaded) :=
            ExpireInactive (registry s) now (seconds (ds_offline_timeout (ac_device_state c))) in
          Some (Ok tt, s <| registry := loaded |> <| startup_writes := startup_write <$> mutations |>)
      end
  end.

Definition too_many_active : string := "活动命令数量超过配置上限".

Definition LoadCommandState (s : State) : Result Failure :=
  c ← config s;
  st ← store s;
  let max := cc_max_inflight_commands (ac_command c) in
  let (sources, st) :=
    SyncAndLoadCommandSources (wd_database w) (cc_fixed_sources (ac_command c)) st in
  let s := s <| store := Some st |> in
  match sources with
  | Unexpected e => Some (Unexpected e, s)
  | Ok sources =>
      match CatalogLoad sources with
      | Unexpected e => Some (Unexpected e, s)
      | Ok catalog =>
          let s := s <| command_sources := catalog |> in
          let (commands, st) := LoadActiveCommands (wd_database w) (max + 1) st in
          let s := s <| store := Some st |> in
          match commands with
          | Unexpected e => Some (Unexpected e, s)
          | Ok commands =>
              if max <? Z.of_nat (length commands) then Some (Unexpected too_many_active, s)
              else
                let (now, s) := system_now s in
                let (recovered, st) :=
                  RecoverActiveControlCommands (wd_database w) now (max + 1) st in
                let s := s <| store := Some st |> in
                match recovered with
                | Unexpected e => Some (Unexpected e, s)
                | Ok _ =>
                    Some (Ok tt, s <| active_commands :=
                            filter (λ record, c_command_type record = kConfig) commands |>)
                end
          end
      end
  end.

Definition InstallSignalHandlers (s : State) : Result Failure :=
  let s := s <| requested := false |> in
  let failed := Unexpected "安装退出信号处理器失败" in
  if wd_signal_refused w SIGINT then Some (failed, s)
  else
    let s := s <| handled := handled s ++ [SIGINT] |> in
    if wd_signal_refused w SIGTERM then Some (failed, s)
    else Some (Ok tt, s <| handled := handled s ++ [SIGTERM] |>).

(** The client that is replaced is destroyed. *)
Definition CreateMqtt (s : State) : Result Failure :=
  c ← config s;
  _ ← logger s;
  let '(created, users, client) := Create (wd_mqtt w) (ac_mqtt c) (mqtt_users s) in
  match created with
  | Unexpected e => Some (Unexpected e, s <| mqtt_users := users |>)
  | Ok _ =>
      let users :=
        match mqtt s with
        | Some (held, old) => (DestroyMqttClient (wd_mqtt w) held false false users old).1
        | None => users
        end in
      Some (Ok tt, s <| mqtt_users := users |> <| mqtt := Some (ac_mqtt c, client) |>)
  end.

(** ** The device runtime *)
Definition on_bundle (f : RuntimeBundle → RuntimeBundle) (s : State) : State :=
  s <| runtime_bundle := f <$> runtime_bundle s |>.
Definition disable_bridge (s : State) : State :=
  s <| external_bridge := ExternalBridge.Disable <$> external_bridge s |>.

(** The bundle is stopped, joined and given up. *)
Definition rollback (s : State) : State :=
  let s := disable_bridge (on_bundle (λ b, Join (RequestStop b)) s) in
  s <| runtime_bundle := None |> <| device_runtime_stopped := true |>
    <| accepting_device_messages := false |>.

Definition start_reply (b : RuntimeBundle) (operation : StartOperation) : StartReply :=
  let replied (started : option RuntimeBundle) :=
    match started with Some _ => StartReplied (Ok tt) | None => StartThrew end in
  match operation with
  | ConfigureHandler => StartReplied (Ok tt)
  | StartPostgresThread => replied (StartDatabaseThread (wd_thread_created w operation) b)
  | StartDeviceThread => replied (StartBusinessThread (wd_thread_created w operation) b)
  end.

Definition start_effect (s : State) (event : StartEvent) : State :=
  match event with
  | Started ConfigureHandler => s
  | Started StartPostgresThread =>
      on_bundle (λ b, default b (StartDatabaseThread (wd_thread_created w StartPostgresThread) b)) s
  | Started StartDeviceThread =>
      on_bundle (λ b, default b (StartBusinessThread (wd_thread_created w StartDeviceThread) b)) s
  | RolledBack => rollback s
  end.

(** What was moved from the state is empty. *)
Definition StartDeviceRuntime (s : State) : Result Failure :=
  c ← config s;
  st ← store s;
  let ns := mq_topic_namespace (ac_mqtt c) in
  let bridge :=
    MakeExternalBridge <| ExternalBridge.logger := bool_decide (is_Some (logger s)) |>
      <| ExternalBridge.topic_namespace := ns |> in
  let bundle :=
    Initialize (wd_device w) c (available s) (SetInfoSink st true) (registry s)
      (startup_writes s) (command_sources s) (active_commands s) in
  let s :=
    s <| external_bridge := Some bridge |> <| registry := empty_registry |>
      <| startup_writes := [] |> <| command_sources := ∅ |> <| active_commands := [] |>
      <| store := None |> <| runtime_bundle := Some bundle |>
      <| device_runtime_stopped := false |> <| accepting_device_messages := true |> in
  let (events, started) := StartDeviceRuntimeTransaction (start_reply bundle) in
  Some (started, foldl start_effect s events).

Definition disable_intake (b : RuntimeBundle) : RuntimeBundle :=
  b <| ingress := Ingress.Disable (ingress b) |>
    <| command_ingress := CommandIngress.Disable (command_ingress b) |>.
Definition close_services (b : RuntimeBundle) : RuntimeBundle :=
  b <| service := DeviceService.Close (service b) |>
    <| command_service := CommandService.Close (command_service b) |>.

(** The handler of the client is removed. *)
Definition remove_handler (s : State) : option State :=
  match mqtt s with
  | None => Some s
  | Some (held, client) =>
      c ← config s;
      let (result, client) :=
        ConfigureBusinessMessages client false (mq_max_payload_bytes (ac_mqtt c)) in
      let s := s <| mqtt := Some (held, client) |> in
      Some (if negb (is_ok result) && bool_decide (is_Some (logger s))
            then write_log s (Line kError "停止接收设备消息失败") else s)
  end.

Definition StopAcceptingDeviceMessages (s : State) : Result unit :=
  if negb (accepting_device_messages s) then Some (tt, s)
  else
    let s := on_bundle disable_intake (s <| accepting_device_messages := false |>) in
    s ← remove_handler s;
    Some (tt, on_bundle close_services s).

(** What the operations of the drain do to the state of the main thread; one that
    throws has had its effect.  The waits only wait. *)
Definition drain_effect (s : State) (c : DrainCall) : option State :=
  match c with
  | ReadClock | WaitInputDrained _ | WaitDatabaseIdle _ | PendingDevices => Some s
  | FlushDatabase _ =>
      Some (on_bundle (λ b, let d := database b in
                            let d := d <| worker := RequestDrain (worker d) |> in
                            b <| database := d |>) s)
  | ReportTimeout n =>
      _ ← logger s;
      Some (write_log s (Line kError ("数据库排空超时，未持久化设备数量：" +:+ dec (Z.of_nat n))))
  | DisableExternalBridge => Some (disable_bridge s)
  | ServiceRunner.RequestStop => Some (on_bundle RequestStop s)
  | JoinThreads => Some (on_bundle Join s)
  | DetachThreads => Some (on_bundle Detach s)
  end.

Fixpoint drain_effects (s : State) (calls : list DrainCall) : option State :=
  match calls with
  | [] => Some s
  | c :: rest => s' ← drain_effect s c; drain_effects s' rest
  end.

Definition StopDeviceRuntime (timeout : Z) (s : State) : Result bool :=
  if device_runtime_stopped s then Some (true, s)
  else
    let s := s <| device_runtime_stopped := true |> in
    match runtime_bundle s with
    | None => Some (true, s)
    | Some _ =>
        match DrainDeviceRuntime (wd_drain w) timeout [] with
        | (ServiceRunner.Returned drained, calls) =>
            s ← drain_effects s calls;
            Some (drained, s <| runtime_bundle := None |>)
        | _ => None   (* the drain always returns *)
        end
    end.

(** ** MQTT *)

(** A step of [StartMqtt] on the client, which ends it when it fails. *)
Definition on_client (held : MqttConfig) (r : Failure * MqttClient) (s : State)
    (next : MqttClient → State → Result Failure) : Result Failure :=
  let s := s <| mqtt := Some (held, r.2) |> in
  match r.1 with Ok _ => next r.2 s | Unexpected e => Some (Unexpected e, s) end.

Definition StartMqtt (s : State) : Result Failure :=
  match runtime_bundle s with
  | None => Some (Unexpected "设备运行时尚未启动", s)
  | Some _ =>
      bridge ← external_bridge s;
      let s := s <| external_bridge :=
                      Some (bridge <| ExternalBridge.mqtt := bool_decide (is_Some (mqtt s)) |>) |> in
      '(held, client) ← mqtt s;
      c ← config s;
      let ns := mq_topic_namespace (ac_mqtt c) in
      on_client held (ConfigureBusinessMessages client true (mq_max_payload_bytes (ac_mqtt c))) s (λ client s,
      on_client held (ConfigureCommandPublishing client true (max_inflight c)) s (λ client s,
      on_client held (SubscribeDeviceMessages (wd_mqtt w) client ns) s (λ client s,
      on_client held (SubscribeCommandMessages (wd_mqtt w) client ns) s (λ client s,
      on_client held (Start (wd_mqtt w) held client) s (λ _ s, Some (Ok tt, s))))))
  end.

Definition MqttHasTerminalFailure (s : State) : Result bool :=
  owned ← mqtt s; Some (bool_decide (GetRuntimeStatus owned.2 = kTerminalFailure), s).
Definition MqttCallbackStopRequested (s : State) : Result bool :=
  owned ← mqtt s; Some (CallbackStopRequested owned.2, s).
Definition ShutdownRequested (s : State) : Result bool := Some (requested s, s).

(** The retry of the subscriptions, once due, and the request of a snapshot. *)
Definition check_subscriptions (b : RuntimeBundle) (held : MqttConfig) (client : MqttClient)
    (s : State) : State :=
  let (subscribed, client) := EnsureBusinessSubscriptions (wd_mqtt w) client in
  let s := s <| mqtt := Some (held, client) |> in
  let s := match subscribed, logger s with
           | Unexpected e, Some _ => write_log s (Line kWarn ("MQTT业务订阅重试失败：" +:+ e))
           | _, _ => s
           end in
  let generation := BusinessSubscriptionGeneration client in
  if is_ok subscribed && bool_decide (is_Some generation)
     && negb (bool_decide (generation = last_external_snapshot_generation s))
  then s <| runtime_bundle := Some (b <| service := RequestExternalSnapshot (service b) |>) |>
         <| last_external_snapshot_generation := generation |>
  else s.

Definition WaitForNextCheck (s : State) : Result unit :=
  match runtime_bundle s, mqtt s with
  | Some b, Some (held, client) =>
      let commands :=
        SetDatabaseAvailable (command_service b) (IsDatabaseAvailable (worker (database b))) in
      let mqtt_connected := IsConnected client in
      let b := b <| command_service := SetMqttAvailable commands mqtt_connected |> in
      let s := s <| runtime_bundle := Some b |> in
      let (now, s) := steady_now s in
      if mqtt_connected && (next_mqtt_subscription_retry s <=? now) then
        let s := s <| next_mqtt_subscription_retry := now + seconds 5 |> in
        Some (tt, check_subscriptions b held client s)
      else Some (tt, s)
  | _, _ => Some (tt, s)
  end.

(** The main thread is in no callback of the client. *)
Definition StopMqtt (s : State) : Result unit :=
  match mqtt s with
  | None => Some (tt, s)
  | Some (held, client) =>
      Some (tt, s <| mqtt := Some (held, Stop (wd_mqtt w) held false client) |>)
  end.

Definition Info (message : string) (s : State) : Result unit :=
  _ ← logger s; Some (tt, write_log s (Line kInfo message)).
Definition Error (message : string) (s : State) : Result unit :=
  Some (tt, write_log s (match logger s with
                         | Some _ => Line kError message
                         | None => StandardError message
                         end)).

Definition Destroy (s : State) : option State :=
  r ← StopAcceptingDeviceMessages s;
  r ← StopDeviceRuntime 5000 r.2;
  r ← StopMqtt r.2;
  Some r.2.

(** ** The interface of the runner *)
Inductive CallReply :=
| ReplyResult (r : expected unit string) | ReplyFlag (b : bool) | ReplyCount (n : nat)
| ReplyDone | ReplyThrown.

Definition replied {A} (reply : A → CallReply) (r : Result A) : Result CallReply :=
  (λ p, (reply p.1, p.2)) <$> r.

Definition perform (c : Call) (s : State) : Result CallReply :=
  match c with
  | ServiceRunner.LoadConfig => replied ReplyResult (LoadConfig s)
  | ServiceRunner.InitializeLogger => replied (λ _, ReplyDone) (InitializeLogger s)
  | ServiceRunner.DiscoverMigrations => replied ReplyResult (DiscoverMigrations s)
  | ServiceRunner.ConnectPostgres => replied ReplyResult (ConnectPostgres s)
  | ServiceRunner.ReadAppliedMigrations => replied ReplyResult (ReadAppliedMigrations s)
  | ServiceRunner.PlanMigrations apply => replied ReplyResult (PlanMigrations apply s)
  | ServiceRunner.PendingMigrationCount => replied ReplyCount (PendingMigrationCount s)
  | ServiceRunner.ApplyMigration index =>
      replied (λ r, match r with Some r => ReplyResult r | None => ReplyThrown end)
        (ApplyMigration index s)
  | ServiceRunner.LoadDeviceSnapshot => replied ReplyResult (LoadDeviceSnapshot s)
  | ServiceRunner.LoadCommandState => replied ReplyResult (LoadCommandState s)
  | ServiceRunner.InstallSignalHandlers => replied ReplyResult (InstallSignalHandlers s)
  | ServiceRunner.StartDeviceRuntime => replied ReplyResult (StartDeviceRuntime s)
  | ServiceRunner.StopAcceptingDeviceMessages =>
      replied (λ _, ReplyDone) (StopAcceptingDeviceMessages s)
  | ServiceRunner.StopDeviceRuntime timeout => replied ReplyFlag (StopDeviceRuntime timeout s)
  | ServiceRunner.CreateMqtt => replied ReplyResult (CreateMqtt s)
  | ServiceRunner.StartMqtt => replied ReplyResult (StartMqtt s)
  | ServiceRunner.MqttHasTerminalFailure => replied ReplyFlag (MqttHasTerminalFailure s)
  | ServiceRunner.MqttCallbackStopRequested => replied ReplyFlag (MqttCallbackStopRequested s)
  | ServiceRunner.ShutdownRequested => replied ReplyFlag (ShutdownRequested s)
  | ServiceRunner.WaitForNextCheck => replied (λ _, ReplyDone) (WaitForNextCheck s)
  | ServiceRunner.StopMqtt => replied (λ _, ReplyDone) (StopMqtt s)
  | InfoCall message => replied (λ _, ReplyDone) (Info message s)
  | ErrorCall message => replied (λ _, ReplyDone) (Error message s)
  end.

(** What the handler of the signals does. *)
Definition HandleShutdownSignal (s : State) : State := s <| requested := true |>.
End Environment.
