(* ===== verification/ServiceEnvironmentFacts.v ===== *)
(** * ServiceEnvironmentFacts: the main thread

    Every operation [RunService] calls finds the objects it uses; what start-up loads;
    when the services accept messages and when a snapshot of the devices is requested. *)

From Stdlib Require Import ZArith Lia.
From S2P Require Import Prelude Json Logger DeviceMessage DeviceRegistry DirtyState.
From S2P Require Import Ingress CommandTypes CommandState CommandRouter AppConfig Migration.
From S2P Require Import DeviceService PostgresWorker CommandService CommandIngress ServiceRunner.
From S2P Require Import MqttClient MqttClientFacts PostgresStore PostgresBridge ExternalBridge ExternalBridgeFacts RuntimeBundle.
From S2P Require Import ServiceEnvironment.
From stdpp Require Import options.

(** ** The calls a run makes *)
Section Calls.
Context {C : Type}.
Implicit Types tr : list C.

(** Every call of [m] is made where [P] holds of the calls before it. *)
Definition makes {A} (P : list C → C → Prop) (m : Run C A) tr (Q : A → list C → Prop) : Prop :=
  ∃ new, (m tr).2 = tr ++ new ∧ (∀ a c b, new = a ++ c :: b → P (tr ++ a) c) ∧
    match (m tr).1 with Returned x => Q x (tr ++ new) | _ => True end.

Lemma makes_ret {A} P (x : A) tr (Q : A → list C → Prop) : Q x tr → makes P (ret x) tr Q.
Proof.
  intros H. exists []. rewrite !app_nil_r. split; [done|]. split; [|done]. by intros [] c0 b [=].
Qed.

Lemma makes_bind {A B} P (m : Run C A) (k : A → Run C B) tr Q :
  makes P m tr (λ x t, makes P (k x) t Q) → makes P (bind m k) tr Q.
Proof.
  intros (new & E & Hn & HQ). unfold makes, bind. destruct (m tr) as [o t]; cbn [fst snd] in *.
  subst t. destruct o as [x| |]; cbn; [|by exists new..].
  destruct HQ as (new' & E' & Hn' & HQ'). exists (new ++ new'). rewrite app_assoc.
  split; [done|]. split; [|done].
  intros a c0 b H. apply app_eq_inv in H as [(d & -> & H)|(d & -> & H)].
  - destruct d as [|c' d]; cbn in H; subst.
    + specialize (Hn' [] c0 b eq_refl). by rewrite !app_nil_r in Hn'.
    + injection H as <- ->. by apply (Hn a c0 d).
  - rewrite app_assoc. by apply (Hn' d c0 b).
Qed.

Lemma makes_call {A} P (reply : nat → C → option A) c tr (Q : A → list C → Prop) :
  P tr c → (∀ x, reply (length tr) c = Some x → Q x (tr ++ [c])) → makes P (call reply c) tr Q.
Proof.
  intros HP HQ. exists [c]. unfold call. destruct (reply (length tr) c) as [x|] eqn:E; cbn.
  all: split; [done|]; split; [|by auto].
  all: intros [|? [|? ?]] ? b H; simplify_eq/=; by rewrite app_nil_r.
Qed.

Lemma makes_fuel {A} P tr (Q : A → list C → Prop) : makes P (λ t, (OutOfFuel, t)) tr Q.
Proof. exists []. rewrite app_nil_r. split; [done|]. split; [|done]. by intros [] c0 b [=]. Qed.
End Calls.

(** ** The drain always returns *)
Section Drains.
Context (ops : DrainOperations).
Implicit Types (tr : list DrainCall).

Definition ends_by {A} (P : Outcome A → Prop) (m : Run DrainCall A) : Prop := ∀ tr, P (m tr).1.
Definition in_time {A} (o : Outcome A) : Prop := o ≠ OutOfFuel.

Lemma in_time_bind {A B} (m : Run DrainCall A) (k : A → Run DrainCall B) :
  ends_by in_time m → (∀ a, ends_by in_time (k a)) → ends_by in_time (bind m k).
Proof.
  intros Hm Hk tr. specialize (Hm tr). unfold bind. destruct (m tr) as [[a| |] t]; [apply Hk|done..].
Qed.
Lemma in_time_call {A} (reply : nat → DrainCall → option A) c : ends_by in_time (call reply c).
Proof. intros tr. unfold call. by destruct (reply _ _). Qed.
Lemma in_time_ret {A} (a : A) : ends_by in_time (@ret DrainCall A a).
Proof. done. Qed.
#[local] Hint Resolve in_time_call in_time_ret : core.

Lemma body_in_time deadline : ends_by in_time (drain_body ops deadline).
Proof.
  unfold drain_body, wait_if, remaining, drain_now, drain_do.
  repeat first [done | apply in_time_bind; [|intros] | apply in_time_call | case_match].
Qed.

Definition returned {A} (o : Outcome A) : Prop := ∃ a, o = Returned a.

Lemma returned_bind {A B} (m : Run DrainCall A) (k : A → Run DrainCall B) :
  ends_by returned m → (∀ a, ends_by returned (k a)) → ends_by returned (bind m k).
Proof.
  intros Hm Hk tr. destruct (Hm tr) as [a Ha]. unfold bind. destruct (m tr) as [o t]. cbn in Ha.
  subst o. apply Hk.
Qed.
Lemma returned_ret {A} (a : A) : ends_by returned (@ret DrainCall A a).
Proof. intros tr. by exists a. Qed.
Lemma returned_swallowed c : ends_by returned (catch (drain_do ops c) (ret tt)).
Proof. intros tr. unfold catch, drain_do, call, ret. destruct (if _ : bool then _ else _); by eexists. Qed.

Lemma handler_returns : ends_by returned (drain_handler ops).
Proof.
  unfold drain_handler.
  do 3 (apply returned_bind; [apply returned_swallowed|intros _]). apply returned_ret.
Qed.

Lemma drain_returns timeout : ∃ b calls, DrainDeviceRuntime ops timeout [] = (Returned b, calls).
Proof.
  unfold DrainDeviceRuntime, bind, drain_now, call, catch. cbn.
  pose proof (body_in_time (drain_clock ops 0 + timeout * 1000000) [ReadClock]) as H.
  destruct (drain_body _ _ _) as [[b| |] t]; [by eexists _, _| |by destruct H].
  destruct (handler_returns t) as [b Hb]. destruct (drain_handler ops t) as [o u]. cbn in Hb.
  subst o. by eexists _, _.
Qed.
End Drains.

(** ** Objects

    [succeeded tr c]: the call [c] was made and replied without an error. *)
Section Objects.
#[local] Set Default Proof Using "JL MO TO Type*".
#[local] Arguments DestroyMqttClient : simpl never.
#[local] Arguments Create : simpl never.
Context `{JL : JsonLib, MO : MapOrder, TO : TokenOrder} (w : World) (ops : ServiceOperations).

Definition succeeded (tr : list Call) (c : Call) : Prop :=
  ∃ n, tr !! n = Some c ∧ result ops n c = Some (Ok tt).

(** What the other threads do between two operations: they change the bundle, the
    bridge, the client and the flag, but neither make nor destroy one. *)
Definition interferes (s s' : State) : Prop :=
  ∃ flag bundle bridge client,
    s' = s <| requested := flag |> <| runtime_bundle := bundle |>
           <| external_bridge := bridge |> <| mqtt := client |> ∧
    (is_Some bundle ↔ is_Some (runtime_bundle s)) ∧
    (is_Some bridge ↔ is_Some (external_bridge s)) ∧
    (is_Some client ↔ is_Some (mqtt s)).

(** The operations reply what the environment [ops] says. *)
Definition answers (n : nat) (c : Call) (reply : CallReply) : Prop :=
  match reply with
  | ReplyResult r => result ops n c = Some r
  | ReplyFlag b => flag ops n c = Some b
  | ReplyCount k => count ops n c = Some k
  | ReplyDone => completes ops n c = true
  | ReplyThrown => result ops n c = None
  end.

Inductive performed : list Call → State → Prop :=
| performed_none : performed [] MakeState
| performed_call tr s s1 c reply s2 :
    performed tr s → interferes s s1 → perform w c s1 = Some (reply, s2) →
    answers (length tr) c reply → performed (tr ++ [c]) s2.

(** What an operation needs to have been done before. *)
Definition prepared (tr : list Call) (c : Call) : Prop :=
  match c with
  | ServiceRunner.InitializeLogger => succeeded tr ServiceRunner.LoadConfig
  | ServiceRunner.ConnectPostgres | ServiceRunner.CreateMqtt =>
      succeeded tr ServiceRunner.LoadConfig ∧ ServiceRunner.InitializeLogger ∈ tr
  | ServiceRunner.ReadAppliedMigrations =>
      succeeded tr ServiceRunner.ConnectPostgres ∧ ServiceRunner.StartDeviceRuntime ∉ tr
  | ServiceRunner.PendingMigrationCount => ∃ b, succeeded tr (ServiceRunner.PlanMigrations b)
  | ServiceRunner.ApplyMigration _ =>
      succeeded tr ServiceRunner.ConnectPostgres ∧ ServiceRunner.StartDeviceRuntime ∉ tr ∧
      ∃ b, succeeded tr (ServiceRunner.PlanMigrations b)
  | ServiceRunner.LoadDeviceSnapshot | ServiceRunner.LoadCommandState
  | ServiceRunner.StartDeviceRuntime =>
      succeeded tr ServiceRunner.LoadConfig ∧ succeeded tr ServiceRunner.ConnectPostgres ∧
      ServiceRunner.StartDeviceRuntime ∉ tr
  | ServiceRunner.StopDeviceRuntime _ | InfoCall _ => ServiceRunner.InitializeLogger ∈ tr
  | ServiceRunner.StartMqtt =>
      succeeded tr ServiceRunner.LoadConfig ∧ succeeded tr ServiceRunner.CreateMqtt
  | ServiceRunner.MqttHasTerminalFailure | ServiceRunner.MqttCallbackStopRequested =>
      succeeded tr ServiceRunner.CreateMqtt
  | _ => True
  end.

(** Which objects there are. *)
Record objects (tr : list Call) (s : State) : Prop := {
  has_config : succeeded tr ServiceRunner.LoadConfig → is_Some (config s);
  has_logger : ServiceRunner.InitializeLogger ∈ tr → is_Some (logger s);
  has_store : succeeded tr ServiceRunner.ConnectPostgres →
    ServiceRunner.StartDeviceRuntime ∉ tr → is_Some (store s);
  has_plan : (∃ b, succeeded tr (ServiceRunner.PlanMigrations b)) → is_Some (plan s);
  has_client : succeeded tr ServiceRunner.CreateMqtt → is_Some (mqtt s);
  client_config : is_Some (mqtt s) → is_Some (config s);
  bundle_bridge : is_Some (runtime_bundle s) → is_Some (external_bridge s)
}.

(** No operation takes an object away, [StartDeviceRuntime] apart, which moves the store. *)
Record keeps (s s' : State) : Prop := {
  keeps_config : is_Some (config s) → is_Some (config s');
  keeps_logger : is_Some (logger s) → is_Some (logger s');
  keeps_plan : is_Some (plan s) → is_Some (plan s');
  keeps_client : is_Some (mqtt s) → is_Some (mqtt s');
  keeps_bridge : is_Some (external_bridge s) → is_Some (external_bridge s');
  new_client : is_Some (mqtt s') → is_Some (mqtt s) ∨ is_Some (config s');
  new_bundle : is_Some (runtime_bundle s') → is_Some (runtime_bundle s) ∨ is_Some (external_bridge s')
}.
(** ... and the store with them. *)
Definition keeps_all (s s' : State) : Prop := keeps s s' ∧ (is_Some (store s) → is_Some (store s')).

#[local] Instance keeps_preorder : PreOrder keeps.
Proof.
  split; [by split; auto|]. intros s t u [] []. split; eauto; naive_solver.
Qed.
#[local] Instance keeps_all_preorder : PreOrder keeps_all.
Proof. split; [by intros s|]. intros s t u [] []. split; [by etrans|auto]. Qed.

(** Every operation is taken apart into its cases. *)
Ltac cases :=
  repeat match goal with
         | H : Some _ = Some _ |- _ => injection H; clear H; intros; subst
         | H : None = Some _ |- _ => discriminate H
         | H : mbind _ _ = Some _ |- _ => apply bind_Some in H as (? & ? & ?)
         | H : context [let (_, _) := ?x in _] |- _ => destruct x
         | H : context [match ?x with _ => _ end] |- _ => destruct x eqn:?
         | |- context [match ?x with _ => _ end] => destruct x eqn:?
         end; simplify_eq/=.
Ltac keep := split; cbn in *; rewrite ?fmap_is_Some; try by eauto.

Lemma keeps_on_bundle f s : keeps s (on_bundle f s).
Proof. by keep. Qed.
Lemma keeps_disable s : keeps s (disable_bridge s).
Proof. by keep. Qed.
Lemma keeps_rollback s : keeps s (rollback s).
Proof. by keep. Qed.

Lemma keeps_start events : ∀ s, keeps s (foldl (start_effect w) s events).
Proof.
  induction events as [|e events IH]; intros s; [reflexivity|]. cbn [foldl]. etrans; [|apply IH].
  destruct e as [[]|]; cbn [start_effect];
    auto using keeps_on_bundle, keeps_rollback; reflexivity.
Qed.

Lemma keeps_drain calls : ∀ s s', drain_effects s calls = Some s' → keeps_all s s'.
Proof.
  induction calls as [|c calls IH]; intros s s' H; cbn in H; [by simplify_eq|].
  apply bind_Some in H as (t & Ht & H). etrans; [|by apply IH].
  destruct c; cbn [drain_effect] in Ht; try (injection Ht as <-); try reflexivity;
    try by (split; [apply keeps_on_bundle|]).
  - apply bind_Some in Ht as (l & _ & [= <-]). split; [by keep|done].
  - split; [apply keeps_disable|done].
Qed.

Lemma keeps_on_client held r s next s' reply :
  (∀ c t q t', is_Some (mqtt t) → next c t = Some (q, t') → keeps_all t t') →
  is_Some (mqtt s) → on_client held r s next = Some (reply, s') → keeps_all s s'.
Proof.
  intros Hn Hm H. unfold on_client in H. set (t := s <| mqtt := Some (held, r.2) |>) in *.
  assert (keeps_all s t) as K by (split; [by keep|done]).
  destruct r.1; simplify_eq; [|done]. etrans; [exact K|]. by eapply Hn.
Qed.

Lemma keeps_StartMqtt s s' r : StartMqtt w s = Some (r, s') → keeps_all s s'.
Proof.
  unfold StartMqtt. intros H. destruct (runtime_bundle s); [|by simplify_eq].
  apply bind_Some in H as (b & Hb & H). set (t := update _ s) in H.
  assert (keeps_all s t) as K by (split; [by keep|done]). etrans; [exact K|].
  apply bind_Some in H as ([held client] & Hm & H). apply bind_Some in H as (c & Hc & H).
  revert H. do 5 (apply keeps_on_client; [intros ? ? ? ? ?|by eauto]). by intros [= <- <-].
Qed.

Lemma keeps_StartDeviceRuntime s s' r : StartDeviceRuntime w s = Some (r, s') → keeps s s'.
Proof.
  unfold StartDeviceRuntime. intros H. apply bind_Some in H as (c & Hc & H).
  apply bind_Some in H as (st & Hst & H). set (t := update _ _) in H.
  assert (keeps s t) as K by (by keep). etrans; [exact K|]. clearbody t.
  destruct (StartDeviceRuntimeTransaction _). injection H as _ <-. apply keeps_start.
Qed.

Lemma keeps_StopAccepting s s' r : StopAcceptingDeviceMessages s = Some (r, s') → keeps_all s s'.
Proof.
  unfold StopAcceptingDeviceMessages, remove_handler. intros H. cases; (split; [by keep|done]).
Qed.

Lemma keeps_StopDeviceRuntime timeout s s' r :
  StopDeviceRuntime w timeout s = Some (r, s') → keeps_all s s'.
Proof.
  unfold StopDeviceRuntime. intros H. destruct (device_runtime_stopped s); [by simplify_eq|].
  set (t := update _ _) in H. assert (keeps_all s t) as K by (split; [by keep|done]).
  etrans; [exact K|]. clearbody t. destruct (runtime_bundle t); [|by simplify_eq].
  destruct (DrainDeviceRuntime _ _ _) as [[] calls]; try done.
  apply bind_Some in H as (u & Hu & [= <- <-]). etrans; [by eapply keeps_drain|].
  split; [by keep|done].
Qed.

Lemma keeps_WaitForNextCheck s s' r : WaitForNextCheck w s = Some (r, s') → keeps_all s s'.
Proof.
  unfold WaitForNextCheck, steady_now, check_subscriptions. intros H.
  cases; (split; [by keep|done]).
Qed.

Lemma perform_keeps c s r s' :
  perform w c s = Some (r, s') → keeps s s' ∧ (c ≠ ServiceRunner.StartDeviceRuntime → keeps_all s s').
Proof.
  intros H. enough (keeps_all s s' ∨ (c = ServiceRunner.StartDeviceRuntime ∧ keeps s s')) as [[K Ks]|[-> K]] by done.
  unfold perform, replied in H. destruct c; apply fmap_Some in H as ([q t] & H & [= -> ->]); cbn [snd fst].
  all: try (left; by eauto using keeps_StartMqtt, keeps_StopAccepting, keeps_StopDeviceRuntime,
    keeps_WaitForNextCheck).
  all: try (right; by eauto using keeps_StartDeviceRuntime).
  all: left; revert H.
  - unfold LoadConfig. intros; cases; (split; [by keep|done]).
  - unfold InitializeLogger. intros; cases; (split; [by keep|done]).
  - unfold DiscoverMigrations. intros; cases; (split; [by keep|done]).
  - unfold ConnectPostgres. intros; cases; (split; [by keep|]); intros [? E]; rewrite ?E in *; by eauto.
  - unfold ReadAppliedMigrations. intros; cases; (split; [by keep|]); by eauto.
  - unfold PlanMigrations. intros; cases; (split; [by keep|done]).
  - unfold PendingMigrationCount. intros; by cases.
  - unfold ApplyMigration. intros; cases; (split; [by keep|]); by eauto.
  - unfold LoadDeviceSnapshot, system_now. intros; cases; (split; [by keep|]); by eauto.
  - unfold LoadCommandState, system_now. intros; cases; (split; [by keep|]); by eauto.
  - unfold InstallSignalHandlers. intros; cases; (split; [by keep|done]).
  - unfold CreateMqtt. intros; cases; (split; [by keep|done]).
  - unfold MqttHasTerminalFailure. intros; by cases.
  - unfold MqttCallbackStopRequested. intros; by cases.
  - unfold ShutdownRequested. intros; by cases.
  - unfold StopMqtt. destruct (mqtt s) as [[held client]|] eqn:?; [|intros [= <- <-]; reflexivity].
    generalize (Stop (wd_mqtt w) held false client). intros ? [= <- <-]. split; [by keep|done].
  - unfold Info. intros; cases; (split; [by keep|done]).
  - unfold Error. intros; cases; (split; [by keep|done]).
Qed.

(** ** What an operation makes *)

(** A reply with which a call may count as one that succeeded. *)
Definition successful (reply : CallReply) : Prop :=
  reply = ReplyResult (Ok tt) ∨ ∀ r, reply ≠ ReplyResult r.

Lemma perform_makes c s reply s' :
  perform w c s = Some (reply, s') → successful reply →
  match c with
  | ServiceRunner.LoadConfig => is_Some (config s')
  | ServiceRunner.InitializeLogger => is_Some (logger s')
  | ServiceRunner.ConnectPostgres => is_Some (store s')
  | ServiceRunner.PlanMigrations _ => is_Some (plan s')
  | ServiceRunner.CreateMqtt => is_Some (mqtt s')
  | _ => True
  end.
Proof.
  unfold perform, replied. intros H Hr. destruct c; try done;
    apply fmap_Some in H as ([q t] & H & [= -> ->]); cbn [fst snd] in *.
  2: { revert H. unfold InitializeLogger. intros; cases. by eauto. }
  all: assert (q = Ok tt) as -> by (destruct Hr as [[= ->]|Hr]; [done|by destruct (Hr q)]).
  all: revert H; clear Hr.
  - unfold LoadConfig. intros; cases; by eauto.
  - unfold ConnectPostgres. intros; cases; by eauto.
  - unfold PlanMigrations. intros; cases; by eauto.
  - unfold CreateMqtt. intros; cases; by eauto.
Qed.

Lemma succeeded_snoc tr c c' reply :
  answers (length tr) c reply → succeeded (tr ++ [c]) c' →
  succeeded tr c' ∨ (c' = c ∧ successful reply).
Proof.
  intros Ha (n & Hn & Hr). apply lookup_app_Some in Hn as [Hn|[Hl Hn]]; [left; by exists n|right].
  destruct (n - length tr)%nat as [|k] eqn:E; [|done]. injection Hn as <-.
  assert (n = length tr) as -> by lia. split; [done|].
  destruct reply; cbn in Ha; [left; congruence|right; by intros ? [=]..].
Qed.

Lemma interferes_keeps s s' : interferes s s' → keeps_all s s'.
Proof.
  intros (flag & b & e & m & -> & Hb & He & Hm). split; [|done]. split; cbn; try tauto.
Qed.

Lemma objects_kept tr s s' : objects tr s → keeps_all s s' → objects tr s'.
Proof.
  intros [] [[] Hs]. split; auto.
  - intros [?|?]%new_client0; auto.
  - intros [?|?]%new_bundle0; auto.
Qed.

Lemma performed_objects tr s : performed tr s → objects tr s.
Proof.
  induction 1 as [|tr s s1 c reply s2 _ Ho Hi Hp Ha].
  { split; cbn; try by intros [].
    2: by intros ?%elem_of_nil.
    all: intros; by destruct_and?; repeat match goal with H : succeeded _ _ |- _ => destruct H as (? & ? & _)
      | H : ∃ _, succeeded _ _ |- _ => destruct H as (? & ? & ? & _) end. }
  apply (objects_kept _ _ s1) in Ho as []; [|by apply interferes_keeps].
  destruct (perform_keeps _ _ _ _ Hp) as [[] Hst].
  pose proof (perform_makes _ _ _ _ Hp) as Hm.
  split.
  - intros Hs. destruct (succeeded_snoc _ _ _ _ Ha Hs) as [|[<- ?]]; auto.
  - intros [| <-%list_elem_of_singleton]%elem_of_app; [by auto|]. apply Hm. right. intros r ->.
    cbn in Hp. unfold replied in Hp. apply fmap_Some in Hp as ([] & _ & [=]).
  - intros Hs Hn. destruct (succeeded_snoc _ _ _ _ Ha Hs) as [|[<- ?]]; [|by auto].
    apply Hst; [set_solver|]. apply has_store0; set_solver.
  - intros (b & Hs). destruct (succeeded_snoc _ _ _ _ Ha Hs) as [|[<- ?]]; eauto.
  - intros Hs. destruct (succeeded_snoc _ _ _ _ Ha Hs) as [|[<- ?]]; auto.
  - intros [?|?]%new_client0; auto.
  - intros [?|?]%new_bundle0; auto.
Qed.

(** ** Every operation that is prepared for has a result *)
Lemma drain_effects_defined s calls : is_Some (logger s) → is_Some (drain_effects s calls).
Proof.
  revert s. induction calls as [|c calls IH]; intros s [l Hl]; [by eexists|]. cbn [drain_effects].
  assert (∃ t, drain_effect s c = Some t ∧ logger t = logger s) as (t & -> & Ht).
  { destruct c; cbn [drain_effect]; rewrite ?Hl; cbn; by eexists. }
  apply IH. by rewrite Ht, Hl.
Qed.

Lemma remove_handler_defined s :
  (is_Some (mqtt s) → is_Some (config s)) → is_Some (remove_handler s).
Proof.
  intros H. unfold remove_handler. destruct (mqtt s) as [[held client]|]; [|by eexists].
  destruct H as [c ->]; [by eexists|]. cbn. destruct (ConfigureBusinessMessages _ _ _). by eexists.
Qed.

Lemma StopAccepting_defined s :
  (is_Some (mqtt s) → is_Some (config s)) → is_Some (StopAcceptingDeviceMessages s).
Proof.
  intros H. unfold StopAcceptingDeviceMessages. destruct (negb _); [by eexists|].
  destruct (remove_handler_defined (on_bundle disable_intake (s <| accepting_device_messages := false |>)))
    as [t ->]; [done|]. by eexists.
Qed.

Lemma on_client_defined held r s next :
  (∀ client t, is_Some (next client t)) → is_Some (on_client held r s next).
Proof. intros H. unfold on_client. destruct r.1; [apply H|by eexists]. Qed.

Lemma StartMqtt_defined s :
  is_Some (config s) → is_Some (mqtt s) →
  (is_Some (runtime_bundle s) → is_Some (external_bridge s)) → is_Some (StartMqtt w s).
Proof.
  intros [c Hc] [[held client] Hm] Hb. unfold StartMqtt.
  destruct (runtime_bundle s); [|by eexists]. destruct Hb as [b Hb]; [by eexists|].
  rewrite Hb. cbn. rewrite Hm. cbn. rewrite Hc. cbn.
  do 5 (apply on_client_defined; intros). by eexists.
Qed.

Lemma StopDeviceRuntime_defined timeout s :
  is_Some (logger s) → is_Some (StopDeviceRuntime w timeout s).
Proof.
  intros Hl. unfold StopDeviceRuntime. destruct (device_runtime_stopped s); [by eexists|].
  set (t := update _ _). assert (is_Some (logger t)) as Ht by done. clearbody t.
  destruct (runtime_bundle t); [|by eexists].
  destruct (drain_returns (wd_drain w) timeout) as (b & calls & ->).
  destruct (drain_effects_defined t calls Ht) as [u ->]. by eexists.
Qed.

Lemma LoadDeviceSnapshot_defined s :
  is_Some (config s) → is_Some (store s) → is_Some (LoadDeviceSnapshot w s).
Proof.
  intros [c Hc] [st Hst]. unfold LoadDeviceSnapshot, system_now. rewrite Hst. cbn.
  destruct (LoadDevices _ _) as [[records|e] st']; [|by eexists].
  destruct (DeviceRegistry.Load records); [|by eexists]. cbn. rewrite Hc. by eexists.
Qed.

Lemma LoadCommandState_defined s :
  is_Some (config s) → is_Some (store s) → is_Some (LoadCommandState w s).
Proof.
  intros [c Hc] [st Hst]. unfold LoadCommandState, system_now. rewrite Hc. cbn. rewrite Hst. cbn.
  repeat (case_match; try by eexists).
Qed.

Lemma perform_defined tr s c : objects tr s → prepared tr c → is_Some (perform w c s).
Proof.
  intros [] Hp. unfold perform, replied. destruct c; cbn [prepared] in Hp; rewrite fmap_is_Some.
  - unfold LoadConfig. case_match; by eexists.
  - destruct has_config0 as [a Ha]; [done|]. unfold InitializeLogger. rewrite Ha. by eexists.
  - unfold DiscoverMigrations. case_match; by eexists.
  - destruct has_config0 as [a Ha], has_logger0 as [l Hl]; [apply Hp..|].
    unfold ConnectPostgres. rewrite Ha; cbn. rewrite Hl; cbn. case_match; by eexists.
  - destruct has_store0 as [st Hst]; [apply Hp..|].
    unfold ReadAppliedMigrations. rewrite Hst; cbn. repeat case_match; by eexists.
  - unfold PlanMigrations. case_match; by eexists.
  - destruct has_plan0 as [p Hpl]; [done|]. unfold PendingMigrationCount. rewrite Hpl. by eexists.
  - destruct has_store0 as [st Hst], has_plan0 as [p Hpl]; [apply Hp..|].
    unfold ApplyMigration. rewrite Hst; cbn. rewrite Hpl; cbn. repeat case_match; by eexists.
  - apply LoadDeviceSnapshot_defined; [apply has_config0|apply has_store0]; apply Hp.
  - apply LoadCommandState_defined; [apply has_config0|apply has_store0]; apply Hp.
  - unfold InstallSignalHandlers. repeat case_match; by eexists.
  - destruct has_config0 as [a Ha], has_store0 as [st Hst]; [apply Hp..|].
    unfold StartDeviceRuntime. rewrite Ha; cbn. rewrite Hst; cbn.
    by eexists.
  - by apply StopAccepting_defined.
  - by apply StopDeviceRuntime_defined, has_logger0.
  - destruct has_config0 as [a Ha], has_logger0 as [l Hl]; [apply Hp..|].
    unfold CreateMqtt. rewrite Ha; cbn. rewrite Hl; cbn. repeat case_match; by eexists.
  - apply StartMqtt_defined; [apply has_config0; apply Hp|apply has_client0; apply Hp|done].
  - destruct has_client0 as [m Hm]; [done|]. unfold MqttHasTerminalFailure. rewrite Hm. by eexists.
  - destruct has_client0 as [m Hm]; [done|]. unfold MqttCallbackStopRequested. rewrite Hm. by eexists.
  - by eexists.
  - unfold WaitForNextCheck, steady_now. repeat case_match; by eexists.
  - unfold StopMqtt. repeat case_match; by eexists.
  - destruct has_logger0 as [l Hl]; [done|]. unfold Info. rewrite Hl. by eexists.
  - by eexists.
Qed.

(** ** The calls of a run are prepared for *)
Lemma succeeded_app tr new c : succeeded tr c → succeeded (tr ++ new) c.
Proof. intros (n & Hn & Hr). exists n. split; [by apply lookup_app_l_Some|done]. Qed.
Lemma succeeded_last tr c : result ops (length tr) c = Some (Ok tt) → succeeded (tr ++ [c]) c.
Proof. intros H. exists (length tr). by rewrite lookup_app_r, Nat.sub_diag. Qed.

Lemma makes_Failed c tr (Q : bool → list Call → Prop) :
  prepared tr c → (succeeded (tr ++ [c]) c → Q false (tr ++ [c])) →
  (∀ e, Q true ((tr ++ [c]) ++ [ErrorCall e])) → makes prepared (Failed ops c) tr Q.
Proof.
  intros Hc H0 H1. apply makes_bind, makes_call; [done|]. intros [[]|e] Hr.
  - apply makes_ret, H0. by apply succeeded_last.
  - apply makes_bind, makes_call; [done|]. intros _ _. apply makes_ret, H1.
Qed.

Lemma makes_or_fail c tr rest (Q : Z → list Call → Prop) :
  prepared tr c → (∀ t, Q 1 t) →
  (succeeded (tr ++ [c]) c → makes prepared rest (tr ++ [c]) Q) →
  makes prepared (or_fail ops c rest) tr Q.
Proof.
  intros Hc H1 H0. apply makes_bind, makes_Failed; [done|exact H0|]. intros e. apply makes_ret, H1.
Qed.

#[local] Hint Resolve succeeded_app : core.
#[local] Ltac logged := first [done | apply elem_of_app; left; logged | set_solver].

Lemma stop_prepared tr (Q : unit → list Call → Prop) :
  ServiceRunner.InitializeLogger ∈ tr → (∀ t, ServiceRunner.InitializeLogger ∈ t → Q tt t) →
  makes prepared (stop_runtime ops) tr Q.
Proof.
  intros Hl HQ. apply makes_bind, makes_call; [done|]. intros _ _.
  apply makes_bind, makes_call; [cbn; set_solver|]. intros _ _. apply makes_ret, HQ. set_solver.
Qed.

Definition anything {A B} : A → B → Prop := λ _ _, True.

(** What the main loop relies on. *)
Definition serving (tr : list Call) : Prop :=
  ServiceRunner.InitializeLogger ∈ tr ∧ succeeded tr ServiceRunner.CreateMqtt.
Lemma serving_app tr new : serving tr → serving (tr ++ new).
Proof. intros []. split; [set_solver|auto]. Qed.
Lemma makes_serving {A} (reply : nat → Call → option A) c tr (Q : A → list Call → Prop) :
  serving tr → prepared tr c → (∀ a t, serving t → Q a t) → makes prepared (call reply c) tr Q.
Proof. intros Hs Hc HQ. apply makes_call; [done|]. intros a _. by apply HQ, serving_app. Qed.

Lemma stop_all_prepared tr (k : Run Call Z) :
  ServiceRunner.InitializeLogger ∈ tr →
  (∀ t, ServiceRunner.InitializeLogger ∈ t → makes prepared k t anything) →
  makes prepared (bind (stop_runtime ops) (λ _, bind (ServiceRunner.perform ops ServiceRunner.StopMqtt) (λ _, k)))
    tr anything.
Proof.
  intros Hl Hk. apply makes_bind, stop_prepared; [done|]. intros t Ht.
  apply makes_bind, makes_call; [done|]. intros _ _. apply Hk. set_solver.
Qed.

Lemma serve_prepared fuel : ∀ tr, serving tr → makes prepared (serve ops fuel) tr anything.
Proof.
  induction fuel as [|fuel IH]; intros tr Hs; [apply makes_fuel|]. cbn [serve].
  apply makes_bind, makes_serving; [done|apply Hs|]. clear tr Hs. intros failure tr Hs.
  apply makes_bind, makes_serving; [done|apply Hs|]. clear tr Hs. intros stop tr Hs.
  apply makes_bind. destruct failure; cbn [orb].
  { apply makes_serving; [done..|]. intros _ t Ht. apply makes_bind, makes_ret.
    apply stop_all_prepared; [apply Ht|]. intros. by apply makes_ret. }
  assert (∀ (b : bool) t, serving t →
    makes prepared (if b then bind (stop_runtime ops) (λ _, bind (ServiceRunner.perform ops ServiceRunner.StopMqtt)
        (λ _, bind (ServiceRunner.perform ops (InfoCall "路由服务已停止")) (λ _, ret 0)))
      else bind (ServiceRunner.perform ops ServiceRunner.WaitForNextCheck) (λ _, serve ops fuel)) t anything) as Hlast.
  { intros [] t Ht.
    - apply stop_all_prepared; [apply Ht|]. intros u Hu. apply makes_bind, makes_call; [done|].
      intros. by apply makes_ret.
    - apply makes_bind, makes_serving; [done..|]. intros _ u Hu. by apply IH. }
  apply makes_ret, makes_bind. destruct stop; [by apply makes_ret, (Hlast true)|].
  apply makes_serving; [done..|]. intros b t Ht. by apply Hlast.
Qed.

Lemma apply_migrations_prepared fuel index : ∀ tr,
  ServiceRunner.InitializeLogger ∈ tr → succeeded tr ServiceRunner.ConnectPostgres →
  ServiceRunner.StartDeviceRuntime ∉ tr → (∃ b, succeeded tr (ServiceRunner.PlanMigrations b)) →
  makes prepared (apply_migrations ops fuel index) tr anything.
Proof.
  revert index. induction fuel as [|fuel IH]; intros index tr Hl Hs Hn (b & Hp); [apply makes_fuel|].
  cbn [apply_migrations]. apply makes_bind, makes_call; [by exists b|]. intros n _.
  assert (ServiceRunner.StartDeviceRuntime ∉ tr ++ [ServiceRunner.PendingMigrationCount]) by set_solver.
  assert (ServiceRunner.InitializeLogger ∈ tr ++ [ServiceRunner.PendingMigrationCount]) by set_solver.
  destruct (index <? n)%nat.
  - apply makes_or_fail; [split_and!; eauto|done|]. intros _. apply IH; eauto; set_solver.
  - apply makes_bind, makes_call; [done|]. intros. by apply makes_ret.
Qed.

Lemma RunService_prepared fuel mode : makes prepared (RunService ops fuel mode) [] anything.
Proof.
  unfold RunService.
  apply makes_or_fail; [done..|]. intros H1.
  apply makes_bind, makes_call; [done|]. intros _ _.
  apply makes_or_fail; [done..|]. intros _.
  apply makes_or_fail; [split; [auto|set_solver]|done|]. intros H2.
  apply makes_or_fail; [split; [done|set_solver]|done|]. intros _.
  apply makes_or_fail; [done..|]. intros H3.
  case_bool_decide.
  { apply apply_migrations_prepared; [set_solver|auto|set_solver|by eexists]. }
  match goal with |- makes _ _ ?t _ => set (tr := t) end.
  assert (ServiceRunner.InitializeLogger ∈ tr) as Hl by (unfold tr; set_solver).
  assert (ServiceRunner.StartDeviceRuntime ∉ tr) as Hn by (unfold tr; set_solver).
  assert (succeeded tr ServiceRunner.LoadConfig) as Hc by (unfold tr; auto 10).
  assert (succeeded tr ServiceRunner.ConnectPostgres) as Hs by (unfold tr; auto 10).
  clearbody tr. clear H1 H2 H3. unfold start_services.
  apply makes_or_fail; [by split_and!|done|]. intros _.
  apply makes_or_fail; [split_and!; [auto..|set_solver]|done|]. intros _.
  apply makes_or_fail; [done..|]. intros _.
  apply makes_bind, makes_Failed; [split_and!; [auto 10..|set_solver]| |].
  2: { intros e. apply makes_bind, stop_prepared; [set_solver|]. intros. by apply makes_ret. }
  intros _. apply makes_bind, makes_Failed; [split; [auto 10|set_solver]| |].
  2: { intros e. apply makes_bind, stop_prepared; [set_solver|]. intros. by apply makes_ret. }
  intros Hm. apply makes_bind, makes_Failed; [split; auto 10| |].
  2: { intros e. apply stop_all_prepared; [set_solver|]. intros. by apply makes_ret. }
  intros _. apply makes_bind, makes_call; [cbn; set_solver|]. intros _ _.
  apply serve_prepared. split; [set_solver|auto].
Qed.
End Objects.

(** C19: Whatever the environment replies, every operation a run of the service performs finds
    the objects it uses: no pointer and no optional is used before it is set, also when
    other threads run in between. *)
Theorem service_run_defined `{JL : JsonLib, MO : MapOrder, TO : TokenOrder} w ops fuel mode tr c rest s s1 :
  (RunService ops fuel mode []).2 = tr ++ c :: rest → performed w ops tr s → interferes s s1 →
  is_Some (perform w c s1).
Proof.
  intros E Hs Hi. destruct (RunService_prepared ops fuel mode) as (new & En & Hn & _).
  rewrite E in En. cbn in En. subst new. apply (perform_defined w ops tr); [|by eapply Hn].
  eapply objects_kept; [by eapply performed_objects|by apply interferes_keeps].
Qed.

(** ** The end of the intake *)
Section Intake.
Context `{JL : JsonLib, MO : MapOrder, TO : TokenOrder} (w : World).
#[local] Set Default Proof Using "Type".

(** A disabled bundle hands no message on. *)
Lemma disabled_message b message now1 now2 :
  CommandIngress.connected (command_ingress b) = false → enabled_ (ingress b) = false →
  service (business_message b message now1 now2).2 = service b ∧
  command_service (business_message b message now1 now2).2 = command_service b.
Proof.
  intros Hc Hd. unfold business_message, CommandIngress.TryPush, handle_begin. rewrite Hc.
  destruct (negb (is_command_topic _ _)); [|destruct (_ && _)]; cbn; by rewrite Hd.
Qed.

Lemma unhandled client m t : handler client = false → HandleMessage (wd_mqtt w) client m t = client.
Proof. intros H. unfold HandleMessage, Dispatch. by rewrite H. Qed.
End Intake.

(** C27: Once the main thread has stopped the intake, the client delivers no message, the
    handler hands none on, and neither service takes one; stopping again changes nothing. *)
Theorem intake_stopped `{JL : JsonLib, MO : MapOrder, TO : TokenOrder} w c s s' :
  config s = Some c → config_ok c → accepting_device_messages s = true →
  StopAcceptingDeviceMessages s = Some (tt, s') →
  (∀ held client m t, mqtt s' = Some (held, client) → HandleMessage (wd_mqtt w) client m t = client) ∧
  (∀ b message now1 now2, runtime_bundle s' = Some b →
     let b' := (business_message b message now1 now2).2 in
     service b' = service b ∧ command_service b' = command_service b ∧
     (DeviceService.TryPush (service b) message).1 = false ∧
     (CommandService.TryPush (command_configuration (RuntimeBundle.config b))
        (command_service b) message).1 = false) ∧
  StopAcceptingDeviceMessages s' = Some (tt, s').
Proof.
  intros Hc [_ [] _ _ _ _ _] Ha H. unfold StopAcceptingDeviceMessages in H. rewrite Ha in H. cbn [negb] in H.
  apply bind_Some in H as (t & Ht & [= <-]). unfold remove_handler, ConfigureBusinessMessages in Ht. cbn in Ht.
  assert (∀ held client, mqtt t = Some (held, client) → handler client = false) as Hh.
  { destruct (mqtt s) as [[held client]|] eqn:E; [|injection Ht as <-; cbn; by rewrite E].
    rewrite Hc in Ht. cbn in Ht. replace (mq_max_payload_bytes (ac_mqtt c) =? 0) with false in Ht
      by (symmetry; apply Z.eqb_neq; lia).
    injection Ht as <-. cbn. by intros ? ? [= _ <-]. }
  assert (runtime_bundle t = disable_intake <$> runtime_bundle s ∧ accepting_device_messages t = false) as [Hb Hs].
  { clear Hh. destruct (mqtt s) as [[held client]|]; [|by injection Ht as <-].
    rewrite Hc in Ht. cbn in Ht. repeat case_match; by injection Ht as <-. }
  split_and!.
  - intros held client m t' Hm. apply unhandled. by eapply Hh.
  - intros b message now1 now2 Hr. cbn in Hr. rewrite Hb in Hr.
    destruct (runtime_bundle s) as [b0|]; [|done]. injection Hr as <-.
    destruct (disabled_message (close_services (disable_intake b0)) message now1 now2) as [E1 E2]; [done..|].
    split_and!; [exact E1|exact E2| |]; cbn; [|done].
    unfold DeviceService.TryPush, BoundedQueue.TryPush. cbn. done.
  - unfold StopAcceptingDeviceMessages. cbn. by rewrite Hs.
Qed.

(** ** Start-up *)
Section Startup.
Context `{JL : JsonLib, MO : MapOrder, TO : TokenOrder} (w : World).
#[local] Set Default Proof Using "Type".

Definition submit_all (k : PostgresWorker) (writes : list DesiredDeviceWrite) : PostgresWorker :=
  foldl (λ k write, (PostgresWorker.SubmitWrite k write).2) k writes.

Lemma submit_writes writes : ∀ b,
  service (foldl submit_write b writes) = service b ∧
  worker (database (foldl submit_write b writes)) = submit_all (worker (database b)) writes.
Proof. induction writes as [|x writes IH]; intros b; [done|]. cbn. by destruct (IH (submit_write b x)) as [-> ->]. Qed.

Lemma submit_all_lookup writes k :
  accepting_ k = true → NoDup (w_device_id <$> writes) →
  (∀ x, x ∈ writes → writes_ k !! w_device_id x = None) →
  accepting_ (submit_all k writes) = true ∧
  (∀ id, writes_ (submit_all k writes) !! id =
     match list_find (λ x, w_device_id x = id) writes with
     | Some (_, x) => Some x
     | None => writes_ k !! id
     end).
Proof.
  revert k. induction writes as [|x writes IH]; intros k Ha Hnd Hno; [done|].
  cbn in Hnd. apply NoDup_cons in Hnd as [Hx Hnd]. cbn [submit_all foldl].
  assert ((PostgresWorker.SubmitWrite k x).2 = k <| writes_ := <[w_device_id x := x]> (writes_ k) |>) as ->.
  { unfold PostgresWorker.SubmitWrite, MergeWrite. rewrite Ha. cbn. by rewrite (Hno x) by set_solver. }
  destruct (IH (k <| writes_ := <[w_device_id x := x]> (writes_ k) |>)) as [Ha' Hl]; [done|done| |].
  { intros y Hy. cbn. rewrite lookup_insert_ne; [apply Hno; set_solver|].
    intros E. apply Hx. rewrite E. by apply list_elem_of_fmap_2. }
  split; [exact Ha'|]. intros id. fold submit_all in *. unfold submit_all in Hl. rewrite Hl. cbn [list_find].
  case_decide as Hid.
  - subst id. rewrite (proj2 (list_find_None _ _)); [cbn; by rewrite lookup_insert_eq|].
    apply Forall_forall. intros y Hy E. apply Hx. rewrite <- E. by apply list_elem_of_fmap_2.
  - cbn. destruct (list_find _ writes) as [[i y]|]; [done|]. cbn. by rewrite lookup_insert_ne.
Qed.

(** A start that succeeds leaves the new bundle, its start-up writes submitted. *)
Lemma StartDeviceRuntime_ok s s' :
  StartDeviceRuntime w s = Some (Ok tt, s') →
  ∃ b c, config s = Some c ∧ runtime_bundle s' = Some b ∧
    service b = MakeDeviceService (wd_device w) (device_configuration c) (registry s) ∧
    worker (database b) = submit_all MakePostgresWorker (startup_writes s).
Proof.
  unfold StartDeviceRuntime. intros H. apply bind_Some in H as (c & Hc & H).
  apply bind_Some in H as (st & Hst & H). set (b := Initialize _ _ _ _ _ _ _ _) in H.
  unfold StartDeviceRuntimeTransaction, start_step, start_reply in H.
  destruct (StartDatabaseThread (wd_thread_created w StartPostgresThread) b) as [b1|] eqn:E1; [|done].
  destruct (StartBusinessThread (wd_thread_created w StartDeviceThread) b) as [b2|] eqn:E2; [|done].
  cbn [fst snd foldl] in H. injection H as <-.
  unfold StartDatabaseThread, StartThread in E1. unfold StartBusinessThread, StartThread in E2.
  destruct (wd_thread_created w StartPostgresThread) eqn:W1; [|done].
  destruct (wd_thread_created w StartDeviceThread) eqn:W2; [|done].
  unfold start_effect, on_bundle, StartDatabaseThread, StartBusinessThread, StartThread.
  cbn. eexists _, c. split_and!; [done|reflexivity|..]; cbn;
    by match goal with |- context [foldl submit_write ?b ?l] => 
      let H1 := fresh in let H2 := fresh in
      destruct (submit_writes l b) as [H1 H2]; rewrite ?H1, ?H2 end.
Qed.

(** The writes of an expiry, by device. *)
Lemma startup_writes_lookup rows reg now timeout :
  loaded rows reg →
  NoDup (w_device_id <$> (startup_write <$> (ExpireInactive reg now timeout).1)) ∧
  ∀ row, row ∈ rows →
    snd <$> list_find (λ x, w_device_id x = dr_device_id row)
              (startup_write <$> (ExpireInactive reg now timeout).1) =
    if is_inactive now timeout row then Some (startup_write (expire_mutation row)) else None.
Proof.
  intros (Hrec & _). cbn [ExpireInactive fst].
  assert (∀ kv, kv ∈ expired_entries reg now timeout → dr_device_id kv.2 = kv.1 ∧ kv.2 ∈ rows ∧
    is_inactive now timeout kv.2 = true) as Hin.
  { intros [k r] Hk. apply expired_entries_lookup in Hk as [Hk ?]. by apply Hrec in Hk as [? ->]. }
  rewrite <- !list_fmap_compose. split.
  - replace (_ <$> _) with (expired_entries reg now timeout).*1; [apply expired_entries_NoDup|].
    apply Forall_fmap_ext_1, Forall_forall. intros kv Hkv. cbn. symmetry. by apply Hin.
  - intros row Hrow. set (f := _ ∘ _). destruct (list_find _ (f <$> _)) as [[i x]|] eqn:E.
    + apply list_find_Some in E as (Hx & Hid & _). apply list_lookup_fmap_Some in Hx as (kv & -> & Hkv).
      apply list_elem_of_lookup_2 in Hkv as Hkv'. destruct (Hin kv Hkv') as (Hk & Hr & Hi).
      assert (kv.2 = row) as <-; [|by rewrite Hi].
      pose proof (proj2 (Hrec (dr_device_id row) row) (conj Hrow eq_refl)) as H1.
      pose proof (proj2 (Hrec (dr_device_id kv.2) kv.2) (conj Hr eq_refl)) as H2.
      change (dr_device_id kv.2 = dr_device_id row) in Hid. congruence.
    + apply list_find_None in E. destruct (is_inactive now timeout row) eqn:Hi; [exfalso|done].
      rewrite Forall_fmap, Forall_forall in E. apply (E (dr_device_id row, row)); [|done].
      apply expired_entries_lookup. split; [|done]. by apply Hrec.
Qed.
End Startup.

(** The record of a device that fell silent, and what is owed of it. *)
Definition silent (now timeout : TimePoint) (row : DeviceRecord) : Prop :=
  dr_status row = kOnline ∧ ∃ seen, dr_last_seen_at row = Some seen ∧ timeout <= now - seen.

Record silenced (row new : DeviceRecord) (write : DesiredDeviceWrite) : Prop := {
  si_status : dr_status new = kOffline;
  si_revision : dr_revision new = u64 (dr_revision row + 1);
  si_identity : dr_device_id new = dr_device_id row ∧ dr_school_id new = dr_school_id row ∧
    dr_school_name new = dr_school_name row ∧ dr_dcdw_label new = dr_dcdw_label row;
  si_telemetry : dr_latest_telemetry new = dr_latest_telemetry row ∧
    dr_telemetry_received_at new = dr_telemetry_received_at row ∧ dr_last_seen_at new = dr_last_seen_at row;
  si_metadata : dr_device_type new = dr_device_type row ∧ dr_model_version new = dr_model_version row ∧
    dr_capabilities new = dr_capabilities row ∧ dr_product new = dr_product row ∧ dr_version new = dr_version row;
  si_write : w_record write = new ∧ w_revision write = u64 (dr_revision row + 1);
  si_columns : w_status write = true ∧ w_metadata write = false ∧ w_telemetry write = false;
  si_urgency : w_urgency write = kImmediate
}.

Lemma silent_inactive now timeout row : silent now timeout row ↔ is_inactive now timeout row = true.
Proof.
  unfold silent, is_inactive. rewrite andb_true_iff, bool_decide_eq_true.
  destruct (dr_last_seen_at row) as [seen|]; [|naive_solver].
  rewrite negb_true_iff, Z.ltb_ge. naive_solver.
Qed.

(** C28: Of the rows the database has, each device that was online and not seen for the time-out is
    offline in the registry the services start with, one revision later and otherwise as it
    was, and a write of exactly this record at this revision, of its status and of nothing else,
    at once, is at the worker; every other device is as the database has it, and nothing of it is
    at the worker; no device is added. *)
Theorem startup_expires_and_owes `{JL : JsonLib, MO : MapOrder, TO : TokenOrder} w c s s' s1 s2 :
  config s = Some c → LoadDeviceSnapshot w s = Some (Ok tt, s') →
  registry s1 = registry s' → startup_writes s1 = startup_writes s' →
  StartDeviceRuntime w s1 = Some (Ok tt, s2) →
  let was_silent := silent (wd_system_clock w (system_reads s)) (seconds (ds_offline_timeout (ac_device_state c))) in
  ∃ st rows b, store s = Some st ∧ (LoadDevices (wd_database w) st).1 = Ok rows ∧
    NoDup (dr_device_id <$> rows) ∧ runtime_bundle s2 = Some b ∧
    (∀ id r, Find (registry_ (service b)) id = Some r →
       ∃ row, row ∈ rows ∧ dr_device_id row = id) ∧
    ∀ row, row ∈ rows →
      let found := Find (registry_ (service b)) (dr_device_id row) in
      let written := writes_ (worker (database b)) !! dr_device_id row in
      (was_silent row → ∃ new write, found = Some new ∧ written = Some write ∧ silenced row new write) ∧
      (¬ was_silent row → found = Some row ∧ written = None).
Proof.
  intros Hc H Er Ew Hs was_silent. unfold LoadDeviceSnapshot in H. apply bind_Some in H as (st & Hst & H).
  destruct (LoadDevices (wd_database w) st) as [[rows|] st'] eqn:El; [|done].
  destruct (DeviceRegistry.Load rows) as [reg|] eqn:Ereg; [|done].
  unfold system_now in H. cbn -[ExpireInactive] in H. rewrite Hc in H.
  cbn -[ExpireInactive] in H. set (now := wd_system_clock w (system_reads s)) in *.
  set (timeout := seconds _) in *.
  destruct (ExpireInactive reg now timeout) as [ms reg'] eqn:Ex. injection H as <-.
  cbn in Er, Ew. apply StartDeviceRuntime_ok in Hs as (b & c' & _ & Hb & Hsv & Hw).
  destruct (load_loop_spec rows [] empty_registry loaded_empty) as [Hl _].
  destruct (Hl reg Ereg) as (Hrec & _ & Hnd & _). cbn in Hrec, Hnd.
  destruct (startup_writes_lookup rows reg now timeout (Hl reg Ereg)) as [Hnodup Hfind].
  rewrite Ex in Hnodup, Hfind. cbn [fst] in Hnodup, Hfind.
  destruct (submit_all_lookup (startup_write <$> ms) MakePostgresWorker) as [_ Hwr]; [done|done|done|].
  assert (∀ id, Find (registry_ (service b)) id =
    (λ r, if is_inactive now timeout r then expire_record r else r) <$> records reg !! id) as Hreg.
  { intros id. rewrite Hsv. unfold Find. cbn. rewrite Er.
    pose proof (expire_lookup reg now timeout id) as He. rewrite Ex in He. exact He. }
  exists st, rows, b. split_and!; [done|by rewrite El|done|done|..].
  - intros id r. rewrite Hreg. destruct (records reg !! id) as [row|] eqn:E; [|done].
    intros _. apply Hrec in E as [? ->]. by exists row.
  - intros row Hrow found written. pose proof (silent_inactive now timeout row) as Hsi.
    assert (found = Some (if is_inactive now timeout row then expire_record row else row)) as ->.
    { unfold found. rewrite Hreg. by rewrite (proj2 (Hrec (dr_device_id row) row) (conj Hrow eq_refl)). }
    assert (written = if is_inactive now timeout row then Some (startup_write (expire_mutation row)) else None) as ->.
    { unfold written. rewrite Hw, Ew, Hwr. specialize (Hfind row Hrow).
      destruct (list_find _ _) as [[i x]|]; cbn in Hfind; by rewrite <- Hfind. }
    fold was_silent in Hsi. destruct (is_inactive now timeout row).
    + split; [|intros Hn; destruct Hn; by apply Hsi]. intros _. eexists _, _. split; [done|]. split; [done|]. by split.
    + split; [|done]. intros Hsil. by apply Hsi in Hsil.
Qed.

(** ** The checks of the main loop *)
Section Checks.
Context `{JL : JsonLib, MO : MapOrder, TO : TokenOrder} (w : World).
#[local] Set Default Proof Using "Type".

Lemma subscribe_all_generation env filters : ∀ s,
  connection_generation (subscribe_all env s filters).2 = connection_generation s.
Proof.
  induction filters as [|[[topic qos] op] rest IH]; intros s; [done|]. cbn.
  case_match; [by rewrite IH|done].
Qed.

Lemma ensure_generation env s :
  connection_generation (EnsureBusinessSubscriptions env s).2 = connection_generation s.
Proof.
  unfold EnsureBusinessSubscriptions, SubscribeConfigured. case_match; [|done].
  pose proof (subscribe_all_generation env (subscribe_filters (subscribe_snapshot s)) s) as Hs.
  destruct (subscribe_all _ _ _) as [[] t]; cbn in *; [|done]. unfold subscribe_mark.
  repeat case_match; exact Hs.
Qed.

Lemma subscribed_generation s g : BusinessSubscriptionGeneration s = Some g → g = connection_generation s.
Proof. unfold BusinessSubscriptionGeneration. intros H. repeat case_match; congruence. Qed.

(** What a check asks of the device service: a snapshot for the generation it records. *)
Definition asked (s : State) (g : Z) (s' : State) : Prop :=
  ∃ b b' held client client',
    runtime_bundle s = Some b ∧ runtime_bundle s' = Some b' ∧ mqtt s = Some (held, client) ∧
    mqtt s' = Some (held, client') ∧ connection_generation client' = connection_generation client ∧
    BusinessSubscriptionGeneration client' = Some g ∧
    last_external_snapshot_generation s ≠ Some g ∧ last_external_snapshot_generation s' = Some g ∧
    service b' = RequestExternalSnapshot (service b).
Definition not_asked (s s' : State) : Prop :=
  last_external_snapshot_generation s' = last_external_snapshot_generation s ∧
  service <$> runtime_bundle s' = service <$> runtime_bundle s.

(** When a check is due, and what the subscriptions then are. *)
Definition due (s : State) : Prop :=
  next_mqtt_subscription_retry s <= wd_steady_clock w (steady_reads s).

Lemma check_subscriptions_client b held client s :
  mqtt (check_subscriptions w b held client s) =
    Some (held, (EnsureBusinessSubscriptions (wd_mqtt w) client).2).
Proof.
  unfold check_subscriptions. destruct (EnsureBusinessSubscriptions _ _) as [subscribed c].
  cbn [fst snd]. repeat case_match; done.
Qed.

Lemma check_subscriptions_spec b held client s :
  runtime_bundle s = Some b → 
  let r := EnsureBusinessSubscriptions (wd_mqtt w) client in
  let s' := check_subscriptions w b held client s in
  mqtt s' = Some (held, r.2) ∧
  if decide (is_ok r.1 = true ∧ is_Some (BusinessSubscriptionGeneration r.2) ∧
             BusinessSubscriptionGeneration r.2 ≠ last_external_snapshot_generation s)
  then (∃ b', runtime_bundle s' = Some b' ∧ service b' = RequestExternalSnapshot (service b)) ∧
       last_external_snapshot_generation s' = BusinessSubscriptionGeneration r.2
  else runtime_bundle s' = Some b ∧
       last_external_snapshot_generation s' = last_external_snapshot_generation s.
Proof.
  intros Hb r s'. subst s'. unfold check_subscriptions. fold r. destruct r as [subscribed c]. cbn [fst snd].
  set (t := match subscribed with Ok _ => _ | Unexpected _ => _ end).
  assert (runtime_bundle t = Some b ∧ mqtt t = Some (held, c) ∧
    last_external_snapshot_generation t = last_external_snapshot_generation s) as (Hbt & Hmt & Hlt).
  { unfold t. repeat case_match; by rewrite <- Hb. }
  clearbody t. rewrite Hlt. case_decide as Hd.
  - destruct Hd as (-> & Hg & Hn). rewrite (bool_decide_eq_true_2 _ Hg), (bool_decide_eq_false_2 _ Hn). cbn.
    split; [done|]. split; [|done]. by eexists.
  - destruct (_ && _) eqn:E; [|done]. exfalso. apply Hd.
    apply andb_true_iff in E as [[E1 E2]%andb_true_iff E3].
    apply bool_decide_eq_true in E2. apply negb_true_iff, bool_decide_eq_false in E3. done.
Qed.

Lemma WaitForNextCheck_spec s s' b held client :
  WaitForNextCheck w s = Some (tt, s') → runtime_bundle s = Some b → mqtt s = Some (held, client) →
  let r := EnsureBusinessSubscriptions (wd_mqtt w) client in
  (∃ g, asked s g s') ∨
  (not_asked s s' ∧
   (due s → MqttClient.connected client = true → is_ok r.1 = true → ∀ g,
      BusinessSubscriptionGeneration r.2 = Some g → last_external_snapshot_generation s = Some g)).
Proof.
  intros H Hb Hm r. unfold WaitForNextCheck, steady_now, due, IsConnected in *. rewrite Hb, Hm in H.
  set (commands := SetMqttAvailable _ _) in H. set (b1 := b <| command_service := commands |>) in H.
  assert (service b1 = service b) as Eb by done. clearbody b1 commands.
  cbn [update] in H. set (t := update _ (update _ s)) in H.
  change (next_mqtt_subscription_retry t) with (next_mqtt_subscription_retry s) in H.
  destruct (MqttClient.connected client) eqn:Ec; cbn [andb] in H; [|].
  2: { injection H as <-. right. split; [|done]. split; [done|]. cbn. rewrite Hb. cbn. by f_equal. }
  destruct (_ <=? _) eqn:Et in H.
  2: { injection H as <-. right. split; [split; [done|]|].
       - cbn. rewrite Hb. cbn. by f_equal.
       - intros Hd. exfalso. apply Z.leb_gt in Et. cbn in Et. lia. }
  set (u := update _ t) in H. injection H as <-.
  pose proof (check_subscriptions_spec b1 held client u eq_refl) as [Hm' Hs].
  fold r in Hm', Hs. change (last_external_snapshot_generation u) with (last_external_snapshot_generation s) in Hs.
  case_decide as Hd.
  - destruct Hd as (Hok & [g Hg] & Hn), Hs as [(b' & Hb' & Es) El]. left. exists g.
    exists b, b', held, client, r.2. rewrite Hg in Hn, El. rewrite Eb in Es.
    split_and!; try done. apply ensure_generation.
  - destruct Hs as [Hb' El]. right. split.
    + split; [done|]. rewrite Hb', Hb. cbn. by f_equal.
    + intros _ _ Hok g Hg. destruct (decide (last_external_snapshot_generation s = Some g)) as [|Hne]; [done|].
      exfalso. apply Hd. rewrite Hg. split_and!; [done|by eexists|congruence].
Qed.

Lemma WaitForNextCheck_client s s' held client' :
  WaitForNextCheck w s = Some (tt, s') → mqtt s' = Some (held, client') →
  ∃ client, mqtt s = Some (held, client) ∧ connection_generation client' = connection_generation client.
Proof.
  unfold WaitForNextCheck, steady_now. intros H Hm.
  destruct (runtime_bundle s) as [b|]; [|injection H as <-; by exists client'].
  destruct (mqtt s) as [[held0 client]|] eqn:E; [|injection H as <-; by rewrite E in Hm].
  destruct (IsConnected client && _) in H.
  - injection H as <-. rewrite check_subscriptions_client in Hm. injection Hm as -> <-.
    exists client. split; [done|apply ensure_generation].
  - injection H as <-. cbn in Hm. rewrite E in Hm. injection Hm as -> ->. by eexists.
Qed.

(** *** A sequence of checks, with what the other threads and the library do in between;
    listed are the generations of the connection at which a check turned the request for
    a snapshot on.  A generation does not wrap around. *)
Definition snapshot_requested (s : State) : bool :=
  match runtime_bundle s with Some b => external_snapshot_requested_ (service b) | None => false end.
Definition generation (s : State) : Z :=
  match mqtt s with Some (_, client) => connection_generation client | None => 0 end.
Definition turned_on (s s' : State) : list Z :=
  if negb (snapshot_requested s) && snapshot_requested s' then [generation s'] else [].

Definition others (s s' : State) : Prop :=
  interferes s s' ∧ ∀ held client, mqtt s = Some (held, client) →
    ∃ events client', mqtt s' = Some (held, client') ∧
      client' = client_run (wd_mqtt w) held client events ∧
      connection_generation client <= connection_generation client'.

Inductive checks (s0 : State) : list Z → State → Prop :=
| checks_none : checks s0 [] s0
| checks_others gs s s' : checks s0 gs s → others s s' → checks s0 gs s'
| checks_check gs s s' :
    checks s0 gs s → WaitForNextCheck w s = Some (tt, s') → checks s0 (gs ++ turned_on s s') s'.

(** What is known after a sequence of checks. *)
Record requests_ok (gs : list Z) (s : State) : Prop := {
  rq_sorted : StronglySorted Z.lt gs;
  rq_last : ∀ g, g ∈ gs → ∃ l, last_external_snapshot_generation s = Some l ∧ g <= l;
  rq_generation : ∀ l, last_external_snapshot_generation s = Some l → is_Some (mqtt s) → l <= generation s
}.

Lemma check_requests gs s s' :
  requests_ok gs s → WaitForNextCheck w s = Some (tt, s') → requests_ok (gs ++ turned_on s s') s'.
Proof.
  intros [H1 H2 H3] Hw.
  assert (s' = s ∨ ∃ b held client, runtime_bundle s = Some b ∧ mqtt s = Some (held, client)) as [->|(b & held & client & Hb & Hm)].
  { unfold WaitForNextCheck in Hw. destruct (runtime_bundle s) as [b|]; [|left; congruence].
    destruct (mqtt s) as [[held client]|]; [|left; congruence]. right. by exists b, held, client. }
  { unfold turned_on. rewrite andb_comm, andb_negb_r, app_nil_r. by split. }
  destruct (WaitForNextCheck_spec s s' b held client Hw Hb Hm) as [[g Ha]|[[Hn Hs] _]].
  - destruct Ha as (b0 & b' & held0 & c & c' & _ & _ & Hc & Hc' & Egen & Hsub & Hne & El & _).
    apply subscribed_generation in Hsub. assert (generation s' = g) as Eg by (unfold generation; by rewrite Hc').
    assert (∀ x, x ∈ gs → x < g) as Hlt.
    { intros x Hx. destruct (H2 x Hx) as (l & Hl & Hle). rewrite Hl in Hne.
      assert (l <= g) by (rewrite <- Eg; unfold generation; rewrite Hc', Egen;
        specialize (H3 l Hl); unfold generation in H3; rewrite Hc in H3; apply H3; by eexists).
      assert (l ≠ g) by congruence. lia. }
    split.
    + unfold turned_on. rewrite Eg. destruct (_ && _); [|by rewrite app_nil_r].
      apply StronglySorted_app_2; [|done|by repeat constructor].
      intros x y Hx ->%list_elem_of_singleton. by apply Hlt.
    + intros x [Hx|Hx]%elem_of_app; exists g; (split; [done|]); [by apply Z.lt_le_incl, Hlt|].
      unfold turned_on in Hx. rewrite Eg in Hx. destruct (_ && _); [|by apply elem_of_nil in Hx].
      apply list_elem_of_singleton in Hx as ->. done.
    + intros l. rewrite El. intros [= <-] _. by rewrite Eg.
  - assert (turned_on s s' = []) as ->.
    { assert (snapshot_requested s' = snapshot_requested s) as E.
      { unfold snapshot_requested. rewrite Hb in *. destruct (runtime_bundle s') as [b'|]; [|done].
        cbn in Hs. congruence. }
      unfold turned_on. by rewrite E, andb_comm, andb_negb_r. }
    rewrite app_nil_r. split; [done|by rewrite Hn|]. rewrite Hn. intros l Hl [[held' client'] Hc'].
    destruct (WaitForNextCheck_client _ _ _ _ Hw Hc') as (c0 & Hc0 & E).
    specialize (H3 l Hl). unfold generation in *. rewrite Hc', E. rewrite Hc0 in H3. apply H3. by eexists.
Qed.

Lemma checks_requests s0 gs s :
  last_external_snapshot_generation s0 = None → checks s0 gs s → requests_ok gs s.
Proof.
  intros H0 H. induction H as [|gs s s' _ IH [Hi Hc]|gs s s' _ IH Hw].
  - split; [constructor|by intros g ?%elem_of_nil|by rewrite H0].
  - destruct IH as [H1 H2 H3]. destruct Hi as (flag & b & e & m & -> & _ & _ & Hm).
    split; [done|exact H2|]. intros l Hl [[held client] Hcl]. cbn in Hcl, Hc, Hl. subst m.
    destruct (mqtt s) as [[held0 client0]|] eqn:E; [|destruct Hm as [Hm _]; by destruct Hm].
    destruct (Hc held0 client0 eq_refl) as (ev & client' & [= -> ->] & _ & Hle).
    specialize (H3 l Hl). unfold generation in *. cbn. rewrite E in H3.
    etrans; [apply H3; by eexists|exact Hle].
  - by apply check_requests.
Qed.
End Checks.

(** C25: Over a run of the main loop, with whatever the other threads do in between, the checks turn the
    request of a snapshot of the devices on at most once per generation of the connection, for
    growing generations; and the first check that is due and finds all the subscriptions of a
    connection made turns it on for this generation. *)
Theorem one_snapshot_per_connection `{JL : JsonLib, MO : MapOrder, TO : TokenOrder} w s0 gs s :
  checks w s0 gs s → last_external_snapshot_generation s0 = None →
  StronglySorted Z.lt gs ∧
  ∀ b held client s', runtime_bundle s = Some b → mqtt s = Some (held, client) →
    WaitForNextCheck w s = Some (tt, s') →
    let r := EnsureBusinessSubscriptions (wd_mqtt w) client in
    due w s → MqttClient.connected client = true → is_ok r.1 = true →
    DeviceService.closed_ (service b) = false →
    ∀ g, BusinessSubscriptionGeneration r.2 = Some g → last_external_snapshot_generation s ≠ Some g →
    snapshot_requested s' = true ∧ last_external_snapshot_generation s' = Some g.
Proof.
  intros H H0. split; [by apply (checks_requests w s0 gs s H0 H)|].
  intros b held client s' Hb Hm Hw r Hdue Hcon Hok Hcl g Hsub Hne.
  destruct (WaitForNextCheck_spec w s s' b held client Hw Hb Hm) as [[g' Ha]|[_ Hq]];
    [|by destruct Hne; apply Hq].
  destruct Ha as (b0 & b' & held' & c0 & c1 & Hb0 & Hb' & Hc0 & _ & Egen & Hsub1 & _ & El & Es).
  rewrite Hb in Hb0. rewrite Hm in Hc0. simplify_eq. unfold snapshot_requested. rewrite Hb', Es.
  unfold RequestExternalSnapshot. rewrite Hcl. split; [done|]. rewrite El.
  apply subscribed_generation in Hsub, Hsub1. rewrite Hsub, Hsub1, Egen. unfold r. by rewrite ensure_generation.
Qed.

(** ** After the device runtime *)
Section Stopped.
Context `{JL : JsonLib, MO : MapOrder, TO : TokenOrder} (w : World).
#[local] Set Default Proof Using "Type".

#[local] Instance DrainCall_eq_dec : EqDecision DrainCall.
Proof. solve_decision. Defined.

Definition bridge_off (s : State) : Prop :=
  ∀ bridge, external_bridge s = Some bridge → enabled bridge = false.

Lemma drain_effect_bridge s c s' :
  drain_effect s c = Some s' →
  external_bridge s' = external_bridge s ∨ bridge_off s'.
Proof.
  destruct c; cbn [drain_effect]; intros H; try (injection H as <-); try (by left).
  - apply bind_Some in H as (l & _ & [= <-]). by left.
  - right. intros bridge. cbn. destruct (external_bridge s); [|done]. by intros [= <-].
Qed.

Lemma drain_effects_off calls : ∀ s s',
  drain_effects s calls = Some s' → bridge_off s ∨ DisableExternalBridge ∈ calls → bridge_off s'.
Proof.
  induction calls as [|c calls IH]; intros s s' H Hoff; cbn in H.
  { injection H as <-. destruct Hoff as [|?%elem_of_nil]; done. }
  apply bind_Some in H as (t & Ht & H). eapply IH; [exact H|].
  destruct (decide (c = DisableExternalBridge)) as [->|Hne].
  - left. injection Ht as <-. intros bridge. cbn. destruct (external_bridge s); [|done].
    by intros [= <-].
  - destruct Hoff as [Hoff|Hin]; [left|right; set_solver].
    destruct (drain_effect_bridge _ _ _ Ht) as [E|]; [|done]. intros bridge. rewrite E. apply Hoff.
Qed.

Lemma bridge_off_run env config clock events : ∀ bridge c,
  enabled bridge = false → (∀ e ev, e ∈ events → e ≠ BrClient ev) →
  (bridge_run env config clock (bridge, c) events).2 = c.
Proof.
  induction events as [|e events IH]; intros bridge c Hoff Hn; [done|]. cbn [bridge_run foldl].
  assert ((bridge_step env config clock (bridge, c) e).2 = c ∧
    enabled (bridge_step env config clock (bridge, c) e).1 = false) as [E1 E2].
  { destruct e; cbn [bridge_step]; try (by edestruct Hn; [left|reflexivity]);
      unfold Publish, PublishFullSnapshot, PublishSet, PublishAck, ReplayRegistrations, Diagnose, Inform;
      rewrite ?Hoff; done. }
  destruct (bridge_step env config clock (bridge, c) e) as [bridge' c']. cbn in E1, E2. subst c'.
  apply IH; [done|]. intros e' ev He. apply Hn. by right.
Qed.
End Stopped.

(** C26: When the stop of the device runtime returns, in time or not, no thread of the runtime
    can use the MQTT client or the logger any more: the bridge through which they do is
    disabled and stays without effect, so both may be destroyed. *)
Theorem stopped_runtime_is_cut_off `{JL : JsonLib, MO : MapOrder, TO : TokenOrder} w timeout s r s' :
  (∀ n m, (n <= m)%nat → drain_clock (wd_drain w) n <= drain_clock (wd_drain w) m) → 0 <= timeout →
  device_runtime_stopped s = false → is_Some (runtime_bundle s) →
  StopDeviceRuntime w timeout s = Some (r, s') →
  runtime_bundle s' = None ∧
  ∀ bridge, external_bridge s' = Some bridge →
    ∀ clock config client events, (∀ e ev, e ∈ events → e ≠ BrClient ev) →
    (bridge_run (wd_mqtt w) config clock (bridge, client) events).2 = client.
Proof.
  intros Hclock Ht Hs [b Hb] H. unfold StopDeviceRuntime in H. rewrite Hs in H. cbn -[drain_effects DrainDeviceRuntime] in H.
  rewrite Hb in H. pose proof (drain_runs (wd_drain w) timeout Hclock Ht) as Hd. unfold runs in Hd.
  destruct (DrainDeviceRuntime (wd_drain w) timeout []) as [[d| |] calls]; cbn [fst snd] in Hd; [|by destruct Hd..].
  apply bind_Some in H as (t & Hf & [= <- <-]). split; [done|].
  assert (bridge_off t) as Hoff.
  { eapply drain_effects_off; [exact Hf|right]. destruct Hd as [_ Hd]. destruct d; apply Hd. }
  intros bridge Hbr clock config client events Hev. by apply bridge_off_run; [apply Hoff|].
Qed.

(** ** A run *)
Module Example.
#[local] Existing Instance codec_lib.
#[local] Instance hash_order : MapOrder := key_order.
#[local] Existing Instance MqttClientFacts.Example.order.

(** One device is stored as online, last seen at the epoch; nothing fails. *)
Definition device_row : Row :=
  [FText "d1"; FInt 1; FText "s"; FText "r1"; FText "m"; FText "cns_box"; FText "online"; FInt 0; FNull;
   FNull; FNull; FNull; FNull].
Definition sample_database : DatabaseEnvironment :=
  {| db_reply := λ _ st, match st with
                         | SelectMigrationTable => Rows [[FText "migrations"]]
                         | SelectMigrations => Rows [[FInt 1; FText "init"]]
                         | SelectDevices => Rows [device_row]
                         | _ => Rows []
                         end;
     db_open := λ _, true; db_connects := λ _, true; db_file := λ _, None |}.
Definition world : World :=
  {| wd_config_file := Some sample_file; wd_migrations_path := "migrations";
     wd_migrations :=
       Entries [{| e_filename := "001_init.sql"; e_path := "migrations/001_init.sql"; e_regular := Ok true |}] None;
     wd_database := sample_database; wd_mqtt := MqttClientFacts.Example.environment;
     wd_device := {| provision_reply := λ _, Accepted; write_reply := λ _, Accepted;
                     events_reply := λ _, Accepted; steady_clock := λ n, Z.of_nat n |};
     wd_system_clock := λ _, seconds 1000000; wd_steady_clock := λ n, seconds (Z.of_nat n);
     wd_signal_refused := λ _, false; wd_thread_created := λ _, true;
     wd_drain := {| drain_wait := λ _ _, Some true; drain_pending := λ _, Some 0%nat;
                    drain_completes := λ _ _, true; drain_clock := λ n, Z.of_nat n |} |}.

Definition starting : list Call :=
  [ServiceRunner.LoadConfig; ServiceRunner.InitializeLogger; ServiceRunner.DiscoverMigrations;
   ServiceRunner.ConnectPostgres; ServiceRunner.ReadAppliedMigrations; ServiceRunner.PlanMigrations false;
   ServiceRunner.LoadDeviceSnapshot; ServiceRunner.LoadCommandState; ServiceRunner.InstallSignalHandlers;
   ServiceRunner.StartDeviceRuntime; ServiceRunner.CreateMqtt; ServiceRunner.StartMqtt].

(** The state after calls that all succeed. *)
Fixpoint perform_all (calls : list Call) (s : State) : option State :=
  match calls with
  | [] => Some s
  | c :: rest =>
      match perform world c s with
      | Some (ReplyResult (Ok tt), s') | Some (ReplyDone, s') => perform_all rest s'
      | _ => None
      end
  end.

Lemma interferes_self s : interferes s s.
Proof. exists (requested s), (runtime_bundle s), (external_bridge s), (mqtt s). by destruct s. Qed.

Lemma perform_all_performed calls : ∀ tr s s',
  performed world sample_operations tr s → perform_all calls s = Some s' →
  performed world sample_operations (tr ++ calls) s'.
Proof.
  induction calls as [|c calls IH]; intros tr s s' Hp H; cbn [perform_all] in H.
  { injection H as <-. by rewrite app_nil_r. }
  destruct (perform world c s) as [[reply t]|] eqn:E; [|done].
  rewrite cons_middle, app_assoc. apply (IH _ t).
  - eapply performed_call; [done|apply interferes_self|exact E|]. destruct reply as [[[]|]| | | |]; done.
  - destruct reply as [[[]|]| | | |]; done.
Qed.

Definition reached (n : nat) : State := default MakeState (perform_all (take n starting) MakeState).
Lemma reached_performed : performed world sample_operations (take 11 starting) (reached 11).
Proof.
  apply (perform_all_performed (take 11 starting) [] MakeState); [constructor|].
  vm_compute. reflexivity.
Qed.

Lemma service_run_defined_witness :
  is_Some (perform world ServiceRunner.StartMqtt (reached 11)).
Proof.
  refine (service_run_defined world sample_operations 22 kNormal (take 11 starting) ServiceRunner.StartMqtt
    (drop 12 sample_trace) (reached 11) (reached 11) _ reached_performed (interferes_self _)).
  vm_compute. reflexivity.
Defined.

Lemma startup_expires_and_owes_witness :
  ∃ b, runtime_bundle (reached 10) = Some b ∧ size (writes_ (worker (database b))) = 1%nat ∧
    dr_status <$> Find (registry_ (service b)) "d1" = Some kOffline.
Proof.
  assert (∃ c s' s2, config (reached 6) = Some c ∧
    LoadDeviceSnapshot world (reached 6) = Some (Ok tt, s') ∧
    registry (reached 9) = registry s' ∧ startup_writes (reached 9) = startup_writes s' ∧
    StartDeviceRuntime world (reached 9) = Some (Ok tt, s2) ∧
    runtime_bundle s2 = runtime_bundle (reached 10)) as (c & s' & s2 & H1 & H2 & H3 & H4 & H5 & H6).
  { eexists _, _, _. split_and!; vm_compute; reflexivity. }
  destruct (startup_expires_and_owes world c (reached 6) s' (reached 9) s2 H1 H2 H3 H4 H5)
    as (st & rows & b & _ & _ & _ & Hb & _). exists b. rewrite H6 in Hb. split; [exact Hb|].
  assert (∃ b', runtime_bundle (reached 10) = Some b' ∧ size (writes_ (worker (database b'))) = 1%nat ∧
    dr_status <$> Find (registry_ (service b')) "d1" = Some kOffline) as (b' & Hb' & Hw).
  { eexists. split; [vm_compute; reflexivity|]. vm_compute. split; reflexivity. }
  rewrite Hb in Hb'. injection Hb' as <-. exact Hw.
Defined.

Lemma intake_stopped_witness :
  ∃ s', StopAcceptingDeviceMessages (reached 12) = Some (tt, s') ∧ accepting_device_messages s' = false ∧
    StopAcceptingDeviceMessages s' = Some (tt, s').
Proof.
  assert (∃ c s', config (reached 12) = Some c ∧ c = sample_config ∧
    accepting_device_messages (reached 12) = true ∧
    StopAcceptingDeviceMessages (reached 12) = Some (tt, s') ∧ accepting_device_messages s' = false)
    as (c & s' & H1 & Hc & H2 & H3 & H4) by (eexists _, _; split_and!; vm_compute; reflexivity).
  exists s'. split; [exact H3|]. split; [exact H4|].
  refine (proj2 (proj2 (intake_stopped world c (reached 12) s' H1 _ H2 H3))).
  rewrite Hc. exact sample_config_ok.
Defined.

(** The broker accepts the connection; the subscriptions are made in the callback. *)
Definition with_client (f : MqttConfig * MqttClient → MqttConfig * MqttClient) (s : State) : State :=
  s <| mqtt := f <$> mqtt s |>.
Lemma with_client_interferes f s : interferes s (with_client f s).
Proof.
  exists (requested s), (runtime_bundle s), (external_bridge s), (f <$> mqtt s).
  split; [by destruct s|]. by rewrite fmap_is_Some.
Qed.
Lemma with_client_mqtt f s : mqtt (with_client f s) = f <$> mqtt s.
Proof. reflexivity. Qed.
Definition connects (p : MqttConfig * MqttClient) : MqttConfig * MqttClient :=
  (p.1, client_run (wd_mqtt world) p.1 p.2 [EvConnect 0]).
Definition online : State := with_client connects (reached 12).
Definition checked : State := default MakeState (snd <$> WaitForNextCheck world online).

Lemma connects_later held client :
  mqtt (reached 12) = Some (held, client) →
  connection_generation client <=
    connection_generation (client_run (wd_mqtt world) held client [EvConnect 0]).
Proof.
  intros Hm.
  assert (match mqtt (reached 12) with
          | Some p => connection_generation p.2 <=? connection_generation (connects p).2
          | None => true
          end = true) as G by (vm_compute; reflexivity).
  rewrite Hm in G. apply Z.leb_le. exact G.
Qed.

Lemma online_others : others world (reached 12) online.
Proof.
  split; [exact (with_client_interferes connects (reached 12))|]. intros held client Hm.
  exists [EvConnect 0], (client_run (wd_mqtt world) held client [EvConnect 0]).
  split; [unfold online; rewrite with_client_mqtt, Hm; exact eq_refl|].
  split; [exact eq_refl|exact (connects_later _ _ Hm)].
Qed.

Lemma online_checked : WaitForNextCheck world online = Some (tt, checked).
Proof. vm_compute. reflexivity. Qed.

Lemma online_generation :
  last_external_snapshot_generation online = None ∧ last_external_snapshot_generation checked = Some 1 ∧
  is_Some (runtime_bundle online) ∧ is_Some (mqtt online).
Proof. split_and!; [..|eexists|eexists]; vm_compute; reflexivity. Qed.

Lemma reached_unasked : last_external_snapshot_generation (reached 12) = None.
Proof. vm_compute. reflexivity. Qed.

(** The business thread takes the request, and the next check does not repeat it. *)
Definition takes_up (s : State) : State :=
  s <| runtime_bundle := (λ b, b <| service := (service b) <| external_snapshot_requested_ := false |> |>)
                           <$> runtime_bundle s |>.
Lemma takes_up_others s : others world s (takes_up s).
Proof.
  split.
  - exists (requested s), (runtime_bundle (takes_up s)), (external_bridge s), (mqtt s).
    split; [by destruct s|]. unfold takes_up. cbn. by rewrite fmap_is_Some.
  - intros held client Hm. exists [], client. split; [exact Hm|]. split; [done|lia].
Qed.
Definition taken_up : State := takes_up checked.
Definition next_check (s : State) : State := default MakeState (snd <$> WaitForNextCheck world s).
Fixpoint later_checks (n : nat) (s : State) : list Z * State :=
  match n with
  | O => ([], s)
  | S n => let r := later_checks n (next_check s) in (turned_on s (next_check s) ++ r.1, r.2)
  end.
Lemma checks_later n : ∀ s0 gs s,
  checks world s0 gs s → checks world s0 (gs ++ (later_checks n s).1) (later_checks n s).2.
Proof.
  induction n as [|n IH]; intros s0 gs s H; cbn [later_checks fst snd]; [by rewrite app_nil_r|].
  rewrite app_assoc. apply IH, checks_check; [exact H|]. unfold next_check, WaitForNextCheck.
  repeat case_match; done.
Qed.
Lemma one_snapshot_per_connection_witness :
  turned_on online checked = [1] ∧ (later_checks 7 taken_up).1 = [] ∧
  next_mqtt_subscription_retry taken_up < next_mqtt_subscription_retry (later_checks 7 taken_up).2 ∧
  StronglySorted Z.lt (([] ++ turned_on online checked) ++ (later_checks 7 taken_up).1).
Proof.
  split; [vm_compute; reflexivity|]. split; [vm_compute; reflexivity|]. split; [vm_compute; reflexivity|].
  assert (checks world (reached 12) ([] ++ turned_on online checked) taken_up) as Hc.
  { apply (checks_others world _ _ checked); [|apply takes_up_others].
    apply checks_check; [|exact online_checked].
    apply (checks_others world _ [] (reached 12)); [constructor|exact online_others]. }
  exact (proj1 (one_snapshot_per_connection world (reached 12) _ _ (checks_later 7 _ _ _ Hc) reached_unasked)).
Defined.

Lemma stopped_runtime_is_cut_off_witness :
  ∃ s', StopDeviceRuntime world 5000 (reached 12) = Some (true, s') ∧ runtime_bundle s' = None.
Proof.
  assert (∃ s', device_runtime_stopped (reached 12) = false ∧ is_Some (runtime_bundle (reached 12)) ∧
    StopDeviceRuntime world 5000 (reached 12) = Some (true, s')) as (s' & H1 & H2 & H3).
  { eexists. split; [vm_compute; reflexivity|]. split; [eexists|]; vm_compute; reflexivity. }
  exists s'. split; [exact H3|].
  refine (proj1 (stopped_runtime_is_cut_off world 5000 (reached 12) true s' _ _ H1 H2 H3)).
  - intros n m Hnm. cbn. lia.
  - lia.
Defined.
End Example.
