(* ===== verification/DeviceWrites.v ===== *)
(** * DeviceWrites: the writes a device service waits for

    Every write in the table of the service was handed to the database and taken, and
    leaves the table with its answer: what the steps of the business thread do to the
    table, and to the queue of answers. *)

From Stdlib Require Import ZArith Lia.
From S2P Require Import Prelude Json BoundedQueue.
From S2P Require Import DeviceTopic DeviceMessage DeviceRegistry DirtyState.
From S2P Require Import PostgresWorker DeviceService.
From stdpp Require Import options.

Definition writes_of (outs : list Output) : list DesiredDeviceWrite :=
  omap (λ o, match o with WriteCall w => Some w | _ => None end) outs.
Definition provisions_of (outs : list Output) : list Registration :=
  omap (λ o, match o with ProvisionCall r _ => Some r | _ => None end) outs.

Section Waits.
Context `{JL : JsonLib, MO : MapOrder} (env : Environment) (cfg : Configuration).
Implicit Types s t u : DeviceService.

(** The write is among the calls [new] made from [s] on, and was taken. *)
Definition submits (s : DeviceService) (new : list Output) (w : DesiredDeviceWrite) : Prop :=
  ∃ k, writes_of new !! k = Some w ∧ write_reply env (write_calls s + k) = Accepted.

(** From [s] to [t] the writes waited for are old ones, or were submitted; the queue of
    answers is as it was. *)
Definition waits (s t : DeviceService) : Prop :=
  ∃ new, outputs t = outputs s ++ new ∧ results_ t = results_ s ∧
    provision_calls t = (provision_calls s + length (provisions_of new))%nat ∧
    write_calls t = (write_calls s + length (writes_of new))%nat ∧
    ∀ id w, submitted_ t !! id = Some w →
      submitted_ s !! id = Some w ∨ (w_device_id w = id ∧ submits s new w).

#[export] Instance waits_preorder : PreOrder waits.
Proof.
  split.
  - intros s. exists []. cbn. rewrite app_nil_r, !Nat.add_0_r. auto 10.
  - intros s t u (a & Ea & Ra & Pa & Wa & Na) (b & Eb & Rb & Pb & Wb & Nb). exists (a ++ b).
    unfold writes_of, provisions_of in *.
    rewrite Eb, Ea, Rb, Ra, Pb, Pa, Wb, Wa, app_assoc, !omap_app, !length_app, !Nat.add_assoc.
    split_and!; [done..|]. intros id w [H|(Hid & k & Hk & Hr)]%Nb.
    + apply Na in H as [H|(Hid & k & Hk & Hr)]; [by left|right]. split; [done|]. exists k.
      unfold writes_of in *. rewrite omap_app. split; [by apply lookup_app_l_Some|done].
    + right. split; [done|]. exists (length (writes_of a) + k)%nat. unfold writes_of in *.
      rewrite omap_app, lookup_app_r, Nat.add_sub' by lia. rewrite Nat.add_assoc, <- Wa. done.
Qed.

Create HintDb waiting.

(** An update of the other members. *)
Lemma waits_same s t u :
  waits s t → outputs u = outputs t → results_ u = results_ t →
  provision_calls u = provision_calls t → write_calls u = write_calls t →
  submitted_ u = submitted_ t → waits s u.
Proof. unfold waits. intros H -> -> -> -> ->. exact H. Qed.
Ltac waits_update :=
  match goal with
  | |- waits _ (update _ ?t) => apply (waits_same _ t); [|generalize t; intros; reflexivity..]
  end.
#[local] Hint Extern 0 (waits ?s ?s) => reflexivity : waiting.
#[local] Hint Extern 2 (waits _ (update _ _)) => waits_update : waiting.
Ltac waits_cases := cbv zeta; repeat case_match; simplify_eq; eauto 12 with waiting.

(** Entries only leave the table. *)
Lemma waits_less s t u :
  waits s t → outputs u = outputs t → results_ u = results_ t →
  provision_calls u = provision_calls t → write_calls u = write_calls t →
  (∀ id w, submitted_ u !! id = Some w → submitted_ t !! id = Some w) → waits s u.
Proof.
  unfold waits. intros (new & E & R & P & W & N) -> -> -> -> H. exists new. split_and!; [done..|].
  intros id w Hw. by apply N, H.
Qed.

Definition call (o : Output) : bool :=
  match o with ProvisionCall _ _ | WriteCall _ => true | _ => false end.
Lemma waits_emit s t o : call o = false → waits s t → waits s (emit t o).
Proof.
  intros Ho (new & E & R & P & W & N). exists (new ++ [o]). cbn. unfold writes_of, provisions_of in *.
  rewrite E, !omap_app, <- app_assoc. split_and!; [done|done|by destruct o; rewrite ?app_nil_r..|].
  intros id w [H|(Hid & k & Hk & Hr)]%N; [by left|right]. split; [done|]. exists k.
  unfold writes_of. rewrite omap_app. split; [by apply lookup_app_l_Some|done].
Qed.
#[local] Hint Resolve waits_emit : waiting.
#[local] Hint Extern 1 (call _ = _) => reflexivity : waiting.
Lemma waits_Diagnose s t m : waits s t → waits s (Diagnose t m).
Proof. by apply waits_emit. Qed.
Lemma waits_Inform s t m : waits s t → waits s (Inform t m).
Proof. by apply waits_emit. Qed.
#[local] Hint Resolve waits_Diagnose waits_Inform : waiting.
Lemma waits_Publish s t p : waits s t → waits s (Publish env t p).
Proof. intros. unfold Publish. waits_cases. Qed.
Lemma waits_snapshot s t : waits s t → waits s (PublishCurrentSnapshot env cfg t).
Proof. intros. unfold PublishCurrentSnapshot. waits_cases. Qed.
Lemma waits_adjust s t d : waits s t → waits s (AdjustOutstandingDatabaseWork t d).
Proof. intros. unfold AdjustOutstandingDatabaseWork. waits_cases. Qed.
#[local] Hint Resolve waits_Publish waits_snapshot waits_adjust : waiting.
Lemma waits_Mark s t m : waits s t → waits s (Mark env t m).
Proof. intros. unfold Mark, steady_now. waits_cases. Qed.
#[local] Hint Resolve waits_Mark : waiting.

Lemma waits_SubmitWrite s t w : waits s t → waits s (SubmitWrite env t w).2.
Proof.
  intros H. etrans; [exact H|]. clear H. unfold SubmitWrite, submit_failed, steady_now. cbv zeta.
  set (u := emit _ (WriteCall w)).
  assert (∀ v, outputs v = outputs u → results_ v = results_ u → provision_calls v = provision_calls u →
    write_calls v = write_calls u →
    (∀ id x, submitted_ v !! id = Some x → submitted_ u !! id = Some x ∨
       (w_device_id x = id ∧ x = w ∧ write_reply env (write_calls t) = Accepted)) → waits t v) as Hv.
  { intros v E R P W N. exists [WriteCall w]. rewrite E, R, P, W. unfold u. cbn.
    split_and!; [done|done|lia|lia|]. intros id x [?|(Hid & -> & Hr)]%N; [by left|right].
    split; [done|]. exists 0%nat. by rewrite Nat.add_0_r. }
  assert (waits t u) as Hu by (apply Hv; auto).
  destruct (write_reply env (write_calls t)) eqn:Er; cbn [snd].
  - apply Hv; try (by case_match). intros id x. cbn. rewrite lookup_insert_Some.
    intros [[<- <-]|[_ Hx]]; [by right|left]. revert Hx. by case_match.
  - clear Hv. waits_cases.
  - clear Hv. waits_cases.
  - clear Hv. waits_cases.
Qed.
#[local] Hint Resolve waits_SubmitWrite : waiting.
Lemma waits_send writes : ∀ s t, waits s t → waits s (send env t writes).2.
Proof.
  induction writes as [|w writes IH]; intros s t H; [done|]. cbn. apply IH. by apply waits_SubmitWrite.
Qed.
#[local] Hint Resolve waits_send : waiting.
Lemma waits_Dispatch s t : waits s t → waits s (DispatchWrites env cfg t).
Proof.
  intros. unfold DispatchWrites, steady_now. cbv zeta.
  repeat match goal with |- waits _ (if ?b then _ else _) => destruct b end; eauto 12 with waiting.
Qed.

(** ** Messages, candidates, the scan *)
Lemma waits_message s t m : waits s t → waits s (HandleMessage env cfg t m).
Proof. intros. unfold HandleMessage, handle_registration. waits_cases. Qed.

Lemma waits_candidate s t id : waits s t → waits s (submit_candidate env t id).
Proof.
  intros H. unfold submit_candidate. destruct (pending_ t !! id) as [p|]; [|done].
  destruct (p_submitted p); [done|]. cbv zeta. set (u := emit _ (ProvisionCall _ _)).
  assert (waits s u) as Hu.
  { etrans; [exact H|]. exists [ProvisionCall (p_registration p) (p_received_at p)]. unfold u. cbn.
    split_and!; [done|done|lia|lia|auto]. }
  unfold set_submitted. clearbody u. waits_cases.
Qed.
Lemma waits_candidates s t : waits s t → waits s (submit_candidates env t).
Proof.
  intros H. unfold submit_candidates. destruct (database_unavailable_ t); [done|].
  generalize (map_order (pending_ t)).*1. intros ids.
  induction ids as [|id ids IH] using rev_ind; [done|]. rewrite foldl_snoc. by apply waits_candidate.
Qed.
Lemma waits_scan s t now : waits s t → waits s (scan_offline env cfg t now).
Proof.
  intros H. unfold scan_offline, steady_now. cbv zeta.
  set (u := if scan_initialized_ _ then _ else _).
  assert (waits s u) as Hu by (unfold u; waits_cases). clearbody u.
  destruct (_ <=? _); [|done]. destruct (ExpireInactive _ _ _) as [mutations reg].
  apply (waits_same _ (foldl (Mark env) (u <| registry_ := reg |>) mutations)); try done.
  induction mutations as [|m mutations IH] using rev_ind; [by eauto with waiting|].
  rewrite foldl_snoc. by apply waits_Mark.
Qed.
Lemma waits_cancel s t : waits s t → waits s (cancel_work t).
Proof.
  intros H. unfold cancel_work, ResetOutstandingDatabaseWork. destruct (cancel_database_work_requested_ t); [|done].
  apply (waits_less _ t); [done..|]. cbn. by intros id w ?%lookup_empty_Some.
Qed.

(** ** An answer takes its own write out of the table *)

(** [r] says what became of the write of device [id] at [revision]. *)
Definition settles (r : DatabaseResult) (id : string) (revision : Z) : Prop :=
  answers [Emitted r] id revision.

Lemma settles_spec r id revision :
  settles r id revision ↔
  (r_kind r = kWriteCompleted ∧ r_device_id r = id ∧ revision <= r_revision r) ∨
  (r_kind r = kPermanentFailure ∧ (r_device_id r = "" ∨ (r_device_id r = id ∧ revision <= r_revision r))).
Proof.
  unfold settles, answers. split.
  - intros (q & [= ->]%list_elem_of_singleton & H). exact H.
  - intros H. exists r. split; [left|exact H].
Qed.

Definition settled_by (r : DatabaseResult) (s u : DeviceService) : Prop :=
  outputs u = outputs s ∧ results_ u = results_ s ∧ provision_calls u = provision_calls s ∧
  write_calls u = write_calls s ∧
  ∀ id w, submitted_ u !! id = Some w → submitted_ s !! id = Some w ∧ ¬ settles r id (w_revision w).

Lemma waits_degrade s t r : waits s t → waits s (degrade env t r).
Proof. intros. unfold degrade. waits_cases. Qed.
#[local] Hint Resolve waits_degrade : waiting.
Lemma waits_resubmits s t ids : waits s t → waits s (foldl (resubmit env) t ids).
Proof.
  intros H. induction ids as [|id ids IH] using rev_ind; [done|]. rewrite foldl_snoc.
  unfold resubmit. waits_cases.
Qed.

(** The table without the writes [r] settles. *)
Definition remaining (r : DatabaseResult) (s : DeviceService) : gmap string DesiredDeviceWrite :=
  let id := r_device_id r in
  match r_kind r with
  | kPermanentFailure => if str_empty id then ∅ else delete id (submitted_ s)
  | kWriteCompleted =>
      match submitted_ s !! id with
      | Some w => if w_revision w <=? r_revision r then delete id (submitted_ s) else submitted_ s
      | None => submitted_ s
      end
  | _ => submitted_ s
  end.

Lemma remaining_settled r s : settled_by r s (s <| submitted_ := remaining r s |>).
Proof.
  unfold settled_by, remaining. cbn. split_and!; [done..|]. intros id w. rewrite settles_spec.
  destruct (r_kind r) eqn:Ek; try (intros Hw; split; [done|naive_solver]).
  - intros Hw. destruct (submitted_ s !! r_device_id r) as [x|] eqn:E.
    + destruct (w_revision x <=? r_revision r) eqn:El.
      * apply lookup_delete_Some in Hw as [Hne Hw]. split; [done|naive_solver].
      * split; [done|]. intros [(_ & <- & Hle)|(? & _)]; [|done]. simplify_eq. lia.
    + split; [done|]. intros [(_ & <- & _)|(? & _)]; [|done]. by rewrite E in Hw.
  - destruct (str_empty (r_device_id r)) eqn:E; [by intros ?%lookup_empty_Some|].
    intros [Hne Hw]%lookup_delete_Some. split; [done|].
    intros [(? & _)|(_ & [H|[H _]])]; [done| |done]. by rewrite H in E.
Qed.

Lemma waits_start s t :
  outputs t = outputs s → results_ t = results_ s → provision_calls t = provision_calls s →
  write_calls t = write_calls s → submitted_ t = submitted_ s → waits s t.
Proof. apply waits_same. reflexivity. Qed.

Lemma waits_rebase s t u table :
  waits s t → outputs u = outputs t → results_ u = results_ t →
  provision_calls u = provision_calls t → write_calls u = write_calls t →
  submitted_ u = table → waits (s <| submitted_ := table |>) u.
Proof.
  unfold waits. intros (new & E & R & P & W & _) -> -> -> -> ->. exists new. cbn.
  split_and!; [done..|]. by left.
Qed.

Lemma waits_result s r : ∃ u, settled_by r s u ∧ waits u (HandleResult env s r).
Proof.
  exists (s <| submitted_ := remaining r s |>). split; [apply remaining_settled|].
  unfold HandleResult, remaining. destruct (r_kind r).
  - etrans; [by apply (waits_start s)|]. unfold handle_provisioned. waits_cases.
  - unfold handle_write_completed. cbv zeta.
    match goal with |- waits ?b (match degraded_ ?a !! _ with _ => _ end) =>
      assert (waits b a) as H; [|set (t := a) in *; clearbody t; waits_cases] end.
    destruct (submitted_ s !! r_device_id r) as [w|]; [|by apply waits_start].
    destruct (_ <=? _); [|by apply waits_start]. apply waits_adjust.
    destruct (pending_status_logs_ s !! r_device_id r) as [log|]; [destruct (_ && _)|].
    + eapply (waits_rebase s); [apply waits_Inform; reflexivity|..]; reflexivity.
    + by apply (waits_rebase s s).
    + by apply (waits_rebase s s).
  - etrans; [by apply (waits_start s)|]. unfold handle_unavailable. waits_cases.
  - etrans; [by apply (waits_start s)|]. apply waits_resubmits. waits_cases.
  - unfold handle_permanent_failure. cbv zeta. apply waits_Diagnose, waits_degrade.
    match goal with |- waits _ (if _ then _ else ?a) =>
      match a with context [submitted_ ?x] => set (t := x) in * end end.
    assert (waits s t ∧ submitted_ t = submitted_ s) as [H <-]
      by (unfold t; by repeat case_match; split; waits_cases).
    clearbody t. destruct (str_empty (r_device_id r)).
    + destruct (_ =? 0); [|apply waits_adjust]; by apply (waits_rebase s t).
    + destruct (submitted_ t !! r_device_id r) as [w|] eqn:E; (apply (waits_rebase s t); try done).
      cbn. by rewrite delete_id.
Qed.

(** ** The steps of the business thread, and what other threads do *)

(** Like [waits], with the answers that are taken and those that arrive. *)
Definition exchanges (s t : DeviceService) : Prop :=
  ∃ new, outputs t = outputs s ++ new ∧
    provision_calls t = (provision_calls s + length (provisions_of new))%nat ∧
    write_calls t = (write_calls s + length (writes_of new))%nat ∧
    ∀ id w, submitted_ t !! id = Some w →
      (w_device_id w = id ∧ submits s new w) ∨
      (submitted_ s !! id = Some w ∧
       ∀ r, r ∈ results_ s → settles r id (w_revision w) → r ∈ results_ t).

Lemma waits_exchanges s t : waits s t → exchanges s t.
Proof.
  intros (new & E & R & P & W & N). exists new. rewrite R. split_and!; [done..|].
  intros id w [?|?]%N; [right; auto|by left].
Qed.

Lemma result_exchanges s r rest :
  results_ s = r :: rest → exchanges s (HandleResult env (s <| results_ := rest |>) r).
Proof.
  intros Hr. destruct (waits_result (s <| results_ := rest |>) r)
    as (u & (Eo & Er & Ep & Ew & Hu) & new & E & R & P & W & N).
  cbn in Eo, Er, Ep, Ew. exists new. rewrite E, P, W, Eo, Ep, Ew. split_and!; [done..|].
  intros id w [Hw|[Hid (k & Hk & Hrep)]]%N.
  - right. apply Hu in Hw as [Hw Hn]. split; [exact Hw|]. intros q. rewrite Hr, R, Er.
    intros [->|?]%elem_of_cons Hs; [done|assumption].
  - left. split; [done|]. exists k. by rewrite <- Ew.
Qed.

Lemma exchanges_same s t :
  outputs t = outputs s → (∀ r, r ∈ results_ s → r ∈ results_ t) →
  provision_calls t = provision_calls s → write_calls t = write_calls s →
  submitted_ t = submitted_ s → exchanges s t.
Proof.
  intros E R P W S. exists []. cbn. rewrite E, P, W, S, app_nil_r, !Nat.add_0_r.
  split_and!; [done..|]. intros id w Hw. right. auto.
Qed.
End Waits.
