(* ===== verification/Process.v ===== *)
(** * Process: the threads of a running service together

    The callbacks of RuntimeBundle::Initialize (service_environment.cpp) and the loop of
    DeviceService::Run (core/runtime/device_service.cpp): what one component sends out is
    handed to the component it is meant for, by the thread that sent it, while the other
    threads run on.

    A service computes a step with the replies it is going to get, foretold by
    [Replies]; its calls are then carried out one at a time, and a run in which a reply
    is not the one foretold is no run. *)

From Stdlib Require Import ZArith Lia.
From S2P Require Import Prelude Json DeviceTopic DeviceMessage DeviceRegistry DirtyState.
From S2P Require Import BoundedQueue Ingress CommandTypes CommandState CommandRouter AppConfig Migration.
From S2P Require Import DeviceService PostgresWorker CommandService CommandIngress.
From S2P Require Import MqttClient MqttClientFacts PostgresStore PostgresBridge ExternalBridge RuntimeBundle.
From stdpp Require Import options.

(** ** Calls

    What the business thread does on behalf of its services: the functions given to
    their constructors, with the replies foretold.  [ForwardState] is the second half of
    the event sink. *)
Inductive Call :=
| CallProvision (registration : Registration) (received_at : TimePoint) (accepted : bool)
| CallWrite (write : DesiredDeviceWrite) (accepted : bool)
| CallEvents (published : PublishedState)
| ForwardState (published : PublishedState)
| CallSnapshots (states : list PublishedState)
| CallCommand (operation_id : Z) (task : CommandDatabaseTask) (accepted : bool)
| CallPublish (token : Z) (topic payload : string) (published : bool)
| CallAck (topic payload : string)
| CallDiagnose (message : string)
| CallInform (message : string).

(** ** The business thread

    Where it is in the loop of [Run]: in the [ProcessReady] of the devices, in the hook
    ([ProcessReady] of the commands), or between them.  [pass] tells the calls of
    [ProcessReady] in a turn of the loop apart. *)
Inductive Phase :=
| LoopStart
| Results | Cancel | Messages | Candidates | Scan | Dispatch | Snapshot | TurnEnd
| Queues | Housekeeping
| AfterHook | InputCheck | LoopEnd | Ended.
Inductive Pass := FirstPass | SecondPass | LastPass.

Record BusinessThread := {
  phase : Phase;
  pass : Pass;
  turn_now : TimePoint;      (* the reading of the system clock the turn works with *)
  no_results : bool;
  todo : list Call
}.

#[export] Instance BusinessThread_members : Members BusinessThread := λ t,
  {| phase := phase t; pass := pass t; turn_now := turn_now t; no_results := no_results t;
     todo := todo t |}.

(** [transit] is what the database thread has emitted and not handed over yet. *)
Record Process := {
  bundle : RuntimeBundle;
  bridge : RuntimeExternalBridge;
  client : MqttClient;
  business : BusinessThread;
  transit : list WorkerOutput
}.

#[export] Instance Process_members : Members Process := λ s,
  {| bundle := bundle s; bridge := bridge s; client := client s; business := business s;
     transit := transit s |}.

(** The replies of the worker to the n-th provisioning and write, of the worker to the
    operations and of the client to the publications by their numbers, the steady clock
    and the random device of the business thread. *)
Record Replies := {
  provision_answer : nat → bool;
  write_answer : nat → bool;
  submit_answer : Z → bool;
  publish_answer : Z → bool;
  steady_clock : nat → TimePoint;
  random_device : nat → nat → Z
}.

Definition as_reply (accepted : bool) : Reply := if accepted then Accepted else Refused.

(** No sink throws. *)
Definition device_env (f : Replies) : DeviceService.Environment :=
  {| provision_reply := λ n, as_reply (provision_answer f n);
     write_reply := λ n, as_reply (write_answer f n);
     events_reply := λ _, Accepted; DeviceService.steady_clock := steady_clock f |}.
Definition command_env (f : Replies) : CommandService.Environment :=
  {| submit_reply := submit_answer f; publish_reply := publish_answer f;
     ack_reply := λ _, Accepted; random := random_device f |}.

(** The calls of a step of the device service, whose next provisioning is the [p]-th
    and next write the [w]-th. *)
Fixpoint device_calls (f : Replies) (p w : nat) (outs : list DeviceService.Output) : list Call :=
  match outs with
  | [] => []
  | ProvisionCall r at_ :: rest =>
      CallProvision r at_ (provision_answer f p) :: device_calls f (S p) w rest
  | WriteCall write :: rest =>
      CallWrite write (write_answer f w) :: device_calls f p (S w) rest
  | Published published :: rest => CallEvents published :: device_calls f p w rest
  | Snapshots states :: rest => CallSnapshots states :: device_calls f p w rest
  | DeviceService.Diagnosed m :: rest => CallDiagnose m :: device_calls f p w rest
  | DeviceService.Informed m :: rest => CallInform m :: device_calls f p w rest
  end.

Definition command_call (o : CommandService.Output) : Call :=
  match o with
  | TaskSubmitted id task accepted => CallCommand id task accepted
  | DevicePublish token topic payload published => CallPublish token topic payload published
  | SourceAck topic payload => CallAck topic payload
  | CommandService.Diagnosed m => CallDiagnose m
  | CommandService.Informed m => CallInform m
  end.

Section Process.
Context `{JL : JsonLib, MO : MapOrder, TO : TokenOrder}.
Context (db : DatabaseEnvironment) (mq : MqttEnvironment) (system_clock : nat → TimePoint).
Context (f : Replies).

Definition configuration (s : Process) : AppConfig := RuntimeBundle.config (bundle s).

(** ** The two services

    The command service refers to the directory of the device service. *)
Definition after_devices (s : Process) (d : DeviceService) : Process :=
  let b := bundle s in
  let before := service b in
  let new := drop (length (DeviceService.outputs before)) (DeviceService.outputs d) in
  let commands := (command_service b) <| devices_ := registry_ d |> in
  let t := business s in
  let t := t <| todo := device_calls f (provision_calls before) (write_calls before) new ++ todo t |> in
  s <| bundle := b <| service := d |> <| command_service := commands |> |> <| business := t |>.

Definition after_commands (s : Process) (c : CommandService) : Process :=
  let b := bundle s in
  let new := drop (length (CommandService.outputs (command_service b))) (CommandService.outputs c) in
  let t := business s in
  let t := t <| todo := (command_call <$> new) ++ todo t |> in
  s <| bundle := b <| command_service := c |> |> <| business := t |>.

Definition on_database (s : Process) (d : DatabaseThread) : Process :=
  let b := bundle s in s <| bundle := b <| database := d |> |>.
Definition on_worker (s : Process) (w : PostgresWorker) : Process :=
  on_database s {| worker := w; store := store (database (bundle s)) |}.

Definition enter (next : Phase) (s : Process) : Process :=
  let t := business s in s <| business := t <| phase := next |> |>.

(** ** A call of the business thread: [None] when the reply was not foretold *)
Definition foretold (reply accepted : bool) (s : Process) : option Process :=
  if Bool.eqb reply accepted then Some s else None.

Definition with_client (s : Process) (r : RuntimeExternalBridge * MqttClient) : Process :=
  s <| bridge := r.1 |> <| client := r.2 |>.

Definition perform_call (now : TimePoint) (s : Process) (c : Call) : option Process :=
  let w := worker (database (bundle s)) in
  match c with
  | CallProvision r at_ accepted =>
      let q := PostgresWorker.SubmitProvision w r at_ in foretold q.1 accepted (on_worker s q.2)
  | CallWrite write accepted =>
      let q := PostgresWorker.SubmitWrite w write in foretold q.1 accepted (on_worker s q.2)
  | CallEvents published =>
      let record := ps_record published in
      let t := business s in
      let s := s <| business := t <| todo := ForwardState published :: todo t |> |> in
      Some (if bool_decide (dr_status record = kOnline)
            then after_commands s
                   (OnTargetOnline (command_env f) (command_configuration (configuration s))
                      (command_service (bundle s)) (dr_device_id record) now)
            else s)
  | ForwardState published => Some (with_client s (Publish mq system_clock (bridge s) (client s) published))
  | CallSnapshots states =>
      Some (with_client s (PublishFullSnapshot mq system_clock (bridge s) (client s) states))
  | CallCommand id task accepted =>
      let q := PostgresWorker.SubmitCommand (max_inflight (configuration s)) w id task in
      foretold q.1 accepted (on_worker s q.2)
  | CallPublish token topic payload published =>
      let q := PublishSet mq (bridge s) (client s) token topic payload in
      foretold (is_ok q.1) published (s <| client := q.2 |>)
  | CallAck topic payload => Some (s <| client := PublishAck mq (bridge s) (client s) topic payload |>)
  | CallDiagnose m => Some (s <| client := Diagnose (bridge s) (client s) m |>)
  | CallInform m => Some (s <| client := Inform (bridge s) (client s) m |>)
  end.

(** ** The loop of [Run] *)

(** The beginning of [ProcessReady]. *)
Definition start_turn (p : Pass) (now : TimePoint) (s : Process) : Process :=
  let t := business s in
  let t := t <| phase := Results |> <| pass := p |> <| turn_now := now |> in
  let s := s <| business := t |> in
  after_devices s ((service (bundle s)) <| processing_ready_ := true |>).

(** Its end, where the hook begins. *)
Definition end_turn (now : TimePoint) (s : Process) : Process :=
  let s := after_devices s ((service (bundle s)) <| processing_ready_ := false |>) in
  let t := business s in
  s <| business := t <| phase := Queues |> <| turn_now := now |> |>.

Definition next_message (s : Process) : Process :=
  let d := service (bundle s) in
  match WaitPop (mqtt_queue_ d) with
  | (Some (Some m), q) =>
      after_devices s (DeviceService.HandleMessage (device_env f) (device_configuration (configuration s))
                         (d <| mqtt_queue_ := q |>) m)
  | (_, q) => after_devices s (d <| mqtt_queue_ := q |>)
  end.

Definition phase_step (now : TimePoint) (s : Process) : Process :=
  let t := business s in
  let d := service (bundle s) in
  let c := command_service (bundle s) in
  let cfg := device_configuration (configuration s) in
  let ccfg := command_configuration (configuration s) in
  match phase t with
  | LoopStart =>
      start_turn (if stop_requested (business_thread (bundle s)) then LastPass else FirstPass) now s
  | Results =>
      match results_ d with
      | [] => enter Cancel s
      | r :: rest => after_devices s (HandleResult (device_env f) (d <| results_ := rest |>) r)
      end
  | Cancel => enter Messages (after_devices s (cancel_work d))
  | Messages => if (Size (mqtt_queue_ d) =? 0)%nat then enter Candidates s else next_message s
  | Candidates => enter Scan (after_devices s (submit_candidates (device_env f) d))
  | Scan => enter Dispatch (after_devices s (scan_offline (device_env f) cfg d (turn_now t)))
  | Dispatch => enter Snapshot (after_devices s (DispatchWrites (device_env f) cfg d))
  | Snapshot =>
      enter TurnEnd
        (if external_snapshot_requested_ d then
           after_devices s (PublishCurrentSnapshot (device_env f) cfg
                              (d <| external_snapshot_requested_ := false |>))
         else s)
  | TurnEnd => end_turn now s
  | Queues =>
      match process_one (command_env f) ccfg c (turn_now t) with
      | Some c => after_commands s c
      | None => enter Housekeeping s
      end
  | Housekeeping =>
      enter (match pass t with FirstPass => AfterHook | SecondPass => LoopEnd | LastPass => Ended end)
        (after_commands s (housekeeping (command_env f) ccfg c (turn_now t)))
  | AfterHook =>
      let t := t <| phase := InputCheck |> <| no_results := bool_decide (results_ d = []) |> in
      s <| business := t |>
  | InputCheck =>
      if DeviceService.closed_ d && (Size (mqtt_queue_ d) =? 0)%nat
      then start_turn SecondPass now (after_devices s (d <| input_drained_ := true |>))
      else enter LoopEnd s
  | LoopEnd =>
      if input_drained_ d && no_results t && negb (HasOutstandingDatabaseWork d)
      then start_turn LastPass now s else enter LoopStart s
  | Ended => s
  end.

Definition business_step (now : TimePoint) (s : Process) : option Process :=
  let t := business s in
  match todo t with
  | c :: rest => perform_call now (s <| business := t <| todo := rest |> |>) c
  | [] => Some (phase_step now s)
  end.

(** ** The database thread *)
Definition hand_over (s : Process) (o : WorkerOutput) : Process :=
  let b := bundle s in
  match o with
  | Emitted r =>
      s <| bundle := b <| service := DeviceService.PushDatabaseResult (service b) r |> |>
  | EmittedCommand r =>
      s <| bundle := b <| command_service := PushDatabaseResult (command_service b) r |> |>
  | Replayed =>
      s <| client := ReplayRegistrations mq (bridge s) (client s)
                       (mq_topic_namespace (ac_mqtt (configuration s))) |>
  | WorkerDiagnosed m => s <| client := Diagnose (bridge s) (client s) m |>
  end.

Definition database_step (now : TimePoint) (s : Process) : Process :=
  match transit s with
  | o :: rest => hand_over (s <| transit := rest |>) o
  | [] =>
      let b := bundle s in
      let c := configuration s in
      let op := match running (worker (database b)) with
                | Some _ => RunJobOp now
                | None => PickOp (stop_requested (database_thread b)) now
                end in
      let r := thread_step db (ac_database c) true (migrations b) (reconnect_interval c)
                 (max_inflight c) (database b) op in
      (on_database s r.2) <| transit := r.1 |>
  end.

(** ** The client: the threads of the library and the calls of the main thread *)
Definition own_event (e : ClientEvent) : bool :=
  match e with
  | EvPublishCommandSet _ _ _ | EvPublishSourceCommandAck _ _ | EvPublishStateEvent _ _
  | EvReplay _ => false
  | _ => true
  end.

(** The handlers of [StartMqtt]; [now1] and [now2] are what the rate limiters read. *)
Definition handler_call (now1 now2 : TimePoint) (s : Process) (o : MqttClient.Output) : Process :=
  match o with
  | Delivered m =>
      let r := business_message (bundle s) m now1 now2 in
      let s := s <| bundle := r.2 |> in
      s <| client := foldl (Diagnose (bridge s)) (client s) r.1 |>
  | Completed completion => s <| bundle := publish_completed (bundle s) completion |>
  | _ => s
  end.

Definition client_event (e : ClientEvent) (now1 now2 : TimePoint) (s : Process) : Process :=
  let c := client_step mq (ac_mqtt (configuration s)) (client s) e in
  let new := drop (length (outputs (client s))) (outputs c) in
  foldl (handler_call now1 now2) (s <| client := c |>) new.

(** ** The main thread *)
Inductive MainOp :=
| StartupWrite (write : DesiredDeviceWrite)
| Attach
| CheckDatabase | CheckMqtt | AskSnapshot
| DisableIntake | CloseDevices | CloseCommands
| Drain | DisableBridge
| StopThreads | CancelDevices | CancelCommands.

Definition on_services (g : RuntimeBundle → RuntimeBundle) (s : Process) : Process :=
  s <| bundle := g (bundle s) |>.

Definition main_step (op : MainOp) (s : Process) : Process :=
  match op with
  | StartupWrite write => on_services (λ b, submit_write b write) s
  | Attach => let b := bridge s in s <| bridge := b <| ExternalBridge.mqtt := true |> |>
  | CheckDatabase =>
      on_services (λ b, b <| command_service :=
        SetDatabaseAvailable (command_service b) (IsDatabaseAvailable (worker (database b))) |>) s
  | CheckMqtt =>
      on_services (λ b, b <| command_service :=
        SetMqttAvailable (command_service b) (IsConnected (client s)) |>) s
  | AskSnapshot => on_services (λ b, b <| service := RequestExternalSnapshot (service b) |>) s
  | DisableIntake =>
      on_services (λ b, b <| ingress := Ingress.Disable (ingress b) |>
                          <| command_ingress := CommandIngress.Disable (command_ingress b) |>) s
  | CloseDevices => on_services (λ b, b <| service := DeviceService.Close (service b) |>) s
  | CloseCommands => on_services (λ b, b <| command_service := Close (command_service b) |>) s
  | Drain => on_worker s (RequestDrain (worker (database (bundle s))))
  | DisableBridge => s <| bridge := ExternalBridge.Disable (bridge s) |>
  | StopThreads =>
      on_services (λ b, b <| business_thread := RequestThreadStop (business_thread b) |>
                          <| database_thread := RequestThreadStop (database_thread b) |>) s
  | CancelDevices =>
      on_services (λ b, b <| service := CancelOutstandingDatabaseWork (service b) |>) s
  | CancelCommands =>
      on_services (λ b, b <| command_service := CancelOutstandingWork (command_service b) |>) s
  end.

(** ** Runs *)
Inductive Action :=
| Business (now : TimePoint)
| Database (now : TimePoint)
| Client (e : ClientEvent) (now1 now2 : TimePoint)
| MainThread (op : MainOp).

Definition step (s : Process) (a : Action) : option Process :=
  match a with
  | Business now => business_step now s
  | Database now => Some (database_step now s)
  | Client e now1 now2 => if own_event e then Some (client_event e now1 now2 s) else None
  | MainThread op => Some (main_step op s)
  end.

Fixpoint run (s : Process) (actions : list Action) : option Process :=
  match actions with
  | [] => Some s
  | a :: rest => s' ← step s a; run s' rest
  end.

(** The threads are started; the bundle is as [Initialize] left it. *)
Definition start (c : AppConfig) (available : list Migration) (st : PostgresStore)
    (registry : DeviceRegistry) (sources : SourceCatalog) (active : list CommandRecord)
    (e : RuntimeExternalBridge) (m : MqttClient) : Process :=
  {| bundle := Initialize (device_env f) c available st registry [] sources active;
     bridge := e; client := m;
     business := {| phase := LoopStart; pass := FirstPass; turn_now := 0; no_results := false;
                    todo := [] |};
     transit := [] |}.
End Process.
