(* ===== verification/ProcessFacts.v ===== *)
(** * ProcessFacts: nothing is lost between the threads

    What a service waits for is somewhere on its way: in a call the business thread is
    about to make, at the database thread, or in an answer not yet taken.  What a service
    learns of the database happened there. *)

From Stdlib Require Import ZArith Lia.
From S2P Require Import Prelude Json DeviceTopic DeviceMessage DeviceRegistry DirtyState.
From S2P Require Import BoundedQueue Ingress CommandTypes CommandState CommandRouter AppConfig Migration.
From S2P Require Import MqttClient MqttClientFacts PostgresStore PostgresStoreFacts ExternalBridge.
From S2P Require Import CommandIngress PostgresWorker PostgresBridge PostgresBridgeFacts RuntimeBundle Process.
From S2P Require Import DeviceService DeviceWrites CommandService CommandServiceFacts CommandOperations CommandOrigins.
From stdpp Require Import options.

#[local] Set Default Proof Using "JL MO Type*".

(** The command operations at the worker. *)
Definition holds_task (w : PostgresWorker) (id : Z) (task : CommandDatabaseTask) : Prop :=
  (id, task) ∈ commands_ w ∨ running w = Some (CommandJob id task).

Section Thread.
Context `{JL : JsonLib, MO : MapOrder} (db : DatabaseEnvironment).
Context (config : DatabaseConfig) (migrations : list Migration) (itv : TimePoint) (m : nat).
Implicit Types d : DatabaseThread.
Abbreviation turn := (thread_step db config true migrations itv m).

(** The database gave [value] as the answer to [task]: the statements of the task are
    among those it has executed. *)
Definition executed (d : DatabaseThread) (task : CommandDatabaseTask)
    (value : expected CommandDatabaseValue DatabaseError) : Prop :=
  ∃ s, last_failure_kind_ s = kPermanent ∧ (visit db task s).1 = value ∧
    statements (visit db task s).2 `prefix_of` statements (store d).

Lemma pick_tasks w stop now id task :
  holds_task (pick w stop now) id task → holds_task w id task.
Proof.
  unfold holds_task, pick. destruct stop; [done|]. destruct (unavailable_ w).
  { destruct (now <? _); [done|]. cbn. naive_solver. }
  destruct (commands_ w) as [|[i t] rest] eqn:E.
  - destruct (map_order (provisions_ w)) as [|[]]; [destruct (map_order (writes_ w)) as [|[]]|].
    + destruct (drain_requested_ w); cbn; rewrite ?E; naive_solver.
    + cbn. rewrite E. naive_solver.
    + cbn. rewrite E. naive_solver.
  - cbn. intros [H|[= -> ->]]; left; set_solver.
Qed.

Lemma finish_tasks w replies now id task :
  holds_task (finish_job itv w replies now).2 id task → holds_task w id task.
Proof.
  unfold holds_task, finish_job. destruct (running w) as [[| |i t|t|x|x]|] eqn:E; cbn; [..|naive_solver].
  - unfold finish_reconnect. repeat case_match; cbn; naive_solver.
  - intros [?%elem_of_nil|]; naive_solver.
  - unfold finish_command. repeat case_match; cbn; try naive_solver.
    intros [[?|?]%elem_of_cons|?]; naive_solver.
  - unfold finish_provision. repeat case_match; cbn; naive_solver.
  - naive_solver.
  - unfold finish_write. repeat case_match; cbn; naive_solver.
Qed.

Lemma turn_tasks d op id task :
  holds_task (worker (turn d op).2) id task →
  holds_task (worker d) id task ∨ op = SubmitCommandOp id task.
Proof.
  intros H. destruct op as [r t|x|i t| |stop now|now]; cbn in H.
  - left. unfold PostgresWorker.SubmitProvision in H. by repeat case_match.
  - left. unfold PostgresWorker.SubmitWrite in H. by destruct (negb _).
  - unfold SubmitCommand in H. destruct (_ || _); [by left|]. unfold holds_task in *. cbn in H.
    destruct H as [[H|H]%elem_of_app|H]; [left; by left| |left; by right].
    apply list_elem_of_singleton in H as [= -> ->]. by right.
  - by left.
  - left. destruct (worker_stopped_ (worker d)); [done|]. case_bool_decide; [done|].
    by apply pick_tasks in H.
  - left. destruct (run_job_reply db config true migrations itv (worker d) (store d) now) as [replies Hr].
    destruct (run_job _ _ _ _ _ _ _ _) as [[outs w] st]. cbn in *.
    apply (finish_tasks (worker d) replies now). rewrite <- Hr. exact H.
Qed.

(** The statements of the store are never taken back. *)
Lemma turn_statements d op :
  thread_ok db d → statements (store d) `prefix_of` statements (store (turn d op).2).
Proof.
  intros H. destruct op as [| | | | |now]; try done.
  destruct (running (worker d)) as [job|] eqn:E.
  - destruct (job_settles db config true migrations itv m d job now H E) as [(ok & failed & Hs & _) _].
    rewrite Hs. by apply prefix_app_r.
  - cbn. unfold run_job. by rewrite E.
Qed.

Lemma executed_later d d' task value :
  statements (store d) `prefix_of` statements (store d') → executed d task value → executed d' task value.
Proof. intros Hp (s & Hk & Hv & Hs). exists s. split_and!; [done|done|by etrans]. Qed.

Lemma turn_answers d op r :
  thread_ok db d → EmittedCommand r ∈ (turn d op).1 →
  ∃ task, running (worker d) = Some (CommandJob (cd_operation_id r) task) ∧
    executed (turn d op).2 task (cd_value r).
Proof.
  intros Hok H. destruct op as [| | | |stop now|now]; try by apply elem_of_nil in H.
  { cbn in H. destruct (_ || _); by apply elem_of_nil in H. }
  cbn [thread_step] in *. destruct (run_job _ _ _ _ _ _ _ _) as [[outs w] st] eqn:Er. cbn [fst snd] in *.
  unfold run_job in Er. destruct (running (worker d)) as [[| |id task|task|x|x]|] eqn:E.
  - exfalso. destruct (ReconnectAndValidate _ _ _ _ _) as [res st']. unfold finish_reconnect in Er.
    destruct (outcome _ _ _); [|destruct (is_unavailable _)]; simplify_eq; set_solver.
  - exfalso. simplify_eq. set_solver.
  - pose proof (surjective_pairing (visit db task (store d))) as Ev.
    destruct (visit db task (store d)) as [res st'] eqn:Evis. unfold finish_command in Er. cbn in Er.
    assert (last_failure_kind_ (store d) = kPermanent) as Hk.
    { destruct Hok as [Hk Hr]. rewrite E in Hr, Hk. by apply Hk. }
    destruct res as [v|e]; [|destruct (is_unavailable e)]; simplify_eq.
    + apply list_elem_of_singleton in H as [= ->]. exists task. split; [done|].
      exists (store d). rewrite Evis. by split_and!.
    + by apply list_elem_of_singleton in H.
    + apply list_elem_of_singleton in H as [= ->]. exists task. split; [done|].
      exists (store d). rewrite Evis. by split_and!.
  - exfalso. destruct (Provision _ _ _ _) as [res st']. unfold finish_provision in Er.
    destruct (outcome _ _ _); [|destruct (is_unavailable _)]; simplify_eq; set_solver.
  - exfalso. unfold lose_provision in Er. simplify_eq. set_solver.
  - exfalso. destruct (Write _ _ _) as [res st']. unfold finish_write in Er.
    destruct (outcome _ _ _); [|destruct (is_unavailable _)]; simplify_eq; set_solver.
  - simplify_eq. by apply elem_of_nil in H.
Qed.

(** One turn of the thread, or one call of another thread. *)
Definition taken (d : DatabaseThread) (op : ThreadOp) : list Z :=
  match op with
  | SubmitCommandOp id task => if (SubmitCommand m (worker d) id task).1 then [id] else []
  | _ => []
  end.

Lemma turn_commands d op :
  worker_ok m (worker d) →
  let r := turn d op in
  worker_ok m (worker r.2) ∧
  (command_ids (worker d) ++ taken d op = emitted_ids r.1 ++ command_ids (worker r.2) ∨
   gave_up (worker r.2)).
Proof.
  intros H r. destruct (step_refines db config true migrations itv m d op) as (wop & Href & E).
  destruct (worker_step_ok itv m (worker d) wop H) as [Hok Hc]. rewrite E in Hok, Hc. cbn in Hok, Hc.
  split; [exact Hok|]. destruct Hc as [Hc|(_ & _ & Hg)]; [left|by right].
  assert (accepted_id m (worker d) wop = taken d op) as <-; [|exact Hc].
  destruct Href as [op wop Hop|]; [destruct op; simplify_eq/=; done|done].
Qed.

Lemma turn_gave_up d op :
  worker_ok m (worker d) → gave_up (worker d) → gave_up (worker (turn d op).2) ∧ taken d op = [].
Proof.
  intros H Hg. destruct (step_refines db config true migrations itv m d op) as (wop & Href & E).
  destruct (gave_up_step itv m (worker d) wop H Hg) as (G1 & G2 & G3). rewrite E in G1. cbn in G1.
  split; [done|]. destruct op; try done. destruct Hg as (_ & Ha & _). cbn. unfold SubmitCommand.
  by rewrite Ha.
Qed.

Lemma turn_holds d op id c r :
  worker_ok m (worker d) → holds (worker d) id c r →
  holds (worker (turn d op).2) id c r ∨ answers (turn d op).1 id r ∨ gave_up (worker (turn d op).2).
Proof.
  intros H Hh. destruct (step_refines db config true migrations itv m d op) as (wop & _ & E).
  pose proof (worker_step_holds itv m id c r (worker d) wop H Hh) as Hs. rewrite E in Hs. cbn in Hs. tauto.
Qed.

Lemma turn_ok d op : thread_ok db d → thread_ok db (turn d op).2.
Proof. intros H. exact (thread_ok_run db config true migrations itv m [op] d H). Qed.
End Thread.

(** ** Where an operation is *)
Definition pending_ids (todo : list Call) : list Z :=
  omap (λ c, match c with CallCommand id _ true => Some id | _ => None end) todo.

(** The operation is in a call about to be made, at the worker, or answered; or the
    worker gave up, or the command service was closed and takes no answer. *)
Definition accounted (todo : list Call) (w : PostgresWorker) (transit : list WorkerOutput)
    (c : CommandService) (id : Z) : Prop :=
  id ∈ pending_ids todo ∨ id ∈ command_ids w ∨ id ∈ emitted_ids transit ∨
  id ∈ cd_operation_id <$> database_results_ c ∨ gave_up w ∨ CommandService.closed_ c = true.

(** Column group [col] of the write is in a call about to be made, at the worker, at this
    revision or a later one, or answered; or the worker gave up. *)
Definition write_accounted (todo : list Call) (w : PostgresWorker) (transit : list WorkerOutput)
    (v : DeviceService) (id : string) (col : Column) (revision : Z) : Prop :=
  (∃ x, CallWrite x true ∈ todo ∧ w_device_id x = id ∧ selects x col = true ∧ revision <= w_revision x) ∨
  holds w id col revision ∨ answers transit id revision ∨ answers (Emitted <$> results_ v) id revision ∨
  gave_up w.

Section Invariant.
Context `{JL : JsonLib, MO : MapOrder} (db : DatabaseEnvironment) (m : nat).
Implicit Types (v : DeviceService) (c : CommandService) (d : DatabaseThread).

(** The task was submitted under this identifier. *)
Definition submitted (c : CommandService) (id : Z) (task : CommandDatabaseTask) : Prop :=
  TaskSubmitted id task true ∈ outputs c.

Record whole (v : DeviceService) (c : CommandService) (d : DatabaseThread) (todo : list Call)
    (transit : list WorkerOutput) : Prop := {
  wh_worker : worker_ok m (worker d);
  wh_thread : thread_ok db d;
  wh_numbers : foldl number (Some 1) (outputs c) = Some (next_operation_id_ c);
  wh_operations : ∀ id op, operations_ c !! id = Some op →
    accounted todo (worker d) transit c id ∧ ∃ task, submitted c id task ∧ matches op task;
  wh_tasks : ∀ id task, CallCommand id task true ∈ todo ∨ holds_task (worker d) id task →
    submitted c id task;
  wh_answers : ∀ r, EmittedCommand r ∈ transit ∨ r ∈ database_results_ c →
    ∃ task, submitted c (cd_operation_id r) task ∧ executed db d task (cd_value r);
  wh_writes : ∀ id x, submitted_ v !! id = Some x → w_device_id x = id ∧
    ∀ col, selects x col = true →
      write_accounted todo (worker d) transit v id col (w_revision x)
}.

Lemma pending_app a b : pending_ids (a ++ b) = pending_ids a ++ pending_ids b.
Proof. apply omap_app. Qed.
Lemma pending_elem todo id : id ∈ pending_ids todo ↔ ∃ task, CallCommand id task true ∈ todo.
Proof.
  unfold pending_ids. rewrite list_elem_of_omap. split.
  - intros (x & Hx & E). destruct x as [| | | | |i task []| | | |]; try done. simplify_eq. by exists task.
  - intros [task H]. by eexists.
Qed.

(** *** A step of the device service *)
Lemma device_calls_writes f outs : ∀ p w k x,
  writes_of outs !! k = Some x → write_answer f (w + k) = true →
  CallWrite x true ∈ device_calls f p w outs.
Proof.
  induction outs as [|o outs IH]; intros p w k x Hk Ha; [done|].
  destruct o; cbn in *; try (right; by eapply IH).
  destruct k as [|k]; cbn in Hk.
  - simplify_eq. rewrite Nat.add_0_r in Ha. rewrite Ha. left.
  - right. apply (IH _ _ k); [done|]. by rewrite <- Nat.add_succ_comm in Ha.
Qed.
Lemma device_calls_commands f outs : ∀ p w id task,
  CallCommand id task true ∉ device_calls f p w outs.
Proof.
  induction outs as [|o outs IH]; intros p w id task; [apply not_elem_of_nil|].
  destruct o; cbn; apply not_elem_of_cons; (split; [done|apply IH]).
Qed.

Lemma whole_devices f v v' c c' d todo transit new :
  whole v c d todo transit → exchanges (device_env f) v v' →
  DeviceService.outputs v' = DeviceService.outputs v ++ new →
  outputs c' = outputs c → operations_ c' = operations_ c → next_operation_id_ c' = next_operation_id_ c →
  database_results_ c' = database_results_ c → CommandService.closed_ c' = CommandService.closed_ c →
  whole v' c' d (device_calls f (provision_calls v) (write_calls v) new ++ todo) transit.
Proof.
  intros [W1 W2 W3 W4 W5 W6 W7] (new' & E & _ & _ & Hx) En H1 H2 H3 H4 H5.
  rewrite E in En. apply app_inv_head in En as ->.
  assert (∀ id task, submitted c' id task ↔ submitted c id task) as Hsub by (unfold submitted; by rewrite H1).
  split; [done|done|by rewrite H1, H3|..].
  - intros id op Hop. rewrite H2 in Hop. destruct (W4 id op Hop) as [Ha (task & Ht & Hm)].
    split; [|exists task; by rewrite Hsub]. revert Ha. unfold accounted. rewrite H4, H5, pending_app, elem_of_app. tauto.
  - intros id task [[H|H]%elem_of_app|H]; apply Hsub.
    + by apply device_calls_commands in H.
    + apply W5. by left.
    + apply W5. by right.
  - intros r Hr. rewrite H4 in Hr. destruct (W6 r Hr) as (task & Ht & He). exists task. by rewrite Hsub.
  - intros id x [[Hid (k & Hk & Ha)]|[Hw Hr]]%Hx.
    + split; [done|]. intros col Hc. left. exists x. split_and!; [|done|done|lia].
      apply elem_of_app. left. apply (device_calls_writes f new _ _ k); [done|].
      cbn in Ha. by destruct (write_answer f _).
    + destruct (W7 id x Hw) as [Hid Hc]. split; [done|]. intros col Hs.
      destruct (Hc col Hs) as [(y & Hy & H)|[H|[H|[(r & Hin & H)|H]]]]; unfold write_accounted; [|auto..| |auto].
      * left. exists y. set_solver.
      * do 3 right. left. exists r. apply list_elem_of_fmap in Hin as (q & [= ->] & Hq).
        split; [|exact H]. apply list_elem_of_fmap. exists q. split; [done|]. apply Hr; [done|].
        by apply settles_spec.
Qed.

(** *** A step of the command service *)
Lemma command_calls_spec (new : list Output) id task :
  CallCommand id task true ∈ command_call <$> new ↔ TaskSubmitted id task true ∈ new.
Proof.
  rewrite list_elem_of_fmap. split.
  - intros (o & E & Ho). destruct o; simplify_eq/=; done.
  - intros H. by exists (TaskSubmitted id task true).
Qed.

Lemma whole_commands v c c' d todo transit new :
  whole v c d todo transit → follows c c' → outputs c' = outputs c ++ new →
  (CommandService.closed_ c = true → CommandService.closed_ c' = true) →
  (∀ r, r ∈ database_results_ c' → r ∈ database_results_ c ∨ EmittedCommand r ∈ transit) →
  whole v c' d ((command_call <$> new) ++ todo) transit.
Proof.
  intros [W1 W2 W3 W4 W5 W6 W7] (new' & E & Hn & Ho) En Hc Hr.
  rewrite E in En. apply app_inv_head in En as ->.
  assert (∀ id task, submitted c id task → submitted c' id task) as Hsub.
  { intros id task. unfold submitted. rewrite E. set_solver. }
  split; [done|done|by rewrite E, foldl_app, W3, Hn|..].
  - intros id op [(task & Ht & Hm)|[Hop Hres]]%Ho.
    + split; [|exists task; split; [unfold submitted; rewrite E; set_solver|done]].
      left. apply pending_elem. exists task. apply elem_of_app. left. by apply command_calls_spec.
    + destruct (W4 id op Hop) as [Ha (task & Ht & Hm)]. split; [|exists task; auto].
      revert Ha. unfold accounted. rewrite pending_app, elem_of_app.
      intros [?|[?|[?|[Ha|[?|?]]]]]; auto 8.
      apply list_elem_of_fmap in Ha as (r & -> & Hin). do 3 right. left.
      apply list_elem_of_fmap. exists r. split; [done|by apply Hres].
  - intros id task [[H|H]%elem_of_app|H].
    + apply command_calls_spec in H. unfold submitted. rewrite E. set_solver.
    + apply Hsub, W5. by left.
    + apply Hsub, W5. by right.
  - intros r Hin. destruct (W6 r) as (task & Ht & He); [destruct Hin as [?|[?|?]%Hr]; auto|].
    exists task. auto.
  - intros id x Hw. destruct (W7 id x Hw) as [Hid Hcol]. split; [done|]. intros col Hs.
    destruct (Hcol col Hs) as [(y & Hy & H)|H]; [left|by right]. exists y. set_solver.
Qed.

(** *** The database thread, and the calls of the others to it *)
Context (config : DatabaseConfig) (migrations : list Migration) (itv : TimePoint).
Abbreviation turn := (thread_step db config true migrations itv m).

Lemma answers_app_l a b id r : answers a id r → answers (a ++ b) id r.
Proof. intros. apply answers_app. by left. Qed.

Lemma whole_turn v c d todo transit op :
  whole v c d todo transit →
  (∀ id task, op = SubmitCommandOp id task → CallCommand id task true ∈ todo ∨ (turn d op).2 = d) →
  whole v c (turn d op).2 todo (transit ++ (turn d op).1).
Proof.
  intros [W1 W2 W3 W4 W5 W6 W7] Hop.
  destruct (turn_commands db config migrations itv m d op W1) as [Hok Hids].
  pose proof (turn_statements db config migrations itv m d op W2) as Hst.
  assert (∀ id task, holds_task (worker (turn d op).2) id task → submitted c id task) as Htasks.
  { intros id task H. destruct (turn_tasks db config migrations itv m d op id task H) as [H'|E].
    - apply W5. by right.
    - destruct (Hop id task E) as [Hin|E']; apply W5; [by left|right]. by rewrite <- E'. }
  split; [done|by apply turn_ok|done|..].
  - intros id o Ho. destruct (W4 id o Ho) as [Ha Ht]. split; [|done]. revert Ha. unfold accounted.
    rewrite emitted_ids_app. intros [Ha|[Ha|[Ha|[Ha|[Ha|Ha]]]]]; auto 8.
    + destruct Hids as [Hids|Hg]; [|auto 8].
      assert (id ∈ emitted_ids (turn d op).1 ++ command_ids (worker (turn d op).2)) as H
        by (rewrite <- Hids; apply elem_of_app; by left).
      apply elem_of_app in H as [H|H]; [|auto]. do 2 right. left. apply elem_of_app. by right.
    + do 2 right. left. apply elem_of_app. by left.
    + do 4 right. left. by apply (turn_gave_up db config migrations itv m d op W1).
  - intros id task [H|H]; [apply W5; by left|by apply Htasks].
  - intros r Hr.
    assert ((EmittedCommand r ∈ transit ∨ r ∈ database_results_ c) ∨ EmittedCommand r ∈ (turn d op).1)
      as [H|H] by (destruct Hr as [[?|?]%elem_of_app|?]; auto).
    + destruct (W6 r H) as (task & Ht & He). exists task. split; [done|]. by eapply executed_later.
    + destruct (turn_answers db config migrations itv m d op r W2 H) as (task & Hr' & He).
      exists task. split; [apply W5; right; by right|done].
  - intros id x Hx. destruct (W7 id x Hx) as [Hid Hcol]. split; [done|]. intros col Hs. unfold write_accounted.
    destruct (Hcol col Hs) as [H|[H|[H|[H|H]]]]; auto 8.
    + destruct (turn_holds db config migrations itv m d op id col _ W1 H) as [?|[?|?]]; [auto| |auto 8].
      do 2 right. left. apply answers_app. by right.
    + do 2 right. left. by apply answers_app_l.
    + do 4 right. by apply (turn_gave_up db config migrations itv m d op W1).
Qed.

(** A call that was carried out. *)
Lemma whole_pop v c d call todo transit :
  whole v c d (call :: todo) transit →
  (∀ id task, call = CallCommand id task true → id ∈ command_ids (worker d) ∨ gave_up (worker d)) →
  (∀ x, call = CallWrite x true → ∀ col, selects x col = true →
     holds (worker d) (w_device_id x) col (w_revision x)) →
  whole v c d todo transit.
Proof.
  intros [W1 W2 W3 W4 W5 W6 W7] Hc Hw. split; try done.
  - intros id o Ho. destruct (W4 id o Ho) as [Ha Ht]. split; [|done]. unfold accounted in *.
    destruct Ha as [Ha|Ha]; [|by right]. apply pending_elem in Ha as [task Hin].
    apply elem_of_cons in Hin as [E|Hin].
    + symmetry in E. destruct (Hc _ _ E); auto 8.
    + left. apply pending_elem. by exists task.
  - intros id task [H|H]; apply W5; [left; by right|by right].
  - intros id x Hx. destruct (W7 id x Hx) as [Hid Hcol]. split; [done|]. intros col Hs.
    destruct (Hcol col Hs) as [(y & Hy & Hyid & Hys & Hle)|H]; [|by right].
    apply elem_of_cons in Hy as [E|Hy]; [|left; by exists y]. symmetry in E.
    right. left. specialize (Hw y E col Hys). rewrite Hyid in Hw.
    destruct Hw as [(z & ? & ? & ?)|(z & ? & ? & ? & ?)];
      [left|right]; exists z; split_and!; first [done|lia].
Qed.

Lemma whole_cons v c d call todo transit :
  whole v c d todo transit → (∀ id task, call ≠ CallCommand id task true) →
  whole v c d (call :: todo) transit.
Proof.
  intros [W1 W2 W3 W4 W5 W6 W7] Hc. split; try done.
  - intros id o Ho. destruct (W4 id o Ho) as [Ha Ht]. split; [|done]. unfold accounted in *.
    destruct Ha as [Ha|Ha]; [left|by right]. apply pending_elem in Ha as [task Hin].
    apply pending_elem. exists task. by right.
  - intros id task [H|H]; apply W5; [left|by right].
    apply elem_of_cons in H as [E|H]; [by destruct (Hc id task)|done].
  - intros id x Hx. destruct (W7 id x Hx) as [Hid Hcol]. split; [done|]. intros col Hs.
    destruct (Hcol col Hs) as [(y & Hy & H)|H]; [left|by right]. exists y. split; [by right|done].
Qed.

(** *** What the database thread hands over *)
Lemma whole_drop v c d todo o transit :
  whole v c d todo (o :: transit) →
  match o with
  | Emitted r => r ∈ results_ v
  | EmittedCommand r => r ∈ database_results_ c ∨ CommandService.closed_ c = true
  | _ => True
  end →
  whole v c d todo transit.
Proof.
  intros [W1 W2 W3 W4 W5 W6 W7] Ho. split; try done.
  - intros id op Hop. destruct (W4 id op Hop) as [Ha Ht]. split; [|done]. revert Ha. unfold accounted.
    intros [?|[?|[Ha|[?|[?|?]]]]]; auto 8.
    unfold emitted_ids in Ha. cbn in Ha. destruct o as [r|r| |text]; auto.
    apply elem_of_cons in Ha as [->|Ha]; [|auto].
    destruct Ho as [Ho|Ho]; [|auto 8]. do 3 right. left. apply list_elem_of_fmap. by exists r.
  - intros r [H|H]; apply W6; [left; by right|by right].
  - intros id x Hx. destruct (W7 id x Hx) as [Hid Hcol]. split; [done|]. intros col Hs. unfold write_accounted.
    destruct (Hcol col Hs) as [H|[H|[(r & Hin & H)|H]]]; auto.
    apply elem_of_cons in Hin as [<-|Hin]; [|do 2 right; left; by exists r].
    do 3 right. left. exists r. split; [|done]. apply list_elem_of_fmap. by exists r.
Qed.
End Invariant.

(** ** Every step keeps it *)
Section Process.
#[local] Set Default Proof Using "JL MO TO Type*".
Context `{JL : JsonLib, MO : MapOrder, TO : TokenOrder}.
Context (db : DatabaseEnvironment) (mq : MqttEnvironment) (system_clock : nat → TimePoint).
Context (f : Replies).
Implicit Types s t : Process.
Abbreviation bound s := (max_inflight (configuration s)).

Definition process_ok (s : Process) : Prop :=
  whole db (bound s) (service (bundle s)) (command_service (bundle s)) (database (bundle s))
    (todo (business s)) (transit s).

(** A step of the service, its calls left to be made. *)
Lemma devices_ok s v :
  process_ok s → exchanges (device_env f) (service (bundle s)) v → process_ok (after_devices f s v).
Proof.
  intros H Hx. assert (Hx' := Hx). destruct Hx' as (new & E & _).
  unfold process_ok, after_devices. cbn. rewrite E, drop_app_length.
  by apply (whole_devices db _ f (service (bundle s)) _ (command_service (bundle s))).
Qed.

Lemma commands_ok s c op :
  process_ok s → (∀ r, op ≠ OpPushDatabaseResult r) →
  c = command_step (command_env f) (command_configuration (configuration s)) (command_service (bundle s)) op →
  process_ok (after_commands s c).
Proof.
  intros H Hop ->. set (c := command_step _ _ _ _).
  pose proof (command_step_follows (command_env f) (command_configuration (configuration s))
    (command_service (bundle s)) op) as Hf. fold c in Hf.
  destruct (command_step_results (command_env f) (command_configuration (configuration s))
    (command_service (bundle s)) op) as [Hcl Hres]. fold c in Hcl, Hres.
  assert (Hf' := Hf). destruct Hf' as (new & E & _).
  unfold process_ok, after_commands. cbn. rewrite E, drop_app_length.
  apply (whole_commands db _ _ (command_service (bundle s))); [done|done|done|done|].
  intros r [?|[_ ?]]%Hres; [by left|by destruct (Hop r)].
Qed.

(** What other threads do to the services makes no calls. *)
Lemma devices_idle m v v' c d l transit :
  whole db m v c d l transit → exchanges (device_env f) v v' →
  DeviceService.outputs v' = DeviceService.outputs v → whole db m v' c d l transit.
Proof.
  intros H Hx E. apply (whole_devices db m f v v' c c d l transit []); try done.
  by rewrite app_nil_r.
Qed.
Lemma commands_idle m v c c' d l transit env cfg op :
  whole db m v c d l transit → c' = command_step env cfg c op → outputs c' = outputs c →
  (∀ r, op = OpPushDatabaseResult r → EmittedCommand r ∈ transit) → whole db m v c' d l transit.
Proof.
  intros H -> E Hop. destruct (command_step_results env cfg c op) as [Hcl Hres].
  apply (whole_commands db m v c _ d l transit []); [done|apply command_step_follows|by rewrite app_nil_r|done|].
  intros r [?|[_ ?]]%Hres; [by left|right; by apply Hop].
Qed.

Lemma worker_call s op rest call :
  process_ok s → todo (business s) = call :: rest →
  (∀ id task, op = SubmitCommandOp id task → call = CallCommand id task true ∨
     (SubmitCommand (bound s) (worker (database (bundle s))) id task) = (false, worker (database (bundle s)))) →
  (∀ id task, call = CallCommand id task true → taken (bound s) (database (bundle s)) op = [id]) →
  (∀ x, call = CallWrite x true → op = SubmitWriteOp x ∧
     (PostgresWorker.SubmitWrite (worker (database (bundle s))) x).1 = true) →
  let r := thread_step db (ac_database (configuration s)) true (migrations (bundle s))
             (reconnect_interval (configuration s)) (bound s) (database (bundle s)) op in
  r.1 = [] → whole db (bound s) (service (bundle s)) (command_service (bundle s)) r.2 rest (transit s).
Proof.
  intros H Ht Hop Hcmd Hwr r Er. unfold process_ok in H. rewrite Ht in H.
  apply (whole_pop db _ _ _ _ call).
  - pose proof (whole_turn db (bound s) (ac_database (configuration s)) (migrations (bundle s))
      (reconnect_interval (configuration s)) _ _ _ _ _ op H) as Hw. fold r in Hw.
    rewrite Er, app_nil_r in Hw. apply Hw. intros id task E.
    destruct (Hop id task E) as [->|E']; [left; left|right]. subst op. unfold r. cbn. rewrite E'.
    by destruct (database (bundle s)).
  - intros id task ->. specialize (Hcmd id task eq_refl).
    destruct (turn_commands db (ac_database (configuration s)) (migrations (bundle s))
      (reconnect_interval (configuration s)) (bound s) (database (bundle s)) op (wh_worker _ _ _ _ _ _ _ H))
      as [_ [Hids|Hg]]; [|by right]. left. fold r in Hids. rewrite Er, Hcmd in Hids.
    cbn in Hids. rewrite <- Hids. set_solver.
  - intros x -> col Hs. destruct (Hwr x eq_refl) as [-> Ha]. unfold r. cbn.
    revert Ha. unfold PostgresWorker.SubmitWrite. destruct (negb _); [done|]. intros _. left. cbn.
    apply MergeWrite_spec. by right.
Qed.

(** *** The business thread *)
Definition neutral (call : Call) : Prop :=
  match call with CallCommand _ _ true | CallWrite _ true => False | _ => True end.

Lemma neutral_pop s call rest :
  process_ok s → todo (business s) = call :: rest → neutral call →
  whole db (bound s) (service (bundle s)) (command_service (bundle s)) (database (bundle s)) rest (transit s).
Proof.
  intros H Ht Hn. unfold process_ok in H. rewrite Ht in H. apply (whole_pop _ _ _ _ _ call); [done|..].
  - intros id task ->. done.
  - intros x ->. done.
Qed.

Lemma foretold_Some reply accepted s t : foretold reply accepted s = Some t → reply = accepted ∧ t = s.
Proof. unfold foretold. destruct (Bool.eqb reply accepted) eqn:E; [|done]. intros [= <-]. by apply eqb_prop in E. Qed.

Lemma call_ok s t call rest now :
  process_ok s → todo (business s) = call :: rest →
  (let b := business s in
   perform_call mq system_clock f now (s <| business := b <| todo := rest |> |>) call = Some t) →
  process_ok t.
Proof.
  intros H Ht Hp.
  assert (neutral call → whole db (bound s) (service (bundle s)) (command_service (bundle s))
    (database (bundle s)) rest (transit s)) as Hn by (by apply neutral_pop).
  destruct call as [r at_ a|x a|p|p|ps|id task a|token topic payload a|topic payload|text|text];
    cbn [perform_call] in Hp; simplify_eq; try exact (Hn I).
  - apply foretold_Some in Hp as [Ha ->].
    by apply (worker_call s (SubmitProvisionOp r at_) rest (CallProvision r at_ a)).
  - apply foretold_Some in Hp as [Ha ->].
    apply (worker_call s (SubmitWriteOp x) rest (CallWrite x a)); try done.
    intros y [= <- Ea]. split; [done|]. rewrite Ea in Ha. exact Ha.
  - match goal with |- process_ok (if _ then _ else ?x) => set (s' := x) in * end.
    assert (process_ok s') as H'.
    { unfold process_ok, s'. cbn. apply whole_cons; [exact (Hn I)|done]. }
    case_bool_decide; [|exact H']. by eapply (commands_ok s' _ (OpTargetOnline _ now)).
  - apply foretold_Some in Hp as [Ha ->]. cbn in Ha.
    assert (a = false → SubmitCommand (bound s) (worker (database (bundle s))) id task
      = (false, worker (database (bundle s)))) as Href.
    { intros ->. revert Ha. unfold SubmitCommand. by destruct (_ || _). }
    apply (worker_call s (SubmitCommandOp id task) rest (CallCommand id task a)); try done.
    + intros i k [= <- <-]. destruct a; [by left|right; auto].
    + intros i k [= <- <- ->]. cbn. unfold configuration in *. cbn in Ha. by rewrite Ha.
  - apply foretold_Some in Hp as [Ha ->]. apply Hn. exact I.
Qed.

Lemma enter_ok s p : process_ok s → process_ok (enter p s).
Proof. done. Qed.

Lemma idle_exchange s v :
  DeviceService.outputs v = DeviceService.outputs (service (bundle s)) →
  results_ v = results_ (service (bundle s)) →
  provision_calls v = provision_calls (service (bundle s)) →
  write_calls v = write_calls (service (bundle s)) →
  submitted_ v = submitted_ (service (bundle s)) → exchanges (device_env f) (service (bundle s)) v.
Proof. intros. apply exchanges_same; try done. by intros r; rewrite H0. Qed.

Lemma start_turn_ok s p now : process_ok s → process_ok (start_turn f p now s).
Proof. intros H. apply devices_ok; [done|]. by apply (idle_exchange s). Qed.
Lemma end_turn_ok s now : process_ok s → process_ok (end_turn f now s).
Proof.
  intros H. unfold end_turn. cbv zeta. apply (devices_ok s); [done|]. by apply idle_exchange.
Qed.
Lemma next_message_ok s : process_ok s → process_ok (next_message f s).
Proof.
  intros H. unfold next_message. destruct (BoundedQueue.WaitPop _) as [[[m|]|] q]; apply devices_ok; try done.
  - apply waits_exchanges, waits_message. by apply waits_start.
  - by apply idle_exchange.
  - by apply idle_exchange.
Qed.

Lemma phase_ok s now : process_ok s → process_ok (phase_step f now s).
Proof.
  intros H. unfold phase_step. destruct (phase (business s)).
  - by apply start_turn_ok.
  - destruct (results_ (service (bundle s))) as [|r rest] eqn:E; [done|].
    apply devices_ok; [done|]. by apply result_exchanges.
  - apply enter_ok, devices_ok; [done|]. by apply waits_exchanges, waits_cancel.
  - destruct (_ =? 0)%nat; [done|]. by apply next_message_ok.
  - apply enter_ok, devices_ok; [done|]. by apply waits_exchanges, waits_candidates.
  - apply enter_ok, devices_ok; [done|]. by apply waits_exchanges, waits_scan.
  - apply enter_ok, devices_ok; [done|]. by apply waits_exchanges, waits_Dispatch.
  - apply enter_ok. destruct (external_snapshot_requested_ _); [|done]. apply devices_ok; [done|].
    apply waits_exchanges, waits_snapshot. by apply waits_start.
  - by apply end_turn_ok.
  - destruct (process_one _ _ _ _) as [c|] eqn:E; [|done].
    apply (commands_ok s c (OpProcessOne (turn_now (business s)))); [done|done|]. cbn. by rewrite E.
  - apply enter_ok. exact (commands_ok s _ (OpHousekeeping (turn_now (business s))) H (λ r, ltac:(discriminate)) eq_refl).
  - done.
  - destruct (_ && _); [|done]. apply start_turn_ok, devices_ok; [done|]. by apply idle_exchange.
  - destruct (_ && _); [|done]. by apply start_turn_ok.
  - done.
Qed.

Lemma business_ok s t now : process_ok s → business_step mq system_clock f now s = Some t → process_ok t.
Proof.
  intros H. unfold business_step. destruct (todo (business s)) as [|call rest] eqn:E.
  - intros [= <-]. by apply phase_ok.
  - by apply call_ok.
Qed.

(** *** The database thread *)
Lemma database_ok s now : process_ok s → process_ok (database_step db mq now s).
Proof using All.
  intros H. unfold database_step. destruct (transit s) as [|o rest] eqn:Et.
  - set (op := match running _ with Some _ => RunJobOp now | None => _ end).
    pose proof (whole_turn db (bound s) (ac_database (configuration s)) (migrations (bundle s))
      (reconnect_interval (configuration s)) _ _ _ _ _ op H) as Hw. rewrite Et in Hw.
    apply Hw. intros id task E. unfold op in E. by destruct (running _).
  - unfold process_ok in H. rewrite Et in H. unfold hand_over. destruct o as [r|r| |text].
    + apply (whole_drop _ _ _ _ _ _ (Emitted r)).
      * apply (devices_idle _ (service (bundle s))); [exact H| |done].
        apply exchanges_same; try done. cbn. set_solver.
      * cbn. set_solver.
    + set (c := PushDatabaseResult (command_service (bundle s)) r).
      assert (outputs c = outputs (command_service (bundle s)) ∧
        (r ∈ database_results_ c ∨ CommandService.closed_ c = true)) as [Eo Hr].
      { unfold c, PushDatabaseResult. case_match; cbn; (split; [done|]); [by right|left; set_solver]. }
      apply (whole_drop _ _ _ _ _ _ (EmittedCommand r)); [|exact Hr].
      apply (commands_idle _ _ (command_service (bundle s)) c _ _ _ (command_env f)
        (command_configuration (configuration s)) (OpPushDatabaseResult r) H eq_refl Eo).
      intros q [= ->]. left.
    + by apply (whole_drop _ _ _ _ _ _ Replayed).
    + by apply (whole_drop _ _ _ _ _ _ (WorkerDiagnosed text)).
Qed.

(** *** The handlers of the client *)
Lemma TryPush_exchanges v m : exchanges (device_env f) v (DeviceService.TryPush v m).2.
Proof. apply exchanges_same; done. Qed.

Lemma message_ok b m now1 now2 l transit n :
  whole db n (service b) (command_service b) (database b) l transit →
  let b' := (business_message b m now1 now2).2 in
  RuntimeBundle.config b' = RuntimeBundle.config b ∧
  whole db n (service b') (command_service b') (database b') l transit.
Proof using All.
  intros H. unfold business_message.
  set (cfg := command_configuration (RuntimeBundle.config b)).
  set (c := (CommandService.TryPush cfg (command_service b) m).2).
  assert (outputs c = outputs (command_service b)) as Ec
    by (unfold c, CommandService.TryPush; by case_match).
  pose proof (commands_idle _ _ (command_service b) c _ _ _ (command_env f) cfg (OpTryPush m)
    H eq_refl Ec (λ r, ltac:(discriminate))) as Hp.
  assert (whole db n (service b)
    (CommandIngress.TryPush cfg (command_ingress b) (command_service b) m now1).2 (database b) l transit) as H1.
  { unfold CommandIngress.TryPush. destruct (negb _); [exact H|]. destruct (CommandIngress.connected _).
    - case_match; exact Hp.
    - case_match; exact H. }
  destruct (CommandIngress.TryPush _ _ _ _ _) as [[[? rejected] gate] commands]. cbn [snd] in H1. cbv zeta.
  destruct (handle_begin _); [|split; [done|exact H1]].
  destruct (has_submit _).
  - pose proof (TryPush_exchanges (service b) m) as Hx.
    assert (DeviceService.outputs (DeviceService.TryPush (service b) m).2
      = DeviceService.outputs (service b)) as Eo by done.
    cbn [service] in *. change (service (update _ _)) with (service b).
    destruct (DeviceService.TryPush (service b) m) as [ok v]. cbn [snd] in Hx, Eo.
    destruct (Handle _ _ _ _ _) as [report gate']. split; [done|].
    by apply (devices_idle _ (service b)).
  - destruct (Handle _ _ _ _ _) as [report gate']. split; [done|exact H1].
Qed.

Lemma handler_ok s o now1 now2 : process_ok s → process_ok (handler_call now1 now2 s o).
Proof using All.
  intros H. destruct o as [| | | |m|completion]; try exact H; unfold handler_call.
  - destruct (message_ok (bundle s) m now1 now2 _ _ _ H) as [Ec Hw].
    unfold process_ok, configuration. cbn. rewrite Ec. exact Hw.
  - set (c := PushPublishCompletion (command_service (bundle s)) completion).
    assert (outputs c = outputs (command_service (bundle s))) as Eo
      by (unfold c, PushPublishCompletion; by case_match).
    exact (commands_idle _ _ (command_service (bundle s)) c _ _ _ (command_env f)
      (command_configuration (configuration s)) (OpPushPublishCompletion completion)
      H eq_refl Eo (λ r, ltac:(discriminate))).
Qed.

Lemma client_ok s e now1 now2 : process_ok s → process_ok (client_event mq e now1 now2 s).
Proof using All.
  intros H. unfold client_event. cbv zeta. set (new := drop _ _). clearbody new.
  set (t := s <| client := _ |>). assert (process_ok t) as Ht by exact H. clearbody t.
  induction new as [|o new IH] using rev_ind; [done|]. rewrite foldl_snoc. by apply handler_ok.
Qed.

(** *** The main thread *)
Lemma main_commands_ok s c op :
  process_ok s → c = command_step (command_env f) (command_configuration (configuration s))
    (command_service (bundle s)) op → outputs c = outputs (command_service (bundle s)) →
  (∀ r, op ≠ OpPushDatabaseResult r) →
  process_ok (on_services (λ b, b <| command_service := c |>) s).
Proof using All.
  intros H Ec Eo Hop. unfold process_ok, on_services, configuration. cbn.
  apply (commands_idle _ _ (command_service (bundle s)) c _ _ _ _ _ op H Ec Eo).
  intros r E. by destruct (Hop r).
Qed.
Lemma main_devices_ok s v :
  process_ok s → exchanges (device_env f) (service (bundle s)) v →
  DeviceService.outputs v = DeviceService.outputs (service (bundle s)) →
  process_ok (on_services (λ b, b <| service := v |>) s).
Proof using All. intros H Hx Eo. exact (devices_idle _ _ _ _ _ _ _ H Hx Eo). Qed.
Lemma main_worker_ok s op :
  process_ok s → (∀ id task, op ≠ SubmitCommandOp id task) →
  let r := thread_step db (ac_database (configuration s)) true (migrations (bundle s))
             (reconnect_interval (configuration s)) (bound s) (database (bundle s)) op in
  r.1 = [] → process_ok (on_database s r.2).
Proof using All.
  intros H Hop r Er. pose proof (whole_turn db (bound s) (ac_database (configuration s)) (migrations (bundle s))
      (reconnect_interval (configuration s)) _ _ _ _ _ op H) as Hw. fold r in Hw.
  rewrite Er, app_nil_r in Hw. apply Hw. intros id task E. by destruct (Hop id task).
Qed.

Lemma main_ok s op : process_ok s → process_ok (main_step op s).
Proof using All.
  intros H. destruct op; cbn [main_step]; try exact H.
  - exact (main_worker_ok s (SubmitWriteOp write) H (λ _ _, ltac:(discriminate)) eq_refl).
  - exact (main_commands_ok s _ (OpSetDatabaseAvailable _) H eq_refl eq_refl (λ _, ltac:(discriminate))).
  - refine (main_commands_ok s _ (OpSetMqttAvailable _) H eq_refl _ (λ _, ltac:(discriminate))).
    cbn [command_step]. unfold SetMqttAvailable. by case_match.
  - apply (main_devices_ok s); [done|..]; unfold RequestExternalSnapshot; case_match; try done; by apply exchanges_same.
  - apply (main_devices_ok s); [done|by apply exchanges_same|done].
  - exact (main_commands_ok s _ OpCloseCommands H eq_refl eq_refl (λ _, ltac:(discriminate))).
  - exact (main_worker_ok s DrainOp H (λ _ _, ltac:(discriminate)) eq_refl).
  - apply (main_devices_ok s); [done|by apply exchanges_same|done].
  - exact (main_commands_ok s _ OpCancelOutstandingWork H eq_refl eq_refl (λ _, ltac:(discriminate))).
Qed.

Lemma step_ok s a t : process_ok s → step db mq system_clock f s a = Some t → process_ok t.
Proof using All.
  intros H. destruct a as [now|now|e now1 now2|op]; cbn [step].
  - by apply business_ok.
  - intros [= <-]. by apply database_ok.
  - destruct (own_event e); [|done]. intros [= <-]. by apply client_ok.
  - intros [= <-]. by apply main_ok.
Qed.

Lemma run_ok actions : ∀ s t, process_ok s → run db mq system_clock f s actions = Some t → process_ok t.
Proof using All.
  induction actions as [|a actions IH]; intros s t H; cbn [run]; [by intros [= <-]|].
  intros (u & Hu & Ht)%bind_Some. eapply IH; [|exact Ht]. by eapply step_ok.
Qed.
End Process.

(** The operations of the command service that send nothing, and those of a running service. *)
Definition at_work (op : CommandOp) : Prop := match op with OpLoadActive _ => False | _ => True end.
Definition passive (op : CommandOp) : Prop := sends_nothing op ∧ at_work op.

(** ** The components in the process

    A step does to the database thread what calls of it do, and to the command service
    what its operations do.  [R] says of the command service what is to be shown: it holds
    of the operations that send nothing, and is given of the others where they begin. *)
Section Components.
#[local] Set Default Proof Using "JL MO TO Type*".
Context `{JL : JsonLib, MO : MapOrder, TO : TokenOrder}.
Context (db : DatabaseEnvironment) (mq : MqttEnvironment) (system_clock : nat → TimePoint).
Context (f : Replies) (conf : AppConfig).
Context (R : CommandService → CommandService → Prop) {R_preorder : PreOrder R}.
Implicit Types s t : Process.

Abbreviation database_runs ms := (thread_run db (ac_database conf) true ms (reconnect_interval conf) (max_inflight conf)).

Definition moves s t : Prop :=
  configuration s = conf →
  configuration t = conf ∧ migrations (bundle t) = migrations (bundle s) ∧
  R (command_service (bundle s)) (command_service (bundle t)) ∧
  ∃ ops, database (bundle t) = (database_runs (migrations (bundle s)) (database (bundle s)) ops).2.

Lemma thread_run_app ms a : ∀ d b,
  (database_runs ms d (a ++ b)).2 = (database_runs ms (database_runs ms d a).2 b).2.
Proof. induction a as [|op a IH]; intros d b; [done|]. cbn. apply IH. Qed.

#[export] Instance moves_preorder : PreOrder moves.
Proof using JL MO TO R_preorder.
  split.
  - intros s E. split_and!; [done|done|done|by exists []].
  - intros s t u H1 H2 E. destruct (H1 E) as (E' & M1 & R1 & a & D1).
    destruct (H2 E') as (E'' & M2 & R2 & b & D2).
    split_and!; [done|congruence|by etrans|]. exists (a ++ b).
    by rewrite thread_run_app, D2, M1, D1.
Qed.

Abbreviation operate := (command_step (command_env f) (command_configuration conf)).
Hypothesis silent_R : ∀ c op, passive op → R c (operate c op).

(** A step that changes one of the two, or neither. *)
Lemma moves_command s t :
  configuration t = configuration s → migrations (bundle t) = migrations (bundle s) →
  (configuration s = conf → R (command_service (bundle s)) (command_service (bundle t))) →
  database (bundle t) = database (bundle s) → moves s t.
Proof. intros H1 H2 H3 H4 E. split_and!; [congruence|done|auto|]. by exists []. Qed.
Lemma moves_same s t :
  configuration t = configuration s → migrations (bundle t) = migrations (bundle s) →
  command_service (bundle t) = command_service (bundle s) →
  database (bundle t) = database (bundle s) → moves s t.
Proof using All. intros H1 H2 H3 H4. apply moves_command; try done. by rewrite H3. Qed.
Lemma moves_silent s t op :
  passive op → configuration t = configuration s → migrations (bundle t) = migrations (bundle s) →
  (configuration s = conf → command_service (bundle t) = operate (command_service (bundle s)) op) →
  database (bundle t) = database (bundle s) → moves s t.
Proof using All.
  intros Ho H1 H2 H3 H4. apply moves_command; try done. intros E. rewrite (H3 E). by apply silent_R.
Qed.
Lemma moves_database s t op :
  configuration t = configuration s → migrations (bundle t) = migrations (bundle s) →
  command_service (bundle t) = command_service (bundle s) →
  (configuration s = conf → database (bundle t) =
     (thread_step db (ac_database conf) true (migrations (bundle s))
       (reconnect_interval conf) (max_inflight conf) (database (bundle s)) op).2) → moves s t.
Proof using All.
  intros H1 H2 H3 H4 E. split_and!; [congruence|done|by rewrite H3|]. exists [op]. by rewrite (H4 E).
Qed.

Lemma moves_devices s v : moves s (after_devices f s v).
Proof using All. by apply (moves_silent _ _ (OpDirectory (registry_ v))). Qed.
Lemma moves_commands s op :
  (configuration s = conf → R (command_service (bundle s)) (operate (command_service (bundle s)) op)) →
  let c := command_step (command_env f) (command_configuration (configuration s)) (command_service (bundle s)) op in
  moves s (after_commands s c).
Proof using All. intros H c. apply moves_command; try done. unfold c. cbn. intros <-. by apply H. Qed.
Lemma moves_view s t t' : moves s t → bundle t' = bundle t → moves s t'.
Proof. unfold moves, configuration. by intros H ->. Qed.

Lemma moves_turn s p now : moves s (start_turn f p now s).
Proof using All. unfold start_turn. etrans; [|apply moves_devices]. by apply (moves_view _ s). Qed.

(** The operations that may send something begin at the command service of [s]. *)
Abbreviation sending s :=
  (configuration s = conf → ∀ op, at_work op → R (command_service (bundle s)) (operate (command_service (bundle s)) op)).

Lemma moves_phase s now : sending s → moves s (phase_step f now s).
Proof using All.
  intros Hs. unfold phase_step. destruct (phase (business s)).
  - apply moves_turn.
  - destruct (results_ _); [by apply (moves_view _ s)|apply moves_devices].
  - apply (moves_view _ (after_devices f s (cancel_work (service (bundle s))))); [apply moves_devices|done].
  - destruct (_ =? 0)%nat; [by apply (moves_view _ s)|]. unfold next_message.
    destruct (BoundedQueue.WaitPop _) as [[[m|]|] q]; apply moves_devices.
  - eapply moves_view; [apply moves_devices|done].
  - eapply moves_view; [apply moves_devices|done].
  - eapply moves_view; [apply moves_devices|done].
  - destruct (external_snapshot_requested_ _); [eapply moves_view; [apply moves_devices|done]|by apply (moves_view _ s)].
  - unfold end_turn. eapply moves_view; [apply moves_devices|done].
  - destruct (process_one _ _ _ _) as [c|] eqn:E; [|by apply (moves_view _ s)].
    pose proof (moves_commands s (OpProcessOne (turn_now (business s))) (λ E, Hs E (OpProcessOne _) I)) as H.
    cbn [command_step] in H. by rewrite E in H.
  - eapply moves_view; [exact (moves_commands s (OpHousekeeping (turn_now (business s))) (λ E, Hs E (OpHousekeeping _) I))|done].
  - by apply (moves_view _ s).
  - destruct (_ && _); [|by apply (moves_view _ s)]. etrans; [apply moves_devices|apply moves_turn].
  - destruct (_ && _); [apply moves_turn|by apply (moves_view _ s)].
  - done.
Qed.

Lemma moves_call s t call now :
  sending s → perform_call mq system_clock f now s call = Some t → moves s t.
Proof using All.
  intros Hs.
  destruct call as [r at_ a|x a|p|p|ps|id task a|token topic payload a|topic payload|text|text];
    cbn [perform_call]; intros H; simplify_eq; try by apply (moves_view _ s).
  - apply foretold_Some in H as [_ ->]. apply (moves_database _ _ (SubmitProvisionOp r at_)); try done.
  - apply foretold_Some in H as [_ ->]. by apply (moves_database _ _ (SubmitWriteOp x)).
  - match goal with |- moves _ (if _ then _ else ?x) =>
      set (s' := x) in *; assert (moves s s') as Hm by by apply (moves_view _ s) end.
    case_bool_decide; [|exact Hm]. etrans; [exact Hm|].
    exact (moves_commands s' (OpTargetOnline (dr_device_id (ps_record p)) now) (λ E, Hs E (OpTargetOnline _ _) I)).
  - apply foretold_Some in H as [_ ->]. apply (moves_database _ _ (SubmitCommandOp id task)); try done.
    by intros <-.
  - apply foretold_Some in H as [_ ->]. by apply (moves_view _ s).
Qed.

Lemma message_components b m now1 now2 :
  let b' := (business_message b m now1 now2).2 in
  RuntimeBundle.config b' = RuntimeBundle.config b ∧ migrations b' = migrations b ∧
  database b' = database b ∧
  (command_service b' = command_service b ∨ command_service b' =
     (CommandService.TryPush (command_configuration (RuntimeBundle.config b)) (command_service b) m).2).
Proof.
  unfold business_message. set (cfg := command_configuration _).
  assert (∀ g, let c := (CommandIngress.TryPush cfg g (command_service b) m now1).2 in
    c = command_service b ∨ c = (CommandService.TryPush cfg (command_service b) m).2) as Hc.
  { intros g. unfold CommandIngress.TryPush. destruct (negb _); [by left|].
    destruct (CommandIngress.connected _); case_match; auto. }
  specialize (Hc (command_ingress b)).
  destruct (CommandIngress.TryPush _ _ _ _ _) as [[[? rejected] gate] commands]. cbn [snd] in Hc. cbv zeta.
  destruct (handle_begin _); [|done].
  destruct (if has_submit _ then _ else _) as [submitted devices].
  destruct (Handle _ _ _ _ _) as [report gate']. done.
Qed.

Lemma moves_handler s o now1 now2 : moves s (handler_call now1 now2 s o).
Proof using All.
  destruct o as [| | | |m|completion]; try reflexivity; unfold handler_call.
  - destruct (message_components (bundle s) m now1 now2) as (H1 & H2 & H3 & [H4|H4]).
    + by apply moves_same.
    + apply (moves_silent _ _ (OpTryPush m)); try done. by intros <-.
  - by apply (moves_silent _ _ (OpPushPublishCompletion completion)).
Qed.

Lemma moves_database_step s now : moves s (database_step db mq now s).
Proof using All.
  unfold database_step. destruct (transit s) as [|o rest].
  - eapply moves_database; try done. by intros <-.
  - destruct o as [r|r| |text]; [by apply moves_same| |by apply moves_same..].
    by apply (moves_silent _ _ (OpPushDatabaseResult r)).
Qed.

Lemma moves_main s op : moves s (main_step op s).
Proof using All.
  destruct op; cbn [main_step]; try by apply moves_same.
  - by apply (moves_database _ _ (SubmitWriteOp write)).
  - by eapply (moves_silent _ _ (OpSetDatabaseAvailable _)).
  - by eapply (moves_silent _ _ (OpSetMqttAvailable _)).
  - by apply (moves_silent _ _ OpCloseCommands).
  - by apply (moves_database _ _ DrainOp).
  - by apply (moves_silent _ _ OpCancelOutstandingWork).
Qed.

Lemma moves_step s a t : sending s → step db mq system_clock f s a = Some t → moves s t.
Proof using All.
  intros Hs. destruct a as [now|now|e now1 now2|op]; cbn [step].
  - unfold business_step. destruct (todo (business s)) as [|call rest]; [intros [= <-]; by apply moves_phase|].
    intros H. match type of H with perform_call _ _ _ _ ?u _ = _ => set (s' := u) in H end.
    etrans; [by apply (moves_view s s s')|]. apply (moves_call s' t call now); [exact Hs|exact H].
  - intros [= <-]. apply moves_database_step.
  - destruct (own_event e); [|done]. intros [= <-]. unfold client_event. cbv zeta.
    set (new := drop _ _). clearbody new. set (t0 := s <| client := _ |>).
    assert (moves s t0) as H by by apply (moves_view _ s). clearbody t0.
    induction new as [|o new IH] using rev_ind; [done|]. rewrite foldl_snoc. etrans; [exact IH|apply moves_handler].
  - intros [= <-]. apply moves_main.
Qed.
End Components.

(** Within a run the command service and the database thread run. *)
Section Runs.
#[local] Set Default Proof Using "JL MO TO Type*".
Context `{JL : JsonLib, MO : MapOrder, TO : TokenOrder}.
Context (db : DatabaseEnvironment) (mq : MqttEnvironment) (system_clock : nat → TimePoint).
Context (f : Replies) (conf : AppConfig).

Definition operated (c c' : CommandService) : Prop :=
  ∃ ops, c' = command_run (command_env f) (command_configuration conf) c ops.
#[export] Instance operated_preorder : PreOrder operated.
Proof.
  split; [by exists []|]. intros a b c [x ->] [y ->]. exists (x ++ y). unfold command_run. by rewrite foldl_app.
Qed.
Lemma operated_step c op : operated c (command_step (command_env f) (command_configuration conf) c op).
Proof. by exists [op]. Qed.

Lemma moves_run actions : ∀ s t,
  run db mq system_clock f s actions = Some t → moves db conf operated s t.
Proof.
  induction actions as [|a actions IH]; intros s t; cbn [run]; [by intros [= <-]|].
  intros (u & Hu & Ht)%bind_Some. etrans; [|by apply IH].
  eapply moves_step; [apply _|intros c op _|intros _ op _|exact Hu]; apply operated_step.
Qed.
End Runs.

(** ** Theorems *)
#[local] Set Default Proof Using "Type".


(** An insertion that the database answers is committed by it. *)
Lemma insert_commits `{JL : JsonLib} db command s r :
  (PostgresStore.InsertCommand db command s).1 = Ok r →
  statements (PostgresStore.InsertCommand db command s).2 = statements s ++
    [(BeginWork, None); (InsertCommandStatement (command_parameters command), None); (Commit, None)].
Proof.
  unfold PostgresStore.InsertCommand, guarded, one_row, or_return, db_bind, exec, db_lift, db_ret.
  destruct (db_reply db _ BeginWork); [|done]. cbn [calls].
  destruct (db_reply db _ (InsertCommandStatement _)) as [[|row [|]]|]; try done.
  destruct (CommandFromRow row) as [[inserted|]|]; try done. cbn [calls].
  destruct (db_reply db _ Commit); [|done]. intros _. unfold statements. cbn.
  by rewrite !omap_app, <- !app_assoc.
Qed.

(** ** What is sent to a device *)
Section Sent.
#[local] Set Default Proof Using "JL MO TO Type*".
Context `{JL : JsonLib, MO : MapOrder, TO : TokenOrder}.
Context (db : DatabaseEnvironment) (mq : MqttEnvironment) (system_clock : nat → TimePoint).
Context (f : Replies) (conf : AppConfig) (active : list CommandRecord).
Abbreviation cfg := (command_configuration conf).
Implicit Types d : DatabaseThread.

(** The database inserted the command of [record] and committed it, and gave back [answer]. *)
Definition inserted d (record answer : CommandRecord) : Prop :=
  executed db d (InsertCommandTask record) (Ok (OneCommand answer)) ∧
  ∃ before after, statements (store d) = before ++
    [(BeginWork, None); (InsertCommandStatement (command_parameters record), None); (Commit, None)] ++ after.

(** The message is the payload of the parameters of a command the database inserted and
    committed, under the identifier of this command, on the topic of its type and of the
    device the database gave back for it. *)
Definition committed d (topic payload : string) : Prop :=
  ∃ record answer parsed device_id p,
    inserted d record answer ∧
    IsTerminal (c_status answer) = false ∧ c_target_device_id answer = Some device_id ∧
    c_request_payload record = default JNull (ComparisonPayload parsed) ∧
    command_payload parsed (c_command_id record) = Some p ∧
    topic = DeviceSetTopic (topic_namespace_ cfg) device_id (c_command_type record) ∧
    payload = json_dump p.

(** The database answers a task for a command with the record of this command, as the
    condition of its statements says ([WHERE command_id = $1]). *)
Definition honest d : Prop :=
  ∀ task id record, task_command task = Some id →
    executed db d task (Ok (OneCommand record)) ∨ executed db d task (Ok (OptionalCommand (Some record))) →
    c_command_id record = id.

(** The request of command [id], which the database has: inserted and committed by it, or
    among the commands that were active when the process started. *)
Definition stored d (type : CommandType) (parsed : ParsedSourceRequest) (id : string) : Prop :=
  (∃ record answer, inserted d record answer ∧ c_command_id record = id ∧ c_command_type record = type ∧
     c_request_payload record = default JNull (ComparisonPayload parsed)) ∨
  (∃ record kind, record ∈ active ∧ IsTerminal (c_status record) = false ∧ c_command_id record = id ∧
     c_command_type record = type ∧ parsed = ParseRequest (json_dump (c_request_payload record)) kind type).

(** A record the database gave: at the start, or as the answer to a task it executed. *)
Definition given d (record : CommandRecord) : Prop :=
  record ∈ active ∨
  ∃ task value, executed db d task (Ok value) ∧
    (value = OneCommand record ∨ value = OptionalCommand (Some record)).

(** The message is the payload of a configuration request the database has, for the device
    of a record the database gave and under its identifier: the one of the request. *)
Definition repeated d (topic payload : string) : Prop :=
  ∃ parsed id record device_id p,
    stored d kConfig parsed id ∧ given d record ∧ (honest d → c_command_id record = id) ∧
    c_target_device_id record = Some device_id ∧
    command_payload parsed (c_command_id record) = Some p ∧
    topic = DeviceSetTopic (topic_namespace_ cfg) device_id kConfig ∧ payload = json_dump p.

Definition justified d (o : Output) : Prop :=
  match o with
  | DevicePublish _ topic payload _ => committed d topic payload ∨ repeated d topic payload
  | _ => True
  end.

(** What the command service keeps of a command. *)
Definition known d (type : CommandType) (parsed : ParsedSourceRequest) (record : CommandRecord) : Prop :=
  ∃ id r, stored d type parsed id ∧ given d r ∧ c_command_id r = c_command_id record ∧
    c_target_device_id r = c_target_device_id record ∧ (honest d → c_command_id record = id).
Abbreviation knows d := (keeps (known d) (honest d)).
Lemma known_record d type parsed r r' :
  c_command_id r' = c_command_id r → c_target_device_id r' = c_target_device_id r →
  known d type parsed r → known d type parsed r'.
Proof. unfold known. by intros -> ->. Qed.
Lemma known_given d type parsed id r :
  stored d type parsed id → given d r → (honest d → c_command_id r = id) → known d type parsed r.
Proof. intros H Hr Hid. by exists id, r. Qed.

Lemma quiet_justified d o : no_publish o → justified d o.
Proof. by destruct o. Qed.

(** All of this stays true. *)
Section Later.
Context d d' (later : statements (store d) `prefix_of` statements (store d')).
Lemma inserted_later record answer : inserted d record answer → inserted d' record answer.
Proof.
  intros [He (before & after & Hs)]. destruct later as [more Em]. split; [by eapply executed_later|].
  exists before, (after ++ more). by rewrite Em, Hs, <- !app_assoc.
Qed.
Lemma honest_later : honest d' → honest d.
Proof. intros H task id r Ht Hr. apply (H task id r Ht). destruct Hr; [left|right]; by eapply executed_later. Qed.
Lemma stored_later type parsed id : stored d type parsed id → stored d' type parsed id.
Proof. intros [(r & a & ?%inserted_later & H)|H]; [left; by exists r, a|by right]. Qed.
Lemma given_later r : given d r → given d' r.
Proof. intros [H|(task & value & H & Hv)]; [by left|right]. exists task, value. split; [by eapply executed_later|done]. Qed.
Lemma known_later type parsed r : known d type parsed r → known d' type parsed r.
Proof.
  intros (id & x & ?%stored_later & ?%given_later & H1 & H2 & H3). exists id, x.
  split_and!; try done. intros Hh. by apply H3, honest_later.
Qed.
Lemma justified_later o : justified d o → justified d' o.
Proof.
  destruct o as [|token topic payload a| | |]; try done. intros [H|H]; [left|right].
  - destruct H as (r & w & parsed & device & p & ?%inserted_later & H). by exists r, w, parsed, device, p.
  - destruct H as (parsed & i & r & device & p & ?%stored_later & ?%given_later & Hi & H).
    exists parsed, i, r, device, p. split_and!; try done; try apply H. intros H'. by apply Hi, honest_later.
Qed.
End Later.

(** The next answer of the database was given to the task of its operation. *)
Lemma next_answer v c d m l transit result rest op value :
  whole db m v c d l transit → submissions (outputs c) < max_u64 →
  database_results_ c = result :: rest → operations_ c !! cd_operation_id result = Some op →
  cd_value result = Ok value → ∃ task, executed db d task (Ok value) ∧ matches op task ∧
    ∀ other, TaskSubmitted (cd_operation_id result) other true ∈ outputs c → other = task.
Proof.
  intros H Hlt Er Eop Ev.
  destruct (wh_answers _ _ _ _ _ _ _ H result) as (task & Hin & Hex); [right; rewrite Er; left|].
  destruct (wh_operations _ _ _ _ _ _ _ H _ _ Eop) as (_ & task' & Hin' & Hm).
  destruct (numbered_from _ _ _ (wh_numbers _ _ _ _ _ _ _ H)) as (_ & Hu & _); [lia|lia|].
  rewrite (Hu _ _ _ _ _ Hin' Hin) in Hm. rewrite Ev in Hex. exists task. split_and!; [done..|].
  intros other Ho. by eapply Hu.
Qed.

(** An insertion that was answered, and not by the record of another request. *)
Lemma insertion_answer d op answer task :
  executed db d task (Ok (OneCommand answer)) → matches op task → o_kind op = kInsert →
  other_command kInsert (x_record (o_context op)) answer = None →
  ∃ record, inserted d record answer ∧ c_command_id record = c_command_id answer ∧
    c_command_type record = x_command_type (o_context op) ∧
    c_request_payload record = default JNull (ComparisonPayload (x_parsed (o_context op))).
Proof.
  intros Hex Hm Ek Hoc. unfold matches in Hm. rewrite Ek in Hm. destruct task as [| |record| | |]; try done.
  destruct Hm as (Hr & Htype & Hpayload). rewrite Hr in Hoc. exists record. split_and!; [|..|done|done].
  - split; [done|]. destruct Hex as (st & _ & Hv & after & Eb).
    cbn [visit] in Hv, Eb. unfold InsertCommand, classified_with_detail in Hv, Eb.
    pose proof (insert_commits db record st) as Hi.
    destruct (PostgresStore.InsertCommand db record st) as [[i|] st'] eqn:Ei; [|done]. cbn in Hi, Hv, Eb.
    exists (statements st), after. rewrite Eb, (Hi i eq_refl). by rewrite <- app_assoc.
  - revert Hoc. cbn. destruct (String.eqb _ _) eqn:E; [|done]. intros _. by apply String.eqb_eq.
Qed.

Lemma inserts_justified v c d m l transit o :
  whole db m v c d l transit → submissions (outputs c) < max_u64 → inserts cfg c o → justified d o.
Proof.
  intros H Hlt [Ho|Ho]; [by apply quiet_justified|].
  destruct Ho as (result & rest & op & answer & Er & Eop & Ek & Ev & Ht & Hoc & Hs).
  destruct (next_answer v c d m l transit result rest op _ H Hlt Er Eop Ev) as (task & Hex & Hm & Hu).
  destruct (insertion_answer d op answer task Hex Hm Ek Hoc) as (record & Hi & Eid & Htype & Hpayload).
  destruct Hs as (r & device & p & token & a & Hr' & Hd & Hp & ->). cbn in Hr', Hp. simplify_eq.
  left. exists record, r, (x_parsed (o_context op)), device, p. rewrite Eid, Htype. by split_and!.
Qed.

(** What the database answers is what the command service may keep. *)
Lemma answers_known v c d m l transit op :
  whole db m v c d l transit → submissions (outputs c) < max_u64 → at_work op → knows d c →
  step_keeps (known d) (honest d) c op.
Proof.
  intros H Hlt Hw Hk. destruct op; try done. cbn [step_keeps]. intros result rest op value Er Eop Ev.
  destruct (next_answer v c d m l transit result rest op _ H Hlt Er Eop Ev) as (task & Hex & Hm & Hu).
  pose proof (kp_named _ _ _ Hk _ _ Eop) as Hn. unfold named in Hn.
  assert (∀ r, value = OneCommand r ∨ value = OptionalCommand (Some r) →
    (honest d → ∃ t, TaskSubmitted (cd_operation_id result) t true ∈ outputs c ∧ task_command t = about (o_context op)) →
    is_Some (task_command task) → stands (known d) (honest d) (o_context op) r) as Hst.
  { intros r Hr Hname [i Hi].
    assert (honest d → about (o_context op) = Some (c_command_id r)) as Ha.
    { intros Hh. destruct (Hname Hh) as (t & ->%Hu & <-). rewrite Hi. f_equal. symmetry.
      apply (Hh task i r Hi). destruct Hr as [->| ->]; auto. }
    split; [|exact Ha]. intros Hkept r0 Hr0. unfold kept in Hkept. rewrite Hr0 in Hkept.
    destruct Hkept as (id & x & Hs & _ & _ & _ & Hid). apply (known_given d _ _ id); [done|right; eauto|].
    intros Hh. specialize (Ha Hh). unfold about in Ha. rewrite Hr0 in Ha. cbn in Ha. injection Ha as <-. auto. }
  unfold answer_ok. unfold matches in Hm. destruct (o_kind op) eqn:Ek, value as [|[r|]|r| |]; try done.
  - apply Hst; [auto|exact Hn|]. by destruct task.
  - intros Hoc. assert (matches op task) as Hm' by (unfold matches; by rewrite Ek).
    destruct (insertion_answer d op r task Hex Hm' Ek Hoc) as (record & Hi & Eid & Htype & Hpayload).
    apply (known_given d _ _ (c_command_id record)); [left; by exists record, r|right; eauto 6|done].
  - apply Hst; [auto|exact Hn|]. by destruct task.
Qed.

(** What the command service sends from one state of the process to another, and keeps. *)
Definition sent d (c c' : CommandService) : Prop :=
  knows d c → knows d c' ∧ emits (justified d) c c'.
#[export] Instance sent_preorder d : PreOrder (sent d).
Proof.
  split; [intros c H; split; [done|by apply emits_refl]|].
  intros a b c Hab Hbc H. destruct (Hab H) as [Hb E]. destruct (Hbc Hb) as [Hc E'].
  split; [done|]. by eapply emits_trans.
Qed.

Lemma silent_sent d c op : passive op → sent d c (command_step (command_env f) cfg c op).
Proof.
  intros [Ho Hw] H. split.
  - apply keeps_step; [apply known_record|done|]. by destruct op.
  - eapply emits_impl; [apply quiet_justified|by apply quiet_step].
Qed.

Lemma recovers_justified d c now o : knows d c → recovers cfg c now o → justified d o.
Proof.
  intros Hk [Ho|(id & context & r & device & Ha & Hc & _ & _ & _ & _ & Hs)]; [by apply quiet_justified|].
  apply (kp_active _ _ _ Hk) in Ha as [Ha _]. destruct Hs as (r' & device' & p & token & a & Hr & Hd & Hp & ->). right.
  unfold kept in Ha. rewrite Hr, Hc in Ha. destruct Ha as (i & x & Hs & Hx & Eid & Edev & Hi).
  exists (x_parsed context), i, x, device', p. rewrite Edev, Eid, Hc. by split_and!.
Qed.

Lemma sending_sent v c d m l transit op :
  whole db m v c d l transit → submissions (outputs c) < max_u64 → at_work op →
  sent d c (command_step (command_env f) cfg c op).
Proof.
  intros H Hlt Hw. destruct (decide (sends_nothing op)) as [Hop|Hop]; [by apply silent_sent|].
  intros Hk. split.
  { apply keeps_step; [apply known_record|done|]. by eapply answers_known. }
  destruct op; try (by destruct Hop); cbn [command_step].
  - eapply emits_impl; [|apply emits_one]. intros o. by eapply inserts_justified.
  - eapply emits_impl; [|apply emits_housekeeping]. intros o. by apply recovers_justified.
  - eapply emits_impl; [|apply emits_online]. intros o. by apply recovers_justified.
Qed.

Lemma operated_submissions c c' :
  operated f conf c c' → submissions (outputs c) <= submissions (outputs c').
Proof.
  intros [ops ->]. revert c. induction ops as [|op ops IH]; intros c; [done|]. cbn [command_run foldl].
  etrans; [|apply IH]. destruct (command_step_follows (command_env f) cfg c op) as (new & -> & _).
  unfold submissions. rewrite List.filter_app, length_app. lia.
Qed.

(** The database thread within a step. *)
Lemma moves_statements R s u :
  thread_ok db (database (bundle s)) → configuration s = conf → moves db conf R s u →
  statements (store (database (bundle s))) `prefix_of` statements (store (database (bundle u))).
Proof.
  intros Hok Hc H. destruct (H Hc) as (_ & _ & _ & ops & ->). clear H. revert Hok.
  generalize (database (bundle s)). induction ops as [|op ops IH]; intros d Hok; [done|].
  etrans; [by eapply turn_statements|]. by apply IH, turn_ok.
Qed.

Lemma keeps_later d d' c :
  statements (store d) `prefix_of` statements (store d') → knows d c → knows d' c.
Proof.
  intros Hp [H1 H2 H3 H4 H5]. pose proof (honest_later _ _ Hp) as Hh.
  assert (∀ x, kept (known d) x → kept (known d') x) as Hx.
  { intros x. unfold kept. destruct (x_record x); [by apply known_later|done]. }
  split; [apply (map_Forall_impl _ _ _ H1)|apply (map_Forall_impl _ _ _ H2)|
    apply (map_Forall_impl _ _ _ H3)|apply (map_Forall_impl _ _ _ H4)|apply (map_Forall_impl _ _ _ H5)];
    intros k x.
  - intros [Hk Hi]. split; [by apply Hx|exact Hi].
  - intros H. exact (Hx _ H).
  - intros [Hk Hi]. split; [by apply Hx|]. intros Hd. by apply Hi, Hh.
  - unfold kept_operation. destruct (o_kind x); auto.
  - unfold named. destruct (o_kind x); try done; intros Hn Hd; by apply Hn, Hh.
Qed.

(** Everything the command service has sent is justified by what the database did. *)
Lemma run_justified actions : ∀ s t,
  process_ok db s → configuration s = conf → knows (database (bundle s)) (command_service (bundle s)) →
  Forall (justified (database (bundle s))) (outputs (command_service (bundle s))) →
  run db mq system_clock f s actions = Some t →
  submissions (outputs (command_service (bundle t))) < max_u64 →
  Forall (justified (database (bundle t))) (outputs (command_service (bundle t))).
Proof.
  induction actions as [|a actions IH]; intros s t Hok Hc Hk Hj Hr Hlt; [by simplify_eq/=|].
  assert (submissions (outputs (command_service (bundle s))) < max_u64) as Hs.
  { destruct (moves_run db mq system_clock f conf _ _ _ Hr Hc) as (_ & _ & Ho & _).
    apply operated_submissions in Ho. lia. }
  cbn [run] in Hr. apply bind_Some in Hr as (u & Hu & Ht).
  assert (moves db conf (sent (database (bundle s))) s u) as Hm.
  { eapply moves_step; [apply _|intros c op; apply silent_sent| |exact Hu].
    intros _ op. by eapply sending_sent. }
  pose proof (moves_statements _ s u (wh_thread _ _ _ _ _ _ _ Hok) Hc Hm) as Hst.
  destruct (Hm Hc) as (Hcu & _ & Hsent & _). destruct (Hsent Hk) as [Hku (new & En & Hn)].
  apply (IH u t); [by eapply step_ok|done|by eapply keeps_later| |done|done].
  rewrite En. apply Forall_app. split; [eapply Forall_impl; [exact Hj|]|eapply Forall_impl; [exact Hn|]];
    intros o; by apply justified_later.
Qed.
End Sent.

Section Theorems.
#[local] Set Default Proof Using "JL MO TO Type*".
Context `{JL : JsonLib, MO : MapOrder, TO : TokenOrder}.
Context (db : DatabaseEnvironment) (mq : MqttEnvironment) (system_clock : nat → TimePoint).
Context (f : Replies).
Context (c : AppConfig) (available : list Migration) (st : PostgresStore) (registry : DeviceRegistry).
Context (sources : SourceCatalog) (active : list CommandRecord).
Context (e : RuntimeExternalBridge) (client0 : MqttClient).
Abbreviation started := (start f c available st registry sources active e client0).
Abbreviation reach actions := (run db mq system_clock f started actions).

Lemma load_fields cfg s commands :
  operations_ (LoadActive cfg s commands) = operations_ s ∧
  next_operation_id_ (LoadActive cfg s commands) = next_operation_id_ s ∧
  database_results_ (LoadActive cfg s commands) = database_results_ s ∧
  (outputs (LoadActive cfg s commands) = outputs s ∨
   ∃ text, outputs (LoadActive cfg s commands) = outputs s ++ [Diagnosed text]).
Proof.
  unfold LoadActive. destruct (_ <? _)%nat; [split_and!; try done; right; by eexists|].
  assert (∀ r u, operations_ (load_command cfg u r) = operations_ u ∧
    next_operation_id_ (load_command cfg u r) = next_operation_id_ u ∧
    database_results_ (load_command cfg u r) = database_results_ u ∧
    outputs (load_command cfg u r) = outputs u) as Hone.
  { intros r u. unfold load_command. destruct (CatalogFind _ _); [|done]. by destruct (IsTerminal _). }
  revert s. induction commands as [|r commands IH]; intros s; [by split_and!; [..|left]|].
  cbn. destruct (IH (load_command cfg s r)) as (-> & -> & -> & H).
  destruct (Hone r s) as (-> & -> & -> & E). by rewrite E in H.
Qed.

Lemma start_ok : last_failure_kind_ st = kPermanent → process_ok db started.
Proof.
  intros Hk. unfold process_ok. cbn.
  set (d0 := MakeCommandService sources registry).
  destruct (load_fields (command_configuration c) d0 active) as (H1 & H2 & H3 & H4).
  assert (operations_ d0 = ∅ ∧ next_operation_id_ d0 = 1 ∧ database_results_ d0 = [] ∧
    outputs d0 = []) as (E1 & E2 & E3 & E4) by done.
  rewrite E1 in H1. rewrite E2 in H2. rewrite E3 in H3. rewrite E4 in H4. clearbody d0.
  split; cbn.
  - apply MakePostgresWorker_ok.
  - by apply thread_ok_start.
  - rewrite H2. by destruct H4 as [->|[text ->]].
  - intros id op. by rewrite H1, lookup_empty.
  - intros id task [?%elem_of_nil|[?%elem_of_nil|?]]; done.
  - rewrite H3. by intros r [?%elem_of_nil|?%elem_of_nil].
  - intros id x. by rewrite lookup_empty.
Qed.

Lemma reach_ok actions s :
  last_failure_kind_ st = kPermanent → reach actions = Some s → process_ok db s.
Proof. intros Hk H. eapply run_ok; [by apply start_ok|exact H]. Qed.

Lemma reach_components actions s :
  reach actions = Some s → moves db c (operated f c) started s.
Proof. apply moves_run. Qed.

(** The command service of a process, from the beginning of its own. *)
Lemma reach_commands actions s :
  reach actions = Some s →
  ∃ ops, command_service (bundle s) =
    command_run (command_env f) (command_configuration c) (MakeCommandService sources registry) ops.
Proof.
  intros H. destruct (reach_components actions s H eq_refl) as (_ & _ & [ops E] & _).
  exists ([OpLoadActive active; OpSetMqttAvailable false] ++ ops). rewrite E.
  unfold command_run. by rewrite foldl_app.
Qed.


(** C8: With all threads at work, no answer of the database gets lost: a command operation that is
    waited for is in a call about to be made, at the worker, or answered, unless the worker has
    given up or the command service is closed; when nothing is on its way, no operation is
    waited for. *)
Theorem operations_accounted actions s :
  last_failure_kind_ st = kPermanent → reach actions = Some s →
  let v := command_service (bundle s) in
  let w := worker (database (bundle s)) in
  (∀ id, awaited v id → accounted (todo (business s)) w (transit s) v id) ∧
  (submissions (outputs v) < max_u64 → ¬ gave_up w → CommandService.closed_ v = false →
   pending_ids (todo (business s)) = [] → command_ids w = [] → emitted_ids (transit s) = [] →
   database_results_ v = [] → CommandService.DatabaseIdle v = true).
Proof.
  intros Hk Hr v w. pose proof (reach_ok actions s Hk Hr) as H.
  assert (∀ id, awaited v id → accounted (todo (business s)) w (transit s) v id) as Ha.
  { intros id [op Hop]. by destruct (wh_operations _ _ _ _ _ _ _ H id op Hop). }
  split; [exact Ha|]. intros Hlt Hg Hc Ht Hw He Hd. destruct (reach_commands actions s Hr) as [ops E].
  fold v in E. destruct (ok_counted _ _ (ok_run (command_env f) (command_configuration c) sources registry ops))
    as (_ & Hout & _); [by rewrite <- E|]. rewrite <- E in Hout.
  unfold CommandService.DatabaseIdle. rewrite Hout. apply Z.eqb_eq.
  assert (operations_ v = ∅) as ->; [|done]. apply map_empty. intros id.
  destruct (operations_ v !! id) as [op|] eqn:Ho; [exfalso|done].
  destruct (Ha id) as [A|[A|[A|[A|[A|A]]]]]; [by exists op|..]; revert A.
  - rewrite Ht. apply not_elem_of_nil.
  - rewrite Hw. apply not_elem_of_nil.
  - rewrite He. apply not_elem_of_nil.
  - rewrite Hd. apply not_elem_of_nil.
  - done.
  - by rewrite Hc.
Qed.

(** C9: With all threads at work, a state write the device service waits for is never lost: for each
    column group it selects, it is in a call about to be made, at the worker at this revision or
    a later one, or answered, unless the worker has given up for good. *)
Theorem writes_accounted actions s id x col :
  last_failure_kind_ st = kPermanent → reach actions = Some s →
  submitted_ (service (bundle s)) !! id = Some x → selects x col = true →
  write_accounted (todo (business s)) (worker (database (bundle s))) (transit s) (service (bundle s))
    id col (w_revision x).
Proof.
  intros Hk Hr Hx Hs. pose proof (reach_ok actions s Hk Hr) as H.
  destruct (wh_writes _ _ _ _ _ _ _ H id x Hx) as [_ Hc]. by apply Hc.
Qed.

End Theorems.
(** ** A request goes through the process *)
Module Example.
#[local] Existing Instance codec_lib.
#[local] Instance hash_order : MapOrder := key_order.
#[local] Existing Instance MqttClientFacts.Example.order.

(** A database that stores the commands it is sent. *)
Definition database : DatabaseEnvironment := PostgresStoreFacts.Example.environment.
Definition broker : MqttEnvironment := MqttClientFacts.Example.environment.
(** Every reply is as good as it can be. *)
Definition replies : Replies :=
  {| provision_answer := λ _, true; write_answer := λ _, true; submit_answer := λ _, true;
     publish_answer := λ _, true; Process.steady_clock := λ n, Z.of_nat n;
     random_device := random sample_command_env |}.
Definition sample_client : MqttClient :=
  let c := (ConfigureBusinessMessages (ConfigureCommandPublishing MakeMqttClient true 8).2 true 65536).2 in
  client_step broker (ac_mqtt sample_config) c (EvConnect 0).
Abbreviation started :=
  (start replies sample_config [] PostgresStoreFacts.Example.store sample_directory sample_sources []
    MakeExternalBridge sample_client).
Abbreviation go actions := (run database broker (λ n, Z.of_nat n) replies started actions).

Definition arrives (message : InboundMessage) : Action :=
  Client (EvMessage (Some {| raw_topic := Some (m_topic message); raw_payload := Some (m_payload message);
                             raw_payloadlen := Z.of_nat (String.length (m_payload message)) |})
            (m_received_at message)) 0 0.
Definition registration : InboundMessage :=
  {| m_topic := "cns/d1/registration";
     m_payload := codec_dump (registration_json
       {| reg_device_id := "d1"; reg_status := kRegOnline; reg_school_name := Some "S";
          reg_dcdw_label := Some "A"; reg_device_type := kCnsBox; reg_capabilities := None;
          reg_product := None; reg_version := None |});
     m_received_at := 5 |}.
(** A turn of the business thread, long enough for all it has to do, and a job of the database thread. *)
Definition turn : list Action := replicate 40 (Business 0).
Definition job : list Action := replicate 3 (Database 0).
Definition asked : list Action := [MainThread Attach; MainThread CheckMqtt; arrives sample_request_message] ++ turn.
Definition inserting : list Action := asked ++ job ++ turn.
Definition sending : list Action := inserting ++ job ++ turn.
Definition registered : list Action := [MainThread Attach; arrives registration] ++ turn.

Definition reached (actions : list Action) : Process := default started (go actions).
Lemma go_reached actions : bool_decide (is_Some (go actions)) = true → go actions = Some (reached actions).
Proof. intros [s H]%bool_decide_eq_true. unfold reached. by rewrite H. Qed.
Abbreviation commands actions := (command_service (bundle (reached actions))).
(** The configuration command the device is sent. *)
Definition to_device (o : Output) : option string :=
  match o with
  | DevicePublish 1 topic payload true => if String.eqb topic "cns/d1/config/set" then Some payload else None
  | _ => None
  end.
Lemma to_device_spec o payload :
  to_device o = Some payload → o = DevicePublish 1 "cns/d1/config/set" payload true.
Proof.
  destruct o as [|[|[]|] topic text []| | |]; cbn; try done. destruct (String.eqb topic _) eqn:E; [|done].
  intros [= ->]. by apply String.eqb_eq in E as ->.
Qed.


Lemma operations_accounted_witness :
  (awaited (commands asked) 1 ∧
   accounted (todo (business (reached asked))) (worker (RuntimeBundle.database (bundle (reached asked))))
     (transit (reached asked)) (commands asked) 1) ∧
  CommandService.DatabaseIdle (commands sending) = true.
Proof.
  assert (go asked = Some (reached asked)) as Ha by (apply go_reached; vm_compute; reflexivity).
  assert (go sending = Some (reached sending)) as Hs by (apply go_reached; vm_compute; reflexivity).
  assert (awaited (commands asked) 1) as Hw by (vm_compute; by eexists).
  split; [split; [exact Hw|]|].
  - exact (proj1 (operations_accounted database broker (λ n, Z.of_nat n) replies sample_config []
      PostgresStoreFacts.Example.store sample_directory sample_sources [] MakeExternalBridge sample_client
      asked (reached asked) eq_refl Ha) 1 Hw).
  - apply (proj2 (operations_accounted database broker (λ n, Z.of_nat n) replies sample_config []
      PostgresStoreFacts.Example.store sample_directory sample_sources [] MakeExternalBridge sample_client
      sending (reached sending) eq_refl Hs)); try (vm_compute; reflexivity).
    intros (_ & H & _). revert H. vm_compute. discriminate.
Defined.

Lemma writes_accounted_witness :
  ∃ x, submitted_ (service (bundle (reached registered))) !! "d1" = Some x ∧
    write_accounted (todo (business (reached registered)))
      (worker (RuntimeBundle.database (bundle (reached registered)))) (transit (reached registered))
      (service (bundle (reached registered))) "d1" Metadata (w_revision x).
Proof.
  assert (go registered = Some (reached registered)) as Hr by (apply go_reached; vm_compute; reflexivity).
  assert (∃ x, submitted_ (service (bundle (reached registered))) !! "d1" = Some x ∧
    selects x Metadata = true) as (x & Hx & Hs) by (eexists; vm_compute; split; reflexivity).
  exists x. split; [exact Hx|].
  exact (writes_accounted database broker (λ n, Z.of_nat n) replies sample_config []
    PostgresStoreFacts.Example.store sample_directory sample_sources [] MakeExternalBridge sample_client
    registered (reached registered) "d1" x Metadata eq_refl Hr Hx Hs).
Defined.

End Example.

